(** * zerolist: circular doubly-linked list over interchangeable node stores

    A shallow embedding of [zerolist.c] / [zerolist.h].  The build-time
    switches of the header become the fields of a [config] record, node
    pointers are machine addresses ([Z], with [0] for NULL), and the memory
    that holds nodes is a finite map from addresses to node contents.  The
    answers of the external allocator (ZEROLIST_MALLOC, ZEROLIST_REALLOC)
    are inputs of the operations that call it. *)

From stdpp Require Import gmap list.
From Stdlib Require Import ZArith Lia.
Local Open Scope Z_scope.

(** ** Build configuration (the [#define] switches of zerolist.h) *)

Record config := {
  ZEROLIST_USE_MALLOC : bool;
  ZEROLIST_FAST_ALLOC : bool;
  ZEROLIST_SIZE_ENABLE : bool;
  ZEROLIST_STATIC_FALLBACK_MALLOC : bool;
  ZEROLIST_STATIC_DYNAMIC_EXPAND : bool;
  (** number of bits of ZEROLIST_TYPE (uint8_t, uint16_t, uint32_t) *)
  ZEROLIST_TYPE_BITS : Z;
  (** sizeof(zerolist_node_t), fixed by the platform *)
  _ZEROLIST_NODE_SIZE : Z
}.

(** The [#error] rules of the header, as a decidable check. *)
Definition config_ok (cfg : config) : bool :=
  negb (ZEROLIST_USE_MALLOC cfg && ZEROLIST_FAST_ALLOC cfg)
  && negb (ZEROLIST_USE_MALLOC cfg && ZEROLIST_STATIC_FALLBACK_MALLOC cfg)
  && negb (ZEROLIST_USE_MALLOC cfg && ZEROLIST_STATIC_DYNAMIC_EXPAND cfg)
  && negb (ZEROLIST_STATIC_DYNAMIC_EXPAND cfg && ZEROLIST_STATIC_FALLBACK_MALLOC cfg)
  && bool_decide (ZEROLIST_TYPE_BITS cfg ∈ [8; 16; 32])
  && (0 <? _ZEROLIST_NODE_SIZE cfg).

(** ** Results of running C code: a value, a fault (an access through a
    pointer that maps to no object), or an exhausted step budget. *)

Inductive res (A : Type) : Type :=
| Ok (a : A)
| Fault
| Timeout.
Arguments Ok {A} a.
Arguments Fault {A}.
Arguments Timeout {A}.

Definition rbind {A B : Type} (m : res A) (f : A → res B) : res B :=
  match m with
  | Ok a => f a
  | Fault => Fault
  | Timeout => Timeout
  end.

Notation "'let*' p := e 'in' k" := (rbind e (λ p, k))
  (at level 10, p pattern, e at level 200, k at level 200, only parsing).

(** ** Data model *)

Record zerolist_node_t := {
  data : Z;
  prev : Z;
  next : Z;
  in_use : bool;      (* flags.in_use *)
  index : Z           (* flags.index *)
}.

Record Zerolist := {
  size : Z;
  head : Z;
  tail : Z;
  node_buf : Z;
  max_nodes : Z;
  free_top : Z;
  free_stack : option (list Z)   (* None is the NULL pointer *)
}.

Record state := {
  lst : Zerolist;
  mem : gmap Z zerolist_node_t
}.

(** What the allocator answers during one call of a list operation. *)
Record allocator := {
  (** ZEROLIST_MALLOC of a node or of the node buffer; 0 is NULL *)
  env_malloc : Z;
  (** does the ZEROLIST_MALLOC of the free stack succeed *)
  env_malloc_stack : bool;
  (** ZEROLIST_REALLOC of the node buffer; 0 is NULL *)
  env_realloc : Z;
  (** does the ZEROLIST_REALLOC of the free stack succeed *)
  env_realloc_stack : bool;
  (** ZEROLIST_REALLOC of the node buffer during a rollback; 0 is NULL *)
  env_rollback : Z;
  (** contents of memory that was allocated and not yet written *)
  garbage : Z → zerolist_node_t
}.

Definition set_data (v : Z) (n : zerolist_node_t) : zerolist_node_t :=
  {| data := v; prev := prev n; next := next n; in_use := in_use n; index := index n |}.
Definition set_prev (v : Z) (n : zerolist_node_t) : zerolist_node_t :=
  {| data := data n; prev := v; next := next n; in_use := in_use n; index := index n |}.
Definition set_next (v : Z) (n : zerolist_node_t) : zerolist_node_t :=
  {| data := data n; prev := prev n; next := v; in_use := in_use n; index := index n |}.
Definition set_flags (u : bool) (i : Z) (n : zerolist_node_t) : zerolist_node_t :=
  {| data := data n; prev := prev n; next := next n; in_use := u; index := i |}.

Definition with_size (v : Z) (l : Zerolist) : Zerolist :=
  {| size := v; head := head l; tail := tail l; node_buf := node_buf l;
     max_nodes := max_nodes l; free_top := free_top l; free_stack := free_stack l |}.
Definition with_head (v : Z) (l : Zerolist) : Zerolist :=
  {| size := size l; head := v; tail := tail l; node_buf := node_buf l;
     max_nodes := max_nodes l; free_top := free_top l; free_stack := free_stack l |}.
Definition with_tail (v : Z) (l : Zerolist) : Zerolist :=
  {| size := size l; head := head l; tail := v; node_buf := node_buf l;
     max_nodes := max_nodes l; free_top := free_top l; free_stack := free_stack l |}.
Definition with_node_buf (v : Z) (l : Zerolist) : Zerolist :=
  {| size := size l; head := head l; tail := tail l; node_buf := v;
     max_nodes := max_nodes l; free_top := free_top l; free_stack := free_stack l |}.
Definition with_max_nodes (v : Z) (l : Zerolist) : Zerolist :=
  {| size := size l; head := head l; tail := tail l; node_buf := node_buf l;
     max_nodes := v; free_top := free_top l; free_stack := free_stack l |}.
Definition with_free_top (v : Z) (l : Zerolist) : Zerolist :=
  {| size := size l; head := head l; tail := tail l; node_buf := node_buf l;
     max_nodes := max_nodes l; free_top := v; free_stack := free_stack l |}.
Definition with_free_stack (v : option (list Z)) (l : Zerolist) : Zerolist :=
  {| size := size l; head := head l; tail := tail l; node_buf := node_buf l;
     max_nodes := max_nodes l; free_top := free_top l; free_stack := v |}.

Definition on_lst (f : Zerolist → Zerolist) (st : state) : state :=
  {| lst := f (lst st); mem := mem st |}.
Definition on_mem (f : gmap Z zerolist_node_t → gmap Z zerolist_node_t) (st : state) : state :=
  {| lst := lst st; mem := f (mem st) |}.

(** Reading and writing a node through a pointer. *)
Definition load (st : state) (p : Z) : res zerolist_node_t :=
  match mem st !! p with
  | Some n => Ok n
  | None => Fault
  end.

Definition update (p : Z) (f : zerolist_node_t → zerolist_node_t) (st : state) : res state :=
  match mem st !! p with
  | Some n => Ok (on_mem (<[p := f n]>) st)
  | None => Fault
  end.

(** [for (i = lo; n iterations; i++) body] *)
Fixpoint for_loop {S : Type} (n : nat) (i : Z) (body : Z → S → res S) (s : S) : res S :=
  match n with
  | O => Ok s
  | S n' => let* s' := body i s in for_loop n' (i + 1) body s'
  end.

Section Model.
Variable cfg : config.

Definition NODE_SIZE : Z := _ZEROLIST_NODE_SIZE cfg.

(** Conversion to ZEROLIST_TYPE, and [(ZEROLIST_TYPE)-1]. *)
Definition to_TYPE (x : Z) : Z := x mod 2 ^ ZEROLIST_TYPE_BITS cfg.
Definition TYPE_MAX : Z := 2 ^ ZEROLIST_TYPE_BITS cfg - 1.
(** The bit-field [flags.index] has one bit less than ZEROLIST_TYPE. *)
Definition to_index_field (x : Z) : Z := x mod 2 ^ (ZEROLIST_TYPE_BITS cfg - 1).

(** [&buf[i]] and [p - buf] on node pointers. *)
Definition slot (buf i : Z) : Z := buf + i * NODE_SIZE.
Definition ptr_diff (p buf : Z) : Z := (p - buf) ÷ NODE_SIZE.

(** *** The allocator's effect on memory *)

(** Releasing the [n] cells from [&buf[i]] on. *)
Fixpoint mem_free_from (buf i : Z) (n : nat) (m : gmap Z zerolist_node_t)
  : gmap Z zerolist_node_t :=
  match n with
  | O => m
  | S n' => delete (slot buf i) (mem_free_from buf (i + 1) n' m)
  end.

Definition mem_free_buf (buf n : Z) (m : gmap Z zerolist_node_t) : gmap Z zerolist_node_t :=
  mem_free_from buf 0 (Z.to_nat n) m.

(** Placing [cells] from [&buf[i]] on. *)
Fixpoint mem_write_from (buf i : Z) (cells : list zerolist_node_t) (m : gmap Z zerolist_node_t)
  : gmap Z zerolist_node_t :=
  match cells with
  | [] => m
  | c :: cells' => <[slot buf i := c]> (mem_write_from buf (i + 1) cells' m)
  end.

Definition mem_write_buf (buf : Z) (cells : list zerolist_node_t) (m : gmap Z zerolist_node_t)
  : gmap Z zerolist_node_t :=
  mem_write_from buf 0 cells m.

(** ZEROLIST_MALLOC(n * sizeof node) answered with [buf]. *)
Definition mem_malloc_buf (g : Z → zerolist_node_t) (buf n : Z) (m : gmap Z zerolist_node_t)
  : gmap Z zerolist_node_t :=
  mem_write_buf buf ((λ i, g (slot buf i)) <$> seqZ 0 n) m.

(** ZEROLIST_REALLOC of a buffer of [old_n] nodes at [old_buf] to [new_n]
    nodes, answered with [new_buf]: the first [min old_n new_n] cells keep
    their contents, the old block is released. *)
Definition mem_realloc_buf (g : Z → zerolist_node_t) (old_buf old_n new_buf new_n : Z)
    (m : gmap Z zerolist_node_t) : gmap Z zerolist_node_t :=
  let cells := (λ i, if i <? old_n
                     then default (g (slot new_buf i)) (m !! slot old_buf i)
                     else g (slot new_buf i)) <$> seqZ 0 new_n in
  mem_write_buf new_buf cells (mem_free_buf old_buf old_n m).

(** *** Node flag macros *)

Definition _ZEROLIST_NODE_IS_IN_USE (st : state) (node : Z) : res bool :=
  if node =? 0 then Ok false else let* n := load st node in Ok (in_use n).

Definition _ZEROLIST_NODE_SET_IN_USE (node idx : Z) (st : state) : res state :=
  if node =? 0 then Ok st else update node (set_flags true (to_index_field idx)) st.

Definition _ZERO_ZEROLIST_NODE_SET_IN_USE_SIMPLE (node : Z) (st : state) : res state :=
  if node =? 0 then Ok st else update node (set_flags true 0) st.

Definition _ZEROLIST_NODE_SET_FREE (node : Z) (st : state) : res state :=
  if node =? 0 then Ok st else update node (set_flags false 0) st.

(** *** Internal node management *)

Definition _zerolist_is_static_node (l : Zerolist) (node : Z) : bool :=
  if ZEROLIST_USE_MALLOC cfg then false
  else if (node_buf l =? 0) || (node =? 0) then false
  else
    let base := node_buf l in
    let addr := node in
    let end_ := base + max_nodes l * NODE_SIZE in
    (base <=? addr) && (addr <? end_).

Definition _zerolist_calc_node_index (l : Zerolist) (node : Z) : Z :=
  if (node =? 0) || (node_buf l =? 0) then 0
  else
    let base := node_buf l in
    let addr := node in
    if addr <? base then 0
    else to_TYPE ((addr - base) / NODE_SIZE).

(** [free_stack[i]] as an rvalue and as an lvalue. *)
Definition stack_get (l : Zerolist) (i : Z) : res Z :=
  match free_stack l with
  | None => Fault
  | Some stk =>
      if i <? 0 then Fault
      else match stk !! Z.to_nat i with
           | Some v => Ok v
           | None => Fault
           end
  end.

Definition stack_set (i v : Z) (l : Zerolist) : res Zerolist :=
  match free_stack l with
  | None => Fault
  | Some stk =>
      if (0 <=? i) && (i <? Z.of_nat (length stk))
      then Ok (with_free_stack (Some (<[Z.to_nat i := v]> stk)) l)
      else Fault
  end.

(** The allocation macros give [(node, idx)], or nothing when no slot is free. *)
Definition _ZEROLIST_ALLOC_FROM_STACK (st : state) : res (state * option (Z * Z)) :=
  let l := lst st in
  if 0 <? free_top l then
    let top := free_top l - 1 in
    let* idx := stack_get l top in
    Ok (on_lst (with_free_top top) st, Some (slot (node_buf l) idx, idx))
  else Ok (st, None).

Fixpoint search_free (st : state) (n : nat) (i : Z) : res (option (Z * Z)) :=
  match n with
  | O => Ok None
  | S n' =>
      let node := slot (node_buf (lst st)) i in
      let* u := _ZEROLIST_NODE_IS_IN_USE st node in
      if negb u then Ok (Some (node, i)) else search_free st n' (i + 1)
  end.

Definition _ZEROLIST_ALLOC_FROM_SEARCH (st : state) : res (state * option (Z * Z)) :=
  let* r := search_free st (Z.to_nat (max_nodes (lst st))) 0 in
  Ok (st, r).

Definition _ZEROLIST_TRY_ALLOC_STATIC (st : state) : res (state * option (Z * Z)) :=
  if ZEROLIST_FAST_ALLOC cfg then _ZEROLIST_ALLOC_FROM_STACK st
  else _ZEROLIST_ALLOC_FROM_SEARCH st.

Definition _ZEROLIST_FREE_TO_STACK (idx : Z) (st : state) : res state :=
  let l := lst st in
  if bool_decide (is_Some (free_stack l)) && (free_top l <? max_nodes l) then
    if idx <? max_nodes l then
      let* l' := stack_set (free_top l) idx l in
      Ok {| lst := with_free_top (to_TYPE (free_top l + 1)) l'; mem := mem st |}
    else Ok st
  else Ok st.

Definition _ZEROLIST_FREE_STATIC_NODE (node idx : Z) (st : state) : res state :=
  let* st := _ZEROLIST_NODE_SET_FREE node st in
  let* st := update node (set_data 0) st in
  let* st := update node (set_next node) st in
  let* st := update node (set_prev node) st in
  if ZEROLIST_FAST_ALLOC cfg then _ZEROLIST_FREE_TO_STACK idx st else Ok st.

(** ZEROLIST_FREE of one node. *)
Definition ZEROLIST_FREE (node : Z) (st : state) : res state :=
  match mem st !! node with
  | Some _ => Ok (on_mem (delete node) st)
  | None => Fault
  end.

(** *** Moving the node buffer *)

(** The do-while loop of [_zerolist_update_node_pointers]. *)
Fixpoint update_node_pointers_loop (fuel : nat) (old_buf new_buf new_size cur : Z) (st : state)
  : res state :=
  match fuel with
  | O => Timeout
  | S fuel' =>
      let cur_idx := to_TYPE (ptr_diff cur new_buf) in
      let* c := load st cur in
      let prev_idx := to_TYPE (ptr_diff (prev c) old_buf) in
      let next_idx := to_TYPE (ptr_diff (next c) old_buf) in
      let prev_idx := if new_size <=? prev_idx then cur_idx else prev_idx in
      let next_idx := if new_size <=? next_idx then cur_idx else next_idx in
      let* st := update cur (set_prev (slot new_buf prev_idx)) st in
      let* st := update cur (set_next (slot new_buf next_idx)) st in
      let* c := load st cur in
      let cur := next c in
      if cur =? head (lst st) then Ok st
      else update_node_pointers_loop fuel' old_buf new_buf new_size cur st
  end.

Definition _zerolist_update_node_pointers (fuel : nat) (old_buf new_buf old_size new_size : Z)
    (st : state) : res state :=
  let st := on_lst (with_node_buf new_buf) st in
  if (new_buf =? old_buf) || (head (lst st) =? 0) then Ok st
  else
    let head_idx := to_TYPE (ptr_diff (head (lst st)) old_buf) in
    let st := on_lst (with_head (slot new_buf head_idx)) st in
    update_node_pointers_loop fuel old_buf new_buf new_size (head (lst st)) st.

(** Gives the new state and whether the rollback succeeded. *)
Definition _zerolist_rollback_realloc (env : allocator) (fuel : nat)
    (new_buf old_buf old_size new_size : Z) (st : state) : res (state * bool) :=
  let rollback_buf := env_rollback env in
  if rollback_buf =? 0 then Ok (st, false)
  else
    let st := on_mem (mem_realloc_buf (garbage env) new_buf new_size rollback_buf old_size) st in
    let* st := (if negb (rollback_buf =? new_buf) && negb (head (lst st) =? 0)
          then _zerolist_update_node_pointers fuel new_buf rollback_buf new_size old_size st
          else Ok st) in
    Ok (on_lst (with_node_buf rollback_buf) st, true).

(** The free-stack array after ZEROLIST_REALLOC to [n] entries; new
    entries hold the index part of the garbage. *)
Definition stack_realloc (g : Z → zerolist_node_t) (n : Z) (stk : option (list Z)) : list Z :=
  let old := default [] stk in
  take (Z.to_nat n) old
  ++ ((λ i, index (g i)) <$> seqZ (Z.of_nat (length old)) (n - Z.of_nat (length old))).

Definition expand_init_slot (i : Z) (st : state) : res state :=
  let node := slot (node_buf (lst st)) i in
  let* st := update node (set_flags false (to_index_field i)) st in
  if ZEROLIST_FAST_ALLOC cfg then
    let* l' := stack_set (free_top (lst st)) i (lst st) in
    Ok {| lst := with_free_top (to_TYPE (free_top (lst st) + 1)) l'; mem := mem st |}
  else Ok st.

Definition _zerolist_expand_buffer (env : allocator) (fuel : nat) (new_size : Z) (st : state)
  : res (state * bool) :=
  if new_size <=? max_nodes (lst st) then Ok (st, false)
  else
    let old_buf := node_buf (lst st) in
    let old_size := max_nodes (lst st) in
    let new_buf := env_realloc env in
    if new_buf =? 0 then Ok (st, false)
    else
      let st := on_mem (mem_realloc_buf (garbage env) old_buf old_size new_buf new_size) st in
      let* st := _zerolist_update_node_pointers fuel old_buf new_buf old_size new_size st in
      if ZEROLIST_FAST_ALLOC cfg && negb (env_realloc_stack env) then
        let* (st, ok) := _zerolist_rollback_realloc env fuel new_buf old_buf old_size new_size st in
        Ok (if ok then st else on_lst (with_node_buf old_buf) st, false)
      else
        let st := if ZEROLIST_FAST_ALLOC cfg
                  then on_lst (λ l, with_free_stack
                                      (Some (stack_realloc (garbage env) new_size (free_stack l))) l) st
                  else st in
        let* st := for_loop (Z.to_nat (new_size - old_size)) old_size expand_init_slot st in
        Ok (on_lst (with_max_nodes new_size) st, true).

(** Lines 235-241 of [_zerolist_alloc_node]: the capacity to grow to, or
    nothing when the capacity is already [(ZEROLIST_TYPE)-1]. *)
Definition grow_request (max : Z) : option Z :=
  let new_size := to_TYPE (Z.shiftl max 1) in
  if new_size <=? max then
    if max =? TYPE_MAX then None else Some TYPE_MAX
  else Some new_size.

(** ZEROLIST_MALLOC of one node. *)
Definition malloc_node (env : allocator) (st : state) : state * Z :=
  let node := env_malloc env in
  if node =? 0 then (st, 0)
  else (on_mem (<[node := garbage env node]>) st, node).

Definition init_node (node idx : Z) (st : state) : res state :=
  let* st := update node (set_next node) st in
  let* st := update node (set_prev node) st in
  let* st := _ZEROLIST_NODE_SET_IN_USE node idx st in
  update node (set_data 0) st.

(** Lines 242-245 of [_zerolist_alloc_node]: what follows the call of
    [_zerolist_expand_buffer], given its result. *)
Definition alloc_after_expand (r : state * bool) : res (state * Z) :=
  let '(st, ok) := r in
  if negb ok then Ok (st, 0)
  else
    let* (st, r) := _ZEROLIST_TRY_ALLOC_STATIC st in
    match r with
    | Some (node, idx) => let* st := init_node node idx st in Ok (st, node)
    | None => Ok (st, 0)
    end.

(** Gives the new state and the node pointer (0 on failure). *)
Definition _zerolist_alloc_node (env : allocator) (fuel : nat) (st : state) : res (state * Z) :=
  if ZEROLIST_USE_MALLOC cfg then
    let '(st, node) := malloc_node env st in
    if node =? 0 then Ok (st, 0)
    else
      let* st := update node (set_next node) st in
      let* st := update node (set_prev node) st in
      let* st := update node (set_data 0) st in
      Ok (st, node)
  else if (node_buf (lst st) =? 0) || (max_nodes (lst st) =? 0) then Ok (st, 0)
  else
    let* (st, r) := _ZEROLIST_TRY_ALLOC_STATIC st in
    match r with
    | Some (node, idx) => let* st := init_node node idx st in Ok (st, node)
    | None =>
        if ZEROLIST_STATIC_DYNAMIC_EXPAND cfg then
          match grow_request (max_nodes (lst st)) with
          | None => Ok (st, 0)
          | Some new_size =>
              let* r := _zerolist_expand_buffer env fuel new_size st in
              alloc_after_expand r
          end
        else if ZEROLIST_STATIC_FALLBACK_MALLOC cfg then
          let '(st, node) := malloc_node env st in
          if node =? 0 then Ok (st, 0)
          else
            let* st := update node (set_next node) st in
            let* st := update node (set_prev node) st in
            let* st := _ZERO_ZEROLIST_NODE_SET_IN_USE_SIMPLE node st in
            let* st := update node (set_data 0) st in
            Ok (st, node)
        else Ok (st, 0)
    end.

Definition zerolist_free_node (node : Z) (st : state) : res state :=
  if node =? 0 then Ok st
  else if ZEROLIST_USE_MALLOC cfg then ZEROLIST_FREE node st
  else if ZEROLIST_STATIC_FALLBACK_MALLOC cfg then
    if _zerolist_is_static_node (lst st) node then
      let idx := _zerolist_calc_node_index (lst st) node in
      _ZEROLIST_FREE_STATIC_NODE node idx st
    else ZEROLIST_FREE node st
  else
    let idx := _zerolist_calc_node_index (lst st) node in
    _ZEROLIST_FREE_STATIC_NODE node idx st.

(** *** Initialisation *)

(** [memset(list, 0, sizeof(Zerolist))] *)
Definition zero_Zerolist : Zerolist :=
  {| size := 0; head := 0; tail := 0; node_buf := 0; max_nodes := 0;
     free_top := 0; free_stack := None |}.

Definition list_init_dynamic (st : state) : state * bool :=
  let st := on_lst (λ _, zero_Zerolist) st in
  let st := if ZEROLIST_SIZE_ENABLE cfg then on_lst (with_size 0) st else st in
  (st, true).

Definition init_slot (buf max : Z) (i : Z) (st : state) : res state :=
  let* st := (if ZEROLIST_FAST_ALLOC cfg
              then let* l := stack_set i (to_TYPE (max - 1 - i)) (lst st) in
                   Ok {| lst := l; mem := mem st |}
              else Ok st) in
  update (slot buf i) (set_flags false (to_index_field i)) st.

Definition zerolist_init_expand (buf : Z) (stk : option (list Z)) (max : Z) (st : state)
  : res state :=
  if (buf =? 0) || (max =? 0) then Ok st
  else
    let st := on_lst (with_head 0) st in
    let st := on_lst (with_node_buf buf) st in
    let st := on_lst (with_max_nodes max) st in
    let st := if ZEROLIST_SIZE_ENABLE cfg then on_lst (with_size 0) st else st in
    let st := if ZEROLIST_FAST_ALLOC cfg
              then on_lst (with_free_top max) (on_lst (with_free_stack stk) st)
              else st in
    for_loop (Z.to_nat max) 0 (init_slot buf max) st.

Definition list_init_dynamic_expand (env : allocator) (initial_size : Z) (st : state)
  : res (state * bool) :=
  if initial_size =? 0 then Ok (st, false)
  else
    let buf := env_malloc env in
    if buf =? 0 then Ok (st, false)
    else if ZEROLIST_FAST_ALLOC cfg && negb (env_malloc_stack env) then Ok (st, false)
    else
      let st := on_mem (mem_malloc_buf (garbage env) buf initial_size) st in
      let stk := if ZEROLIST_FAST_ALLOC cfg
                 then Some (stack_realloc (garbage env) initial_size None)
                 else None in
      let st := on_lst (with_head 0) st in
      let st := on_lst (with_node_buf buf) st in
      let st := on_lst (with_max_nodes initial_size) st in
      let st := if ZEROLIST_SIZE_ENABLE cfg then on_lst (with_size 0) st else st in
      let st := if ZEROLIST_FAST_ALLOC cfg
                then on_lst (with_free_top initial_size) (on_lst (with_free_stack stk) st)
                else st in
      let* st := for_loop (Z.to_nat initial_size) 0 (init_slot buf initial_size) st in
      Ok (st, true).

(** *** Insertion *)

Definition size_incr (st : state) : state :=
  if ZEROLIST_SIZE_ENABLE cfg then on_lst (λ l, with_size (to_TYPE (size l + 1)) l) st else st.
Definition size_decr (st : state) : state :=
  if ZEROLIST_SIZE_ENABLE cfg then on_lst (λ l, with_size (to_TYPE (size l - 1)) l) st else st.

(** Lines 742-775 of [_zerolist_insert_internal]: linking the acquired
    [node] into the ring. *)
Definition insert_link (node pos : Z) (before : bool) (st : state) : res (state * bool) :=
  if head (lst st) =? 0 then
    let st := on_lst (with_head node) st in
    let* st := update node (set_prev node) st in
    let* st := update node (set_next node) st in
    let st := if ZEROLIST_SIZE_ENABLE cfg then on_lst (with_size 1) st else st in
    Ok (st, true)
  else
    let* pos := (if pos =? 0
                 then if before then Ok (head (lst st))
                      else let* h := load st (head (lst st)) in Ok (prev h)
                 else Ok pos) in
    let* st :=
      (if before then
         let* p := load st pos in
         let* st := update node (set_prev (prev p)) st in
         let* st := update node (set_next pos) st in
         let* p := load st pos in
         let* st := update (prev p) (set_next node) st in
         let* st := update pos (set_prev node) st in
         Ok (if pos =? head (lst st) then on_lst (with_head node) st else st)
       else
         let* p := load st pos in
         let* st := update node (set_next (next p)) st in
         let* st := update node (set_prev pos) st in
         let* p := load st pos in
         let* st := update (next p) (set_prev node) st in
         update pos (set_next node) st) in
    Ok (size_incr st, true).

(** Lines 722-730: the index of [pos] in the node buffer, taken before
    the acquisition, and whether it is one. *)
Definition pos_index (l : Zerolist) (pos : Z) : Z * bool :=
  if ZEROLIST_STATIC_DYNAMIC_EXPAND cfg && negb (ZEROLIST_USE_MALLOC cfg)
     && negb (pos =? 0) && _zerolist_is_static_node l pos
  then (to_TYPE (ptr_diff pos (node_buf l)), true)
  else (0, false).

(** Lines 736-740: [pos] again after the acquisition, which may have
    moved the node buffer. *)
Definition pos_restore (l : Zerolist) (pos : Z) (pi : Z * bool) : Z :=
  if ZEROLIST_STATIC_DYNAMIC_EXPAND cfg && negb (ZEROLIST_USE_MALLOC cfg)
     && negb (pos =? 0) && snd pi && negb (_zerolist_is_static_node l pos)
  then slot (node_buf l) (fst pi)
  else pos.

Definition _zerolist_insert_internal (env : allocator) (fuel : nat) (pos data : Z) (before : bool)
    (st : state) : res (state * bool) :=
  let pi := pos_index (lst st) pos in
  let* (st, node) := _zerolist_alloc_node env fuel st in
  if node =? 0 then Ok (st, false)
  else
    let* st := update node (set_data data) st in
    let pos := pos_restore (lst st) pos pi in
    insert_link node pos before st.

Definition zerolist_push_front (env : allocator) (fuel : nat) (data : Z) (st : state)
  : res (state * bool) :=
  _zerolist_insert_internal env fuel (head (lst st)) data true st.

Definition zerolist_push_back (env : allocator) (fuel : nat) (data : Z) (st : state)
  : res (state * bool) :=
  _zerolist_insert_internal env fuel 0 data false st.

Fixpoint insert_before_loop (env : allocator) (fuel n : nat) (target_data new_data cur : Z)
    (st : state) : res (state * bool) :=
  match n with
  | O => Timeout
  | S n' =>
      let* c := load st cur in
      if data c =? target_data then _zerolist_insert_internal env fuel cur new_data true st
      else
        let cur := next c in
        if cur =? head (lst st) then Ok (st, false)
        else insert_before_loop env fuel n' target_data new_data cur st
  end.

Definition zerolist_insert_before (env : allocator) (fuel : nat) (target_data new_data : Z)
    (st : state) : res (state * bool) :=
  if head (lst st) =? 0 then Ok (st, false)
  else insert_before_loop env fuel fuel target_data new_data (head (lst st)) st.

(** *** Removal *)

Definition _zerolist_detach_node (cur : Z) (st : state) : res state :=
  if cur =? 0 then Ok st
  else
    let* c := load st cur in
    if next c =? cur then Ok (on_lst (with_head 0) st)
    else if (prev c =? 0) || (next c =? 0) then
      Ok (if cur =? head (lst st) then on_lst (with_head 0) st else st)
    else
      let* st := update (prev c) (set_next (next c)) st in
      let* c := load st cur in
      let* st := update (next c) (set_prev (prev c)) st in
      if cur =? head (lst st) then
        let* c := load st cur in
        Ok (on_lst (with_head (next c)) st)
      else Ok st.

(** The pop functions give the new state and the payload (0 for NULL). *)
Definition zerolist_pop_front (st : state) : res (state * Z) :=
  if head (lst st) =? 0 then Ok (st, 0)
  else
    let node := head (lst st) in
    let* n := load st node in
    let data := data n in
    let st := size_decr st in
    let* st := _zerolist_detach_node node st in
    let* st := zerolist_free_node node st in
    Ok (st, data).

Definition zerolist_pop_back (st : state) : res (state * Z) :=
  if head (lst st) =? 0 then Ok (st, 0)
  else
    let* h := load st (head (lst st)) in
    let node := prev h in
    let* n := load st node in
    let data := data n in
    let st := size_decr st in
    let* st := _zerolist_detach_node node st in
    let* st := zerolist_free_node node st in
    Ok (st, data).

(** [for (i = 0; i < index; ++i) { cur = cur->next; if (cur == head) return; }]
    gives the node reached, or nothing when the walk came back to head. *)
Fixpoint walk_index (st : state) (n : nat) (cur : Z) : res (option Z) :=
  match n with
  | O => Ok (Some cur)
  | S n' =>
      let* c := load st cur in
      let cur := next c in
      if cur =? head (lst st) then Ok None else walk_index st n' cur
  end.

Definition zerolist_pop_at (index : Z) (st : state) : res (state * Z) :=
  if head (lst st) =? 0 then Ok (st, 0)
  else if ZEROLIST_SIZE_ENABLE cfg && (size (lst st) <=? index) then Ok (st, 0)
  else
    let* r := walk_index st (Z.to_nat index) (head (lst st)) in
    match r with
    | None => Ok (st, 0)
    | Some cur =>
        let* c := load st cur in
        let data := data c in
        let* st := _zerolist_detach_node cur st in
        let st := size_decr st in
        let* st := zerolist_free_node cur st in
        Ok (st, data)
    end.

Definition zerolist_remove_at (index : Z) (st : state) : res (state * bool) :=
  if head (lst st) =? 0 then Ok (st, false)
  else if ZEROLIST_SIZE_ENABLE cfg && (size (lst st) <=? index) then Ok (st, false)
  else
    let* r := walk_index st (Z.to_nat index) (head (lst st)) in
    match r with
    | None => Ok (st, false)
    | Some cur =>
        let* st := _zerolist_detach_node cur st in
        let* st := zerolist_free_node cur st in
        Ok (size_decr st, true)
    end.

(** The two compilations of the scan of [zerolist_remove_ptr] and
    [zerolist_remove_if]: over the slots of the buffer, or along the ring. *)
Definition scan_slots : bool :=
  negb (ZEROLIST_USE_MALLOC cfg) && negb (ZEROLIST_STATIC_FALLBACK_MALLOC cfg).

Definition remove_node (node : Z) (st : state) : res (state * bool) :=
  let* st := _zerolist_detach_node node st in
  let* st := zerolist_free_node node st in
  Ok (size_decr st, true).

Fixpoint remove_slots_loop (matches : Z → bool) (n : nat) (i : Z) (st : state)
  : res (state * bool) :=
  match n with
  | O => Ok (st, false)
  | S n' =>
      let node := slot (node_buf (lst st)) i in
      let* u := _ZEROLIST_NODE_IS_IN_USE st node in
      let* hit := (if u then let* c := load st node in Ok (matches (data c)) else Ok false) in
      if hit then remove_node node st
      else remove_slots_loop matches n' (i + 1) st
  end.

Fixpoint remove_ring_loop (matches : Z → bool) (fuel : nat) (start cur : Z) (st : state)
  : res (state * bool) :=
  match fuel with
  | O => Timeout
  | S fuel' =>
      let* c := load st cur in
      if matches (data c) then remove_node cur st
      else
        let cur := next c in
        if cur =? 0 then Ok (st, false)
        else if cur =? start then Ok (st, false)
        else remove_ring_loop matches fuel' start cur st
  end.

Definition remove_matching (matches : Z → bool) (fuel : nat) (st : state) : res (state * bool) :=
  if scan_slots then
    remove_slots_loop matches (Z.to_nat (max_nodes (lst st))) 0 st
  else if head (lst st) =? 0 then Ok (st, false)
  else remove_ring_loop matches fuel (head (lst st)) (head (lst st)) st.

Definition zerolist_remove_ptr (fuel : nat) (data : Z) (st : state) : res (state * bool) :=
  if data =? 0 then Ok (st, false)
  else remove_matching (λ d, d =? data) fuel st.

(** [cmp_func] is [None] for a NULL function pointer. *)
Definition zerolist_remove_if (fuel : nat) (data : Z) (cmp_func : option (Z → Z → bool))
    (st : state) : res (state * bool) :=
  match cmp_func with
  | None => Ok (st, false)
  | Some cmp => remove_matching (λ d, cmp d data) fuel st
  end.

(** *** Traversal *)

Fixpoint foreach_slots (st : state) (n : nat) (i : Z) : res (list Z) :=
  match n with
  | O => Ok []
  | S n' =>
      let node := slot (node_buf (lst st)) i in
      let* u := _ZEROLIST_NODE_IS_IN_USE st node in
      let* here := (if u then let* c := load st node in Ok [data c] else Ok []) in
      let* rest := foreach_slots st n' (i + 1) in
      Ok (here ++ rest)
  end.

Fixpoint foreach_ring (st : state) (fuel : nat) (start cur : Z) : res (list Z) :=
  match fuel with
  | O => Timeout
  | S fuel' =>
      let* c := load st cur in
      let cur := next c in
      if (cur =? 0) || (cur =? start) then Ok [data c]
      else let* rest := foreach_ring st fuel' start cur in Ok (data c :: rest)
  end.

(** [zerolist_foreach] with a callback that records the payloads it is given. *)
Definition zerolist_foreach (fuel : nat) (st : state) : res (list Z) :=
  if scan_slots then foreach_slots st (Z.to_nat (max_nodes (lst st))) 0
  else if head (lst st) =? 0 then Ok []
  else foreach_ring st fuel (head (lst st)) (head (lst st)).

(** The macro ZEROLIST_FOR_EACH with a body that records [node_var->data]. *)
Fixpoint FOR_EACH_loop (st : state) (fuel : nat) (first node_var : Z) : res (list Z) :=
  match fuel with
  | O => Timeout
  | S fuel' =>
      if node_var =? 0 then Ok []
      else
        let* c := load st node_var in
        let node_var := if next c =? first then 0 else next c in
        let* rest := FOR_EACH_loop st fuel' first node_var in
        Ok (data c :: rest)
  end.

Definition ZEROLIST_FOR_EACH (fuel : nat) (st : state) : res (list Z) :=
  if head (lst st) =? 0 then Ok []
  else FOR_EACH_loop st fuel (head (lst st)) (head (lst st)).

(** *** Queries *)

(** [zerolist_get_max_nodes]; the quotient in the branch for a zero
    capacity is taken on the difference of the two addresses, cast to
    ZEROLIST_TYPE. *)
Definition zerolist_get_max_nodes (l : Zerolist) : Z :=
  if ZEROLIST_USE_MALLOC cfg then 0
  else if node_buf l =? 0 then 0
  else if ZEROLIST_STATIC_DYNAMIC_EXPAND cfg
          && ((max_nodes l =? 0) || (max_nodes l =? TYPE_MAX))
  then
    if max_nodes l =? 0
    then to_TYPE (to_TYPE (slot (node_buf l) (max_nodes l) - node_buf l) ÷ NODE_SIZE)
    else 0
  else max_nodes l.

(** [for (i = 0; i < index; ++i) { cur = cur->next; if (!cur) return NULL; }]
    gives the node reached, or nothing when a [next] was NULL. *)
Fixpoint at_loop (st : state) (n : nat) (cur : Z) : res (option Z) :=
  match n with
  | O => Ok (Some cur)
  | S n' =>
      let* c := load st cur in
      let cur := next c in
      if cur =? 0 then Ok None else at_loop st n' cur
  end.

(** [zerolist_at] gives the payload (0 for NULL). *)
Definition zerolist_at (index : Z) (st : state) : res Z :=
  if head (lst st) =? 0 then Ok 0
  else if ZEROLIST_SIZE_ENABLE cfg && (size (lst st) <=? index) then Ok 0
  else
    let* r := at_loop st (Z.to_nat index) (head (lst st)) in
    match r with
    | None => Ok 0
    | Some cur => let* c := load st cur in Ok (data c)
    end.

(** The scan over the slots of the buffer (_ZEROLIST_FOREACH_NODE_STATIC
    with a body that returns the node whose payload matches, and the loop of
    [zerolist_search] in the same builds); gives the node, 0 for NULL. *)
Fixpoint find_slots (matches : Z → bool) (st : state) (n : nat) (i : Z) : res Z :=
  match n with
  | O => Ok 0
  | S n' =>
      let node := slot (node_buf (lst st)) i in
      let* u := _ZEROLIST_NODE_IS_IN_USE st node in
      let* hit := (if u then let* c := load st node in Ok (matches (data c)) else Ok false) in
      if hit then Ok node else find_slots matches st n' (i + 1)
  end.

(** The walk along the ring (_ZEROLIST_FOREACH_NODE_DYNAMIC with the same
    body, and the do-while of [zerolist_search] without cached size). *)
Fixpoint find_ring (matches : Z → bool) (st : state) (fuel : nat) (start cur : Z) : res Z :=
  match fuel with
  | O => Timeout
  | S fuel' =>
      let* c := load st cur in
      if matches (data c) then Ok cur
      else
        let cur := next c in
        if cur =? 0 then Ok 0
        else if cur =? start then Ok 0
        else find_ring matches st fuel' start cur
  end.

(** [while (remaining--)] of [zerolist_search] with cached size. *)
Fixpoint search_counted (matches : Z → bool) (st : state) (remaining : nat) (cur : Z) : res Z :=
  match remaining with
  | O => Ok 0
  | S remaining' =>
      let* c := load st cur in
      if matches (data c) then Ok cur
      else
        let cur := next c in
        if cur =? 0 then Ok 0 else search_counted matches st remaining' cur
  end.

Definition zerolist_find (fuel : nat) (target_addr : Z) (st : state) : res Z :=
  if scan_slots then find_slots (λ d, d =? target_addr) st (Z.to_nat (max_nodes (lst st))) 0
  else if head (lst st) =? 0 then Ok 0
  else find_ring (λ d, d =? target_addr) st fuel (head (lst st)) (head (lst st)).

(** [cmp_func] is [None] for a NULL function pointer. *)
Definition zerolist_search (fuel : nat) (target_data : Z) (cmp_func : option (Z → Z → bool))
    (st : state) : res Z :=
  match cmp_func with
  | None => Ok 0
  | Some cmp =>
      if scan_slots then
        find_slots (λ d, cmp d target_data) st (Z.to_nat (max_nodes (lst st))) 0
      else if head (lst st) =? 0 then Ok 0
      else if ZEROLIST_SIZE_ENABLE cfg then
        search_counted (λ d, cmp d target_data) st (Z.to_nat (size (lst st))) (head (lst st))
      else find_ring (λ d, cmp d target_data) st fuel (head (lst st)) (head (lst st))
  end.

(** *** Utilities *)

Fixpoint reverse_loop (fuel : nat) (cur : Z) (st : state) : res state :=
  match fuel with
  | O => Timeout
  | S fuel' =>
      let* c := load st cur in
      let tmp := next c in
      let* st := update cur (set_next (prev c)) st in
      let* st := update cur (set_prev tmp) st in
      let cur := tmp in
      if cur =? head (lst st) then Ok st else reverse_loop fuel' cur st
  end.

Definition zerolist_reverse (fuel : nat) (st : state) : res state :=
  if head (lst st) =? 0 then Ok st
  else
    let* h := load st (head (lst st)) in
    if next h =? head (lst st) then Ok st
    else
      let cur := head (lst st) in
      let old_tail := prev h in
      let* st := reverse_loop fuel cur st in
      Ok (on_lst (with_head old_tail) st).

Definition clear_slot (i : Z) (st : state) : res state :=
  let node := slot (node_buf (lst st)) i in
  let* st := _ZEROLIST_NODE_SET_FREE node st in
  let* st := update node (set_prev node) st in
  let* st := update node (set_next node) st in
  update node (set_data 0) st.

Fixpoint clear_ring (fuel : nat) (cur : Z) (st : state) : res state :=
  match fuel with
  | O => Timeout
  | S fuel' =>
      if cur =? 0 then Ok st
      else
        let* c := load st cur in
        let next := next c in
        let* st := zerolist_free_node cur st in
        clear_ring fuel' (if next =? head (lst st) then 0 else next) st
  end.

Definition zerolist_clear (fuel : nat) (st : state) : res state :=
  let* st := (if scan_slots
              then for_loop (Z.to_nat (max_nodes (lst st))) 0 clear_slot st
              else clear_ring fuel (head (lst st)) st) in
  let st := on_lst (with_head 0) st in
  Ok (if ZEROLIST_SIZE_ENABLE cfg then on_lst (with_size 0) st else st).

Fixpoint size_loop (st : state) (fuel : nat) (cnt cur : Z) : res Z :=
  match fuel with
  | O => Timeout
  | S fuel' =>
      let cnt := to_TYPE (cnt + 1) in
      let* c := load st cur in
      let cur := next c in
      if cur =? head (lst st) then Ok cnt else size_loop st fuel' cnt cur
  end.

Definition zerolist_size (fuel : nat) (st : state) : res Z :=
  if ZEROLIST_SIZE_ENABLE cfg then Ok (size (lst st))
  else if head (lst st) =? 0 then Ok 0
  else size_loop st fuel 0 (head (lst st)).

(** Lines 623-626 of [zerolist_shrink_buffer]: the capacity that the
    request is turned into. *)
Definition shrink_request (used_nodes new_size : Z) : Z :=
  if new_size <=? used_nodes then to_TYPE (used_nodes * 2) else new_size.

Definition shrink_push_free (i : Z) (st : state) : res state :=
  let* c := load st (slot (node_buf (lst st)) i) in
  if negb (in_use c) then
    let* l' := stack_set (free_top (lst st)) i (lst st) in
    Ok {| lst := with_free_top (to_TYPE (free_top (lst st) + 1)) l'; mem := mem st |}
  else Ok st.

Definition zerolist_shrink_buffer (env : allocator) (fuel : nat) (new_size : Z) (st : state)
  : res (state * bool) :=
  let* used_nodes := zerolist_size fuel st in
  let new_size := shrink_request used_nodes new_size in
  if max_nodes (lst st) <=? new_size then Ok (st, true)
  else
    let old_buf := node_buf (lst st) in
    let old_size := max_nodes (lst st) in
    let new_buf := env_realloc env in
    if new_buf =? 0 then Ok (st, false)
    else
      let st := on_mem (mem_realloc_buf (garbage env) old_buf old_size new_buf new_size) st in
      let* st := _zerolist_update_node_pointers fuel old_buf new_buf old_size new_size st in
      if ZEROLIST_FAST_ALLOC cfg then
        if negb (env_realloc_stack env) then
          let* (st, ok) := _zerolist_rollback_realloc env fuel new_buf old_buf old_size new_size st in
          Ok (if ok then st else on_lst (with_node_buf old_buf) st, false)
        else
          let st := on_lst (λ l, with_free_stack
                                   (Some (stack_realloc (garbage env) new_size (free_stack l))) l) st in
          let st := on_lst (with_free_top 0) st in
          let* st := for_loop (Z.to_nat new_size) 0 shrink_push_free st in
          Ok (on_lst (with_max_nodes new_size) st, true)
      else Ok (on_lst (with_max_nodes new_size) st, true).

(** *** Destruction and re-initialisation *)

Definition zerolist_destroy (fuel : nat) (st : state) : res state :=
  let* st := zerolist_clear fuel st in
  if ZEROLIST_USE_MALLOC cfg then Ok st
  else if ZEROLIST_STATIC_DYNAMIC_EXPAND cfg then
    let st := if node_buf (lst st) =? 0 then st
              else on_lst (with_node_buf 0)
                     (on_mem (mem_free_buf (node_buf (lst st)) (max_nodes (lst st))) st) in
    let st := if ZEROLIST_FAST_ALLOC cfg then on_lst (with_free_stack None) st else st in
    let st := on_lst (with_max_nodes 0) st in
    let st := on_lst (with_head 0) st in
    Ok (if ZEROLIST_SIZE_ENABLE cfg then on_lst (with_size 0) st else st)
  else
    Ok (if ZEROLIST_FAST_ALLOC cfg && bool_decide (is_Some (free_stack (lst st)))
        then on_lst (with_free_top 0) st
        else st).

Definition reinit_slot (i : Z) (st : state) : res state :=
  let* st := update (slot (node_buf (lst st)) i) (set_flags false (to_index_field i)) st in
  if ZEROLIST_FAST_ALLOC cfg then
    let* l' := stack_set (free_top (lst st)) i (lst st) in
    Ok {| lst := with_free_top (to_TYPE (free_top (lst st) + 1)) l'; mem := mem st |}
  else Ok st.

Definition zerolist_reinit (env : allocator) (initial_size : Z) (st : state) : res (state * bool) :=
  if ZEROLIST_USE_MALLOC cfg then Ok (list_init_dynamic st)
  else if ZEROLIST_STATIC_DYNAMIC_EXPAND cfg then
    if initial_size =? 0 then Ok (st, false)
    else list_init_dynamic_expand env initial_size st
  else if (node_buf (lst st) =? 0) || (max_nodes (lst st) =? 0) then Ok (st, false)
  else
    let st := on_lst (with_head 0) st in
    let st := on_lst (with_tail 0) st in
    let st := if ZEROLIST_SIZE_ENABLE cfg then on_lst (with_size 0) st else st in
    let* st :=
      (if ZEROLIST_FAST_ALLOC cfg then
         if bool_decide (is_Some (free_stack (lst st))) then
           for_loop (Z.to_nat (max_nodes (lst st))) 0 reinit_slot (on_lst (with_free_top 0) st)
         else Ok st
       else for_loop (Z.to_nat (max_nodes (lst st))) 0 reinit_slot st) in
    Ok (st, true).

End Model.


(** ** The ring of linked nodes

    [fwd m l] says that every node of [l] but the last has its [next]
    pointing at its successor in [l]; [bwd m l] that every node but the
    first has its [prev] pointing at its predecessor.  A ring is a
    duplicate-free list of non-NULL addresses that is linked both ways when
    its first element is repeated at the end. *)

Definition nxt (m : gmap Z zerolist_node_t) (p : Z) : option Z := next <$> m !! p.
Definition prv (m : gmap Z zerolist_node_t) (p : Z) : option Z := prev <$> m !! p.
Definition dat (m : gmap Z zerolist_node_t) (p : Z) : option Z := data <$> m !! p.

Fixpoint fwd (m : gmap Z zerolist_node_t) (l : list Z) : Prop :=
  match l with
  | p :: t => match t with
              | q :: _ => nxt m p = Some q ∧ fwd m t
              | [] => True
              end
  | [] => True
  end.

Fixpoint bwd (m : gmap Z zerolist_node_t) (l : list Z) : Prop :=
  match l with
  | p :: t => match t with
              | q :: _ => prv m q = Some p ∧ bwd m t
              | [] => True
              end
  | [] => True
  end.

Definition ring (m : gmap Z zerolist_node_t) (ps : list Z) : Prop :=
  NoDup ps ∧ (0 ∉ ps) ∧ fwd m (ps ++ [hd 0 ps]) ∧ bwd m (ps ++ [hd 0 ps]).

(** The list [st] holds the ring [ps], first element at [head]. *)
Definition holds (st : state) (ps : list Z) : Prop :=
  ring (mem st) ps ∧ head (lst st) = hd 0 ps.

(** The payloads of the nodes at [ps], in that order (0 for a missing node). *)
Definition payloads (m : gmap Z zerolist_node_t) (ps : list Z) : list Z :=
  map (λ p, default 0 (dat m p)) ps.

(** Two memories map the same addresses and agree on every node's
    payload and flags; only [prev] and [next] may differ. *)
Definition links_only (m m' : gmap Z zerolist_node_t) : Prop :=
  ∀ q, match m !! q, m' !! q with
       | Some a, Some b => data a = data b ∧ in_use a = in_use b ∧ index a = index b
       | None, None => True
       | _, _ => False
       end.

(** ** What the splices of the ring compute on memory *)

(** [node] linked in before [pos] (lines 754-757). *)
Definition splice_before (pos node : Z) (m : gmap Z zerolist_node_t) : gmap Z zerolist_node_t :=
  let pp := default 0 (prv m pos) in
  alter (set_prev node) pos
    (alter (set_next node) pp
       (alter (set_next pos) node
          (alter (set_prev pp) node m))).

(** [node] linked in after [pos] (lines 762-765). *)
Definition splice_after (pos node : Z) (m : gmap Z zerolist_node_t) : gmap Z zerolist_node_t :=
  let nn := default 0 (nxt m pos) in
  alter (set_next node) pos
    (alter (set_prev node) nn
       (alter (set_prev pos) node
          (alter (set_next nn) node m))).

(** [cur] taken out from between its neighbours (lines 835-836). *)
Definition unlink (cur : Z) (m : gmap Z zerolist_node_t) : gmap Z zerolist_node_t :=
  let pp := default 0 (prv m cur) in
  let nn := default 0 (nxt m cur) in
  alter (set_prev pp) nn (alter (set_next nn) pp m).

(** ** Insertion and removal on the sequence of nodes *)

Fixpoint ins_before (pos n : Z) (l : list Z) : list Z :=
  match l with
  | [] => []
  | x :: t => if x =? pos then n :: x :: t else x :: ins_before pos n t
  end.

Fixpoint ins_after (pos n : Z) (l : list Z) : list Z :=
  match l with
  | [] => []
  | x :: t => if x =? pos then x :: n :: t else x :: ins_after pos n t
  end.

(** Where [_zerolist_insert_internal] puts the node [n]: a NULL [pos]
    stands for head when inserting before, for the last node otherwise. *)
Definition inserted (before : bool) (pos n : Z) (ps : list Z) : list Z :=
  match ps with
  | [] => [n]
  | h :: _ =>
      if before then ins_before (if pos =? 0 then h else pos) n ps
      else ins_after (if pos =? 0 then List.last ps h else pos) n ps
  end.

Fixpoint without (c : Z) (l : list Z) : list Z :=
  match l with
  | [] => []
  | x :: t => if x =? c then t else x :: without c t
  end.

(** Two list headers agree on everything but [head] and [size]. *)
Definition same_store (l l' : Zerolist) : Prop :=
  node_buf l' = node_buf l ∧ max_nodes l' = max_nodes l ∧ free_top l' = free_top l
  ∧ free_stack l' = free_stack l.

(** ** Well-formed lists

    [store_inv cfg st live] relates the node store to the list [live] of
    nodes handed out and not yet released: they are mapped; in the arena
    builds every slot is mapped and flagged in use exactly when it is live,
    a live node is a slot of the arena or (with heap fallback) lies outside
    of the arena's address range, and the entries of the free stack below
    [free_top] are distinct slots that are not live. *)

Definition arena_slot (cfg : config) (l : Zerolist) (p : Z) : Prop :=
  ∃ i, 0 ≤ i < max_nodes l ∧ p = slot cfg (node_buf l) i.

Definition stack_inv (cfg : config) (st : state) (live : list Z) : Prop :=
  ∃ stk, free_stack (lst st) = Some stk
    ∧ 0 ≤ free_top (lst st) ≤ max_nodes (lst st)
    ∧ max_nodes (lst st) ≤ Z.of_nat (length stk)
    ∧ NoDup (take (Z.to_nat (free_top (lst st))) stk)
    ∧ ∀ idx, idx ∈ take (Z.to_nat (free_top (lst st))) stk →
        0 ≤ idx < max_nodes (lst st) ∧ slot cfg (node_buf (lst st)) idx ∉ live.

Definition arena_inv (cfg : config) (st : state) (live : list Z) : Prop :=
  0 < node_buf (lst st)
  ∧ 0 < max_nodes (lst st) ≤ TYPE_MAX cfg
  ∧ (∀ i, 0 ≤ i < max_nodes (lst st) →
       ∃ c, mem st !! slot cfg (node_buf (lst st)) i = Some c
            ∧ (in_use c = true ↔ slot cfg (node_buf (lst st)) i ∈ live))
  ∧ (∀ p, p ∈ live →
       arena_slot cfg (lst st) p
       ∨ (ZEROLIST_STATIC_FALLBACK_MALLOC cfg = true
          ∧ _zerolist_is_static_node cfg (lst st) p = false))
  ∧ (ZEROLIST_FAST_ALLOC cfg = true → stack_inv cfg st live).

Definition store_inv (cfg : config) (st : state) (live : list Z) : Prop :=
  (∀ p, p ∈ live → is_Some (mem st !! p))
  ∧ (ZEROLIST_USE_MALLOC cfg = false → arena_inv cfg st live).

(** The list holds the ring [ps], its cached size (when there is one) is
    the number of nodes, which fits the index type, and the store accounts
    for exactly the nodes of the ring. *)
Definition wf (cfg : config) (st : state) (ps : list Z) : Prop :=
  holds st ps
  ∧ (ZEROLIST_SIZE_ENABLE cfg = true → size (lst st) = Z.of_nat (length ps))
  ∧ Z.of_nat (length ps) ≤ TYPE_MAX cfg
  ∧ store_inv cfg st ps.

(** What an acquisition that gave the node [n] leaves behind: the ring
    [ps] has become [ps'] (the same nodes, moved along with the node buffer
    when it was moved), [n] is mapped and not in the ring, and the store
    accounts for the ring and [n]. *)
Definition alloc_post (cfg : config) (st st' : state) (ps ps' : list Z) (n : Z) : Prop :=
  length ps' = length ps
  ∧ holds st' ps'
  ∧ n ≠ 0 ∧ n ∉ ps' ∧ is_Some (mem st' !! n)
  ∧ store_inv cfg st' (n :: ps')
  ∧ size (lst st') = size (lst st)
  ∧ payloads (mem st') ps' = payloads (mem st) ps
  ∧ ∀ (i : nat) pos, ps !! i = Some pos →
      ps' !! i = Some (pos_restore cfg (lst st') pos (pos_index cfg (lst st) pos)).

(** Two memories map the same addresses and agree on the [in_use] flags. *)
Definition same_flags (m m' : gmap Z zerolist_node_t) : Prop :=
  ∀ q, (in_use <$> m' !! q) = (in_use <$> m !! q).

(** *** What is assumed of the allocator *)

(** A node from ZEROLIST_MALLOC is NULL, or fresh and outside of the arena. *)
Definition malloc_ok (cfg : config) (env : allocator) (st : state) : Prop :=
  env_malloc env = 0
  ∨ (0 < env_malloc env ∧ mem st !! env_malloc env = None
     ∧ _zerolist_is_static_node cfg (lst st) (env_malloc env) = false).

(** A block of [new_n] nodes from ZEROLIST_REALLOC of the block of [old_n]
    nodes at [old] is NULL, or at the same place, or apart from the old one. *)
Definition realloc_ok (cfg : config) (old old_n new_n b : Z) : Prop :=
  b = 0 ∨ b = old
  ∨ (0 < b ∧ (b + new_n * NODE_SIZE cfg ≤ old ∨ old + old_n * NODE_SIZE cfg ≤ b)).

(** The allocator answers as the C library would: single nodes and moved
    buffers are fresh, and a buffer is resized in place or moved apart. *)
Definition allocator_ok (cfg : config) (env : allocator) (st : state) : Prop :=
  malloc_ok cfg env st
  ∧ (∀ new_n, grow_request cfg (max_nodes (lst st)) = Some new_n →
       realloc_ok cfg (node_buf (lst st)) (max_nodes (lst st)) new_n (env_realloc env))
  ∧ 0 ≤ env_rollback env.

(** ** Ring closure *)

(** [k] steps along [f] starting at [p]. *)
Fixpoint follow (f : Z → option Z) (k : nat) (p : Z) : option Z :=
  match k with
  | O => Some p
  | S k' => match f p with
            | Some q => follow f k' q
            | None => None
            end
  end.

(** Following [next] from [head] exactly [size] times returns to [head],
    and so does following [prev]; said of lists that are not empty. *)
Definition closed (st : state) : Prop :=
  head (lst st) ≠ 0 →
  follow (nxt (mem st)) (Z.to_nat (size (lst st))) (head (lst st)) = Some (head (lst st))
  ∧ follow (prv (mem st)) (Z.to_nat (size (lst st))) (head (lst st)) = Some (head (lst st)).

(** The operations of the API that insert a node ... *)
Inductive insertion : Type :=
  | PushFront (data : Z)
  | PushBack (data : Z)
  | InsertBefore (target_data new_data : Z).

Definition run_insertion (cfg : config) (env : allocator) (fuel : nat) (op : insertion)
    (st : state) : res (state * bool) :=
  match op with
  | PushFront data => zerolist_push_front cfg env fuel data st
  | PushBack data => zerolist_push_back cfg env fuel data st
  | InsertBefore target_data new_data => zerolist_insert_before cfg env fuel target_data new_data st
  end.

(** ... and those that detach one; [index] is a ZEROLIST_TYPE. *)
Inductive detachment : Type :=
  | PopFront
  | PopBack
  | PopAt (index : N)
  | RemoveAt (index : N)
  | RemovePtr (data : Z)
  | RemoveIf (data : Z) (cmp_func : option (Z → Z → bool)).

Definition run_detachment (cfg : config) (fuel : nat) (op : detachment) (st : state) : res state :=
  match op with
  | PopFront => let* (st, _) := zerolist_pop_front cfg st in Ok st
  | PopBack => let* (st, _) := zerolist_pop_back cfg st in Ok st
  | PopAt index => let* (st, _) := zerolist_pop_at cfg (Z.of_N index) st in Ok st
  | RemoveAt index => let* (st, _) := zerolist_remove_at cfg (Z.of_N index) st in Ok st
  | RemovePtr data => let* (st, _) := zerolist_remove_ptr cfg fuel data st in Ok st
  | RemoveIf data cmp_func => let* (st, _) := zerolist_remove_if cfg fuel data cmp_func st in Ok st
  end.

(** ** Searching the ring *)

(** The payload of the node at [p] (0 for a missing node). *)
Definition payload (m : gmap Z zerolist_node_t) (p : Z) : Z := default 0 (dat m p).

(** The first node of [l] whose payload matches, 0 when there is none. *)
Definition first_match (m : gmap Z zerolist_node_t) (matches : Z → bool) (l : list Z) : Z :=
  default 0 (List.find (λ p, matches (payload m p)) l).

(** ** What moving the node buffer computes *)

(** The contents of a slot once released (_ZEROLIST_FREE_STATIC_NODE). *)
Definition freed_node (node : Z) : zerolist_node_t :=
  {| data := 0; prev := node; next := node; in_use := false; index := 0 |}.

(** The address in the buffer at [new_buf] that corresponds to [p] in the
    buffer at [old_buf]: same offset. *)
Definition rebase (old_buf new_buf p : Z) : Z := new_buf + (p - old_buf).

(** One turn of the loop of [_zerolist_update_node_pointers] on the node
    [c] found at [cur] (lines 511-527). *)
Definition rebase_links (cfg : config) (old_buf new_buf new_size cur : Z) (c : zerolist_node_t)
  : zerolist_node_t :=
  let cur_idx := to_TYPE cfg (ptr_diff cfg cur new_buf) in
  let prev_idx := to_TYPE cfg (ptr_diff cfg (prev c) old_buf) in
  let next_idx := to_TYPE cfg (ptr_diff cfg (next c) old_buf) in
  let prev_idx := if new_size <=? prev_idx then cur_idx else prev_idx in
  let next_idx := if new_size <=? next_idx then cur_idx else next_idx in
  set_next (slot cfg new_buf next_idx) (set_prev (slot cfg new_buf prev_idx) c).

Definition alter_each (f : Z → zerolist_node_t → zerolist_node_t) (ps : list Z)
    (m : gmap Z zerolist_node_t) : gmap Z zerolist_node_t :=
  foldr (λ p m, alter (f p) p m) m ps.

(** ** What [zerolist_reverse] computes *)

Definition swap_links (n : zerolist_node_t) : zerolist_node_t :=
  {| data := data n; prev := next n; next := prev n; in_use := in_use n; index := index n |}.

Definition alter_all (f : zerolist_node_t → zerolist_node_t) (ps : list Z)
    (m : gmap Z zerolist_node_t) : gmap Z zerolist_node_t :=
  foldr (alter f) m ps.

(** Every node of the ring [ps] has its links exchanged, and head moves to
    the last node of [ps]. *)
Definition reversed (ps : list Z) (st : state) : state :=
  on_lst (with_head (List.last ps 0)) (on_mem (alter_all swap_links ps) st).

(** ** Acquiring several nodes in a row *)

Fixpoint acquire_many (cfg : config) (env : allocator) (fuel : nat) (k : nat) (st : state)
  : res (state * list Z) :=
  match k with
  | O => Ok (st, [])
  | S k' =>
      let* (st, p) := _zerolist_alloc_node cfg env fuel st in
      let* (st, ps) := acquire_many cfg env fuel k' st in
      Ok (st, p :: ps)
  end.

(** The arena at [buf] has [n] slots, the slots [0 .. j-1] have been handed
    out, and the free stack holds [j, j+1, ..., n-1] from its top down. *)
Definition stack_ready (cfg : config) (buf n j : Z) (st : state) : Prop :=
  node_buf (lst st) = buf ∧ max_nodes (lst st) = n ∧ free_top (lst st) = n - j
  ∧ (∃ stk, free_stack (lst st) = Some stk
            ∧ n ≤ Z.of_nat (length stk)
            ∧ ∀ i, j ≤ i < n → stk !! Z.to_nat (n - 1 - i) = Some i)
  ∧ ∀ i, 0 ≤ i < n → is_Some (mem st !! slot cfg buf i).

(** ** Free-stack accounting *)

(** The number of slots of the arena whose [in_use] flag is set. *)
Definition live_count (cfg : config) (st : state) : Z :=
  Z.of_nat (length (filter (λ i, (in_use <$> mem st !! slot cfg (node_buf (lst st)) i) = Some true)
                      (seqZ 0 (max_nodes (lst st))))).

(** [free_top + live_count == capacity] *)
Definition accounted (cfg : config) (st : state) : bool :=
  free_top (lst st) + live_count cfg st =? max_nodes (lst st).

(** ** Configurations and states used as concrete instances *)

Definition mk_config (use_malloc fast size_enable fallback expand : bool) (bits : Z) : config :=
  {| ZEROLIST_USE_MALLOC := use_malloc; ZEROLIST_FAST_ALLOC := fast;
     ZEROLIST_SIZE_ENABLE := size_enable; ZEROLIST_STATIC_FALLBACK_MALLOC := fallback;
     ZEROLIST_STATIC_DYNAMIC_EXPAND := expand; ZEROLIST_TYPE_BITS := bits;
     _ZEROLIST_NODE_SIZE := 32 |}.

(** The header's defaults: growable arena, free stack, cached size, uint16_t. *)
Definition cfg_default : config := mk_config false true true false true 16.
(** Fixed arena with a free stack. *)
Definition cfg_fixed : config := mk_config false true true false false 16.
(** Fixed arena with a free stack and heap fallback. *)
Definition cfg_fallback : config := mk_config false true true true false 16.
(** Growable arena without cached size. *)
Definition cfg_nosize : config := mk_config false true false false true 16.
(** Growable arena, uint8_t indices. *)
Definition cfg_grow8 : config := mk_config false true true false true 8.
(** malloc per node, uint8_t size counter. *)
Definition cfg_malloc8 : config := mk_config true false true false false 8.

Definition zero_node : zerolist_node_t :=
  {| data := 0; prev := 0; next := 0; in_use := false; index := 0 |}.

Definition empty_state : state := {| lst := zero_Zerolist; mem := ∅ |}.

(** An allocator that puts the node buffer at [buf], moves it to [buf']
    when asked to resize it, and gives [node] for a single node. *)
Definition mk_allocator (buf buf' : Z) : allocator :=
  {| env_malloc := buf; env_malloc_stack := true; env_realloc := buf';
     env_realloc_stack := true; env_rollback := 0; garbage := λ _, zero_node |}.

(** The state of a successful run, the starting state otherwise. *)
Definition state_of {A : Type} (dflt : state) (r : res (state * A)) : state :=
  match r with
  | Ok (st, _) => st
  | _ => dflt
  end.

(** A growable list without cached size that holds three nodes. *)
Definition nosize3 : state :=
  let env := mk_allocator 4096 8192 in
  let s := state_of empty_state (list_init_dynamic_expand cfg_nosize env 4 empty_state) in
  let s := state_of s (zerolist_push_back cfg_nosize env 8 11 s) in
  let s := state_of s (zerolist_push_back cfg_nosize env 8 12 s) in
  state_of s (zerolist_push_back cfg_nosize env 8 13 s).

(** A static node buffer of [n] zeroed nodes at [buf]. *)
Definition static_buf (cfg : config) (buf n : Z) : state :=
  {| lst := zero_Zerolist; mem := mem_malloc_buf cfg (λ _, zero_node) buf n ∅ |}.

(** A fixed arena of three slots, initialised. *)
Definition fixed3 : state :=
  match zerolist_init_expand cfg_fixed 4096 (Some [0; 0; 0]) 3 (static_buf cfg_fixed 4096 3) with
  | Ok st => st
  | _ => empty_state
  end.

(** The same after pushing 11, 12, 13. *)
Definition fixed3_full : state :=
  let env := mk_allocator 0 0 in
  let s := state_of fixed3 (zerolist_push_back cfg_fixed env 8 11 fixed3) in
  let s := state_of s (zerolist_push_back cfg_fixed env 8 12 s) in
  state_of s (zerolist_push_back cfg_fixed env 8 13 s).

(** The heap-fallback scenario: an arena of two slots at 4096, payloads
    [a], [b] pushed into the arena and [c] into a heap node at 65536. *)
Definition fallback_pushes (a b c : Z) : res state :=
  let env := mk_allocator 65536 0 in
  let* s0 := zerolist_init_expand cfg_fallback 4096 (Some [0; 0]) 2
               (static_buf cfg_fallback 4096 2) in
  let* (s1, ok1) := zerolist_push_back cfg_fallback env 8 a s0 in
  let* (s2, ok2) := zerolist_push_back cfg_fallback env 8 b s1 in
  let* (s3, ok3) := zerolist_push_back cfg_fallback env 8 c s2 in
  if ok1 && ok2 && ok3 then Ok s3 else Fault.

(** [k] calls of [zerolist_push_back] with the payloads [d], [d+1], ... *)
Fixpoint push_many (cfg : config) (env : allocator) (fuel : nat) (k : nat) (d : Z) (st : state)
  : state :=
  match k with
  | O => st
  | S k' => push_many cfg env fuel k' (d + 1)
              (state_of st (zerolist_push_back cfg env fuel d st))
  end.

(** A growable arena with uint8_t indices: capacity 255, 200 nodes in use. *)
Definition grow8_200 : state :=
  let env := mk_allocator 4096 4096 in
  push_many cfg_grow8 env 0 200 1
    (state_of empty_state (list_init_dynamic_expand cfg_grow8 env 255 empty_state)).

(** The fixed arena of three slots after one push and a clear. *)
Definition fixed3_cleared : state :=
  let env := mk_allocator 0 0 in
  let s := state_of fixed3 (zerolist_push_back cfg_fixed env 8 11 fixed3) in
  match zerolist_clear cfg_fixed 8 s with
  | Ok s' => s'
  | _ => s
  end.

(** An exhausted growable arena whose capacity is the largest uint8_t. *)
Definition full255 : state :=
  {| lst := {| size := 255; head := 4096; tail := 0; node_buf := 4096; max_nodes := 255;
               free_top := 0; free_stack := Some (replicate 255 0) |};
     mem := ∅ |}.

(** [zerolist_push_back] of the payloads [ds] one after the other, as
    long as the calls answer true. *)
Fixpoint push_each (cfg : config) (env : allocator) (fuel : nat) (ds : list Z) (st : state)
  : res (state * bool) :=
  match ds with
  | [] => Ok (st, true)
  | d :: ds' =>
      let* (st, ok) := zerolist_push_back cfg env fuel d st in
      if ok then push_each cfg env fuel ds' st else Ok (st, false)
  end.

(** [k] calls of [zerolist_push_back] with the payloads [d], [d+1], ...,
    ZEROLIST_MALLOC giving the addresses [a], [a+32], ... *)
Fixpoint push_fresh (cfg : config) (fuel : nat) (k : nat) (a d : Z) (st : state) : state :=
  match k with
  | O => st
  | S k' => push_fresh cfg fuel k' (a + 32) (d + 1)
              (state_of st (zerolist_push_back cfg (mk_allocator a 0) fuel d st))
  end.

(** A list of heap nodes with a uint8_t size counter after 256 insertions,
    and after one more. *)
Definition malloc8_256 : state :=
  push_fresh cfg_malloc8 0 256 4096 1 (fst (list_init_dynamic cfg_malloc8 empty_state)).

Definition malloc8_257 : state :=
  state_of malloc8_256
    (zerolist_push_back cfg_malloc8 (mk_allocator (4096 + 32 * 256) 0) 0 257 malloc8_256).

(** The growable arena of the header's defaults with capacity 4 at 4096,
    empty and holding 11, 12, 13; its allocator moves the buffer to 8192. *)
Definition grow_env : allocator := mk_allocator 0 8192.

Definition grow0 : state :=
  state_of empty_state
    (list_init_dynamic_expand cfg_default (mk_allocator 4096 0) 4 empty_state).

Definition grow3 : state :=
  let s := state_of grow0 (zerolist_push_back cfg_default grow_env 8 11 grow0) in
  let s := state_of s (zerolist_push_back cfg_default grow_env 8 12 s) in
  state_of s (zerolist_push_back cfg_default grow_env 8 13 s).

(** A fixed arena of two slots with heap fallback, both slots taken by
    11 and 12; ZEROLIST_MALLOC gives the address 65536. *)
Definition heap_env : allocator := mk_allocator 65536 0.

Definition fallback0 : state :=
  match zerolist_init_expand cfg_fallback 4096 (Some [0; 0]) 2 (static_buf cfg_fallback 4096 2) with
  | Ok st => st
  | _ => empty_state
  end.

Definition fallback2 : state :=
  let s := state_of fallback0 (zerolist_push_back cfg_fallback heap_env 8 11 fallback0) in
  state_of s (zerolist_push_back cfg_fallback heap_env 8 12 s).


(** The same arena filled up with a fourth payload, 14. *)
Definition grow4 : state :=
  state_of grow3 (zerolist_push_back cfg_default grow_env 8 14 grow3).

(** An allocator that moves the node buffer to 8192, refuses to resize
    the stack array, and moves the buffer back to 4096 when asked to undo. *)
Definition rollback_env : allocator :=
  {| env_malloc := 0; env_malloc_stack := true; env_realloc := 8192;
     env_realloc_stack := false; env_rollback := 4096; garbage := λ _, zero_node |}.

(** The full arena after a fifth push that this allocator makes fail. *)
Definition grow4_rolled : state :=
  state_of grow4 (zerolist_push_back cfg_default rollback_env 8 15 grow4).


(** * Proofs *)

(** ** The index type *)

Lemma config_ok_bits cfg :
  config_ok cfg = true →
  ZEROLIST_TYPE_BITS cfg = 8 ∨ ZEROLIST_TYPE_BITS cfg = 16 ∨ ZEROLIST_TYPE_BITS cfg = 32.
Proof.
  unfold config_ok. rewrite !andb_true_iff. intros [[_ Hb] _].
  apply bool_decide_eq_true in Hb.
  rewrite !elem_of_cons in Hb. rewrite elem_of_nil in Hb. tauto.
Qed.

Lemma config_ok_node_size cfg : config_ok cfg = true → 0 < NODE_SIZE cfg.
Proof.
  unfold config_ok, NODE_SIZE. rewrite !andb_true_iff. intros [_ Hs]. lia.
Qed.

Lemma TYPE_MAX_pos cfg : config_ok cfg = true → 0 < TYPE_MAX cfg.
Proof.
  intros H. unfold TYPE_MAX.
  destruct (config_ok_bits cfg H) as [-> | [-> | ->]]; lia.
Qed.

Lemma to_TYPE_small cfg x : 0 ≤ x ≤ TYPE_MAX cfg → to_TYPE cfg x = x.
Proof. unfold to_TYPE, TYPE_MAX. intros. apply Z.mod_small. lia. Qed.

Lemma to_TYPE_range cfg x : config_ok cfg = true → 0 ≤ to_TYPE cfg x ≤ TYPE_MAX cfg.
Proof.
  intros H. unfold to_TYPE, TYPE_MAX.
  assert (0 < 2 ^ ZEROLIST_TYPE_BITS cfg)
    by (destruct (config_ok_bits cfg H) as [-> | [-> | ->]]; lia).
  pose proof (Z.mod_pos_bound x _ H0). lia.
Qed.

(** ** Doubling with saturation *)

Lemma grow_request_spec cfg m :
  config_ok cfg = true → 0 < m ≤ TYPE_MAX cfg →
  grow_request cfg m
  = if m =? TYPE_MAX cfg then None else Some (Z.min (2 * m) (TYPE_MAX cfg)).
Proof.
  intros Hc Hm. unfold grow_request.
  rewrite Z.shiftl_mul_pow2 by lia. change (2 ^ 1) with 2.
  unfold to_TYPE, TYPE_MAX in *.
  assert (Hp : 0 < 2 ^ ZEROLIST_TYPE_BITS cfg)
    by (destruct (config_ok_bits cfg Hc) as [-> | [-> | ->]]; lia).
  set (W := 2 ^ ZEROLIST_TYPE_BITS cfg) in *.
  destruct (Z_lt_ge_dec (m * 2) W) as [Hlt | Hge].
  - rewrite Z.mod_small by lia.
    destruct (m * 2 <=? m) eqn:E; [apply Z.leb_le in E; lia |].
    destruct (m =? W - 1) eqn:E2; [apply Z.eqb_eq in E2; lia |].
    f_equal. lia.
  - assert (Hmod : (m * 2) mod W = m * 2 - W).
    { symmetry. apply (Z.mod_unique _ _ 1); lia. }
    rewrite Hmod.
    destruct (m * 2 - W <=? m) eqn:E; [| apply Z.leb_gt in E; lia].
    destruct (m =? W - 1) eqn:E2; [reflexivity |].
    apply Z.eqb_neq in E2. f_equal. lia.
Qed.

(** C5.  In the growable configuration, when no slot of the arena is free,
    the capacity asked of the growth step is the old capacity doubled,
    capped at the largest value of the index type; and when the capacity is
    already that largest value the acquisition gives NULL, leaves the list as
    it was, and does not depend on what the allocator would have answered. *)
Theorem alloc_growth_saturates cfg env fuel st :
  config_ok cfg = true →
  ZEROLIST_USE_MALLOC cfg = false →
  ZEROLIST_STATIC_DYNAMIC_EXPAND cfg = true →
  node_buf (lst st) ≠ 0 →
  0 < max_nodes (lst st) ≤ TYPE_MAX cfg →
  _ZEROLIST_TRY_ALLOC_STATIC cfg st = Ok (st, None) →
  grow_request cfg (max_nodes (lst st))
  = (if max_nodes (lst st) =? TYPE_MAX cfg then None
     else Some (Z.min (2 * max_nodes (lst st)) (TYPE_MAX cfg)))
  ∧ (max_nodes (lst st) = TYPE_MAX cfg →
     _zerolist_alloc_node cfg env fuel st = Ok (st, 0))
  ∧ (max_nodes (lst st) ≠ TYPE_MAX cfg →
     _zerolist_alloc_node cfg env fuel st
     = rbind (_zerolist_expand_buffer cfg env fuel
                (Z.min (2 * max_nodes (lst st)) (TYPE_MAX cfg)) st)
             (alloc_after_expand cfg)).
Proof.
  intros Hc Hm He Hb Hmax Hfull.
  pose proof (grow_request_spec cfg _ Hc Hmax) as Hg.
  split; [exact Hg |].
  unfold _zerolist_alloc_node. rewrite Hm.
  destruct (node_buf (lst st) =? 0) eqn:E1; [apply Z.eqb_eq in E1; lia |].
  destruct (max_nodes (lst st) =? 0) eqn:E2; [apply Z.eqb_eq in E2; lia |].
  cbn [orb]. rewrite Hfull. cbn [rbind]. rewrite He, Hg.
  split; intros Hcase.
  - rewrite Hcase, Z.eqb_refl. reflexivity.
  - destruct (max_nodes (lst st) =? TYPE_MAX cfg) eqn:E3;
      [apply Z.eqb_eq in E3; lia | reflexivity].
Qed.

Lemma alloc_growth_saturates_witness :
  grow_request cfg_grow8 255 = None
  ∧ _zerolist_alloc_node cfg_grow8 (mk_allocator 4096 8192) 8 full255 = Ok (full255, 0).
Proof.
  assert (Hb : node_buf (lst full255) ≠ 0) by (vm_compute; discriminate).
  assert (Hm : 0 < max_nodes (lst full255) ≤ TYPE_MAX cfg_grow8) by (vm_compute; split; congruence).
  destruct (alloc_growth_saturates cfg_grow8 (mk_allocator 4096 8192) 8 full255
              eq_refl eq_refl eq_refl Hb Hm eq_refl) as (H1 & H2 & _).
  split; [exact H1 | apply H2; reflexivity].
Defined.

(** ** Removal by identity of the NULL payload *)

(** C10.  [zerolist_remove_ptr] with a NULL payload answers false and
    leaves the list and the memory exactly as they were, whatever the
    configuration and whatever the list holds; so a node whose payload is
    NULL stays in the ring. *)
Theorem zerolist_remove_ptr_null cfg fuel st :
  zerolist_remove_ptr cfg fuel 0 st = Ok (st, false).
Proof. reflexivity. Qed.


(** ** Reading and writing memory *)

Lemma load_Some st p n : mem st !! p = Some n → load st p = Ok n.
Proof. unfold load. intros ->. reflexivity. Qed.

Lemma update_Some st p f n :
  mem st !! p = Some n → update p f st = Ok (on_mem (<[p := f n]>) st).
Proof. unfold update. intros ->. reflexivity. Qed.

Lemma nxt_Some m p q : nxt m p = Some q → ∃ n, m !! p = Some n ∧ next n = q.
Proof.
  unfold nxt. destruct (m !! p) as [n |]; [| discriminate].
  cbn. intros [= <-]. eauto.
Qed.

Lemma prv_Some m p q : prv m p = Some q → ∃ n, m !! p = Some n ∧ prev n = q.
Proof.
  unfold prv. destruct (m !! p) as [n |]; [| discriminate].
  cbn. intros [= <-]. eauto.
Qed.

Lemma nxt_insert_ne m p q n : p ≠ q → nxt (<[p := n]> m) q = nxt m q.
Proof. intros. unfold nxt. by rewrite lookup_insert_ne. Qed.

Lemma prv_insert_ne m p q n : p ≠ q → prv (<[p := n]> m) q = prv m q.
Proof. intros. unfold prv. by rewrite lookup_insert_ne. Qed.

Lemma nxt_insert_eq m p n : nxt (<[p := n]> m) p = Some (next n).
Proof. unfold nxt. by rewrite lookup_insert_eq. Qed.

Lemma prv_insert_eq m p n : prv (<[p := n]> m) p = Some (prev n).
Proof. unfold prv. by rewrite lookup_insert_eq. Qed.

(** ** Linked paths *)

Lemma fwd_cons m p q l : fwd m (p :: q :: l) ↔ nxt m p = Some q ∧ fwd m (q :: l).
Proof. reflexivity. Qed.

Lemma bwd_cons m p q l : bwd m (p :: q :: l) ↔ prv m q = Some p ∧ bwd m (q :: l).
Proof. reflexivity. Qed.

Lemma fwd_app m l1 p l2 : fwd m (l1 ++ p :: l2) ↔ fwd m (l1 ++ [p]) ∧ fwd m (p :: l2).
Proof.
  induction l1 as [| a l1 IH]; cbn [app].
  - cbn. tauto.
  - destruct l1 as [| b l1].
    + cbn [app]. rewrite !fwd_cons. cbn. tauto.
    + cbn [app] in *. rewrite !fwd_cons. rewrite IH. tauto.
Qed.

Lemma bwd_app m l1 p l2 : bwd m (l1 ++ p :: l2) ↔ bwd m (l1 ++ [p]) ∧ bwd m (p :: l2).
Proof.
  induction l1 as [| a l1 IH]; cbn [app].
  - cbn. tauto.
  - destruct l1 as [| b l1].
    + cbn [app]. rewrite !bwd_cons. cbn. tauto.
    + cbn [app] in *. rewrite !bwd_cons. rewrite IH. tauto.
Qed.

Lemma fwd_snoc m l p q : fwd m (l ++ [p; q]) ↔ fwd m (l ++ [p]) ∧ nxt m p = Some q.
Proof. rewrite fwd_app. cbn. tauto. Qed.

Lemma bwd_snoc m l p q : bwd m (l ++ [p; q]) ↔ bwd m (l ++ [p]) ∧ prv m q = Some p.
Proof. rewrite bwd_app. cbn. tauto. Qed.

Lemma fwd_app_l m l1 l2 : fwd m (l1 ++ l2) → fwd m l1.
Proof.
  destruct l2 as [| x l2]; [by rewrite app_nil_r |].
  rewrite fwd_app. intros [H _]. revert H. clear.
  induction l1 as [| a l1 IH]; [done |].
  destruct l1 as [| b l1]; [done |].
  cbn [app]. rewrite !fwd_cons. intros [H1 H2]. split; [exact H1 | by apply IH].
Qed.

Lemma fwd_app_r m l1 l2 : fwd m (l1 ++ l2) → fwd m l2.
Proof.
  destruct l2 as [| x l2]; [done |]. rewrite fwd_app. tauto.
Qed.

Lemma bwd_app_l m l1 l2 : bwd m (l1 ++ l2) → bwd m l1.
Proof.
  destruct l2 as [| x l2]; [by rewrite app_nil_r |].
  rewrite bwd_app. intros [H _]. revert H. clear.
  induction l1 as [| a l1 IH]; [done |].
  destruct l1 as [| b l1]; [done |].
  cbn [app]. rewrite !bwd_cons. intros [H1 H2]. split; [exact H1 | by apply IH].
Qed.

Lemma bwd_app_r m l1 l2 : bwd m (l1 ++ l2) → bwd m l2.
Proof.
  destruct l2 as [| x l2]; [done |]. rewrite bwd_app. tauto.
Qed.

(** A path only depends on the [next] of its nodes but the last. *)
Lemma fwd_ext m m' l x :
  (∀ p, p ∈ l → nxt m' p = nxt m p) → fwd m (l ++ [x]) → fwd m' (l ++ [x]).
Proof.
  induction l as [| a l IH]; intros Hagree H; [exact I |].
  destruct l as [| b l].
  - cbn in *. rewrite Hagree by set_solver. tauto.
  - cbn [app] in *. rewrite fwd_cons in *. destruct H as [H1 H2]. split.
    + rewrite Hagree by set_solver. exact H1.
    + apply IH; [| exact H2]. intros p Hp. apply Hagree. set_solver.
Qed.

(** ... and on the [prev] of its nodes but the first. *)
Lemma bwd_ext m m' l x :
  (∀ p, p ∈ l → prv m' p = prv m p) → bwd m (x :: l) → bwd m' (x :: l).
Proof.
  revert x. induction l as [| a l IH]; intros x Hagree H; [exact I |].
  rewrite bwd_cons in *. destruct H as [H1 H2]. split.
  - rewrite Hagree by set_solver. exact H1.
  - apply IH; [| exact H2]. intros p Hp. apply Hagree. set_solver.
Qed.

Lemma fwd_ext_all m m' l :
  (∀ p, p ∈ l → nxt m' p = nxt m p) → fwd m l → fwd m' l.
Proof.
  destruct (decide (l = [])) as [-> | Hne]; [intros; exact I |].
  destruct (exists_last Hne) as (l0 & x & ->).
  intros Hagree. apply fwd_ext. intros p Hp. apply Hagree. set_solver.
Qed.

Lemma bwd_ext_all m m' l :
  (∀ p, p ∈ l → prv m' p = prv m p) → bwd m l → bwd m' l.
Proof.
  destruct l as [| x l]; [intros; exact I |].
  intros Hagree. apply bwd_ext. intros p Hp. apply Hagree. set_solver.
Qed.

(** Reading a path backwards exchanges the roles of [next] and [prev]. *)
Lemma fwd_rev m m' l :
  (∀ p, p ∈ l → nxt m' p = prv m p) → bwd m l → fwd m' (rev l).
Proof.
  induction l as [| a l IH]; intros Hsw H; [exact I |].
  destruct l as [| b l]; [exact I |].
  rewrite bwd_cons in H. destruct H as [H1 H2].
  change (rev (a :: b :: l)) with (rev (b :: l) ++ [a]).
  change (rev (b :: l)) with (rev l ++ [b]) in *.
  rewrite <- app_assoc. cbn [app]. rewrite fwd_snoc. split.
  - apply IH; [| exact H2]. intros p Hp. apply Hsw. set_solver.
  - rewrite Hsw by set_solver. exact H1.
Qed.

Lemma bwd_rev m m' l :
  (∀ p, p ∈ l → prv m' p = nxt m p) → fwd m l → bwd m' (rev l).
Proof.
  induction l as [| a l IH]; intros Hsw H; [exact I |].
  destruct l as [| b l]; [exact I |].
  rewrite fwd_cons in H. destruct H as [H1 H2].
  change (rev (a :: b :: l)) with (rev (b :: l) ++ [a]).
  change (rev (b :: l)) with (rev l ++ [b]) in *.
  rewrite <- app_assoc. cbn [app]. rewrite bwd_snoc. split.
  - apply IH; [| exact H2]. intros p Hp. apply Hsw. set_solver.
  - rewrite Hsw by set_solver. exact H1.
Qed.

(** Every node of a ring is mapped. *)
Lemma fwd_mapped m l x p : fwd m (l ++ [x]) → p ∈ l → is_Some (m !! p).
Proof.
  induction l as [| a l IH]; intros H Hp; [set_solver |].
  assert (Ha : is_Some (m !! a) ∧ fwd m (l ++ [x])).
  { destruct l as [| b l]; cbn [app] in H; rewrite fwd_cons in H; destruct H as [H1 H2];
      (split; [apply nxt_Some in H1 as (n & -> & _); eauto | exact H2]). }
  destruct Ha as [Ha Hl].
  apply elem_of_cons in Hp as [-> | Hp]; [exact Ha | by apply IH].
Qed.

Lemma ring_nil m : ring m [].
Proof. repeat split; [constructor | set_solver]. Qed.

Lemma ring_cons_unfold m h t :
  ring m (h :: t) ↔ NoDup (h :: t) ∧ (0 ∉ h :: t) ∧ fwd m (h :: t ++ [h]) ∧ bwd m (h :: t ++ [h]).
Proof. reflexivity. Qed.

Lemma ring_mapped m ps p : ring m ps → p ∈ ps → is_Some (m !! p).
Proof.
  intros H Hp. destruct ps as [| h t]; [set_solver |].
  apply ring_cons_unfold in H as (_ & _ & Hf & _); cbn [hd] in Hf.
  eapply (fwd_mapped m (h :: t)); eauto.
Qed.

(** The successor and predecessor of the first node of a ring. *)
Lemma ring_next_head m h t : ring m (h :: t) → nxt m h = Some (hd h t).
Proof.
  intros H. apply ring_cons_unfold in H as (_ & _ & Hf & _); cbn [hd] in Hf.
  destruct t; cbn in Hf; tauto.
Qed.

Lemma ring_prev_head m h t : ring m (h :: t) → prv m h = Some (List.last t h).
Proof.
  intros H. apply ring_cons_unfold in H as (_ & _ & _ & Hb); cbn [hd] in Hb.
  change (h :: t ++ [h]) with ((h :: t) ++ [h]) in Hb.
  destruct (exists_last (l := h :: t) ltac:(discriminate)) as (l0 & x & E).
  replace (List.last t h) with (List.last (h :: t) h) by (destruct t; reflexivity).
  rewrite E, last_last. rewrite E in Hb. rewrite <- app_assoc in Hb. cbn [app] in Hb.
  apply bwd_snoc in Hb. tauto.
Qed.

(** Rings can be rotated. *)
Lemma ring_rotate1 m h t : ring m (h :: t) → ring m (t ++ [h]).
Proof.
  intros H. destruct t as [| a t]; [exact H |].
  apply ring_cons_unfold in H as (Hnd & H0 & Hf & Hb); cbn [hd] in Hf, Hb.
  cbn [app]. apply ring_cons_unfold. repeat split.
  - apply NoDup_ListNoDup. apply NoDup_ListNoDup in Hnd.
    change (a :: t ++ [h]) with ((a :: t) ++ [h]).
    apply (Permutation.Permutation_NoDup (l := h :: a :: t)); [| exact Hnd].
    apply Permutation.Permutation_cons_append.
  - set_solver.
  - cbn [app] in Hf. rewrite fwd_cons in Hf. destruct Hf as [H1 H2].
    rewrite <- app_assoc.
    change (a :: t ++ [h] ++ [a]) with ((a :: t) ++ [h; a]).
    rewrite fwd_snoc. split; [exact H2 | exact H1].
  - cbn [app] in Hb. rewrite bwd_cons in Hb. destruct Hb as [H1 H2].
    rewrite <- app_assoc.
    change (a :: t ++ [h] ++ [a]) with ((a :: t) ++ [h; a]).
    rewrite bwd_snoc. split; [exact H2 | exact H1].
Qed.

Lemma ring_rotate m l1 l2 : ring m (l1 ++ l2) → ring m (l2 ++ l1).
Proof.
  revert l2. induction l1 as [| a l1 IH]; intros l2 H.
  - by rewrite app_nil_r.
  - cbn [app] in H. apply ring_rotate1 in H. rewrite <- app_assoc in H.
    apply IH in H. by rewrite <- app_assoc in H.
Qed.


(** ** Walking the ring by index *)

Lemma walk_index_path st h rest : ∀ cur n,
  head (lst st) = h → h ∉ rest → fwd (mem st) (cur :: rest ++ [h]) →
  walk_index st n cur
  = Ok (if decide (n ≤ length rest)%nat then Some (nth n (cur :: rest) 0) else None).
Proof.
  induction rest as [| r rest IH]; intros cur n Hh Hnotin Hf.
  - destruct n as [| n]; [reflexivity |].
    cbn [walk_index]. cbn in Hf. destruct Hf as [Hf _].
    apply nxt_Some in Hf as (c & Hc & Hn).
    rewrite (load_Some _ _ _ Hc). cbn [rbind]. rewrite Hn, Hh, Z.eqb_refl.
    reflexivity.
  - destruct n as [| n]; [reflexivity |].
    cbn [walk_index]. cbn [app] in Hf. rewrite fwd_cons in Hf. destruct Hf as [Hf Hrest].
    apply nxt_Some in Hf as (c & Hc & Hn).
    rewrite (load_Some _ _ _ Hc). cbn [rbind]. rewrite Hn, Hh.
    destruct (r =? h) eqn:E; [apply Z.eqb_eq in E; set_solver |].
    rewrite (IH r n Hh) by (set_solver || assumption).
    cbn [length nth]. repeat case_decide; try reflexivity; lia.
Qed.

Lemma walk_index_ring st ps n :
  holds st ps → ps ≠ [] →
  walk_index st n (head (lst st))
  = Ok (if decide (n < length ps)%nat then Some (nth n ps 0) else None).
Proof.
  intros [Hr Hh] Hne. destruct ps as [| h t]; [done |]. cbn [hd] in Hh.
  apply ring_cons_unfold in Hr as (Hnd & _ & Hf & _); cbn [hd] in Hf.
  apply NoDup_cons in Hnd as [Hnotin _].
  rewrite Hh. rewrite (walk_index_path st h t h n Hh Hnotin Hf).
  cbn [length]. repeat case_decide; try reflexivity; lia.
Qed.

(** C8.  [zerolist_pop_at] answers NULL and leaves the list and the memory
    as they were, without a fault, in each of these cases: the list is
    empty; the size is cached and the index is not below it; the size is
    not cached, the list holds a ring of nodes, and the index is not below
    the number of nodes (the walk comes back to head first). *)
Theorem zerolist_pop_at_rejects cfg st ps index :
  head (lst st) = 0
  ∨ (ZEROLIST_SIZE_ENABLE cfg = true ∧ size (lst st) ≤ index)
  ∨ (ZEROLIST_SIZE_ENABLE cfg = false ∧ holds st ps ∧ Z.of_nat (length ps) ≤ index) →
  zerolist_pop_at cfg index st = Ok (st, 0).
Proof.
  intros Hcase. unfold zerolist_pop_at.
  destruct (head (lst st) =? 0) eqn:Eh; [reflexivity |].
  apply Z.eqb_neq in Eh.
  destruct Hcase as [H0 | [[Hs Hle] | (Hs & Hholds & Hle)]]; [lia | |].
  - rewrite Hs. cbn [andb].
    destruct (size (lst st) <=? index) eqn:E; [reflexivity | apply Z.leb_gt in E; lia].
  - rewrite Hs. cbn [andb].
    assert (Hne : ps ≠ []).
    { intros ->. destruct Hholds as [_ Hh]. cbn in Hh. lia. }
    rewrite (walk_index_ring st ps _ Hholds Hne). cbn [rbind].
    case_decide; [lia | reflexivity].
Qed.

Lemma nosize3_holds : holds nosize3 [4096; 4128; 4160].
Proof.
  unfold holds, ring. repeat split; try (vm_compute; reflexivity).
  - repeat constructor; set_solver.
  - set_solver.
Qed.

Lemma zerolist_pop_at_rejects_witness :
  zerolist_pop_at cfg_nosize 3 nosize3 = Ok (nosize3, 0)
  ∧ zerolist_pop_at cfg_nosize 7 nosize3 = Ok (nosize3, 0)
  ∧ zerolist_pop_at cfg_default 0 empty_state = Ok (empty_state, 0).
Proof.
  split; [| split].
  - apply (zerolist_pop_at_rejects cfg_nosize nosize3 [4096; 4128; 4160] 3).
    right. right. split; [reflexivity |]. split; [exact nosize3_holds | cbn; lia].
  - apply (zerolist_pop_at_rejects cfg_nosize nosize3 [4096; 4128; 4160] 7).
    right. right. split; [reflexivity |]. split; [exact nosize3_holds | cbn; lia].
  - apply (zerolist_pop_at_rejects cfg_default empty_state [] 0).
    left. reflexivity.
Defined.


(** ** Traversal in ring order *)

Lemma payloads_cons m p l : payloads m (p :: l) = default 0 (dat m p) :: payloads m l.
Proof. reflexivity. Qed.

Lemma FOR_EACH_loop_path st first rest : ∀ cur fuel,
  fwd (mem st) (cur :: rest ++ [first]) → first ∉ rest → 0 ∉ cur :: rest →
  (length rest + 1 < fuel)%nat →
  FOR_EACH_loop st fuel first cur = Ok (payloads (mem st) (cur :: rest)).
Proof.
  induction rest as [| r rest IH]; intros cur fuel Hf Hnotin H0 Hfuel.
  - destruct fuel as [| [| fuel]]; [cbn in Hfuel; lia .. |].
    cbn in Hf. destruct Hf as [Hf _]. apply nxt_Some in Hf as (c & Hc & Hn).
    cbn [FOR_EACH_loop].
    destruct (cur =? 0) eqn:E; [apply Z.eqb_eq in E; set_solver |].
    rewrite (load_Some _ _ _ Hc). cbn [rbind]. rewrite Hn, Z.eqb_refl. cbn.
    unfold dat. rewrite Hc. reflexivity.
  - destruct fuel as [| fuel]; [cbn in Hfuel; lia |].
    cbn [app] in Hf. rewrite fwd_cons in Hf. destruct Hf as [Hf Hrest].
    apply nxt_Some in Hf as (c & Hc & Hn).
    cbn [FOR_EACH_loop].
    destruct (cur =? 0) eqn:E; [apply Z.eqb_eq in E; set_solver |].
    rewrite (load_Some _ _ _ Hc). cbn [rbind]. rewrite Hn.
    destruct (r =? first) eqn:E2; [apply Z.eqb_eq in E2; set_solver |].
    rewrite (IH r fuel) by (assumption || set_solver || (cbn in Hfuel |- *; lia)).
    cbn [rbind]. rewrite (payloads_cons _ cur). unfold dat. rewrite Hc. reflexivity.
Qed.

Lemma ZEROLIST_FOR_EACH_ring st ps fuel :
  holds st ps → (length ps < fuel)%nat →
  ZEROLIST_FOR_EACH fuel st = Ok (payloads (mem st) ps).
Proof.
  intros [Hr Hh] Hfuel. unfold ZEROLIST_FOR_EACH.
  destruct ps as [| h t]; cbn [hd] in Hh.
  - rewrite Hh. reflexivity.
  - apply ring_cons_unfold in Hr as (Hnd & H0 & Hf & _); cbn [hd] in Hf.
    apply NoDup_cons in Hnd as [Hnotin _].
    destruct (head (lst st) =? 0) eqn:E; [apply Z.eqb_eq in E; set_solver |].
    rewrite Hh. apply FOR_EACH_loop_path; try assumption. cbn in Hfuel. lia.
Qed.

(** ** Reversal *)

Lemma alter_all_notin f l m q : q ∉ l → alter_all f l m !! q = m !! q.
Proof.
  induction l as [| a l IH]; intros Hq; [reflexivity |].
  change (alter_all f (a :: l) m) with (alter f a (alter_all f l m)).
  rewrite lookup_alter_ne by set_solver. apply IH. set_solver.
Qed.

Lemma alter_all_in f l m q : NoDup l → q ∈ l → alter_all f l m !! q = f <$> m !! q.
Proof.
  induction l as [| a l IH]; intros Hnd Hq; [set_solver |].
  apply NoDup_cons in Hnd as [Ha Hnd].
  change (alter_all f (a :: l) m) with (alter f a (alter_all f l m)).
  destruct (decide (a = q)) as [-> | Hne].
  - rewrite lookup_alter_eq. by rewrite alter_all_notin.
  - rewrite lookup_alter_ne by done. apply IH; set_solver.
Qed.

Lemma alter_all_shift f a l m :
  alter_all f l (alter f a m) = alter f a (alter_all f l m).
Proof.
  induction l as [| b l IH]; [reflexivity |].
  change (alter_all f (b :: l) (alter f a m)) with (alter f b (alter_all f l (alter f a m))).
  change (alter_all f (b :: l) m) with (alter f b (alter_all f l m)).
  rewrite IH. destruct (decide (a = b)) as [-> | Hne]; [reflexivity |].
  by apply alter_alter_ne.
Qed.

Lemma alter_insert_same (m : gmap Z zerolist_node_t) p n f :
  m !! p = Some n → <[p := f n]> m = alter f p m.
Proof.
  intros H. apply map_eq. intros q. destruct (decide (p = q)) as [<- | Hne].
  - by rewrite lookup_insert_eq, lookup_alter_eq, H.
  - by rewrite lookup_insert_ne, lookup_alter_ne.
Qed.

Lemma on_mem_on_mem f g st : on_mem f (on_mem g st) = on_mem (λ m, f (g m)) st.
Proof. reflexivity. Qed.

Lemma reverse_loop_path h rest : ∀ cur st fuel,
  head (lst st) = h → fwd (mem st) (cur :: rest ++ [h]) → NoDup (cur :: rest) → h ∉ rest →
  (length rest < fuel)%nat →
  reverse_loop fuel cur st = Ok (on_mem (alter_all swap_links (cur :: rest)) st).
Proof.
  induction rest as [| r rest IH]; intros cur st fuel Hh Hf Hnd Hnotin Hfuel;
    (destruct fuel as [| fuel]; [cbn in Hfuel; lia |]).
  - cbn in Hf. destruct Hf as [Hf _]. apply nxt_Some in Hf as (c & Hc & Hn).
    cbn [reverse_loop]. rewrite (load_Some _ _ _ Hc). cbn [rbind].
    rewrite (update_Some _ _ _ _ Hc). cbn [rbind].
    erewrite update_Some by (cbn; apply lookup_insert_eq). cbn [rbind].
    cbn [lst on_mem]. rewrite Hn, Hh, Z.eqb_refl.
    f_equal. unfold on_mem. cbn [mem lst]. f_equal.
    rewrite insert_insert_eq. cbn [alter_all foldr].
    rewrite <- (alter_insert_same _ _ _ _ Hc). f_equal.
    unfold set_prev, set_next, swap_links. cbn. by rewrite Hn.
  - cbn [app] in Hf. rewrite fwd_cons in Hf. destruct Hf as [Hf Hrest].
    apply nxt_Some in Hf as (c & Hc & Hn).
    apply NoDup_cons in Hnd as [Hcur Hnd].
    cbn [reverse_loop]. rewrite (load_Some _ _ _ Hc). cbn [rbind].
    rewrite (update_Some _ _ _ _ Hc). cbn [rbind].
    erewrite update_Some by (cbn; apply lookup_insert_eq). cbn [rbind].
    cbn [lst on_mem]. rewrite Hn, Hh.
    destruct (r =? h) eqn:E; [apply Z.eqb_eq in E; set_solver |].
    rewrite IH; cbn [lst mem]; try assumption.
    + f_equal. unfold on_mem. cbn [mem lst]. f_equal.
      rewrite insert_insert_eq.
      change (alter_all swap_links (cur :: r :: rest) (mem st))
        with (alter swap_links cur (alter_all swap_links (r :: rest) (mem st))).
      rewrite <- alter_all_shift. f_equal.
      rewrite <- (alter_insert_same _ _ _ _ Hc). f_equal.
      unfold set_prev, set_next, swap_links. cbn. by rewrite Hn.
    + cbn [mem on_mem]. rewrite insert_insert_eq.
      change (r :: rest ++ [h]) with ((r :: rest) ++ [h]).
      eapply fwd_ext; [| exact Hrest].
      intros p Hp. apply nxt_insert_ne. set_solver.
    + set_solver.
    + cbn in Hfuel. lia.
Qed.

Lemma last_cons_default (a : Z) l d d' : List.last (a :: l) d = List.last (a :: l) d'.
Proof.
  revert a. induction l as [| b l IH]; intros a; [reflexivity |].
  change (List.last (a :: b :: l) d) with (List.last (b :: l) d).
  change (List.last (a :: b :: l) d') with (List.last (b :: l) d').
  apply IH.
Qed.

Lemma elem_of_rev (p : Z) l : p ∈ rev l ↔ p ∈ l.
Proof. rewrite !list_elem_of_In. symmetry. apply in_rev. Qed.

Lemma NoDup_rev_Z (l : list Z) : NoDup l → NoDup (rev l).
Proof. intros H. apply NoDup_ListNoDup, NoDup_rev, NoDup_ListNoDup, H. Qed.

Lemma swap_links_involutive n : swap_links (swap_links n) = n.
Proof. by destruct n. Qed.

Lemma zerolist_reverse_short st ps fuel :
  holds st ps → (length ps ≤ 1)%nat → zerolist_reverse fuel st = Ok st.
Proof.
  intros [Hr Hh] Hlen. unfold zerolist_reverse.
  destruct ps as [| h [| ? ?]]; cbn [hd] in Hh; [| | cbn in Hlen; lia].
  - rewrite Hh. reflexivity.
  - pose proof (ring_next_head _ _ _ Hr) as Hn. cbn [hd] in Hn.
    apply nxt_Some in Hn as (c & Hc & Hn).
    apply ring_cons_unfold in Hr as (_ & H0 & _).
    destruct (head (lst st) =? 0) eqn:E; [apply Z.eqb_eq in E; set_solver |].
    rewrite Hh, (load_Some _ _ _ Hc). cbn [rbind]. by rewrite Hn, Z.eqb_refl.
Qed.

Lemma zerolist_reverse_long st ps fuel :
  holds st ps → (2 ≤ length ps)%nat → (length ps ≤ fuel)%nat →
  zerolist_reverse fuel st = Ok (reversed ps st).
Proof.
  intros [Hr Hh] Hlen Hfuel. unfold zerolist_reverse.
  destruct ps as [| h [| a t]]; cbn [hd] in Hh; [cbn in Hlen; lia .. |].
  pose proof (ring_next_head _ _ _ Hr) as Hn. cbn [hd] in Hn.
  pose proof (ring_prev_head _ _ _ Hr) as Hp.
  apply nxt_Some in Hn as (c & Hc & Hn).
  apply prv_Some in Hp as (c' & Hc' & Hp). rewrite Hc in Hc'. injection Hc' as <-.
  apply ring_cons_unfold in Hr as (Hnd & H0 & Hf & _); cbn [hd] in Hf.
  destruct (head (lst st) =? 0) eqn:E; [apply Z.eqb_eq in E; set_solver |].
  rewrite Hh, (load_Some _ _ _ Hc). cbn [rbind]. rewrite Hn.
  destruct (a =? h) eqn:E2.
  { apply Z.eqb_eq in E2. subst a. apply NoDup_cons in Hnd as [Hnd _]. set_solver. }
  rewrite (reverse_loop_path h (a :: t) h st fuel); try assumption.
  - cbn [rbind]. rewrite Hp. unfold reversed. do 3 f_equal.
    change (List.last (h :: a :: t) 0) with (List.last (a :: t) 0).
    apply last_cons_default.
  - apply NoDup_cons in Hnd as [Hnd _]. exact Hnd.
Qed.

Lemma holds_reversed st ps :
  holds st ps → (2 ≤ length ps)%nat → holds (reversed ps st) (rev ps).
Proof.
  intros [Hr Hh] Hlen.
  destruct ps as [| h t]; [cbn in Hlen; lia |].
  assert (Hsw : ∀ p, p ∈ h :: t →
            nxt (alter_all swap_links (h :: t) (mem st)) p = prv (mem st) p
            ∧ prv (alter_all swap_links (h :: t) (mem st)) p = nxt (mem st) p).
  { intros p Hp. apply ring_cons_unfold in Hr as (Hnd & _).
    unfold nxt, prv. rewrite (alter_all_in _ _ _ _ Hnd Hp).
    destruct (mem st !! p); split; reflexivity. }
  apply ring_cons_unfold in Hr as (Hnd & H0 & Hf & Hb); cbn [hd] in Hf, Hb.
  assert (Hring : ring (alter_all swap_links (h :: t) (mem st)) ([h] ++ rev t)).
  { cbn [app]. apply ring_cons_unfold. repeat split.
    - apply NoDup_cons in Hnd as [Hh' Hnd]. apply NoDup_cons. split.
      + rewrite elem_of_rev. exact Hh'.
      + apply NoDup_rev_Z, Hnd.
    - intros Hin. apply H0. apply elem_of_cons in Hin as [-> | Hin]; [set_solver |].
      apply elem_of_cons. right.
      rewrite elem_of_rev in Hin. exact Hin.
    - replace (h :: rev t ++ [h]) with (rev (h :: t ++ [h]))
        by (cbn; rewrite rev_app_distr; reflexivity).
      apply (fwd_rev (mem st)); [| exact Hb].
      intros p Hp. apply Hsw. set_solver.
    - replace (h :: rev t ++ [h]) with (rev (h :: t ++ [h]))
        by (cbn; rewrite rev_app_distr; reflexivity).
      apply (bwd_rev (mem st)); [| exact Hf].
      intros p Hp. apply Hsw. set_solver. }
  apply ring_rotate in Hring.
  split; [exact Hring |].
  cbn [reversed on_lst on_mem lst head with_head rev].
  destruct t as [| a t]; [cbn in Hlen; lia |].
  destruct (exists_last (l := a :: t) ltac:(discriminate)) as (l0 & x & E).
  rewrite E. rewrite rev_app_distr. cbn [rev app hd].
  change (h :: l0 ++ [x]) with ((h :: l0) ++ [x]). by rewrite last_last.
Qed.

Lemma reversed_reversed st ps :
  holds st ps → (2 ≤ length ps)%nat → reversed (rev ps) (reversed ps st) = st.
Proof.
  intros [Hr Hh] Hlen. destruct st as [l m]. unfold reversed, on_lst, on_mem. cbn [lst mem] in *.
  destruct ps as [| h t]; [cbn in Hlen; lia |]. cbn [hd] in Hh.
  f_equal.
  - cbn [rev]. rewrite last_last. destruct l. cbn in *. by subst.
  - destruct Hr as (Hnd & _).
    apply map_eq. intros q. destruct (decide (q ∈ h :: t)) as [Hin | Hnotin].
    + assert (Hin' : q ∈ rev (h :: t)) by (by rewrite elem_of_rev).
      rewrite (alter_all_in _ _ _ _ (NoDup_rev_Z _ Hnd) Hin').
      rewrite (alter_all_in _ _ _ _ Hnd Hin).
      destruct (m !! q); cbn; [by rewrite swap_links_involutive | reflexivity].
    + assert (Hnotin' : q ∉ rev (h :: t)) by (by rewrite elem_of_rev).
      by rewrite !alter_all_notin.
Qed.

Lemma payloads_reversed st ps :
  NoDup ps → payloads (mem (reversed ps st)) (rev ps) = rev (payloads (mem st) ps).
Proof.
  intros Hnd. unfold payloads. rewrite <- map_rev.
  apply map_ext_in. intros p Hp. apply list_elem_of_In in Hp.
  cbn [reversed on_lst on_mem mem]. unfold dat.
  rewrite alter_all_in; [| assumption | by apply elem_of_rev].
  by destruct (mem st !! p).
Qed.

(** C7.  For a list that holds the ring [ps]: [zerolist_reverse] returns;
    the resulting list holds the nodes of [ps] in reverse order and its
    traversal from head gives the payloads in reverse order; when the ring
    has two nodes or more, head becomes the node that was [head->prev]; when
    it has at most one node the list is unchanged; and reversing the result
    gives back the original list and memory, so that the traversal after two
    reversals gives the original payload order. *)
Theorem zerolist_reverse_involution st ps fuel :
  holds st ps → (length ps < fuel)%nat →
  ∃ st1,
    zerolist_reverse fuel st = Ok st1
    ∧ holds st1 (rev ps)
    ∧ ZEROLIST_FOR_EACH fuel st1 = Ok (rev (payloads (mem st) ps))
    ∧ ((2 ≤ length ps)%nat → prv (mem st) (head (lst st)) = Some (head (lst st1)))
    ∧ ((length ps ≤ 1)%nat → st1 = st)
    ∧ zerolist_reverse fuel st1 = Ok st
    ∧ ZEROLIST_FOR_EACH fuel st = Ok (payloads (mem st) ps).
Proof.
  intros Hholds Hfuel.
  pose proof (ZEROLIST_FOR_EACH_ring st ps fuel Hholds Hfuel) as Htrav.
  destruct (le_lt_dec (length ps) 1) as [Hshort | Hlong].
  - exists st. pose proof (zerolist_reverse_short st ps fuel Hholds Hshort) as Hrev.
    assert (Erev : rev ps = ps) by (destruct ps as [| ? [| ? ?]]; [done | done | cbn in Hshort; lia]).
    rewrite Erev.
    split; [exact Hrev |]. split; [exact Hholds |].
    split; [rewrite Htrav; f_equal; unfold payloads; rewrite <- map_rev; by rewrite Erev |].
    split; [intros; lia |]. split; [reflexivity |]. split; assumption.
  - exists (reversed ps st).
    assert (H2 : (2 ≤ length ps)%nat) by lia.
    pose proof (holds_reversed st ps Hholds H2) as Hholds'.
    split; [apply zerolist_reverse_long; try assumption; lia |].
    split; [exact Hholds' |].
    split.
    { rewrite (ZEROLIST_FOR_EACH_ring _ (rev ps)); [| exact Hholds' | by rewrite length_rev].
      f_equal. apply payloads_reversed. apply Hholds. }
    split.
    { intros _. destruct Hholds as [Hr Hh]. destruct ps as [| h t]; [cbn in H2; lia |].
      cbn [hd] in Hh. rewrite Hh. rewrite (ring_prev_head _ _ _ Hr).
      cbn [reversed on_lst lst head with_head]. f_equal.
      destruct t as [| z t]; [cbn in H2; lia |].
      change (List.last (h :: z :: t) 0) with (List.last (z :: t) 0).
      apply last_cons_default. }
    split; [intros; lia |].
    split; [| exact Htrav].
    rewrite (zerolist_reverse_long _ (rev ps));
      [| exact Hholds' | rewrite length_rev; lia | rewrite length_rev; lia].
    f_equal. by apply reversed_reversed.
Qed.

Lemma zerolist_reverse_involution_witness :
  ∃ st1,
    zerolist_reverse 8 nosize3 = Ok st1
    ∧ holds st1 (rev [4096; 4128; 4160])
    ∧ ZEROLIST_FOR_EACH 8 st1 = Ok (rev (payloads (mem nosize3) [4096; 4128; 4160]))
    ∧ ((2 ≤ length [4096; 4128; 4160])%nat →
       prv (mem nosize3) (head (lst nosize3)) = Some (head (lst st1)))
    ∧ ((length [4096; 4128; 4160] ≤ 1)%nat → st1 = nosize3)
    ∧ zerolist_reverse 8 st1 = Ok nosize3
    ∧ ZEROLIST_FOR_EACH 8 nosize3 = Ok (payloads (mem nosize3) [4096; 4128; 4160]).
Proof.
  apply (zerolist_reverse_involution nosize3 [4096; 4128; 4160] 8).
  - exact nosize3_holds.
  - cbn. lia.
Defined.


(** ** Pointer arithmetic on the node buffer *)

Section Arena.
Variable cfg : config.
Hypothesis cfg_ok : config_ok cfg = true.

Lemma NODE_SIZE_pos : 0 < NODE_SIZE cfg.
Proof. by apply config_ok_node_size. Qed.

Lemma slot_inj buf i j : slot cfg buf i = slot cfg buf j → i = j.
Proof. unfold slot. pose proof NODE_SIZE_pos. nia. Qed.

Lemma slot_0 buf : slot cfg buf 0 = buf.
Proof. unfold slot. lia. Qed.

Lemma ptr_diff_slot buf i : ptr_diff cfg (slot cfg buf i) buf = i.
Proof.
  unfold ptr_diff, slot. pose proof NODE_SIZE_pos.
  replace (buf + i * NODE_SIZE cfg - buf) with (i * NODE_SIZE cfg) by lia.
  apply Z.quot_mul. lia.
Qed.

Lemma div_slot buf i : (slot cfg buf i - buf) / NODE_SIZE cfg = i.
Proof.
  unfold slot. pose proof NODE_SIZE_pos.
  replace (buf + i * NODE_SIZE cfg - buf) with (i * NODE_SIZE cfg) by lia.
  apply Z.div_mul. lia.
Qed.

Lemma slot_mono buf i j : i < j → slot cfg buf i < slot cfg buf j.
Proof. unfold slot. pose proof NODE_SIZE_pos. nia. Qed.

Lemma slot_ge buf i : 0 ≤ i → buf ≤ slot cfg buf i.
Proof. unfold slot. pose proof NODE_SIZE_pos. nia. Qed.

Lemma is_static_node_slot l i :
  ZEROLIST_USE_MALLOC cfg = false → 0 < node_buf l → 0 ≤ i < max_nodes l →
  _zerolist_is_static_node cfg l (slot cfg (node_buf l) i) = true.
Proof.
  intros Hm Hb Hi. unfold _zerolist_is_static_node. rewrite Hm.
  pose proof (slot_ge (node_buf l) i ltac:(lia)).
  pose proof (slot_mono (node_buf l) i (max_nodes l) ltac:(lia)).
  destruct (node_buf l =? 0) eqn:E1; [apply Z.eqb_eq in E1; lia |].
  destruct (slot cfg (node_buf l) i =? 0) eqn:E2; [apply Z.eqb_eq in E2; lia |].
  cbn [orb]. apply andb_true_iff. split; [apply Z.leb_le; lia |].
  apply Z.ltb_lt. unfold slot in *. lia.
Qed.

Lemma calc_node_index_slot l i :
  0 < node_buf l → 0 ≤ i ≤ TYPE_MAX cfg →
  _zerolist_calc_node_index cfg l (slot cfg (node_buf l) i) = i.
Proof.
  intros Hb Hi. unfold _zerolist_calc_node_index.
  pose proof (slot_ge (node_buf l) i ltac:(lia)).
  destruct (slot cfg (node_buf l) i =? 0) eqn:E2; [apply Z.eqb_eq in E2; lia |].
  destruct (node_buf l =? 0) eqn:E1; [apply Z.eqb_eq in E1; lia |].
  cbn [orb].
  destruct (slot cfg (node_buf l) i <? node_buf l) eqn:E3; [apply Z.ltb_lt in E3; lia |].
  rewrite div_slot. by apply to_TYPE_small.
Qed.

End Arena.

(** ** Counted loops *)

Lemma for_loop_inv {T : Type} (P : Z → T → Prop) (body : Z → T → res T) n : ∀ i s,
  P i s →
  (∀ j s, i ≤ j < i + Z.of_nat n → P j s → ∃ s', body j s = Ok s' ∧ P (j + 1) s') →
  ∃ s', for_loop n i body s = Ok s' ∧ P (i + Z.of_nat n) s'.
Proof.
  induction n as [| n IH]; intros i s HP Hstep.
  - exists s. split; [reflexivity |]. by replace (i + Z.of_nat 0) with i by lia.
  - destruct (Hstep i s ltac:(lia) HP) as (s1 & Hb & HP1).
    cbn [for_loop]. rewrite Hb. cbn [rbind].
    destruct (IH (i + 1) s1 HP1) as (s2 & Hl & HP2).
    { intros j s' Hj. apply Hstep. lia. }
    exists s2. split; [exact Hl |].
    by replace (i + Z.of_nat (S n)) with (i + 1 + Z.of_nat n) by lia.
Qed.

(** ** Blocks of memory *)

Section Blocks.
Variable cfg : config.
Hypothesis cfg_ok : config_ok cfg = true.

Lemma mem_write_from_in buf m : ∀ cells i (k : nat) c,
  cells !! k = Some c →
  mem_write_from cfg buf i cells m !! slot cfg buf (i + Z.of_nat k) = Some c.
Proof.
  induction cells as [| a cells IH]; intros i k c Hk; [done |].
  cbn [mem_write_from]. destruct k as [| k].
  - cbn in Hk. injection Hk as ->. replace (i + Z.of_nat 0) with i by lia.
    apply lookup_insert_eq.
  - cbn in Hk. rewrite lookup_insert_ne.
    + replace (i + Z.of_nat (S k)) with (i + 1 + Z.of_nat k) by lia. by apply IH.
    + intros E. apply (slot_inj cfg cfg_ok) in E. lia.
Qed.

Lemma mem_write_from_out buf m p : ∀ cells i,
  (∀ k, 0 ≤ k < Z.of_nat (length cells) → p ≠ slot cfg buf (i + k)) →
  mem_write_from cfg buf i cells m !! p = m !! p.
Proof.
  induction cells as [| a cells IH]; intros i Hp; [done |].
  cbn [mem_write_from]. rewrite lookup_insert_ne.
  - apply IH. intros k Hk. replace (i + 1 + k) with (i + (k + 1)) by lia.
    apply Hp. cbn [length]. lia.
  - intros E. apply (Hp 0); [cbn [length]; lia |]. by replace (i + 0) with i by lia.
Qed.

Lemma mem_free_from_in buf m : ∀ n i k,
  0 ≤ k < Z.of_nat n → mem_free_from cfg buf i n m !! slot cfg buf (i + k) = None.
Proof.
  induction n as [| n IH]; intros i k Hk; [lia |].
  cbn [mem_free_from]. destruct (decide (k = 0)) as [-> | Hne].
  - replace (i + 0) with i by lia. apply lookup_delete_eq.
  - rewrite lookup_delete_ne.
    + replace (i + k) with (i + 1 + (k - 1)) by lia. apply IH. lia.
    + intros E. apply (slot_inj cfg cfg_ok) in E. lia.
Qed.

Lemma mem_free_from_out buf m p : ∀ n i,
  (∀ k, 0 ≤ k < Z.of_nat n → p ≠ slot cfg buf (i + k)) →
  mem_free_from cfg buf i n m !! p = m !! p.
Proof.
  induction n as [| n IH]; intros i Hp; [done |].
  cbn [mem_free_from]. rewrite lookup_delete_ne.
  - apply IH. intros k Hk. replace (i + 1 + k) with (i + (k + 1)) by lia.
    apply Hp. lia.
  - intros E. apply (Hp 0); [lia |]. by replace (i + 0) with i by lia.
Qed.

Lemma mem_malloc_buf_in g buf n m i :
  0 ≤ i < n → mem_malloc_buf cfg g buf n m !! slot cfg buf i = Some (g (slot cfg buf i)).
Proof.
  intros Hi. unfold mem_malloc_buf, mem_write_buf.
  replace i with (0 + Z.of_nat (Z.to_nat i)) at 1 by lia.
  apply mem_write_from_in. rewrite list_lookup_fmap, lookup_seqZ_lt by lia.
  cbn. do 3 f_equal. lia.
Qed.

Lemma mem_malloc_buf_out g buf n m p :
  (∀ i, 0 ≤ i < n → p ≠ slot cfg buf i) → mem_malloc_buf cfg g buf n m !! p = m !! p.
Proof.
  intros Hp. unfold mem_malloc_buf, mem_write_buf. apply mem_write_from_out.
  intros k Hk. rewrite length_fmap, length_seqZ in Hk. apply Hp. lia.
Qed.

End Blocks.


(** ** The free stack: initialisation, acquisition order, reuse *)

Lemma init_node_Some cfg node idx st c :
  node ≠ 0 → mem st !! node = Some c →
  init_node cfg node idx st
  = Ok (on_mem (<[node := {| data := 0; prev := node; next := node; in_use := true;
                             index := to_index_field cfg idx |}]>) st).
Proof.
  intros Hn Hc. unfold init_node, _ZEROLIST_NODE_SET_IN_USE.
  apply Z.eqb_neq in Hn. rewrite Hn.
  rewrite (update_Some _ _ _ _ Hc). cbn [rbind].
  erewrite update_Some by (cbn; apply lookup_insert_eq). cbn [rbind].
  erewrite update_Some by (cbn; apply lookup_insert_eq). cbn [rbind].
  erewrite update_Some by (cbn; apply lookup_insert_eq).
  f_equal. unfold on_mem. cbn [mem lst]. f_equal.
  by rewrite !insert_insert_eq.
Qed.

Section FreeStack.
Variable cfg : config.
Hypothesis cfg_ok : config_ok cfg = true.
Hypothesis fast : ZEROLIST_FAST_ALLOC cfg = true.
Hypothesis static : ZEROLIST_USE_MALLOC cfg = false.

Lemma init_loop_ready buf n st l0 :
  0 < n ≤ TYPE_MAX cfg →
  free_stack (lst st) = Some l0 → n ≤ Z.of_nat (length l0) →
  node_buf (lst st) = buf → max_nodes (lst st) = n → free_top (lst st) = n →
  (∀ i, 0 ≤ i < n → is_Some (mem st !! slot cfg buf i)) →
  ∃ st', for_loop (Z.to_nat n) 0 (init_slot cfg buf n) st = Ok st'
         ∧ stack_ready cfg buf n 0 st'.
Proof.
  intros Hn Hstk Hlen Hbuf Hmax Htop Hmapped.
  destruct (for_loop_inv
    (λ j s, node_buf (lst s) = buf ∧ max_nodes (lst s) = n ∧ free_top (lst s) = n
            ∧ (∃ l, free_stack (lst s) = Some l ∧ n ≤ Z.of_nat (length l)
                    ∧ ∀ i, 0 ≤ i < j → l !! Z.to_nat i = Some (n - 1 - i))
            ∧ ∀ i, 0 ≤ i < n → is_Some (mem s !! slot cfg buf i))
    (init_slot cfg buf n) (Z.to_nat n) 0 st) as (st' & Hloop & HP).
  - repeat split; try assumption. exists l0. repeat split; try assumption. intros; lia.
  - intros j s Hj (Hb & Hm & Ht & (l & Hl & Hll & Hent) & Hmp).
    unfold init_slot. rewrite fast. unfold stack_set. rewrite Hl.
    assert (Hin : (0 <=? j) && (j <? Z.of_nat (length l)) = true).
    { apply andb_true_iff. split; [apply Z.leb_le | apply Z.ltb_lt]; lia. }
    rewrite Hin. cbn [rbind].
    destruct (Hmp j ltac:(lia)) as [c Hc].
    erewrite update_Some by (cbn [mem]; exact Hc).
    eexists. split; [reflexivity |].
    cbn [lst on_mem mem with_free_stack node_buf max_nodes free_top free_stack].
    repeat split; try assumption.
    + eexists. split; [reflexivity |]. split; [by rewrite length_insert |].
      intros i Hi. destruct (decide (i = j)) as [-> | Hne].
      * rewrite list_lookup_insert_eq by lia. f_equal. apply to_TYPE_small. lia.
      * rewrite list_lookup_insert_ne by lia. apply Hent. lia.
    + intros i Hi. apply lookup_insert_is_Some'. right. by apply Hmp.
  - exists st'. split; [exact Hloop |].
    destruct HP as (Hb & Hm & Ht & (l & Hl & Hll & Hent) & Hmp).
    unfold stack_ready. repeat split; try assumption; try lia.
    exists l. repeat split; try assumption.
    intros i Hi. rewrite Hent by lia. f_equal. lia.
Qed.

Lemma alloc_from_ready env fuel buf n j st :
  0 < buf → 0 ≤ j < n → stack_ready cfg buf n j st →
  ∃ st', _zerolist_alloc_node cfg env fuel st = Ok (st', slot cfg buf j)
         ∧ stack_ready cfg buf n (j + 1) st'.
Proof.
  intros Hbuf Hj (Hb & Hm & Ht & (l & Hl & Hll & Hent) & Hmp).
  unfold _zerolist_alloc_node. rewrite static.
  destruct (node_buf (lst st) =? 0) eqn:E1; [apply Z.eqb_eq in E1; lia |].
  destruct (max_nodes (lst st) =? 0) eqn:E2; [apply Z.eqb_eq in E2; lia |].
  cbn [orb]. unfold _ZEROLIST_TRY_ALLOC_STATIC. rewrite fast.
  unfold _ZEROLIST_ALLOC_FROM_STACK.
  destruct (0 <? free_top (lst st)) eqn:E3; [| apply Z.ltb_ge in E3; lia].
  unfold stack_get. rewrite Hl.
  destruct (free_top (lst st) - 1 <? 0) eqn:E4; [apply Z.ltb_lt in E4; lia |].
  replace (free_top (lst st) - 1) with (n - 1 - j) by lia.
  rewrite (Hent j) by lia. cbn [rbind]. rewrite Hb.
  destruct (Hmp j ltac:(lia)) as [c Hc].
  pose proof (slot_ge cfg cfg_ok buf j ltac:(lia)).
  erewrite init_node_Some; [| lia | cbn [mem on_lst]; exact Hc].
  cbn [rbind]. eexists. split; [reflexivity |].
  unfold stack_ready.
  cbn [lst on_mem on_lst mem with_free_top node_buf max_nodes free_top free_stack].
  repeat split; try assumption; try lia.
  - exists l. repeat split; try assumption. intros i Hi. apply Hent. lia.
  - intros i Hi. apply lookup_insert_is_Some'. right. by apply Hmp.
Qed.

Lemma acquire_many_ready env fuel buf n : ∀ k j st,
  0 < buf → 0 ≤ j → j + Z.of_nat k ≤ n → stack_ready cfg buf n j st →
  ∃ st', acquire_many cfg env fuel k st
         = Ok (st', slot cfg buf <$> seqZ j (Z.of_nat k))
         ∧ stack_ready cfg buf n (j + Z.of_nat k) st'.
Proof.
  induction k as [| k IH]; intros j st Hbuf Hj Hk Hready.
  - exists st. split; [reflexivity |]. by replace (j + Z.of_nat 0) with j by lia.
  - destruct (alloc_from_ready env fuel buf n j st Hbuf ltac:(lia) Hready)
      as (st1 & Ha & Hready1).
    destruct (IH (j + 1) st1 Hbuf ltac:(lia) ltac:(lia) Hready1) as (st2 & Hm & Hready2).
    exists st2. cbn [acquire_many]. rewrite Ha. cbn [rbind]. rewrite Hm. cbn [rbind].
    split.
    + f_equal. f_equal. rewrite (seqZ_cons j) by lia. cbn [fmap list_fmap].
      do 3 f_equal; lia.
    + by replace (j + Z.of_nat (S k)) with (j + 1 + Z.of_nat k) by lia.
Qed.

(** After [zerolist_init_expand] the free stack is ready from slot 0. *)
Lemma zerolist_init_expand_ready buf n stk st :
  0 < buf → 0 < n ≤ TYPE_MAX cfg → n ≤ Z.of_nat (length stk) →
  (∀ i, 0 ≤ i < n → is_Some (mem st !! slot cfg buf i)) →
  ∃ st', zerolist_init_expand cfg buf (Some stk) n st = Ok st'
         ∧ stack_ready cfg buf n 0 st'.
Proof.
  intros Hbuf Hn Hlen Hmp. unfold zerolist_init_expand.
  destruct (buf =? 0) eqn:E1; [apply Z.eqb_eq in E1; lia |].
  destruct (n =? 0) eqn:E2; [apply Z.eqb_eq in E2; lia |].
  cbn [orb]. rewrite fast.
  apply (init_loop_ready buf n _ stk); try assumption;
    destruct (ZEROLIST_SIZE_ENABLE cfg); try reflexivity; exact Hmp.
Qed.

(** ... and so it is after [list_init_dynamic_expand]. *)
Lemma list_init_dynamic_expand_ready env n st :
  0 < env_malloc env → env_malloc_stack env = true → 0 < n ≤ TYPE_MAX cfg →
  ∃ st', list_init_dynamic_expand cfg env n st = Ok (st', true)
         ∧ stack_ready cfg (env_malloc env) n 0 st'.
Proof.
  intros Hbuf Hstk Hn. unfold list_init_dynamic_expand.
  destruct (n =? 0) eqn:E2; [apply Z.eqb_eq in E2; lia |].
  destruct (env_malloc env =? 0) eqn:E1; [apply Z.eqb_eq in E1; lia |].
  rewrite fast, Hstk. cbn [andb negb].
  match goal with
  | |- context [for_loop _ _ _ ?s] =>
      destruct (init_loop_ready (env_malloc env) n s (stack_realloc (garbage env) n None))
        as (st' & Hl & Hr)
  end; try (destruct (ZEROLIST_SIZE_ENABLE cfg); reflexivity); try assumption.
  - unfold stack_realloc. cbn [default]. rewrite take_nil. cbn [app length].
    rewrite length_fmap, length_seqZ. lia.
  - intros i Hi.
    replace (mem _) with (mem_malloc_buf cfg (garbage env) (env_malloc env) n (mem st))
      by (destruct (ZEROLIST_SIZE_ENABLE cfg); reflexivity).
    rewrite mem_malloc_buf_in by assumption. eauto.
  - rewrite Hl. cbn [rbind]. eauto.
Qed.

(** Releasing an arena slot and acquiring again gives the same slot. *)
Lemma free_then_alloc env fuel st i stk :
  0 < node_buf (lst st) → 0 ≤ i < max_nodes (lst st) → max_nodes (lst st) ≤ TYPE_MAX cfg →
  free_stack (lst st) = Some stk →
  0 ≤ free_top (lst st) < max_nodes (lst st) →
  free_top (lst st) < Z.of_nat (length stk) →
  is_Some (mem st !! slot cfg (node_buf (lst st)) i) →
  ∃ st1 st2,
    zerolist_free_node cfg (slot cfg (node_buf (lst st)) i) st = Ok st1
    ∧ free_top (lst st1) = free_top (lst st) + 1
    ∧ _zerolist_alloc_node cfg env fuel st1 = Ok (st2, slot cfg (node_buf (lst st)) i).
Proof.
  intros Hbuf Hi Hmax Hstk Htop Hlen [c Hc].
  set (node := slot cfg (node_buf (lst st)) i).
  assert (Hnode : 0 < node) by (pose proof (slot_ge cfg cfg_ok (node_buf (lst st)) i); unfold node; lia).
  assert (Hfree : _ZEROLIST_FREE_STATIC_NODE cfg node i st
           = Ok {| lst := with_free_top (free_top (lst st) + 1)
                            (with_free_stack (Some (<[Z.to_nat (free_top (lst st)) := i]> stk)) (lst st));
                   mem := <[node := {| data := 0; prev := node; next := node; in_use := false;
                                       index := 0 |}]> (mem st) |}).
  { unfold _ZEROLIST_FREE_STATIC_NODE, _ZEROLIST_NODE_SET_FREE.
    destruct (node =? 0) eqn:E; [apply Z.eqb_eq in E; lia |].
    rewrite (update_Some _ _ _ _ Hc). cbn [rbind].
    erewrite update_Some by (cbn; apply lookup_insert_eq). cbn [rbind].
    erewrite update_Some by (cbn; apply lookup_insert_eq). cbn [rbind].
    erewrite update_Some by (cbn; apply lookup_insert_eq). cbn [rbind].
    rewrite fast. unfold _ZEROLIST_FREE_TO_STACK. cbn [lst on_mem mem].
    rewrite Hstk. rewrite bool_decide_eq_true_2 by eauto.
    destruct (free_top (lst st) <? max_nodes (lst st)) eqn:E1; [| apply Z.ltb_ge in E1; lia].
    destruct (i <? max_nodes (lst st)) eqn:E2; [| apply Z.ltb_ge in E2; lia].
    cbn [andb]. unfold stack_set. rewrite Hstk.
    assert (Hin : (0 <=? free_top (lst st)) && (free_top (lst st) <? Z.of_nat (length stk)) = true).
    { apply andb_true_iff. split; [apply Z.leb_le | apply Z.ltb_lt]; lia. }
    rewrite Hin. cbn [rbind]. rewrite to_TYPE_small by lia.
    f_equal. f_equal. by rewrite !insert_insert_eq. }
  eexists _, _. split; [| split].
  - unfold zerolist_free_node.
    destruct (node =? 0) eqn:E; [apply Z.eqb_eq in E; lia |].
    rewrite static. unfold node.
    rewrite (is_static_node_slot cfg cfg_ok) by (assumption || lia).
    rewrite (calc_node_index_slot cfg cfg_ok) by lia.
    fold node. rewrite Hfree. destruct (ZEROLIST_STATIC_FALLBACK_MALLOC cfg); reflexivity.
  - reflexivity.
  - unfold _zerolist_alloc_node. rewrite static.
    cbn [lst with_free_top with_free_stack node_buf max_nodes].
    destruct (node_buf (lst st) =? 0) eqn:E1; [apply Z.eqb_eq in E1; lia |].
    destruct (max_nodes (lst st) =? 0) eqn:E2; [apply Z.eqb_eq in E2; lia |].
    cbn [orb]. unfold _ZEROLIST_TRY_ALLOC_STATIC. rewrite fast.
    unfold _ZEROLIST_ALLOC_FROM_STACK.
    cbn [lst with_free_top with_free_stack node_buf max_nodes free_top free_stack].
    destruct (0 <? free_top (lst st) + 1) eqn:E3; [| apply Z.ltb_ge in E3; lia].
    unfold stack_get. cbn [free_stack with_free_top with_free_stack].
    destruct (free_top (lst st) + 1 - 1 <? 0) eqn:E4; [apply Z.ltb_lt in E4; lia |].
    replace (free_top (lst st) + 1 - 1) with (free_top (lst st)) by lia.
    rewrite list_lookup_insert_eq by lia. cbn [rbind]. fold node.
    erewrite init_node_Some; [| lia | cbn; apply lookup_insert_eq].
    cbn [rbind]. reflexivity.
Qed.

End FreeStack.

(** C9.  With a free stack (fixed, fallback or growable arena): after
    [zerolist_init_expand], and after [list_init_dynamic_expand], the first
    [k] acquisitions ([k] at most the capacity) give the slots 0, 1, ...,
    k-1 in that order; and when a slot of the arena is released while the
    stack has room, the acquisition that follows gives that same slot. *)
Theorem free_stack_order cfg env env0 fuel buf n stk st (k : nat) s i sstk :
  config_ok cfg = true →
  ZEROLIST_FAST_ALLOC cfg = true →
  ZEROLIST_USE_MALLOC cfg = false →
  0 < n ≤ TYPE_MAX cfg → Z.of_nat k ≤ n →
  0 < buf → n ≤ Z.of_nat (length stk) →
  (∀ j, 0 ≤ j < n → is_Some (mem st !! slot cfg buf j)) →
  0 < env_malloc env0 → env_malloc_stack env0 = true →
  0 < node_buf (lst s) → 0 ≤ i < max_nodes (lst s) → max_nodes (lst s) ≤ TYPE_MAX cfg →
  free_stack (lst s) = Some sstk →
  0 ≤ free_top (lst s) < max_nodes (lst s) →
  free_top (lst s) < Z.of_nat (length sstk) →
  is_Some (mem s !! slot cfg (node_buf (lst s)) i) →
  (∃ st0 st',
      zerolist_init_expand cfg buf (Some stk) n st = Ok st0
      ∧ acquire_many cfg env fuel k st0 = Ok (st', slot cfg buf <$> seqZ 0 (Z.of_nat k)))
  ∧ (∃ st0 st',
      list_init_dynamic_expand cfg env0 n st = Ok (st0, true)
      ∧ acquire_many cfg env fuel k st0
        = Ok (st', slot cfg (env_malloc env0) <$> seqZ 0 (Z.of_nat k)))
  ∧ (∃ s1 s2,
      zerolist_free_node cfg (slot cfg (node_buf (lst s)) i) s = Ok s1
      ∧ _zerolist_alloc_node cfg env fuel s1 = Ok (s2, slot cfg (node_buf (lst s)) i)).
Proof.
  intros Hc Hfast Hstatic Hn Hk Hbuf Hlen Hmp Hbuf0 Hstk0 Hsb Hi Hsmax Hsstk Htop Htoplen Hnode.
  split; [| split].
  - destruct (zerolist_init_expand_ready cfg Hfast buf n stk st) as (st0 & Hinit & Hready);
      try assumption.
    destruct (acquire_many_ready cfg Hc Hfast Hstatic env fuel buf n k 0 st0)
      as (st' & Hacq & _); try assumption; try lia.
    eauto.
  - destruct (list_init_dynamic_expand_ready cfg Hc Hfast env0 n st) as (st0 & Hinit & Hready);
      try assumption.
    destruct (acquire_many_ready cfg Hc Hfast Hstatic env fuel (env_malloc env0) n k 0 st0)
      as (st' & Hacq & _); try assumption; try lia.
    eauto.
  - destruct (free_then_alloc cfg Hc Hfast Hstatic env fuel s i sstk)
      as (s1 & s2 & Hf & _ & Ha); try assumption.
    eauto.
Qed.

Lemma free_stack_order_witness :
  (∃ st0 st',
      zerolist_init_expand cfg_fixed 4096 (Some [0; 0; 0]) 3 (static_buf cfg_fixed 4096 3) = Ok st0
      ∧ acquire_many cfg_fixed (mk_allocator 0 0) 8 3 st0 = Ok (st', [4096; 4128; 4160]))
  ∧ (∃ st0 st',
      list_init_dynamic_expand cfg_fixed (mk_allocator 8192 0) 3 (static_buf cfg_fixed 4096 3)
      = Ok (st0, true)
      ∧ acquire_many cfg_fixed (mk_allocator 0 0) 8 3 st0 = Ok (st', [8192; 8224; 8256]))
  ∧ (∃ s1 s2,
      zerolist_free_node cfg_fixed 4128 fixed3_full = Ok s1
      ∧ _zerolist_alloc_node cfg_fixed (mk_allocator 0 0) 8 s1 = Ok (s2, 4128)).
Proof.
  apply (free_stack_order cfg_fixed (mk_allocator 0 0) (mk_allocator 8192 0) 8 4096 3
           [0; 0; 0] (static_buf cfg_fixed 4096 3) 3 fixed3_full 1 [2; 1; 0]);
    try reflexivity; try (vm_compute; intuition congruence).
  - intros j Hj.
    assert (j = 0 ∨ j = 1 ∨ j = 2) as [-> | [-> | ->]] by lia; vm_compute; eauto.
  - vm_compute. eauto.
Defined.


(** ** Release under heap fallback *)

Lemma is_static_node_range cfg l node :
  ZEROLIST_USE_MALLOC cfg = false → node_buf l ≠ 0 → node ≠ 0 →
  _zerolist_is_static_node cfg l node
  = bool_decide (node_buf l ≤ node < node_buf l + max_nodes l * NODE_SIZE cfg).
Proof.
  intros Hm Hb Hn. unfold _zerolist_is_static_node. rewrite Hm.
  apply Z.eqb_neq in Hb, Hn. rewrite Hb, Hn. cbn [orb].
  destruct (bool_decide _) eqn:E.
  - apply bool_decide_eq_true in E. apply andb_true_iff.
    split; [apply Z.leb_le | apply Z.ltb_lt]; lia.
  - apply bool_decide_eq_false in E. apply andb_false_iff.
    destruct (Z_le_gt_dec (node_buf l) node); [right; apply Z.ltb_ge | left; apply Z.leb_gt]; lia.
Qed.

(** The scan along the ring stops at the first node that matches. *)
Lemma remove_ring_loop_here cfg matches fuel start cur st c :
  mem st !! cur = Some c → matches (data c) = true →
  remove_ring_loop cfg matches (S fuel) start cur st = remove_node cfg cur st.
Proof.
  intros Hc Hm. cbn [remove_ring_loop]. rewrite (load_Some _ _ _ Hc). cbn [rbind].
  by rewrite Hm.
Qed.

Lemma remove_ring_loop_path cfg matches start st p : ∀ pre cur fuel,
  fwd (mem st) (cur :: pre ++ [p]) →
  (∀ q, q ∈ cur :: pre → matches (default 0 (dat (mem st) q)) = false) →
  matches (default 0 (dat (mem st) p)) = true →
  is_Some (mem st !! p) →
  0 ∉ pre ++ [p] → start ∉ pre ++ [p] → (length pre + 1 < fuel)%nat →
  remove_ring_loop cfg matches fuel start cur st = remove_node cfg p st.
Proof.
  induction pre as [| r pre IH]; intros cur fuel Hf Hno Hyes [cp Hcp] H0 Hstart Hfuel;
    (destruct fuel as [| fuel]; [cbn in Hfuel; lia |]).
  - cbn in Hf. destruct Hf as [Hf _]. apply nxt_Some in Hf as (c & Hc & Hn).
    cbn [remove_ring_loop]. rewrite (load_Some _ _ _ Hc). cbn [rbind].
    pose proof (Hno cur ltac:(set_solver)) as Hcur. unfold dat in Hcur. rewrite Hc in Hcur.
    cbn in Hcur. rewrite Hcur, Hn.
    destruct (p =? 0) eqn:E0; [apply Z.eqb_eq in E0; set_solver |].
    destruct (p =? start) eqn:E1; [apply Z.eqb_eq in E1; set_solver |].
    destruct fuel as [| fuel]; [cbn in Hfuel; lia |].
    apply (remove_ring_loop_here _ _ _ _ _ _ cp); [exact Hcp |].
    unfold dat in Hyes. by rewrite Hcp in Hyes.
  - cbn [app] in Hf. rewrite fwd_cons in Hf. destruct Hf as [Hf Hrest].
    apply nxt_Some in Hf as (c & Hc & Hn).
    cbn [remove_ring_loop]. rewrite (load_Some _ _ _ Hc). cbn [rbind].
    pose proof (Hno cur ltac:(set_solver)) as Hcur. unfold dat in Hcur. rewrite Hc in Hcur.
    cbn in Hcur. rewrite Hcur, Hn.
    destruct (r =? 0) eqn:E0; [apply Z.eqb_eq in E0; set_solver |].
    destruct (r =? start) eqn:E1; [apply Z.eqb_eq in E1; set_solver |].
    apply IH; try assumption; try (eexists; eassumption).
    + intros q Hq. apply Hno. set_solver.
    + set_solver.
    + set_solver.
    + cbn in Hfuel. lia.
Qed.



(** ** Field writes as map alterations *)

Lemma update_alter st p f :
  is_Some (mem st !! p) → update p f st = Ok (on_mem (alter f p) st).
Proof.
  intros [c Hc]. rewrite (update_Some _ _ _ _ Hc). f_equal. unfold on_mem. f_equal.
  by apply alter_insert_same.
Qed.

Lemma is_Some_alter (m : gmap Z zerolist_node_t) f p q :
  is_Some (alter f p m !! q) ↔ is_Some (m !! q).
Proof.
  destruct (decide (p = q)) as [-> | Hne].
  - rewrite lookup_alter_eq. destruct (m !! q); cbn; split; intros [? ?]; eauto; discriminate.
  - by rewrite lookup_alter_ne.
Qed.

Lemma nxt_alter_set_next m p q v :
  nxt (alter (set_next v) p m) q
  = if decide (p = q) then (if m !! q then Some v else None) else nxt m q.
Proof.
  unfold nxt. case_decide as E.
  - subst. rewrite lookup_alter_eq. by destruct (m !! q).
  - by rewrite lookup_alter_ne.
Qed.

Lemma prv_alter_set_prev m p q v :
  prv (alter (set_prev v) p m) q
  = if decide (p = q) then (if m !! q then Some v else None) else prv m q.
Proof.
  unfold prv. case_decide as E.
  - subst. rewrite lookup_alter_eq. by destruct (m !! q).
  - by rewrite lookup_alter_ne.
Qed.

Lemma nxt_alter_keep m p q f :
  (∀ c, next (f c) = next c) → nxt (alter f p m) q = nxt m q.
Proof.
  intros Hf. unfold nxt. destruct (decide (p = q)) as [-> | Hne].
  - rewrite lookup_alter_eq. destruct (m !! q); cbn; by rewrite ?Hf.
  - by rewrite lookup_alter_ne.
Qed.

Lemma prv_alter_keep m p q f :
  (∀ c, prev (f c) = prev c) → prv (alter f p m) q = prv m q.
Proof.
  intros Hf. unfold prv. destruct (decide (p = q)) as [-> | Hne].
  - rewrite lookup_alter_eq. destruct (m !! q); cbn; by rewrite ?Hf.
  - by rewrite lookup_alter_ne.
Qed.

Lemma dat_alter_keep m p q f :
  (∀ c, data (f c) = data c) → dat (alter f p m) q = dat m q.
Proof.
  intros Hf. unfold dat. destruct (decide (p = q)) as [-> | Hne].
  - rewrite lookup_alter_eq. destruct (m !! q); cbn; by rewrite ?Hf.
  - by rewrite lookup_alter_ne.
Qed.

Lemma nxt_alter_set_prev m p q v : nxt (alter (set_prev v) p m) q = nxt m q.
Proof. by apply nxt_alter_keep. Qed.

Lemma prv_alter_set_next m p q v : prv (alter (set_next v) p m) q = prv m q.
Proof. by apply prv_alter_keep. Qed.

Lemma nxt_is_Some m p : is_Some (nxt m p) ↔ is_Some (m !! p).
Proof. unfold nxt. destruct (m !! p); cbn; split; intros [? ?]; eauto; discriminate. Qed.

(** ** Memories that differ in links only *)

Lemma links_only_refl m : links_only m m.
Proof. intros q. by destruct (m !! q). Qed.

Lemma links_only_trans m1 m2 m3 : links_only m1 m2 → links_only m2 m3 → links_only m1 m3.
Proof.
  intros H12 H23 q. specialize (H12 q). specialize (H23 q).
  destruct (m1 !! q), (m2 !! q), (m3 !! q); try done.
  destruct H12 as (? & ? & ?), H23 as (? & ? & ?). repeat split; congruence.
Qed.

Lemma links_only_alter m p f :
  (∀ c, data (f c) = data c ∧ in_use (f c) = in_use c ∧ index (f c) = index c) →
  links_only m (alter f p m).
Proof.
  intros Hf q. destruct (decide (p = q)) as [-> | Hne].
  - rewrite lookup_alter_eq. destruct (m !! q) as [c |]; cbn; [| done].
    destruct (Hf c) as (? & ? & ?). by repeat split.
  - rewrite lookup_alter_ne by done. by destruct (m !! q).
Qed.

Lemma links_only_set_next m p v : links_only m (alter (set_next v) p m).
Proof. apply links_only_alter. intros c. by repeat split. Qed.

Lemma links_only_set_prev m p v : links_only m (alter (set_prev v) p m).
Proof. apply links_only_alter. intros c. by repeat split. Qed.

Lemma links_only_mapped m m' q : links_only m m' → is_Some (m' !! q) ↔ is_Some (m !! q).
Proof.
  intros H. specialize (H q). destruct (m !! q), (m' !! q); try done;
    split; intros [? ?]; eauto; discriminate.
Qed.

Lemma links_only_dat m m' q : links_only m m' → dat m' q = dat m q.
Proof.
  intros H. specialize (H q). unfold dat. destruct (m !! q), (m' !! q); try done.
  cbn. destruct H as (-> & _). reflexivity.
Qed.

Lemma links_only_in_use m m' q : links_only m m' → (in_use <$> m' !! q) = (in_use <$> m !! q).
Proof.
  intros H. specialize (H q). destruct (m !! q), (m' !! q); try done.
  cbn. destruct H as (_ & -> & _). reflexivity.
Qed.

Lemma links_only_payloads m m' ps : links_only m m' → payloads m' ps = payloads m ps.
Proof.
  intros H. unfold payloads. apply map_ext. intros p. by rewrite (links_only_dat m m').
Qed.


(** ** Splicing a node into a ring, and out of it *)

Lemma nxt_splice_before m pos n q :
  is_Some (m !! n) → is_Some (m !! default 0 (prv m pos)) →
  nxt (splice_before pos n m) q
  = if decide (default 0 (prv m pos) = q) then Some n
    else if decide (n = q) then Some pos else nxt m q.
Proof.
  intros Hn Hpp. unfold splice_before.
  rewrite nxt_alter_set_prev, nxt_alter_set_next.
  case_decide as E1.
  - subst q. match goal with |- context [if ?o then _ else _] => assert (Hs : is_Some o) by (rewrite !is_Some_alter; exact Hpp) end. destruct Hs as [? ->]. reflexivity.
  - rewrite nxt_alter_set_next. case_decide as E2.
    + subst q. match goal with |- context [if ?o then _ else _] => assert (Hs : is_Some o) by (rewrite !is_Some_alter; exact Hn) end. destruct Hs as [? ->]. reflexivity.
    + apply nxt_alter_set_prev.
Qed.

Lemma prv_splice_before m pos n q :
  is_Some (m !! n) → is_Some (m !! pos) →
  prv (splice_before pos n m) q
  = if decide (pos = q) then Some n
    else if decide (n = q) then Some (default 0 (prv m pos)) else prv m q.
Proof.
  intros Hn Hpos. unfold splice_before.
  rewrite prv_alter_set_prev. case_decide as E1.
  - subst q. match goal with |- context [if ?o then _ else _] => assert (Hs : is_Some o) by (rewrite !is_Some_alter; exact Hpos) end. destruct Hs as [? ->]. reflexivity.
  - rewrite !prv_alter_set_next, prv_alter_set_prev. case_decide as E2; [| reflexivity].
    subst q. destruct Hn as [? ->]. reflexivity.
Qed.

Lemma nxt_splice_after m pos n q :
  is_Some (m !! n) → is_Some (m !! pos) →
  nxt (splice_after pos n m) q
  = if decide (pos = q) then Some n
    else if decide (n = q) then Some (default 0 (nxt m pos)) else nxt m q.
Proof.
  intros Hn Hpos. unfold splice_after.
  rewrite nxt_alter_set_next. case_decide as E1.
  - subst q. match goal with |- context [if ?o then _ else _] => assert (Hs : is_Some o) by (rewrite !is_Some_alter; exact Hpos) end. destruct Hs as [? ->]. reflexivity.
  - rewrite !nxt_alter_set_prev, nxt_alter_set_next. case_decide as E2; [| reflexivity].
    subst q. destruct Hn as [? ->]. reflexivity.
Qed.

Lemma prv_splice_after m pos n q :
  is_Some (m !! n) → is_Some (m !! default 0 (nxt m pos)) →
  prv (splice_after pos n m) q
  = if decide (default 0 (nxt m pos) = q) then Some n
    else if decide (n = q) then Some pos else prv m q.
Proof.
  intros Hn Hnn. unfold splice_after.
  rewrite prv_alter_set_next, prv_alter_set_prev.
  case_decide as E1.
  - subst q. match goal with |- context [if ?o then _ else _] => assert (Hs : is_Some o) by (rewrite !is_Some_alter; exact Hnn) end. destruct Hs as [? ->]. reflexivity.
  - rewrite prv_alter_set_prev. case_decide as E2.
    + subst q. match goal with |- context [if ?o then _ else _] => assert (Hs : is_Some o) by (rewrite !is_Some_alter; exact Hn) end. destruct Hs as [? ->]. reflexivity.
    + apply prv_alter_set_next.
Qed.

Lemma nxt_unlink m c q :
  is_Some (m !! default 0 (prv m c)) →
  nxt (unlink c m) q
  = if decide (default 0 (prv m c) = q) then Some (default 0 (nxt m c)) else nxt m q.
Proof.
  intros Hpp. unfold unlink. rewrite nxt_alter_set_prev, nxt_alter_set_next.
  case_decide as E1; [| reflexivity]. subst q. destruct Hpp as [? ->]. reflexivity.
Qed.

Lemma prv_unlink m c q :
  is_Some (m !! default 0 (nxt m c)) →
  prv (unlink c m) q
  = if decide (default 0 (nxt m c) = q) then Some (default 0 (prv m c)) else prv m q.
Proof.
  intros Hnn. unfold unlink. rewrite prv_alter_set_prev.
  case_decide as E1; [| apply prv_alter_set_next].
  subst q. match goal with |- context [if ?o then _ else _] => assert (Hs : is_Some o) by (rewrite !is_Some_alter; exact Hnn) end. destruct Hs as [? ->]. reflexivity.
Qed.

Lemma links_only_splice_before m pos n : links_only m (splice_before pos n m).
Proof.
  unfold splice_before.
  repeat (eapply links_only_trans;
          [| first [apply links_only_set_next | apply links_only_set_prev]]).
  apply links_only_refl.
Qed.

Lemma links_only_splice_after m pos n : links_only m (splice_after pos n m).
Proof.
  unfold splice_after.
  repeat (eapply links_only_trans;
          [| first [apply links_only_set_next | apply links_only_set_prev]]).
  apply links_only_refl.
Qed.

Lemma links_only_unlink m c : links_only m (unlink c m).
Proof.
  unfold unlink.
  repeat (eapply links_only_trans;
          [| first [apply links_only_set_next | apply links_only_set_prev]]).
  apply links_only_refl.
Qed.

(** A non-empty list seen from its last element. *)
Lemma snoc_view (x : Z) l : ∃ init, x :: l = init ++ [List.last l x].
Proof.
  destruct (exists_last (l := x :: l) ltac:(discriminate)) as (init & y & E).
  exists init. rewrite E. f_equal. f_equal.
  replace (List.last l x) with (List.last (x :: l) x) by (destruct l; reflexivity).
  rewrite E. by rewrite last_last.
Qed.

Lemma NoDup_snoc_notin (init : list Z) y : NoDup (init ++ [y]) → y ∉ init.
Proof.
  intros H Hin. apply NoDup_app in H as (_ & H & _). apply (H y Hin). set_solver.
Qed.

Lemma ring_splice_before m pos rest n :
  ring m (pos :: rest) → n ∉ pos :: rest → n ≠ 0 → is_Some (m !! n) →
  ring (splice_before pos n m) (n :: pos :: rest).
Proof.
  intros Hr Hn Hn0 Hmn.
  pose proof (ring_prev_head _ _ _ Hr) as Hpp.
  pose proof (ring_mapped _ _ pos Hr ltac:(set_solver)) as Hmpos.
  destruct (snoc_view pos rest) as [init Einit].
  set (pp := List.last rest pos) in *.
  assert (Hppin : pp ∈ pos :: rest) by (rewrite Einit; set_solver).
  pose proof (ring_mapped _ _ pp Hr Hppin) as Hmpp.
  apply ring_cons_unfold in Hr as (Hnd & H0 & Hf & Hb); cbn [hd] in Hf, Hb.
  assert (Epp : default 0 (prv m pos) = pp) by (by rewrite Hpp).
  assert (Hnx : ∀ q, nxt (splice_before pos n m) q
                     = if decide (pp = q) then Some n
                       else if decide (n = q) then Some pos else nxt m q).
  { intros q. rewrite nxt_splice_before; rewrite ?Epp; done. }
  assert (Hpv : ∀ q, prv (splice_before pos n m) q
                     = if decide (pos = q) then Some n
                       else if decide (n = q) then Some pp else prv m q).
  { intros q. rewrite prv_splice_before; rewrite ?Epp; done. }
  apply ring_cons_unfold. split; [| split; [| split]].
  - apply NoDup_cons. split; assumption.
  - set_solver.
  - change (n :: (pos :: rest) ++ [n]) with (n :: ((pos :: rest) ++ [n])).
    change ((pos :: rest) ++ [n]) with (pos :: (rest ++ [n])).
    rewrite fwd_cons. split.
    + rewrite Hnx. case_decide; [set_solver |]. by rewrite decide_True.
    + change (pos :: rest ++ [n]) with ((pos :: rest) ++ [n]).
      change (pos :: rest ++ [pos]) with ((pos :: rest) ++ [pos]) in Hf.
      rewrite Einit in Hf |- *. rewrite Einit in Hnd.
      rewrite <- app_assoc in Hf |- *. cbn [app] in Hf |- *.
      apply fwd_snoc in Hf as [Hf1 Hf2]. apply fwd_snoc. split.
      * eapply fwd_ext; [| exact Hf1]. intros p Hp. rewrite Hnx.
        pose proof (NoDup_snoc_notin _ _ Hnd).
        case_decide; [set_solver |]. case_decide; [| reflexivity].
        subst p. exfalso. apply Hn. rewrite Einit. set_solver.
      * rewrite Hnx. by rewrite decide_True.
  - change (n :: (pos :: rest) ++ [n]) with (n :: pos :: (rest ++ [n])).
    rewrite bwd_cons. split.
    + rewrite Hpv. by rewrite decide_True.
    + change (pos :: rest ++ [n]) with ((pos :: rest) ++ [n]).
      rewrite Einit. rewrite <- app_assoc. cbn [app]. apply bwd_snoc. split.
      * rewrite <- Einit.
        change (pos :: rest ++ [pos]) with ((pos :: rest) ++ [pos]) in Hb.
        assert (Hb' : bwd m (pos :: rest)) by (by apply bwd_app_l in Hb).
        eapply bwd_ext; [| exact Hb']. intros p Hp. rewrite Hpv.
        apply NoDup_cons in Hnd as [Hpos _].
        case_decide; [set_solver |]. case_decide; [| reflexivity].
        subst p. set_solver.
      * rewrite Hpv. case_decide; [set_solver |]. by rewrite decide_True.
Qed.

Lemma ring_splice_after m pos rest n :
  ring m (pos :: rest) → n ∉ pos :: rest → n ≠ 0 → is_Some (m !! n) →
  ring (splice_after pos n m) (pos :: n :: rest).
Proof.
  intros Hr Hn Hn0 Hmn.
  pose proof (ring_next_head _ _ _ Hr) as Hnn.
  pose proof (ring_mapped _ _ pos Hr ltac:(set_solver)) as Hmpos.
  set (nn := hd pos rest) in *.
  assert (Hnnin : nn ∈ pos :: rest) by (unfold nn; destruct rest; cbn; set_solver).
  pose proof (ring_mapped _ _ nn Hr Hnnin) as Hmnn.
  apply ring_cons_unfold in Hr as (Hnd & H0 & Hf & Hb); cbn [hd] in Hf, Hb.
  assert (Enn : default 0 (nxt m pos) = nn) by (by rewrite Hnn).
  assert (Hnx : ∀ q, nxt (splice_after pos n m) q
                     = if decide (pos = q) then Some n
                       else if decide (n = q) then Some nn else nxt m q).
  { intros q. rewrite nxt_splice_after; rewrite ?Enn; done. }
  assert (Hpv : ∀ q, prv (splice_after pos n m) q
                     = if decide (nn = q) then Some n
                       else if decide (n = q) then Some pos else prv m q).
  { intros q. rewrite prv_splice_after; rewrite ?Enn; done. }
  apply NoDup_cons in Hnd as Hnd'. destruct Hnd' as [Hpos Hndr].
  apply ring_cons_unfold. split; [| split; [| split]].
  - apply NoDup_cons. split; [set_solver |]. apply NoDup_cons. split; [set_solver | assumption].
  - set_solver.
  - change (pos :: (n :: rest) ++ [pos]) with (pos :: n :: (rest ++ [pos])).
    rewrite fwd_cons. split; [rewrite Hnx; by rewrite decide_True |].
    pose proof (fwd_app_r m [pos] (rest ++ [pos]) Hf) as Hf'.
    destruct rest as [| r rest'].
    + cbn. split; [| exact I]. rewrite Hnx.
      case_decide; [set_solver |]. by rewrite decide_True.
    + cbn [app]. rewrite fwd_cons. split.
      * rewrite Hnx. case_decide; [set_solver |]. by rewrite decide_True.
      * change (r :: rest' ++ [pos]) with ((r :: rest') ++ [pos]).
        eapply fwd_ext; [| exact Hf']. intros p Hp. rewrite Hnx.
        case_decide; [set_solver |]. case_decide; [set_solver | reflexivity].
  - change (pos :: (n :: rest) ++ [pos]) with (pos :: n :: (rest ++ [pos])).
    rewrite bwd_cons. split.
    + rewrite Hpv. case_decide as E; [| by rewrite decide_True].
      exfalso. apply Hn. rewrite <- E. exact Hnnin.
    + destruct rest as [| r rest'].
      * cbn. split; [| exact I]. rewrite Hpv. by rewrite decide_True.
      * cbn [app]. rewrite bwd_cons. split; [rewrite Hpv; by rewrite decide_True |].
        cbn [app] in Hb. rewrite bwd_cons in Hb. destruct Hb as [_ Hb].
        eapply bwd_ext; [| exact Hb]. intros p Hp. rewrite Hpv.
        apply NoDup_cons in Hndr as [Hr' _].
        case_decide as E1.
        { subst p. unfold nn in Hp. cbn in Hp. set_solver. }
        case_decide; [| reflexivity]. subst p. set_solver.
Qed.

Lemma ring_unlink m c rest :
  ring m (c :: rest) → rest ≠ [] → ring (unlink c m) rest.
Proof.
  intros Hr Hne.
  pose proof (ring_next_head _ _ _ Hr) as Hnn.
  pose proof (ring_prev_head _ _ _ Hr) as Hpp.
  destruct rest as [| r rest']; [done |]. cbn [hd] in Hnn.
  destruct (snoc_view r rest') as [init Einit].
  assert (Elast : List.last (r :: rest') c = List.last rest' r).
  { change (List.last (r :: rest') c) with (List.last (r :: rest') c).
    rewrite Einit. by rewrite last_last. }
  rewrite Elast in Hpp. set (pp := List.last rest' r) in *.
  assert (Hppin : pp ∈ r :: rest') by (rewrite Einit; set_solver).
  pose proof (ring_mapped _ _ pp Hr ltac:(set_solver)) as Hmpp.
  pose proof (ring_mapped _ _ r Hr ltac:(set_solver)) as Hmr.
  apply ring_cons_unfold in Hr as (Hnd & H0 & Hf & Hb); cbn [hd] in Hf, Hb.
  assert (Epp : default 0 (prv m c) = pp) by (by rewrite Hpp).
  assert (Enn : default 0 (nxt m c) = r) by (by rewrite Hnn).
  assert (Hnx : ∀ q, nxt (unlink c m) q = if decide (pp = q) then Some r else nxt m q).
  { intros q. rewrite nxt_unlink; rewrite ?Epp, ?Enn; done. }
  assert (Hpv : ∀ q, prv (unlink c m) q = if decide (r = q) then Some pp else prv m q).
  { intros q. rewrite prv_unlink; rewrite ?Epp, ?Enn; done. }
  apply NoDup_cons in Hnd as [Hc Hnd].
  apply ring_cons_unfold. split; [| split; [| split]].
  - assumption.
  - set_solver.
  - change (r :: rest' ++ [r]) with ((r :: rest') ++ [r]).
    rewrite Einit. rewrite <- app_assoc. cbn [app]. apply fwd_snoc. split.
    + apply (fwd_app_r m [c] ((r :: rest') ++ [c])) in Hf.
      apply (fwd_app_l m (r :: rest') [c]) in Hf. rewrite Einit in Hf, Hnd.
      eapply fwd_ext; [| exact Hf]. intros p Hp. rewrite Hnx.
      pose proof (NoDup_snoc_notin _ _ Hnd).
      case_decide; [set_solver | reflexivity].
    + rewrite Hnx. by rewrite decide_True.
  - change (r :: rest' ++ [r]) with ((r :: rest') ++ [r]).
    rewrite Einit. rewrite <- app_assoc. cbn [app]. apply bwd_snoc. split.
    + rewrite <- Einit.
      apply (bwd_app_r m [c] ((r :: rest') ++ [c])) in Hb.
      apply (bwd_app_l m (r :: rest') [c]) in Hb.
      eapply bwd_ext; [| exact Hb]. intros p Hp. rewrite Hpv.
      apply NoDup_cons in Hnd as [Hr' _].
      case_decide; [set_solver | reflexivity].
    + rewrite Hpv. by rewrite decide_True.
Qed.

(** The same at any position of the ring. *)
Lemma ring_splice_before_at m l1 pos l2 n :
  ring m (l1 ++ pos :: l2) → n ∉ l1 ++ pos :: l2 → n ≠ 0 → is_Some (m !! n) →
  ring (splice_before pos n m) (l1 ++ n :: pos :: l2).
Proof.
  intros Hr Hn Hn0 Hmn. apply ring_rotate in Hr. cbn [app] in Hr.
  apply (ring_splice_before _ _ _ n) in Hr; [| set_solver | assumption | assumption].
  change (n :: pos :: l2 ++ l1) with ((n :: pos :: l2) ++ l1) in Hr.
  by apply ring_rotate in Hr.
Qed.

Lemma ring_splice_after_at m l1 pos l2 n :
  ring m (l1 ++ pos :: l2) → n ∉ l1 ++ pos :: l2 → n ≠ 0 → is_Some (m !! n) →
  ring (splice_after pos n m) (l1 ++ pos :: n :: l2).
Proof.
  intros Hr Hn Hn0 Hmn. apply ring_rotate in Hr. cbn [app] in Hr.
  apply (ring_splice_after _ _ _ n) in Hr; [| set_solver | assumption | assumption].
  change (pos :: n :: l2 ++ l1) with ((pos :: n :: l2) ++ l1) in Hr.
  by apply ring_rotate in Hr.
Qed.

Lemma ring_unlink_at m l1 c l2 :
  ring m (l1 ++ c :: l2) → l1 ++ l2 ≠ [] → ring (unlink c m) (l1 ++ l2).
Proof.
  intros Hr Hne. apply ring_rotate in Hr. cbn [app] in Hr.
  apply ring_unlink in Hr.
  - by apply ring_rotate in Hr.
  - intros E. apply app_eq_nil in E as [-> ->]. done.
Qed.


(** ** Neighbours at any position of a ring *)

Lemma hd_in (p : Z) l : hd p l ∈ p :: l.
Proof. destruct l; cbn; set_solver. Qed.

Lemma last_in (p : Z) l : List.last l p ∈ p :: l.
Proof.
  destruct (snoc_view p l) as [init E]. rewrite E. set_solver.
Qed.

Lemma ring_at_next m l1 p l2 : ring m (l1 ++ p :: l2) → nxt m p = Some (hd p (l2 ++ l1)).
Proof. intros H. apply ring_rotate in H. by apply ring_next_head in H. Qed.

Lemma ring_at_prev m l1 p l2 : ring m (l1 ++ p :: l2) → prv m p = Some (List.last (l2 ++ l1) p).
Proof. intros H. apply ring_rotate in H. by apply ring_prev_head in H. Qed.

Lemma ring_NoDup m ps : ring m ps → NoDup ps.
Proof. by intros (H & _). Qed.

Lemma ring_nonzero m ps p : ring m ps → p ∈ ps → p ≠ 0.
Proof. intros (_ & H & _) Hp ->. done. Qed.

Lemma ring_single m n c :
  n ≠ 0 → m !! n = Some c → next c = n → prev c = n → ring m [n].
Proof.
  intros Hn Hc Hnx Hpv. unfold ring. cbn [hd app].
  split; [| split; [| split]].
  - repeat constructor. set_solver.
  - set_solver.
  - cbn. unfold nxt. rewrite Hc. cbn. by rewrite Hnx.
  - cbn. unfold prv. rewrite Hc. cbn. by rewrite Hpv.
Qed.

(** ** Sequence-level insertion and removal *)

Lemma ins_before_split pos n l1 l2 :
  pos ∉ l1 → ins_before pos n (l1 ++ pos :: l2) = l1 ++ n :: pos :: l2.
Proof.
  induction l1 as [| a l1 IH]; intros Hp; cbn [app ins_before].
  - by rewrite Z.eqb_refl.
  - destruct (a =? pos) eqn:E; [apply Z.eqb_eq in E; set_solver |].
    f_equal. apply IH. set_solver.
Qed.

Lemma ins_after_split pos n l1 l2 :
  pos ∉ l1 → ins_after pos n (l1 ++ pos :: l2) = l1 ++ pos :: n :: l2.
Proof.
  induction l1 as [| a l1 IH]; intros Hp; cbn [app ins_after].
  - by rewrite Z.eqb_refl.
  - destruct (a =? pos) eqn:E; [apply Z.eqb_eq in E; set_solver |].
    f_equal. apply IH. set_solver.
Qed.

Lemma without_split c l1 l2 : c ∉ l1 → without c (l1 ++ c :: l2) = l1 ++ l2.
Proof.
  induction l1 as [| a l1 IH]; intros Hp; cbn [app without].
  - by rewrite Z.eqb_refl.
  - destruct (a =? c) eqn:E; [apply Z.eqb_eq in E; set_solver |].
    f_equal. apply IH. set_solver.
Qed.

Lemma NoDup_split_notin (l1 : list Z) p l2 : NoDup (l1 ++ p :: l2) → p ∉ l1 ∧ p ∉ l2.
Proof.
  intros H. apply NoDup_app in H as (_ & H1 & H2). apply NoDup_cons in H2 as [H2 _].
  split; [| exact H2]. intros Hin. apply (H1 p Hin). set_solver.
Qed.

(** ** [_zerolist_detach_node] *)

Lemma same_store_refl l : same_store l l.
Proof. by repeat split. Qed.

Lemma same_store_with_head l v : same_store l (with_head v l).
Proof. by repeat split. Qed.

Lemma detach_node_spec st l1 c l2 :
  holds st (l1 ++ c :: l2) →
  ∃ st', _zerolist_detach_node c st = Ok st'
         ∧ holds st' (l1 ++ l2)
         ∧ links_only (mem st) (mem st')
         ∧ mem st' !! c = mem st !! c
         ∧ same_store (lst st) (lst st')
         ∧ size (lst st') = size (lst st).
Proof.
  intros [Hr Hh].
  pose proof (ring_nonzero _ _ c Hr ltac:(set_solver)) as Hc0.
  pose proof (ring_at_next _ _ _ _ Hr) as Hnn.
  pose proof (ring_at_prev _ _ _ _ Hr) as Hpp.
  pose proof (NoDup_split_notin _ _ _ (ring_NoDup _ _ Hr)) as [Hc1 Hc2].
  apply nxt_Some in Hnn as (cn & Hcn & Hnn).
  apply prv_Some in Hpp as (cn' & Hcn' & Hpp). rewrite Hcn in Hcn'. injection Hcn' as <-.
  unfold _zerolist_detach_node. apply Z.eqb_neq in Hc0 as Hc0'. rewrite Hc0'.
  rewrite (load_Some _ _ _ Hcn). cbn [rbind].
  destruct (decide (l2 ++ l1 = [])) as [Hnil | Hne].
  - apply app_eq_nil in Hnil as [-> ->]. cbn [hd app] in *.
    rewrite Hnn, Z.eqb_refl. eexists. split; [reflexivity |].
    split; [| split; [apply links_only_refl | split; [reflexivity | split;
      [apply same_store_with_head | reflexivity]]]].
    split; [apply ring_nil | reflexivity].
  - assert (Hnnin : next cn ∈ l2 ++ l1).
    { rewrite Hnn. destruct (l2 ++ l1) as [| x l] eqn:E; [done |]. cbn. set_solver. }
    assert (Hppin : prev cn ∈ l2 ++ l1).
    { rewrite Hpp. destruct (l2 ++ l1) as [| x l] eqn:E; [done |].
      destruct (snoc_view x l) as [init Ei].
      replace (List.last (x :: l) c) with (List.last l x).
      - rewrite Ei. set_solver.
      - rewrite Ei. by rewrite last_last. }
    assert (Hnc : next cn ≠ c) by (intros E; rewrite E in Hnnin; set_solver).
    assert (Hpc : prev cn ≠ c) by (intros E; rewrite E in Hppin; set_solver).
    assert (Hn0 : next cn ≠ 0).
    { apply (ring_nonzero _ _ _ Hr). set_solver. }
    assert (Hp0 : prev cn ≠ 0).
    { apply (ring_nonzero _ _ _ Hr). set_solver. }
    apply Z.eqb_neq in Hnc as Hnc', Hn0 as Hn0', Hp0 as Hp0'.
    rewrite Hnc', Hn0', Hp0'. cbn [orb].
    assert (Hmp : is_Some (mem st !! prev cn)) by (apply (ring_mapped _ _ _ Hr); set_solver).
    assert (Hmn : is_Some (mem st !! next cn)) by (apply (ring_mapped _ _ _ Hr); set_solver).
    rewrite (update_alter _ _ _ Hmp). cbn [rbind].
    assert (Hcn1 : mem (on_mem (alter (set_next (next cn)) (prev cn)) st) !! c = Some cn).
    { cbn [mem on_mem]. by rewrite lookup_alter_ne. }
    rewrite (load_Some _ _ _ Hcn1). cbn [rbind].
    rewrite update_alter by (cbn [mem on_mem]; by rewrite is_Some_alter).
    cbn [rbind].
    assert (Emem : mem (on_mem (alter (set_prev (prev cn)) (next cn))
                          (on_mem (alter (set_next (next cn)) (prev cn)) st))
                   = unlink c (mem st)).
    { cbn [mem on_mem]. unfold unlink, nxt, prv. rewrite Hcn. reflexivity. }
    assert (Hring : ring (unlink c (mem st)) (l1 ++ l2)).
    { apply ring_unlink_at; [exact Hr |]. intros E. apply Hne.
      apply app_eq_nil in E as [-> ->]. reflexivity. }
    assert (Hc' : unlink c (mem st) !! c = Some cn).
    { rewrite <- Emem. cbn [mem on_mem]. by rewrite !lookup_alter_ne. }
    cbn [lst on_mem].
    destruct (c =? head (lst st)) eqn:Ehead.
    + apply Z.eqb_eq in Ehead.
      assert (l1 = []) as ->.
      { destruct l1 as [| a l1]; [reflexivity |]. cbn [app hd] in Hh. set_solver. }
      rewrite load_Some with (n := cn) by (rewrite Emem; exact Hc').
      cbn [rbind]. eexists. split; [reflexivity |].
      cbn [lst mem on_lst on_mem app] in *.
      split; [| split; [| split; [| split; [apply same_store_with_head | reflexivity]]]].
      * unfold holds. cbn [lst mem on_lst on_mem]. rewrite Emem.
        split; [exact Hring |]. cbn [lst with_head head]. rewrite Hnn.
        rewrite app_nil_r in *. destruct l2; [done | reflexivity].
      * rewrite Emem. apply links_only_unlink.
      * rewrite Emem. by rewrite Hc'.
    + apply Z.eqb_neq in Ehead.
      eexists. split; [reflexivity |].
      split; [| split; [| split; [| split; [apply same_store_refl | reflexivity]]]].
      * unfold holds. rewrite Emem. split; [exact Hring |].
        cbn [lst on_mem]. rewrite Hh.
        destruct l1 as [| a l1]; [cbn [app hd] in Hh; congruence | reflexivity].
      * rewrite Emem. apply links_only_unlink.
      * rewrite Emem. by rewrite Hc'.
Qed.

(** ** Linking an acquired node into the ring *)

Lemma holds_first st h t : holds st (h :: t) → head (lst st) = h ∧ h ≠ 0.
Proof.
  intros [Hr Hh]. split; [exact Hh |]. apply (ring_nonzero _ _ _ Hr). set_solver.
Qed.

Lemma insert_link_spec cfg st ps n pos before :
  holds st ps → n ∉ ps → n ≠ 0 → is_Some (mem st !! n) → pos = 0 ∨ pos ∈ ps →
  ∃ st', insert_link cfg n pos before st = Ok (st', true)
         ∧ holds st' (inserted before pos n ps)
         ∧ links_only (mem st) (mem st')
         ∧ same_store (lst st) (lst st')
         ∧ size (lst st')
           = (if ZEROLIST_SIZE_ENABLE cfg
              then (if decide (ps = []) then 1 else to_TYPE cfg (size (lst st) + 1))
              else size (lst st)).
Proof.
  intros Hholds Hn Hn0 Hmn Hpos. unfold insert_link.
  destruct ps as [| h t].
  - destruct Hholds as [_ Hh]. cbn [hd] in Hh. rewrite Hh. cbn [Z.eqb].
    rewrite update_alter by exact Hmn. cbn [rbind].
    rewrite update_alter by (cbn [mem on_mem on_lst]; by rewrite is_Some_alter).
    cbn [rbind]. eexists. split; [reflexivity |].
    split; [| split; [| split]].
    + destruct Hmn as [c Hc].
      assert (Hring : ring (alter (set_next n) n (alter (set_prev n) n (mem st))) [n]).
      { apply (ring_single _ _ (set_next n (set_prev n c))); try done.
        rewrite lookup_alter_eq, lookup_alter_eq, Hc. reflexivity. }
      destruct (ZEROLIST_SIZE_ENABLE cfg); (split; [exact Hring | reflexivity]).
    + assert (Hl : links_only (mem st) (alter (set_next n) n (alter (set_prev n) n (mem st)))).
      { eapply links_only_trans; [apply links_only_set_prev | apply links_only_set_next]. }
      destruct (ZEROLIST_SIZE_ENABLE cfg); exact Hl.
    + destruct (ZEROLIST_SIZE_ENABLE cfg); by repeat split.
    + destruct (ZEROLIST_SIZE_ENABLE cfg); [by rewrite decide_True | reflexivity].
  - destruct (holds_first _ _ _ Hholds) as [Hh Hh0]. destruct Hholds as [Hr _].
    apply Z.eqb_neq in Hh0 as Hh0'. rewrite Hh, Hh0'.
    pose proof (ring_prev_head _ _ _ Hr) as Hlast.
    apply prv_Some in Hlast as (ch & Hch & Hlast).
    (* the position that the code settles on *)
    set (pos' := if pos =? 0 then (if before then h else List.last t h) else pos).
    assert (Epos : (if pos =? 0
                    then if before then Ok h
                         else rbind (load st h) (λ h0, Ok (prev h0))
                    else Ok pos) = Ok pos').
    { unfold pos'. destruct (pos =? 0); [| reflexivity].
      destruct before; [reflexivity |].
      rewrite (load_Some _ _ _ Hch). cbn [rbind]. by rewrite Hlast. }
    rewrite Epos. cbn [rbind].
    assert (Hpin : pos' ∈ h :: t).
    { unfold pos'. destruct (pos =? 0) eqn:E.
      - destruct before; [set_solver | apply last_in].
      - apply Z.eqb_neq in E. destruct Hpos; [done | assumption]. }
    apply list_elem_of_split in Hpin as (l1 & l2 & Esplit).
    rewrite Esplit in Hr, Hn.
    pose proof (NoDup_split_notin _ _ _ (ring_NoDup _ _ Hr)) as [Hp1 Hp2].
    pose proof (ring_mapped _ _ pos' Hr ltac:(set_solver)) as Hmpos.
    assert (Hnpos : n ≠ pos') by set_solver.
    assert (Hins : inserted before pos n (h :: t)
                   = if before then l1 ++ n :: pos' :: l2 else l1 ++ pos' :: n :: l2).
    { unfold inserted.
      replace (List.last (h :: t) h) with (List.last t h) by (by destruct t).
      fold pos'. rewrite Esplit.
      destruct before; [by apply ins_before_split | by apply ins_after_split]. }
    rewrite Hins.
    assert (Hsize : ∀ s, size (lst s) = size (lst st) →
              size (lst (size_incr cfg s))
              = (if ZEROLIST_SIZE_ENABLE cfg
                 then (if decide (h :: t = []) then 1 else to_TYPE cfg (size (lst st) + 1))
                 else size (lst st))).
    { intros s Hs. unfold size_incr. destruct (ZEROLIST_SIZE_ENABLE cfg); cbn; by rewrite Hs. }
    assert (Hstore : ∀ s, same_store (lst st) (lst s) → same_store (lst st) (lst (size_incr cfg s))).
    { intros s Hs. unfold size_incr. destruct (ZEROLIST_SIZE_ENABLE cfg); [| exact Hs].
      destruct Hs as (? & ? & ? & ?). by repeat split. }
    assert (Hhead : ∀ s, head (lst (size_incr cfg s)) = head (lst s)).
    { intros s. unfold size_incr. by destruct (ZEROLIST_SIZE_ENABLE cfg). }
    assert (Hmem : ∀ s, mem (size_incr cfg s) = mem s).
    { intros s. unfold size_incr. by destruct (ZEROLIST_SIZE_ENABLE cfg). }
    destruct before.
    + pose proof (ring_at_prev _ _ _ _ Hr) as Hpp.
      apply prv_Some in Hpp as (cp & Hcp & Hpp).
      assert (Hppin : prev cp ∈ l1 ++ pos' :: l2).
      { rewrite Hpp. pose proof (last_in pos' (l2 ++ l1)). set_solver. }
      pose proof (ring_mapped _ _ _ Hr Hppin) as Hmpp.
      rewrite (load_Some _ _ _ Hcp). cbn [rbind].
      rewrite update_alter by exact Hmn. cbn [rbind].
      rewrite update_alter by (cbn [mem on_mem]; by rewrite is_Some_alter). cbn [rbind].
      rewrite load_Some with (n := cp)
        by (cbn [mem on_mem]; by rewrite !lookup_alter_ne).
      cbn [rbind].
      rewrite update_alter by (cbn [mem on_mem]; by rewrite !is_Some_alter). cbn [rbind].
      rewrite update_alter by (cbn [mem on_mem]; by rewrite !is_Some_alter). cbn [rbind].
      assert (Emem : alter (set_prev n) pos'
                       (alter (set_next n) (prev cp)
                          (alter (set_next pos') n (alter (set_prev (prev cp)) n (mem st))))
                     = splice_before pos' n (mem st)).
      { unfold splice_before, prv. rewrite Hcp. reflexivity. }
      pose proof (ring_splice_before_at _ _ _ _ n Hr Hn Hn0 Hmn) as Hring.
      eexists. split; [reflexivity |].
      split; [| split; [| split]].
      * unfold holds. rewrite Hhead, Hmem.
        cbn [lst mem on_lst on_mem].
        destruct (pos' =? head (lst st)) eqn:E; cbn [lst mem on_lst on_mem with_head head];
          rewrite Emem; (split; [exact Hring |]).
        -- apply Z.eqb_eq in E. rewrite Hh in E.
           destruct l1 as [| a l1]; [reflexivity |].
           cbn [app] in Esplit. injection Esplit as -> _. set_solver.
        -- apply Z.eqb_neq in E. rewrite Hh in E |- *.
           destruct l1 as [| a l1]; cbn [app] in Esplit; injection Esplit as ? ?;
             cbn [app hd]; congruence.
      * rewrite Hmem. cbn [lst mem on_lst on_mem].
        destruct (pos' =? head (lst st)); cbn [lst mem on_lst on_mem]; rewrite Emem;
          apply links_only_splice_before.
      * apply Hstore. cbn [lst mem on_lst on_mem].
        destruct (pos' =? head (lst st)); cbn [lst on_lst on_mem];
          [apply same_store_with_head | apply same_store_refl].
      * apply Hsize. cbn [lst mem on_lst on_mem].
        by destruct (pos' =? head (lst st)).
    + pose proof (ring_at_next _ _ _ _ Hr) as Hnn.
      apply nxt_Some in Hnn as (cp & Hcp & Hnn).
      assert (Hnnin : next cp ∈ l1 ++ pos' :: l2).
      { rewrite Hnn. pose proof (hd_in pos' (l2 ++ l1)). set_solver. }
      pose proof (ring_mapped _ _ _ Hr Hnnin) as Hmnn.
      rewrite (load_Some _ _ _ Hcp). cbn [rbind].
      rewrite update_alter by exact Hmn. cbn [rbind].
      rewrite update_alter by (cbn [mem on_mem]; by rewrite is_Some_alter). cbn [rbind].
      rewrite load_Some with (n := cp)
        by (cbn [mem on_mem]; by rewrite !lookup_alter_ne).
      cbn [rbind].
      rewrite update_alter by (cbn [mem on_mem]; by rewrite !is_Some_alter). cbn [rbind].
      rewrite update_alter by (cbn [mem on_mem]; by rewrite !is_Some_alter). cbn [rbind].
      assert (Emem : alter (set_next n) pos'
                       (alter (set_prev n) (next cp)
                          (alter (set_prev pos') n (alter (set_next (next cp)) n (mem st))))
                     = splice_after pos' n (mem st)).
      { unfold splice_after, nxt. rewrite Hcp. reflexivity. }
      pose proof (ring_splice_after_at _ _ _ _ n Hr Hn Hn0 Hmn) as Hring.
      eexists. split; [reflexivity |].
      split; [| split; [| split]].
      * unfold holds. rewrite Hhead, Hmem. cbn [lst mem on_lst on_mem]. rewrite Emem.
        split; [exact Hring |]. rewrite Hh.
        destruct l1 as [| a l1]; cbn [app] in Esplit; injection Esplit as ? ?;
          cbn [app hd]; congruence.
      * rewrite Hmem. cbn [lst mem on_lst on_mem]. rewrite Emem.
        apply links_only_splice_after.
      * apply Hstore. apply same_store_refl.
      * by apply Hsize.
Qed.


(** ** The store invariant *)

Lemma same_flags_refl m : same_flags m m.
Proof. by intros q. Qed.

Lemma same_flags_trans m1 m2 m3 : same_flags m1 m2 → same_flags m2 m3 → same_flags m1 m3.
Proof. intros H12 H23 q. by rewrite H23, H12. Qed.

Lemma links_only_same_flags m m' : links_only m m' → same_flags m m'.
Proof. intros H q. by apply links_only_in_use. Qed.

Lemma same_flags_alter m p f : (∀ c, in_use (f c) = in_use c) → same_flags m (alter f p m).
Proof.
  intros Hf q. destruct (decide (p = q)) as [-> | Hne].
  - rewrite lookup_alter_eq. destruct (m !! q); cbn; by rewrite ?Hf.
  - by rewrite lookup_alter_ne.
Qed.

Lemma same_flags_mapped m m' q : same_flags m m' → is_Some (m' !! q) ↔ is_Some (m !! q).
Proof.
  intros H. specialize (H q). destruct (m !! q), (m' !! q); try done;
    split; intros [? ?]; eauto; discriminate.
Qed.

Lemma same_flags_lookup m m' q c :
  same_flags m m' → m !! q = Some c → ∃ c', m' !! q = Some c' ∧ in_use c' = in_use c.
Proof.
  intros H Hc. specialize (H q). rewrite Hc in H. destruct (m' !! q) as [c' |]; [| done].
  cbn in H. injection H as H. eauto.
Qed.

Lemma is_static_node_same cfg l l' p :
  node_buf l' = node_buf l → max_nodes l' = max_nodes l →
  _zerolist_is_static_node cfg l' p = _zerolist_is_static_node cfg l p.
Proof. intros Hb Hm. unfold _zerolist_is_static_node. by rewrite Hb, Hm. Qed.

Lemma store_inv_ext cfg st st' live live' :
  same_flags (mem st) (mem st') → same_store (lst st) (lst st') →
  (∀ p, p ∈ live' ↔ p ∈ live) →
  store_inv cfg st live → store_inv cfg st' live'.
Proof.
  intros Hfl (Hb & Hm & Ht & Hs) Hlive [Hmapped Harena]. split.
  - intros p Hp. rewrite (same_flags_mapped _ _ _ Hfl). apply Hmapped. by apply Hlive.
  - intros Hstatic. destruct (Harena Hstatic) as (Hbuf & Hmax & Hslots & Hwhere & Hstack).
    unfold arena_inv. split; [by rewrite Hb |]. split; [by rewrite Hm |].
    split; [| split].
    + intros i Hi. rewrite Hb. rewrite Hm in Hi. destruct (Hslots i Hi) as (c & Hc & Hiff).
      destruct (same_flags_lookup _ _ _ _ Hfl Hc) as (c' & Hc' & Hu).
      exists c'. split; [exact Hc' |]. rewrite Hu, Hlive. exact Hiff.
    + intros p Hp. apply Hlive in Hp. destruct (Hwhere p Hp) as [(i & Hi & ->) | [Hfb Hns]].
      * left. exists i. rewrite Hm, Hb. by split.
      * right. split; [exact Hfb |]. by rewrite (is_static_node_same cfg (lst st)).
    + intros Hfast. destruct (Hstack Hfast) as (stk & Hstk & Hrange & Hlen & Hnd & Hent).
      exists stk. rewrite Hs, Ht, Hm.
      split; [exact Hstk |]. split; [exact Hrange |]. split; [exact Hlen |].
      split; [exact Hnd |].
      intros idx Hidx. rewrite Hb, Hlive. by apply Hent.
Qed.

(** An arena slot passes the address test; the nodes of a ring in the
    arena-only builds are slots. *)
Lemma arena_slot_static cfg l p :
  config_ok cfg = true → ZEROLIST_USE_MALLOC cfg = false → 0 < node_buf l →
  arena_slot cfg l p → _zerolist_is_static_node cfg l p = true.
Proof.
  intros Hc Hm Hb (i & Hi & ->). by apply is_static_node_slot.
Qed.

(** ** Releasing a node *)

Lemma FREE_STATIC_NODE_mem {A : Type} node st c (k : state → res A) :
  node ≠ 0 → mem st !! node = Some c →
  (let* st := _ZEROLIST_NODE_SET_FREE node st in
   let* st := update node (set_data 0) st in
   let* st := update node (set_next node) st in
   let* st := update node (set_prev node) st in
   k st) = k (on_mem (<[node := freed_node node]>) st).
Proof.
  intros Hn Hc. unfold _ZEROLIST_NODE_SET_FREE.
  apply Z.eqb_neq in Hn. rewrite Hn.
  rewrite (update_Some _ _ _ _ Hc). cbn [rbind].
  erewrite update_Some by (cbn; apply lookup_insert_eq). cbn [rbind].
  erewrite update_Some by (cbn; apply lookup_insert_eq). cbn [rbind].
  erewrite update_Some by (cbn; apply lookup_insert_eq). cbn [rbind].
  f_equal. unfold on_mem. cbn [mem lst]. f_equal. by rewrite !insert_insert_eq.
Qed.

Lemma take_insert_snoc (stk : list Z) (k : nat) (v : Z) :
  (k < length stk)%nat → take (S k) (<[k := v]> stk) = take k stk ++ [v].
Proof.
  intros Hk. rewrite (take_S_r _ _ v) by (by apply list_lookup_insert_eq).
  by rewrite take_insert_ge by lia.
Qed.

Section Release.
Variable cfg : config.
Hypothesis cfg_ok : config_ok cfg = true.

Lemma free_static_spec st live live' i :
  ZEROLIST_USE_MALLOC cfg = false →
  arena_inv cfg st live → (∀ p, p ∈ live → is_Some (mem st !! p)) →
  0 ≤ i < max_nodes (lst st) → slot cfg (node_buf (lst st)) i ∈ live →
  (∀ p, p ∈ live' ↔ p ∈ live ∧ p ≠ slot cfg (node_buf (lst st)) i) →
  ∃ st', _ZEROLIST_FREE_STATIC_NODE cfg (slot cfg (node_buf (lst st)) i) i st = Ok st'
         ∧ store_inv cfg st' live'
         ∧ (∀ q, q ≠ slot cfg (node_buf (lst st)) i → mem st' !! q = mem st !! q)
         ∧ head (lst st') = head (lst st) ∧ size (lst st') = size (lst st)
         ∧ node_buf (lst st') = node_buf (lst st) ∧ max_nodes (lst st') = max_nodes (lst st).
Proof.
  intros Hstatic (Hbuf & Hmax & Hslots & Hwhere & Hstack) Hmapped Hi Hin Hlive.
  set (n := slot cfg (node_buf (lst st)) i) in *.
  assert (Hn0 : n ≠ 0).
  { pose proof (slot_ge cfg cfg_ok (node_buf (lst st)) i ltac:(lia)). unfold n. lia. }
  destruct (Hslots i Hi) as (c & Hc & _). fold n in Hc.
  set (st1 := on_mem (<[n := freed_node n]>) st).
  assert (Hl1 : lst st1 = lst st) by reflexivity.
  assert (Hm1 : mem st1 = <[n := freed_node n]> (mem st)) by reflexivity.
  unfold _ZEROLIST_FREE_STATIC_NODE.
  rewrite (FREE_STATIC_NODE_mem n st c _ Hn0 Hc). fold st1.
  (* the part of the invariant that does not depend on the stack *)
  assert (Hbase : ∀ st', mem st' = mem st1 → node_buf (lst st') = node_buf (lst st) →
            max_nodes (lst st') = max_nodes (lst st) →
            (∀ p, p ∈ live' → is_Some (mem st' !! p))
            ∧ (∀ j, 0 ≤ j < max_nodes (lst st') →
                 ∃ c, mem st' !! slot cfg (node_buf (lst st')) j = Some c
                      ∧ (in_use c = true ↔ slot cfg (node_buf (lst st')) j ∈ live'))
            ∧ (∀ p, p ∈ live' →
                 arena_slot cfg (lst st') p
                 ∨ (ZEROLIST_STATIC_FALLBACK_MALLOC cfg = true
                    ∧ _zerolist_is_static_node cfg (lst st') p = false))).
  { intros st' Hm' Hb' Hx'. rewrite Hm', Hm1. split; [| split].
    - intros p Hp. apply Hlive in Hp as [Hp Hne].
      rewrite lookup_insert_ne by done. by apply Hmapped.
    - intros j Hj. rewrite Hb'. rewrite Hx' in Hj.
      destruct (decide (j = i)) as [-> | Hne].
      + fold n. rewrite lookup_insert_eq. eexists. split; [reflexivity |].
        cbn [freed_node in_use]. rewrite Hlive. split; [discriminate | tauto].
      + destruct (Hslots j Hj) as (cj & Hcj & Hiff).
        assert (slot cfg (node_buf (lst st)) j ≠ n).
        { intros E. apply (slot_inj cfg cfg_ok) in E. done. }
        rewrite lookup_insert_ne by done. exists cj. split; [exact Hcj |].
        rewrite Hlive. tauto.
    - intros p Hp. apply Hlive in Hp as [Hp _].
      destruct (Hwhere p Hp) as [(j & Hj & ->) | [Hfb Hns]].
      + left. exists j. by rewrite Hx', Hb'.
      + right. split; [exact Hfb |]. by rewrite (is_static_node_same cfg (lst st)). }
  destruct (ZEROLIST_FAST_ALLOC cfg) eqn:Hfast.
  - destruct (Hstack eq_refl) as (stk & Hstk & Hrange & Hlen & Hnd & Hent).
    unfold _ZEROLIST_FREE_TO_STACK. rewrite Hl1, Hstk.
    rewrite bool_decide_eq_true_2 by eauto. cbn [andb].
    destruct (free_top (lst st) <? max_nodes (lst st)) eqn:Eroom.
    + apply Z.ltb_lt in Eroom.
      destruct (i <? max_nodes (lst st)) eqn:Ei; [| apply Z.ltb_ge in Ei; lia].
      unfold stack_set. rewrite Hstk.
      assert (Hin' : (0 <=? free_top (lst st)) && (free_top (lst st) <? Z.of_nat (length stk)) = true).
      { apply andb_true_iff. split; [apply Z.leb_le | apply Z.ltb_lt]; lia. }
      rewrite Hin'. cbn [rbind]. rewrite to_TYPE_small by lia.
      eexists. split; [reflexivity |].
      cbn [lst mem with_free_top with_free_stack head size node_buf max_nodes free_top free_stack].
      destruct (Hbase {| lst := with_free_top (free_top (lst st) + 1)
                                  (with_free_stack (Some (<[Z.to_nat (free_top (lst st)) := i]> stk))
                                     (lst st));
                         mem := mem st1 |} eq_refl eq_refl eq_refl) as (Hb1 & Hb2 & Hb3).
      split; [| split; [| by repeat split]].
      * split; [exact Hb1 |]. intros _. unfold arena_inv.
        cbn [lst mem with_free_top with_free_stack head size node_buf max_nodes free_top free_stack]
          in *.
        split; [exact Hbuf |]. split; [exact Hmax |]. split; [exact Hb2 |].
        split; [exact Hb3 |]. intros _. unfold stack_inv.
        cbn [lst mem with_free_top with_free_stack head size node_buf max_nodes free_top free_stack].
        eexists. split; [reflexivity |]. split; [lia |].
        split; [by rewrite length_insert |].
        replace (Z.to_nat (free_top (lst st) + 1)) with (S (Z.to_nat (free_top (lst st)))) by lia.
        rewrite take_insert_snoc by lia.
        split.
        -- apply NoDup_app. split; [exact Hnd |]. split; [| repeat constructor; set_solver].
           intros x Hx Hx'. assert (x = i) as -> by set_solver.
           apply Hent in Hx as [_ Hx]. by apply Hx.
        -- intros idx Hidx. apply elem_of_app in Hidx as [Hidx | Hidx].
           ++ apply Hent in Hidx as [? ?]. split; [assumption |]. rewrite Hlive. tauto.
           ++ assert (idx = i) as -> by set_solver. split; [lia |]. rewrite Hlive. fold n. tauto.
      * intros q Hq. rewrite Hm1. by rewrite lookup_insert_ne.
    + apply Z.ltb_ge in Eroom.
      eexists. split; [reflexivity |].
      destruct (Hbase st1 eq_refl ltac:(by rewrite Hl1) ltac:(by rewrite Hl1)) as (Hb1 & Hb2 & Hb3).
      split; [| split; [| rewrite Hl1; by repeat split]].
      * split; [exact Hb1 |]. intros _. unfold arena_inv. rewrite !Hl1 in *.
        split; [exact Hbuf |]. split; [exact Hmax |]. split; [exact Hb2 |].
        split; [exact Hb3 |]. intros _. unfold stack_inv. rewrite Hl1.
        exists stk. split; [exact Hstk |]. split; [exact Hrange |]. split; [exact Hlen |].
        split; [exact Hnd |]. intros idx Hidx. apply Hent in Hidx as [? ?].
        split; [assumption |]. rewrite Hlive. tauto.
      * intros q Hq. rewrite Hm1. by rewrite lookup_insert_ne.
  - eexists. split; [reflexivity |].
    destruct (Hbase st1 eq_refl ltac:(by rewrite Hl1) ltac:(by rewrite Hl1)) as (Hb1 & Hb2 & Hb3).
    split; [| split; [| rewrite Hl1; by repeat split]].
    + split; [exact Hb1 |]. intros _. unfold arena_inv. rewrite !Hl1 in *.
      split; [exact Hbuf |]. split; [exact Hmax |]. split; [exact Hb2 |].
      split; [exact Hb3 |]. intros Hf. congruence.
    + intros q Hq. rewrite Hm1. by rewrite lookup_insert_ne.
Qed.

Lemma free_heap_spec st live live' n :
  store_inv cfg st live → n ∈ live →
  (ZEROLIST_USE_MALLOC cfg = false → _zerolist_is_static_node cfg (lst st) n = false) →
  (∀ p, p ∈ live' ↔ p ∈ live ∧ p ≠ n) →
  ∃ st', ZEROLIST_FREE n st = Ok st'
         ∧ store_inv cfg st' live'
         ∧ (∀ q, q ≠ n → mem st' !! q = mem st !! q)
         ∧ lst st' = lst st.
Proof.
  intros [Hmapped Harena] Hin Hheap Hlive.
  destruct (Hmapped n Hin) as [c Hc]. unfold ZEROLIST_FREE. rewrite Hc.
  eexists. split; [reflexivity |]. cbn [mem lst on_mem].
  split; [| split; [intros q Hq; by rewrite lookup_delete_ne | reflexivity]].
  split.
  - intros p Hp. apply Hlive in Hp as [Hp Hne]. cbn [mem lst on_mem].
    rewrite lookup_delete_ne by done. by apply Hmapped.
  - intros Hstatic. destruct (Harena Hstatic) as (Hbuf & Hmax & Hslots & Hwhere & Hstack).
    specialize (Hheap Hstatic).
    unfold arena_inv. cbn [mem lst on_mem].
    split; [exact Hbuf |]. split; [exact Hmax |]. split; [| split].
    + intros j Hj. destruct (Hslots j Hj) as (cj & Hcj & Hiff).
      assert (slot cfg (node_buf (lst st)) j ≠ n).
      { intros E. rewrite <- E in Hheap.
        rewrite (is_static_node_slot cfg cfg_ok) in Hheap by assumption. discriminate. }
      rewrite lookup_delete_ne by done. exists cj. split; [exact Hcj |].
      rewrite Hlive. tauto.
    + intros p Hp. apply Hlive in Hp as [Hp _]. by apply Hwhere.
    + intros Hfast. destruct (Hstack Hfast) as (stk & Hstk & Hrange & Hlen & Hnd & Hent).
      exists stk. cbn [mem lst on_mem]. repeat split; try assumption; try lia;
        try (by apply Hent).
      rewrite Hlive. intros [Hp _]. by apply (Hent idx).
Qed.

Lemma free_node_spec st live live' n :
  store_inv cfg st live → n ∈ live → n ≠ 0 →
  (∀ p, p ∈ live' ↔ p ∈ live ∧ p ≠ n) →
  ∃ st', zerolist_free_node cfg n st = Ok st'
         ∧ store_inv cfg st' live'
         ∧ (∀ q, q ≠ n → mem st' !! q = mem st !! q)
         ∧ head (lst st') = head (lst st) ∧ size (lst st') = size (lst st).
Proof.
  intros Hinv Hin Hn0 Hlive. unfold zerolist_free_node.
  apply Z.eqb_neq in Hn0 as Hn0'. rewrite Hn0'.
  destruct (ZEROLIST_USE_MALLOC cfg) eqn:Hmalloc.
  - destruct (free_heap_spec st live live' n Hinv Hin ltac:(congruence) Hlive)
      as (st' & Hrun & Hinv' & Hmem & Hlst).
    exists st'. rewrite Hlst. split; [exact Hrun |]. split; [exact Hinv' |].
    split; [exact Hmem |]. by split.
  - destruct Hinv as [Hmapped Harena]. pose proof (Harena Hmalloc) as Ha.
    destruct Ha as (Hbuf & Hmax & Hslots & Hwhere & Hstack).
    (* the release of a slot of the arena *)
    assert (Hslot : arena_slot cfg (lst st) n →
              ∃ st', _ZEROLIST_FREE_STATIC_NODE cfg n (_zerolist_calc_node_index cfg (lst st) n) st
                     = Ok st'
                     ∧ store_inv cfg st' live'
                     ∧ (∀ q, q ≠ n → mem st' !! q = mem st !! q)
                     ∧ head (lst st') = head (lst st) ∧ size (lst st') = size (lst st)).
    { intros (i & Hi & ->). rewrite (calc_node_index_slot cfg cfg_ok) by lia.
      destruct (free_static_spec st live live' i Hmalloc (Harena Hmalloc) Hmapped Hi Hin Hlive)
        as (st' & Hrun & Hinv' & Hmem & Hh & Hs & _).
      exists st'. split; [exact Hrun |]. split; [exact Hinv' |].
      split; [exact Hmem |]. by split. }
    destruct (ZEROLIST_STATIC_FALLBACK_MALLOC cfg) eqn:Hfb.
    + destruct (_zerolist_is_static_node cfg (lst st) n) eqn:Hst.
      * apply Hslot. destruct (Hwhere n Hin) as [Hs | [_ Hs]]; [exact Hs | congruence].
      * destruct (free_heap_spec st live live' n (conj Hmapped Harena) Hin ltac:(done) Hlive)
          as (st' & Hrun & Hinv' & Hmem & Hlst).
        exists st'. rewrite Hlst. split; [exact Hrun |]. split; [exact Hinv' |].
    split; [exact Hmem |]. by split.
    + apply Hslot. destruct (Hwhere n Hin) as [Hs | [Hs _]]; [exact Hs | congruence].
Qed.

End Release.


(** ** Removal keeps the list well formed *)

Lemma ring_agree m m' ps : (∀ p, p ∈ ps → m' !! p = m !! p) → ring m ps → ring m' ps.
Proof.
  destruct ps as [| h t]; [intros; apply ring_nil |].
  intros Hag (Hnd & H0 & Hf & Hb). split; [exact Hnd |]. split; [exact H0 |].
  assert (Hin : ∀ p, p ∈ (h :: t) ++ [hd 0 (h :: t)] → p ∈ h :: t).
  { intros p Hp. cbn [hd] in Hp. set_solver. }
  split.
  - eapply fwd_ext_all; [| exact Hf]. intros p Hp. unfold nxt. by rewrite Hag by auto.
  - eapply bwd_ext_all; [| exact Hb]. intros p Hp. unfold prv. by rewrite Hag by auto.
Qed.

Lemma elem_of_without c l p : NoDup l → p ∈ without c l ↔ p ∈ l ∧ p ≠ c.
Proof.
  induction l as [| a l IH]; intros Hnd; cbn [without]; [set_solver |].
  apply NoDup_cons in Hnd as [Ha Hnd].
  destruct (a =? c) eqn:E.
  - apply Z.eqb_eq in E. subst a. set_solver.
  - apply Z.eqb_neq in E. rewrite elem_of_cons, IH by done. set_solver.
Qed.

Lemma length_without c l : c ∈ l → length l = S (length (without c l)).
Proof.
  induction l as [| a l IH]; intros Hc; [set_solver |]. cbn [without].
  destruct (a =? c) eqn:E; [reflexivity |].
  apply Z.eqb_neq in E. cbn [length]. f_equal. apply IH. set_solver.
Qed.

Lemma holds_size_decr cfg st ps : holds st ps → holds (size_decr cfg st) ps.
Proof. unfold size_decr. by destruct (ZEROLIST_SIZE_ENABLE cfg). Qed.

Lemma store_inv_size_decr cfg st ps : store_inv cfg st ps → store_inv cfg (size_decr cfg st) ps.
Proof.
  apply store_inv_ext; [| | done]; unfold size_decr;
    destruct (ZEROLIST_SIZE_ENABLE cfg); try apply same_flags_refl; by repeat split.
Qed.

Lemma size_decr_size cfg st n :
  (ZEROLIST_SIZE_ENABLE cfg = true → size (lst st) = Z.of_nat (S n)) →
  Z.of_nat (S n) ≤ TYPE_MAX cfg →
  ZEROLIST_SIZE_ENABLE cfg = true → size (lst (size_decr cfg st)) = Z.of_nat n.
Proof.
  intros Hs Hmax He. unfold size_decr. rewrite He. cbn. rewrite (Hs He).
  rewrite to_TYPE_small; lia.
Qed.

Section Removal.
Variable cfg : config.
Hypothesis cfg_ok : config_ok cfg = true.

(** Detaching, releasing and decrementing the size, in any of the three
    orders that the removal functions use. *)
Lemma detach_keeps st ps c :
  holds st ps → store_inv cfg st ps → c ∈ ps →
  ∃ s1, _zerolist_detach_node c st = Ok s1
        ∧ holds s1 (without c ps)
        ∧ store_inv cfg s1 ps
        ∧ size (lst s1) = size (lst st).
Proof.
  intros Hholds Hinv Hc.
  apply list_elem_of_split in Hc as (l1 & l2 & ->).
  pose proof (NoDup_split_notin _ _ _ (ring_NoDup _ _ (proj1 Hholds))) as [Hc1 Hc2].
  destruct (detach_node_spec st l1 c l2 Hholds) as (s1 & Hrun & Hh1 & Hlinks & _ & Hstore & Hsize).
  exists s1. split; [exact Hrun |]. rewrite without_split by done.
  split; [exact Hh1 |]. split; [| exact Hsize].
  eapply store_inv_ext; [apply links_only_same_flags, Hlinks | exact Hstore | done | exact Hinv].
Qed.

Lemma free_keeps s1 ps c :
  NoDup ps → c ≠ 0 →
  holds s1 (without c ps) → store_inv cfg s1 ps → c ∈ ps →
  ∃ s2, zerolist_free_node cfg c s1 = Ok s2
        ∧ holds s2 (without c ps)
        ∧ store_inv cfg s2 (without c ps)
        ∧ size (lst s2) = size (lst s1).
Proof.
  intros Hnd Hc0 [Hr Hh] Hinv Hc.
  destruct (free_node_spec cfg cfg_ok s1 ps (without c ps) c Hinv Hc Hc0)
    as (s2 & Hrun & Hinv2 & Hmem & Hhead & Hsize).
  { intros p. by apply elem_of_without. }
  exists s2. split; [exact Hrun |]. split; [| split; [exact Hinv2 | exact Hsize]].
  split; [| by rewrite Hhead].
  eapply ring_agree; [| exact Hr]. intros p Hp. apply Hmem.
  apply elem_of_without in Hp; [tauto | done].
Qed.

Lemma wf_without st ps c s2 :
  wf cfg st ps → c ∈ ps →
  holds s2 (without c ps) → store_inv cfg s2 (without c ps) →
  (ZEROLIST_SIZE_ENABLE cfg = true → size (lst s2) = to_TYPE cfg (size (lst st) - 1)) →
  wf cfg s2 (without c ps).
Proof.
  intros (Hholds & Hsize & Hmax & Hinv) Hc Hh2 Hinv2 Hs2.
  pose proof (length_without c ps Hc) as Hlen.
  split; [exact Hh2 |]. split; [| split; [lia | exact Hinv2]].
  intros He. rewrite (Hs2 He), (Hsize He). rewrite to_TYPE_small; lia.
Qed.

Lemma size_decr_lst st :
  size (lst (size_decr cfg st))
  = (if ZEROLIST_SIZE_ENABLE cfg then to_TYPE cfg (size (lst st) - 1) else size (lst st)).
Proof. unfold size_decr. by destruct (ZEROLIST_SIZE_ENABLE cfg). Qed.

(** [remove_node]: detach, release, then decrement. *)
Lemma remove_node_wf st ps c :
  wf cfg st ps → c ∈ ps →
  ∃ st', remove_node cfg c st = Ok (st', true) ∧ wf cfg st' (without c ps).
Proof.
  intros Hwf Hc. pose proof Hwf as (Hholds & Hsize & Hmax & Hinv).
  pose proof (ring_NoDup _ _ (proj1 Hholds)) as Hnd.
  pose proof (ring_nonzero _ _ c (proj1 Hholds) Hc) as Hc0.
  destruct (detach_keeps st ps c Hholds Hinv Hc) as (s1 & Hrun1 & Hh1 & Hinv1 & Hs1).
  destruct (free_keeps s1 ps c Hnd Hc0 Hh1 Hinv1 Hc) as (s2 & Hrun2 & Hh2 & Hinv2 & Hs2).
  exists (size_decr cfg s2). unfold remove_node. rewrite Hrun1. cbn [rbind].
  rewrite Hrun2. cbn [rbind]. split; [reflexivity |].
  apply (wf_without st ps c); try assumption.
  - by apply holds_size_decr.
  - by apply store_inv_size_decr.
  - intros He. rewrite size_decr_lst, He. by rewrite Hs2, Hs1.
Qed.

(** The pop functions decrement first, or between detaching and releasing. *)
Lemma decr_detach_free_wf st ps c :
  wf cfg st ps → c ∈ ps →
  ∃ s1 s2, _zerolist_detach_node c (size_decr cfg st) = Ok s1
           ∧ zerolist_free_node cfg c s1 = Ok s2
           ∧ wf cfg s2 (without c ps).
Proof.
  intros Hwf Hc. pose proof Hwf as (Hholds & Hsize & Hmax & Hinv).
  pose proof (ring_NoDup _ _ (proj1 Hholds)) as Hnd.
  pose proof (ring_nonzero _ _ c (proj1 Hholds) Hc) as Hc0.
  destruct (detach_keeps (size_decr cfg st) ps c (holds_size_decr _ _ _ Hholds)
              (store_inv_size_decr _ _ _ Hinv) Hc) as (s1 & Hrun1 & Hh1 & Hinv1 & Hs1).
  destruct (free_keeps s1 ps c Hnd Hc0 Hh1 Hinv1 Hc) as (s2 & Hrun2 & Hh2 & Hinv2 & Hs2).
  exists s1, s2. split; [exact Hrun1 |]. split; [exact Hrun2 |].
  apply (wf_without st ps c); try assumption.
  intros He. rewrite Hs2, Hs1, size_decr_lst, He. reflexivity.
Qed.

Lemma detach_decr_free_wf st ps c :
  wf cfg st ps → c ∈ ps →
  ∃ s1 s2, _zerolist_detach_node c st = Ok s1
           ∧ zerolist_free_node cfg c (size_decr cfg s1) = Ok s2
           ∧ wf cfg s2 (without c ps).
Proof.
  intros Hwf Hc. pose proof Hwf as (Hholds & Hsize & Hmax & Hinv).
  pose proof (ring_NoDup _ _ (proj1 Hholds)) as Hnd.
  pose proof (ring_nonzero _ _ c (proj1 Hholds) Hc) as Hc0.
  destruct (detach_keeps st ps c Hholds Hinv Hc) as (s1 & Hrun1 & Hh1 & Hinv1 & Hs1).
  destruct (free_keeps (size_decr cfg s1) ps c Hnd Hc0 (holds_size_decr _ _ _ Hh1)
              (store_inv_size_decr _ _ _ Hinv1) Hc) as (s2 & Hrun2 & Hh2 & Hinv2 & Hs2).
  exists s1, s2. split; [exact Hrun1 |]. split; [exact Hrun2 |].
  apply (wf_without st ps c); try assumption.
  intros He. rewrite Hs2, size_decr_lst, He. by rewrite Hs1.
Qed.

Lemma wf_mapped st ps p : wf cfg st ps → p ∈ ps → is_Some (mem st !! p).
Proof. intros (Hholds & _) Hp. by apply (ring_mapped _ _ _ (proj1 Hholds)). Qed.

Theorem zerolist_pop_front_wf st ps :
  wf cfg st ps →
  ∃ st' d, zerolist_pop_front cfg st = Ok (st', d) ∧ wf cfg st' (tl ps).
Proof.
  intros Hwf. unfold zerolist_pop_front. pose proof Hwf as (Hholds & _).
  destruct ps as [| h t].
  - destruct Hholds as [_ Hh]. cbn [hd] in Hh. rewrite Hh. cbn [Z.eqb]. eauto.
  - destruct (holds_first _ _ _ Hholds) as [Hh Hh0].
    apply Z.eqb_neq in Hh0 as Hh0'. rewrite Hh, Hh0'.
    destruct (wf_mapped st (h :: t) h Hwf ltac:(set_solver)) as [c Hc].
    rewrite (load_Some _ _ _ Hc). cbn [rbind].
    destruct (decr_detach_free_wf st (h :: t) h Hwf ltac:(set_solver))
      as (s1 & s2 & Hrun1 & Hrun2 & Hwf2).
    rewrite Hrun1. cbn [rbind]. rewrite Hrun2. cbn [rbind].
    eexists _, _. split; [reflexivity |].
    cbn [without] in Hwf2. by rewrite Z.eqb_refl in Hwf2.
Qed.

Theorem zerolist_pop_back_wf st ps :
  wf cfg st ps →
  ∃ st' d, zerolist_pop_back cfg st = Ok (st', d) ∧ wf cfg st' (without (List.last ps 0) ps).
Proof.
  intros Hwf. unfold zerolist_pop_back. pose proof Hwf as (Hholds & _).
  destruct ps as [| h t].
  - destruct Hholds as [_ Hh]. cbn [hd] in Hh. rewrite Hh. cbn [Z.eqb]. eauto.
  - destruct (holds_first _ _ _ Hholds) as [Hh Hh0].
    apply Z.eqb_neq in Hh0 as Hh0'. rewrite Hh, Hh0'.
    pose proof (ring_prev_head _ _ _ (proj1 Hholds)) as Hlast.
    apply prv_Some in Hlast as (ch & Hch & Hlast).
    rewrite (load_Some _ _ _ Hch). cbn [rbind]. rewrite Hlast.
    assert (Elast : List.last (h :: t) 0 = List.last t h).
    { destruct t as [| a t]; [reflexivity |].
      change (List.last (h :: a :: t) 0) with (List.last (a :: t) 0).
      apply last_cons_default. }
    rewrite Elast.
    pose proof (last_in h t) as Hin.
    destruct (wf_mapped st (h :: t) _ Hwf Hin) as [c Hc].
    rewrite (load_Some _ _ _ Hc). cbn [rbind].
    destruct (decr_detach_free_wf st (h :: t) _ Hwf Hin) as (s1 & s2 & Hrun1 & Hrun2 & Hwf2).
    rewrite Hrun1. cbn [rbind]. rewrite Hrun2. cbn [rbind].
    eexists _, _. split; [reflexivity | exact Hwf2].
Qed.

Lemma nth_in (ps : list Z) (n : nat) : (n < length ps)%nat → nth n ps 0 ∈ ps.
Proof. intros H. apply list_elem_of_In. by apply nth_In. Qed.

Theorem zerolist_pop_at_wf st ps index :
  wf cfg st ps → 0 ≤ index →
  ∃ st' d ps', zerolist_pop_at cfg index st = Ok (st', d) ∧ wf cfg st' ps'.
Proof.
  intros Hwf Hidx. unfold zerolist_pop_at. pose proof Hwf as (Hholds & _).
  destruct (head (lst st) =? 0) eqn:Eh; [eauto |].
  destruct (ZEROLIST_SIZE_ENABLE cfg && (size (lst st) <=? index)); [eauto |].
  assert (Hne : ps ≠ []).
  { intros ->. destruct Hholds as [_ Hh]. cbn in Hh. apply Z.eqb_neq in Eh. lia. }
  rewrite (walk_index_ring st ps _ Hholds Hne). cbn [rbind].
  case_decide as Hlt; [| eauto].
  pose proof (nth_in ps _ Hlt) as Hin.
  destruct (wf_mapped st ps _ Hwf Hin) as [c Hc].
  rewrite (load_Some _ _ _ Hc). cbn [rbind].
  destruct (detach_decr_free_wf st ps _ Hwf Hin) as (s1 & s2 & Hrun1 & Hrun2 & Hwf2).
  rewrite Hrun1. cbn [rbind]. rewrite Hrun2. cbn [rbind]. eauto.
Qed.

Theorem zerolist_remove_at_wf st ps index :
  wf cfg st ps → 0 ≤ index →
  ∃ st' b ps', zerolist_remove_at cfg index st = Ok (st', b) ∧ wf cfg st' ps'.
Proof.
  intros Hwf Hidx. unfold zerolist_remove_at. pose proof Hwf as (Hholds & _).
  destruct (head (lst st) =? 0) eqn:Eh; [eauto |].
  destruct (ZEROLIST_SIZE_ENABLE cfg && (size (lst st) <=? index)); [eauto |].
  assert (Hne : ps ≠ []).
  { intros ->. destruct Hholds as [_ Hh]. cbn in Hh. apply Z.eqb_neq in Eh. lia. }
  rewrite (walk_index_ring st ps _ Hholds Hne). cbn [rbind].
  case_decide as Hlt; [| eauto].
  pose proof (nth_in ps _ Hlt) as Hin.
  destruct (remove_node_wf st ps _ Hwf Hin) as (st' & Hrun & Hwf').
  fold (remove_node cfg (nth (Z.to_nat index) ps 0) st). rewrite Hrun. eauto.
Qed.

(** The scans of [zerolist_remove_ptr] and [zerolist_remove_if] end
    without a match or with the removal of a node of the ring. *)
Lemma remove_slots_loop_cases matches st ps : ∀ n i,
  ZEROLIST_USE_MALLOC cfg = false → arena_inv cfg st ps →
  0 ≤ i → i + Z.of_nat n ≤ max_nodes (lst st) →
  remove_slots_loop cfg matches n i st = Ok (st, false)
  ∨ ∃ c, c ∈ ps ∧ remove_slots_loop cfg matches n i st = remove_node cfg c st.
Proof.
  intros n i Hstatic (Hbuf & Hmax & Hslots & _). revert i.
  induction n as [| n IH]; intros i Hi Hn; [by left |].
  cbn [remove_slots_loop]. unfold _ZEROLIST_NODE_IS_IN_USE.
  pose proof (slot_ge cfg cfg_ok (node_buf (lst st)) i Hi) as Hge.
  destruct (slot cfg (node_buf (lst st)) i =? 0) eqn:E0; [apply Z.eqb_eq in E0; lia |].
  destruct (Hslots i ltac:(lia)) as (c & Hc & Hiff).
  rewrite (load_Some _ _ _ Hc). cbn [rbind].
  destruct (in_use c) eqn:Hu.
  - cbn [rbind]. destruct (matches (data c)).
    + right. eexists. split; [by apply Hiff | reflexivity].
    + apply IH; lia.
  - cbn [rbind]. apply IH; lia.
Qed.

Lemma remove_ring_loop_cases matches st (ps : list Z) start : ∀ rest cur fuel,
  fwd (mem st) (cur :: rest ++ [start]) →
  (∀ p, p ∈ cur :: rest → p ∈ ps) →
  0 ∉ rest → start ∉ rest → start ≠ 0 → (length rest < fuel)%nat →
  remove_ring_loop cfg matches fuel start cur st = Ok (st, false)
  ∨ ∃ c, c ∈ ps ∧ remove_ring_loop cfg matches fuel start cur st = remove_node cfg c st.
Proof.
  induction rest as [| r rest IH]; intros cur fuel Hf Hin H0 Hstart Hs0 Hfuel;
    (destruct fuel as [| fuel]; [cbn in Hfuel; lia |]).
  - cbn in Hf. destruct Hf as [Hf _]. apply nxt_Some in Hf as (c & Hc & Hn).
    cbn [remove_ring_loop]. rewrite (load_Some _ _ _ Hc). cbn [rbind].
    destruct (matches (data c)).
    + right. exists cur. split; [apply Hin; set_solver | reflexivity].
    + left. rewrite Hn. apply Z.eqb_neq in Hs0. by rewrite Hs0, Z.eqb_refl.
  - cbn [app] in Hf. rewrite fwd_cons in Hf. destruct Hf as [Hf Hrest].
    apply nxt_Some in Hf as (c & Hc & Hn).
    cbn [remove_ring_loop]. rewrite (load_Some _ _ _ Hc). cbn [rbind].
    destruct (matches (data c)).
    + right. exists cur. split; [apply Hin; set_solver | reflexivity].
    + rewrite Hn.
      destruct (r =? 0) eqn:E0; [apply Z.eqb_eq in E0; set_solver |].
      destruct (r =? start) eqn:E1; [apply Z.eqb_eq in E1; set_solver |].
      apply IH; try assumption.
      * intros p Hp. apply Hin. set_solver.
      * set_solver.
      * set_solver.
      * cbn in Hfuel. lia.
Qed.

Theorem remove_matching_wf matches fuel st ps :
  wf cfg st ps → (length ps < fuel)%nat →
  ∃ st' b ps', remove_matching cfg matches fuel st = Ok (st', b) ∧ wf cfg st' ps'.
Proof.
  intros Hwf Hfuel. pose proof Hwf as (Hholds & Hsize & Hmax & Hinv).
  assert (Hcases : remove_matching cfg matches fuel st = Ok (st, false)
                   ∨ ∃ c, c ∈ ps ∧ remove_matching cfg matches fuel st = remove_node cfg c st).
  { unfold remove_matching. destruct (scan_slots cfg) eqn:Escan.
    - unfold scan_slots in Escan. apply andb_true_iff in Escan as [Hm _].
      apply negb_true_iff in Hm. destruct Hinv as [_ Harena].
      pose proof (Harena Hm) as Ha. pose proof Ha as (_ & Hmx & _).
      apply remove_slots_loop_cases; try assumption; lia.
    - destruct ps as [| h t].
      + destruct Hholds as [_ Hh]. cbn [hd] in Hh. rewrite Hh. by left.
      + destruct (holds_first _ _ _ Hholds) as [Hh Hh0].
        apply Z.eqb_neq in Hh0 as Hh0'. rewrite Hh, Hh0'.
        destruct Hholds as [Hr _].
        apply ring_cons_unfold in Hr as (Hnd & H0 & Hf & _); cbn [hd] in Hf.
        apply NoDup_cons in Hnd as [Hnotin _].
        apply (remove_ring_loop_cases matches st (h :: t) h t h fuel); try assumption.
        * done.
        * set_solver.
        * cbn in Hfuel. lia. }
  destruct Hcases as [-> | (c & Hc & ->)]; [eauto |].
  destruct (remove_node_wf st ps c Hwf Hc) as (st' & Hrun & Hwf'). eauto.
Qed.

Theorem zerolist_remove_ptr_wf fuel data st ps :
  wf cfg st ps → (length ps < fuel)%nat →
  ∃ st' b ps', zerolist_remove_ptr cfg fuel data st = Ok (st', b) ∧ wf cfg st' ps'.
Proof.
  intros Hwf Hfuel. unfold zerolist_remove_ptr.
  destruct (data =? 0); [eauto |]. by apply (remove_matching_wf _ _ _ ps).
Qed.

Theorem zerolist_remove_if_wf fuel data cmp_func st ps :
  wf cfg st ps → (length ps < fuel)%nat →
  ∃ st' b ps', zerolist_remove_if cfg fuel data cmp_func st = Ok (st', b) ∧ wf cfg st' ps'.
Proof.
  intros Hwf Hfuel. unfold zerolist_remove_if.
  destruct cmp_func; [| eauto]. by apply (remove_matching_wf _ _ _ ps).
Qed.

End Removal.


(** ** Acquisition without growth *)

Lemma pos_restore_same cfg l l' pos :
  config_ok cfg = true →
  node_buf l' = node_buf l → max_nodes l ≤ max_nodes l' →
  pos_restore cfg l' pos (pos_index cfg l pos) = pos.
Proof.
  intros Hok Hb Hm. pose proof (config_ok_node_size cfg Hok) as Hsz.
  unfold pos_restore, pos_index.
  destruct (ZEROLIST_STATIC_DYNAMIC_EXPAND cfg && negb (ZEROLIST_USE_MALLOC cfg)
            && negb (pos =? 0)) eqn:E; [| reflexivity].
  cbn [andb].
  destruct (_zerolist_is_static_node cfg l pos) eqn:Es; cbn [snd fst andb]; [| reflexivity].
  assert (Es' : _zerolist_is_static_node cfg l' pos = true).
  { unfold _zerolist_is_static_node in *. rewrite Hb.
    destruct (ZEROLIST_USE_MALLOC cfg); [discriminate |].
    destruct ((node_buf l =? 0) || (pos =? 0)); [discriminate |].
    apply andb_true_iff in Es as [H1 H2]. apply andb_true_iff.
    split; [exact H1 |]. apply Z.ltb_lt in H2. apply Z.ltb_lt.
    nia. }
  rewrite Es'. reflexivity.
Qed.

Lemma payloads_agree m m' (ps : list Z) :
  (∀ p, p ∈ ps → m' !! p = m !! p) → payloads m' ps = payloads m ps.
Proof.
  intros H. unfold payloads. apply map_ext_in. intros p Hp.
  apply list_elem_of_In in Hp. unfold dat. by rewrite H.
Qed.

Lemma alloc_post_same cfg st st' ps n :
  config_ok cfg = true →
  holds st ps →
  (∀ p, p ∈ ps → mem st' !! p = mem st !! p) →
  head (lst st') = head (lst st) → size (lst st') = size (lst st) →
  node_buf (lst st') = node_buf (lst st) → max_nodes (lst st) ≤ max_nodes (lst st') →
  n ≠ 0 → n ∉ ps → is_Some (mem st' !! n) → store_inv cfg st' (n :: ps) →
  alloc_post cfg st st' ps ps n.
Proof.
  intros Hok [Hr Hh] Hag Hhead Hsize Hbuf Hmax Hn0 Hn Hmn Hinv.
  split; [reflexivity |]. split.
  { split; [by apply (ring_agree (mem st)) | by rewrite Hhead]. }
  split; [exact Hn0 |]. split; [exact Hn |]. split; [exact Hmn |].
  split; [exact Hinv |]. split; [exact Hsize |].
  split; [by apply payloads_agree |].
  intros i pos Hi. rewrite Hi. f_equal. symmetry. by apply pos_restore_same.
Qed.

Section Acquire.
Variable cfg : config.
Hypothesis cfg_ok : config_ok cfg = true.

(** A node from ZEROLIST_MALLOC. *)
Lemma heap_node_post st ps a c1 :
  holds st ps → store_inv cfg st ps →
  0 < a → mem st !! a = None →
  (ZEROLIST_USE_MALLOC cfg = false →
   ZEROLIST_STATIC_FALLBACK_MALLOC cfg = true
   ∧ _zerolist_is_static_node cfg (lst st) a = false) →
  alloc_post cfg st (on_mem (<[a := c1]>) st) ps ps a.
Proof.
  intros Hholds [Hmapped Harena] Ha Hfresh Hout.
  assert (Hnotin : a ∉ ps).
  { intros Hin. destruct (Hmapped a Hin) as [? ?]. congruence. }
  apply alloc_post_same; try assumption; try reflexivity; try lia.
  - intros p Hp. cbn [mem on_mem]. rewrite lookup_insert_ne; [reflexivity |].
    intros ->. done.
  - cbn [mem on_mem]. rewrite lookup_insert_eq. eauto.
  - split.
    + intros p Hp. cbn [mem on_mem]. apply lookup_insert_is_Some'.
      apply elem_of_cons in Hp as [-> | Hp]; [by left | right; by apply Hmapped].
    + intros Hstatic. destruct (Harena Hstatic) as (Hbuf & Hmax & Hslots & Hwhere & Hstack).
      destruct (Hout Hstatic) as [Hfb Hns].
      assert (Hslot_ne : ∀ j, 0 ≤ j < max_nodes (lst st) → slot cfg (node_buf (lst st)) j ≠ a).
      { intros j Hj E. destruct (Hslots j Hj) as (c & Hc & _). rewrite E in Hc. congruence. }
      unfold arena_inv. cbn [mem lst on_mem].
      split; [exact Hbuf |]. split; [exact Hmax |]. split; [| split].
      * intros j Hj. destruct (Hslots j Hj) as (c & Hc & Hiff).
        rewrite lookup_insert_ne by (intros E; by apply (Hslot_ne j Hj)).
        exists c. split; [exact Hc |]. rewrite Hiff, elem_of_cons.
        pose proof (Hslot_ne j Hj). tauto.
      * intros p Hp. apply elem_of_cons in Hp as [-> | Hp]; [by right | by apply Hwhere].
      * intros Hfast. destruct (Hstack Hfast) as (stk & Hstk & Hrange & Hlen & Hnd & Hent).
        exists stk. cbn [mem lst on_mem].
        split; [exact Hstk |]. split; [exact Hrange |]. split; [exact Hlen |].
        split; [exact Hnd |]. intros idx Hidx. destruct (Hent idx Hidx) as [Hi Hni].
        split; [exact Hi |]. rewrite elem_of_cons. pose proof (Hslot_ne idx Hi). tauto.
Qed.

(** A slot of the arena that is not live, flagged in use. *)
Lemma slot_node_post st ps idx l' c1 :
  holds st ps → store_inv cfg st ps →
  ZEROLIST_USE_MALLOC cfg = false →
  0 ≤ idx < max_nodes (lst st) → slot cfg (node_buf (lst st)) idx ∉ ps →
  in_use c1 = true →
  head l' = head (lst st) → size l' = size (lst st) → node_buf l' = node_buf (lst st) →
  max_nodes l' = max_nodes (lst st) →
  (ZEROLIST_FAST_ALLOC cfg = true →
   stack_inv cfg {| lst := l'; mem := mem st |} (slot cfg (node_buf (lst st)) idx :: ps)) →
  alloc_post cfg st {| lst := l'; mem := <[slot cfg (node_buf (lst st)) idx := c1]> (mem st) |}
    ps ps (slot cfg (node_buf (lst st)) idx).
Proof.
  intros Hholds [Hmapped Harena] Hstatic Hidx Hnotin Hu Hhead Hsize Hbuf' Hmax' Hstack'.
  destruct (Harena Hstatic) as (Hbuf & Hmax & Hslots & Hwhere & _).
  set (n := slot cfg (node_buf (lst st)) idx) in *.
  assert (Hn0 : n ≠ 0).
  { pose proof (slot_ge cfg cfg_ok (node_buf (lst st)) idx ltac:(lia)). unfold n. lia. }
  apply alloc_post_same; try assumption; cbn [lst mem]; try lia.
  - intros p Hp. rewrite lookup_insert_ne; [reflexivity |]. intros <-. done.
  - rewrite lookup_insert_eq. eauto.
  - split.
    + intros p Hp. cbn [mem]. apply lookup_insert_is_Some'.
      apply elem_of_cons in Hp as [-> | Hp]; [by left | right; by apply Hmapped].
    + intros _. unfold arena_inv. cbn [mem lst]. rewrite Hbuf', Hmax'.
      split; [exact Hbuf |]. split; [exact Hmax |]. split; [| split].
      * intros j Hj. destruct (decide (j = idx)) as [-> | Hne].
        -- fold n. rewrite lookup_insert_eq. exists c1. split; [reflexivity |].
           rewrite Hu. split; [intros _; set_solver | reflexivity].
        -- destruct (Hslots j Hj) as (c & Hc & Hiff).
           assert (slot cfg (node_buf (lst st)) j ≠ n).
           { intros E. apply (slot_inj cfg cfg_ok) in E. done. }
           rewrite lookup_insert_ne by done. exists c. split; [exact Hc |].
           rewrite Hiff, elem_of_cons. tauto.
      * intros p Hp. apply elem_of_cons in Hp as [-> | Hp].
        -- left. exists idx. by rewrite Hmax', Hbuf'.
        -- destruct (Hwhere p Hp) as [(j & Hj & ->) | [Hfb Hns]].
           ++ left. exists j. by rewrite Hmax', Hbuf'.
           ++ right. split; [exact Hfb |].
              by rewrite (is_static_node_same cfg (lst st)).
      * intros Hfast. exact (Hstack' Hfast).
Qed.

(** Popping the free stack. *)
Lemma stack_pop_spec st ps :
  arena_inv cfg st ps → ZEROLIST_FAST_ALLOC cfg = true → 0 < free_top (lst st) →
  ∃ idx,
    _ZEROLIST_ALLOC_FROM_STACK cfg st
    = Ok (on_lst (with_free_top (free_top (lst st) - 1)) st,
          Some (slot cfg (node_buf (lst st)) idx, idx))
    ∧ 0 ≤ idx < max_nodes (lst st)
    ∧ slot cfg (node_buf (lst st)) idx ∉ ps
    ∧ stack_inv cfg (on_lst (with_free_top (free_top (lst st) - 1)) st)
        (slot cfg (node_buf (lst st)) idx :: ps).
Proof.
  intros (Hbuf & Hmax & Hslots & Hwhere & Hstack) Hfast Htop.
  destruct (Hstack Hfast) as (stk & Hstk & Hrange & Hlen & Hnd & Hent).
  set (k := Z.to_nat (free_top (lst st) - 1)).
  assert (Hk : (k < length stk)%nat) by lia.
  destruct (lookup_lt_is_Some_2 stk k Hk) as [idx Hidx].
  assert (Etake : take (Z.to_nat (free_top (lst st))) stk = take k stk ++ [idx]).
  { replace (Z.to_nat (free_top (lst st))) with (S k) by lia. by apply take_S_r. }
  rewrite Etake in Hnd, Hent.
  destruct (Hent idx ltac:(set_solver)) as [Hi Hni].
  exists idx. split; [| split; [exact Hi | split; [exact Hni |]]].
  - unfold _ZEROLIST_ALLOC_FROM_STACK.
    destruct (0 <? free_top (lst st)) eqn:E; [| apply Z.ltb_ge in E; lia].
    unfold stack_get. rewrite Hstk.
    destruct (free_top (lst st) - 1 <? 0) eqn:E2; [apply Z.ltb_lt in E2; lia |].
    fold k. rewrite Hidx. reflexivity.
  - exists stk. cbn [lst on_lst with_free_top free_stack free_top max_nodes node_buf].
    split; [exact Hstk |]. split; [lia |]. split; [exact Hlen |]. fold k.
    apply NoDup_app in Hnd as (Hnd1 & Hnd2 & _).
    split; [exact Hnd1 |]. intros x Hx.
    destruct (Hent x ltac:(set_solver)) as [Hxi Hxn].
    split; [exact Hxi |]. rewrite elem_of_cons. intros [E | Hin]; [| done].
    apply (slot_inj cfg cfg_ok) in E. subst x. apply (Hnd2 idx Hx). set_solver.
Qed.

(** Scanning the slots for one that is not in use. *)
Lemma search_free_spec st : ∀ n i,
  0 < node_buf (lst st) → 0 ≤ i →
  (∀ j, i ≤ j < i + Z.of_nat n → is_Some (mem st !! slot cfg (node_buf (lst st)) j)) →
  (∃ idx, search_free cfg st n i = Ok (Some (slot cfg (node_buf (lst st)) idx, idx))
          ∧ i ≤ idx < i + Z.of_nat n
          ∧ (in_use <$> mem st !! slot cfg (node_buf (lst st)) idx) = Some false)
  ∨ (search_free cfg st n i = Ok None
     ∧ ∀ j, i ≤ j < i + Z.of_nat n →
         (in_use <$> mem st !! slot cfg (node_buf (lst st)) j) = Some true).
Proof.
  induction n as [| n IH]; intros i Hbuf Hi Hmp.
  - right. split; [reflexivity |]. intros; lia.
  - cbn [search_free]. unfold _ZEROLIST_NODE_IS_IN_USE.
    pose proof (slot_ge cfg cfg_ok (node_buf (lst st)) i Hi) as Hge.
    destruct (slot cfg (node_buf (lst st)) i =? 0) eqn:E0; [apply Z.eqb_eq in E0; lia |].
    destruct (Hmp i ltac:(lia)) as [c Hc].
    rewrite (load_Some _ _ _ Hc). cbn [rbind].
    destruct (in_use c) eqn:Hu; cbn [negb].
    + destruct (IH (i + 1) Hbuf ltac:(lia)) as [(idx & Hrun & Hidx & Hfree) | [Hrun Hall]].
      { intros j Hj. apply Hmp. lia. }
      * left. exists idx. split; [exact Hrun |]. split; [lia | exact Hfree].
      * right. split; [exact Hrun |]. intros j Hj.
        destruct (decide (j = i)) as [-> | Hne]; [by rewrite Hc; cbn; rewrite Hu |].
        apply Hall. lia.
    + left. exists i. split; [reflexivity |]. split; [lia |]. by rewrite Hc; cbn; rewrite Hu.
Qed.

(** The first attempt of [_zerolist_alloc_node] in the arena builds:
    either it gives a slot, or the arena has no free slot and nothing has
    changed. *)
Lemma try_alloc_static_spec st ps :
  holds st ps → store_inv cfg st ps → ZEROLIST_USE_MALLOC cfg = false →
  (∃ idx st1,
      _ZEROLIST_TRY_ALLOC_STATIC cfg st = Ok (st1, Some (slot cfg (node_buf (lst st)) idx, idx))
      ∧ 0 ≤ idx < max_nodes (lst st)
      ∧ (mem st1 = mem st ∧ node_buf (lst st1) = node_buf (lst st)
          ∧ max_nodes (lst st1) = max_nodes (lst st))
      ∧ ∀ c1, in_use c1 = true →
          alloc_post cfg st
            {| lst := lst st1; mem := <[slot cfg (node_buf (lst st)) idx := c1]> (mem st) |}
            ps ps (slot cfg (node_buf (lst st)) idx))
  ∨ (_ZEROLIST_TRY_ALLOC_STATIC cfg st = Ok (st, None)
     ∧ (ZEROLIST_FAST_ALLOC cfg = true → free_top (lst st) = 0)
     ∧ (ZEROLIST_FAST_ALLOC cfg = false →
        ∀ j, 0 ≤ j < max_nodes (lst st) → slot cfg (node_buf (lst st)) j ∈ ps)).
Proof.
  intros Hholds Hinv Hstatic. pose proof Hinv as [Hmapped Harena].
  pose proof (Harena Hstatic) as Ha. pose proof Ha as (Hbuf & Hmax & Hslots & Hwhere & Hstack).
  unfold _ZEROLIST_TRY_ALLOC_STATIC.
  destruct (ZEROLIST_FAST_ALLOC cfg) eqn:Hfast.
  - destruct (Hstack eq_refl) as (stk & Hstk & Hrange & _).
    destruct (decide (free_top (lst st) = 0)) as [Hz | Hnz].
    + right. unfold _ZEROLIST_ALLOC_FROM_STACK. rewrite Hz. cbn [Z.ltb Z.compare].
      split; [reflexivity |]. split; [done | discriminate].
    + left. destruct (stack_pop_spec st ps Ha Hfast ltac:(lia)) as (idx & Hrun & Hi & Hni & Hst).
      exists idx. eexists. split; [exact Hrun |]. split; [exact Hi |].
      split; [by repeat split |]. intros c1 Hu.
      apply (slot_node_post st ps idx _ c1); try assumption; try reflexivity.
      intros _. exact Hst.
  - unfold _ZEROLIST_ALLOC_FROM_SEARCH.
    destruct (search_free_spec st (Z.to_nat (max_nodes (lst st))) 0 Hbuf ltac:(lia))
      as [(idx & Hrun & Hidx & Hfree) | [Hrun Hall]].
    { intros j Hj. destruct (Hslots j ltac:(lia)) as (c & Hc & _). rewrite Hc. eauto. }
    + left. exists idx, st. rewrite Hrun. cbn [rbind].
      split; [reflexivity |]. split; [lia |]. split; [by repeat split |]. intros c1 Hu.
      destruct (Hslots idx ltac:(lia)) as (c & Hc & Hiff). rewrite Hc in Hfree.
      cbn in Hfree. injection Hfree as Hfree.
      replace st with {| lst := lst st; mem := mem st |} at 2 by (by destruct st).
      apply (slot_node_post st ps idx (lst st) c1); try assumption; try reflexivity; try lia.
      * intros Hin. apply Hiff in Hin. congruence.
      * intros Hf. congruence.
    + right. rewrite Hrun. cbn [rbind]. split; [reflexivity |].
      split; [intros Hf; congruence |]. intros _ j Hj.
      destruct (Hslots j Hj) as (c & Hc & Hiff). apply Hiff.
      specialize (Hall j ltac:(lia)). rewrite Hc in Hall. cbn in Hall. congruence.
Qed.

End Acquire.


(** ** Moving the node buffer *)

Lemma alter_each_cons f p l m : alter_each f (p :: l) m = alter (f p) p (alter_each f l m).
Proof. reflexivity. Qed.

Lemma alter_each_notin f l m q : q ∉ l → alter_each f l m !! q = m !! q.
Proof.
  induction l as [| a l IH]; intros Hq; [reflexivity |].
  rewrite alter_each_cons, lookup_alter_ne by set_solver. apply IH. set_solver.
Qed.

Lemma alter_each_in f l m q : NoDup l → q ∈ l → alter_each f l m !! q = f q <$> m !! q.
Proof.
  induction l as [| a l IH]; intros Hnd Hq; [set_solver |].
  apply NoDup_cons in Hnd as [Ha Hnd]. rewrite alter_each_cons.
  destruct (decide (a = q)) as [-> | Hne].
  - rewrite lookup_alter_eq. by rewrite alter_each_notin.
  - rewrite lookup_alter_ne by done. apply IH; set_solver.
Qed.

Lemma alter_each_shift f a g l m :
  a ∉ l → alter_each f l (alter g a m) = alter g a (alter_each f l m).
Proof.
  induction l as [| b l IH]; intros Ha; [reflexivity |].
  rewrite !alter_each_cons, IH by set_solver.
  apply alter_alter_ne. set_solver.
Qed.

Lemma links_only_alter_each m f l :
  (∀ p c, data (f p c) = data c ∧ in_use (f p c) = in_use c ∧ index (f p c) = index c) →
  links_only m (alter_each f l m).
Proof.
  intros Hf. induction l as [| a l IH]; [apply links_only_refl |].
  rewrite alter_each_cons. eapply links_only_trans; [exact IH |].
  apply links_only_alter. apply Hf.
Qed.

Section Move.
Variable cfg : config.
Hypothesis cfg_ok : config_ok cfg = true.

Lemma rebase_slot old b i : rebase old b (slot cfg old i) = slot cfg b i.
Proof. unfold rebase, slot. lia. Qed.

Lemma slot_fmap_inj b (l : list Z) : NoDup l → NoDup (slot cfg b <$> l).
Proof.
  intros H. apply NoDup_fmap_2; [| exact H]. intros x y. apply (slot_inj cfg cfg_ok).
Qed.

Lemma elem_of_slot_fmap b i (l : list Z) : slot cfg b i ∈ slot cfg b <$> l ↔ i ∈ l.
Proof.
  rewrite list_elem_of_fmap. split.
  - intros (j & E & Hj). apply (slot_inj cfg cfg_ok) in E. by subst.
  - intros H. eauto.
Qed.

(** *** The cells after ZEROLIST_REALLOC *)

Lemma mem_realloc_new g old old_n b new_n m i :
  0 ≤ i < new_n →
  mem_realloc_buf cfg g old old_n b new_n m !! slot cfg b i
  = Some (if i <? old_n then default (g (slot cfg b i)) (m !! slot cfg old i)
          else g (slot cfg b i)).
Proof.
  intros Hi. unfold mem_realloc_buf, mem_write_buf.
  replace i with (0 + Z.of_nat (Z.to_nat i)) at 1 by lia.
  rewrite (mem_write_from_in cfg cfg_ok _ _ _ _ _
             (if i <? old_n then default (g (slot cfg b i)) (m !! slot cfg old i)
              else g (slot cfg b i))); [reflexivity |].
  rewrite list_lookup_fmap, lookup_seqZ_lt by lia. cbn.
  replace (0 + Z.of_nat (Z.to_nat i)) with i by lia. reflexivity.
Qed.

Lemma mem_realloc_other g old old_n b new_n m p :
  (∀ i, 0 ≤ i < new_n → p ≠ slot cfg b i) →
  (∀ i, 0 ≤ i < old_n → p ≠ slot cfg old i) →
  mem_realloc_buf cfg g old old_n b new_n m !! p = m !! p.
Proof.
  intros Hnew Hold. unfold mem_realloc_buf, mem_write_buf.
  rewrite mem_write_from_out.
  - unfold mem_free_buf. apply mem_free_from_out. intros k Hk. apply Hold. lia.
  - intros k Hk. rewrite length_fmap, length_seqZ in Hk. apply Hnew. lia.
Qed.

(** *** The loop that rebases the links *)

Lemma rebase_links_next old b new_n cur c j :
  next c = slot cfg old j → 0 ≤ j ≤ TYPE_MAX cfg → j < new_n →
  next (rebase_links cfg old b new_n cur c) = slot cfg b j.
Proof.
  intros Hn Hj Hlt. unfold rebase_links. cbn [next set_next].
  rewrite Hn, (ptr_diff_slot cfg cfg_ok), to_TYPE_small by lia.
  destruct (new_n <=? j) eqn:E; [apply Z.leb_le in E; lia | reflexivity].
Qed.

Lemma rebase_links_prev old b new_n cur c j :
  prev c = slot cfg old j → 0 ≤ j ≤ TYPE_MAX cfg → j < new_n →
  prev (rebase_links cfg old b new_n cur c) = slot cfg b j.
Proof.
  intros Hn Hj Hlt. unfold rebase_links. cbn [prev set_next set_prev].
  rewrite Hn, (ptr_diff_slot cfg cfg_ok), to_TYPE_small by lia.
  destruct (new_n <=? j) eqn:E; [apply Z.leb_le in E; lia | reflexivity].
Qed.

Lemma relocate_loop old b new_n hidx m0 : ∀ rest cidx s fuel,
  head (lst s) = slot cfg b hidx →
  fwd m0 (slot cfg old <$> (cidx :: rest ++ [hidx])) →
  (∀ i, i ∈ cidx :: rest → mem s !! slot cfg b i = m0 !! slot cfg old i) →
  NoDup (cidx :: rest) → hidx ∉ rest →
  (∀ i, i ∈ rest ++ [hidx] → 0 ≤ i ≤ TYPE_MAX cfg ∧ i < new_n) →
  (length rest < fuel)%nat →
  update_node_pointers_loop cfg fuel old b new_n (slot cfg b cidx) s
  = Ok (on_mem (alter_each (rebase_links cfg old b new_n) (slot cfg b <$> (cidx :: rest))) s).
Proof.
  induction rest as [| r rest IH]; intros cidx s fuel Hh Hf Hag Hnd Hnotin Hrange Hfuel;
    (destruct fuel as [| fuel]; [cbn in Hfuel; lia |]).
  - cbn in Hf. destruct Hf as [Hf _]. apply nxt_Some in Hf as (c & Hc & Hn).
    rewrite <- (Hag cidx) in Hc by set_solver.
    cbn [update_node_pointers_loop]. rewrite (load_Some _ _ _ Hc). cbn [rbind].
    rewrite (update_Some _ _ _ _ Hc). cbn [rbind].
    erewrite update_Some by (cbn; apply lookup_insert_eq). cbn [rbind].
    erewrite load_Some by (cbn; apply lookup_insert_eq). cbn [rbind].
    fold (rebase_links cfg old b new_n (slot cfg b cidx) c).
    destruct (Hrange hidx ltac:(set_solver)) as [Hr1 Hr2].
    rewrite (rebase_links_next _ _ _ _ _ hidx) by assumption.
    cbn [lst on_mem]. rewrite Hh, Z.eqb_refl.
    f_equal. unfold on_mem. cbn [mem lst]. f_equal.
    rewrite insert_insert_eq. cbn [fmap list_fmap]. rewrite alter_each_cons.
    cbn [alter_each foldr]. by rewrite <- (alter_insert_same _ _ _ _ Hc).
  - cbn [app fmap list_fmap] in Hf. rewrite fwd_cons in Hf. destruct Hf as [Hf Hrest].
    apply nxt_Some in Hf as (c & Hc & Hn).
    rewrite <- (Hag cidx) in Hc by set_solver.
    apply NoDup_cons in Hnd as [Hcur Hnd].
    cbn [update_node_pointers_loop]. rewrite (load_Some _ _ _ Hc). cbn [rbind].
    rewrite (update_Some _ _ _ _ Hc). cbn [rbind].
    erewrite update_Some by (cbn; apply lookup_insert_eq). cbn [rbind].
    erewrite load_Some by (cbn; apply lookup_insert_eq). cbn [rbind].
    fold (rebase_links cfg old b new_n (slot cfg b cidx) c).
    destruct (Hrange r ltac:(set_solver)) as [Hr1 Hr2].
    rewrite (rebase_links_next _ _ _ _ _ r) by assumption.
    cbn [lst on_mem]. rewrite Hh.
    destruct (slot cfg b r =? slot cfg b hidx) eqn:E.
    { apply Z.eqb_eq in E. apply (slot_inj cfg cfg_ok) in E. set_solver. }
    rewrite IH; cbn [lst mem on_mem]; try assumption.
    + f_equal. unfold on_mem. cbn [mem lst]. f_equal.
      rewrite insert_insert_eq.
      rewrite (alter_insert_same _ _ _ (rebase_links cfg old b new_n (slot cfg b cidx)) Hc).
      change (slot cfg b <$> cidx :: r :: rest) with (slot cfg b cidx :: (slot cfg b <$> r :: rest)).
      rewrite (alter_each_cons _ (slot cfg b cidx)).
      apply alter_each_shift. rewrite elem_of_slot_fmap. exact Hcur.
    + intros i Hi. rewrite insert_insert_eq, lookup_insert_ne; [apply Hag; set_solver |].
      intros E'. apply (slot_inj cfg cfg_ok) in E'. set_solver.
    + set_solver.
    + intros i Hi. apply Hrange. set_solver.
    + cbn in Hfuel. lia.
Qed.

(** *** The ring after the move *)

Lemma slots_indices (P : Z → Prop) old (ps : list Z) :
  (∀ p, p ∈ ps → ∃ i, P i ∧ p = slot cfg old i) →
  ∃ idxs : list Z, ps = slot cfg old <$> idxs ∧ ∀ i, i ∈ idxs → P i.
Proof.
  induction ps as [| p ps IH]; intros H.
  - exists []. split; [reflexivity | set_solver].
  - destruct IH as (idxs & -> & Hall); [intros q Hq; apply H; set_solver |].
    destruct (H p ltac:(set_solver)) as (i & Hi & ->).
    exists (i :: idxs). split; [reflexivity |]. intros j Hj.
    apply elem_of_cons in Hj as [-> | Hj]; auto.
Qed.

Lemma fwd_transport m m' (F : Z → Z) : ∀ l : list Z,
  fwd m l →
  (∀ p q, p ∈ l → q ∈ l → nxt m p = Some q → nxt m' (F p) = Some (F q)) →
  fwd m' (F <$> l).
Proof.
  induction l as [| a l IH]; intros Hf Hstep; [exact I |].
  destruct l as [| b l]; [exact I |].
  cbn [fmap list_fmap]. rewrite fwd_cons in Hf. destruct Hf as [H1 H2].
  apply fwd_cons. split.
  - apply Hstep; [set_solver | set_solver | exact H1].
  - apply IH; [exact H2 |]. intros p q Hp Hq. apply Hstep; set_solver.
Qed.

Lemma bwd_transport m m' (F : Z → Z) : ∀ l : list Z,
  bwd m l →
  (∀ p q, p ∈ l → q ∈ l → prv m q = Some p → prv m' (F q) = Some (F p)) →
  bwd m' (F <$> l).
Proof.
  induction l as [| a l IH]; intros Hf Hstep; [exact I |].
  destruct l as [| b l]; [exact I |].
  cbn [fmap list_fmap]. rewrite bwd_cons in Hf. destruct Hf as [H1 H2].
  apply bwd_cons. split.
  - apply Hstep; [set_solver | set_solver | exact H1].
  - apply IH; [exact H2 |]. intros p q Hp Hq. apply Hstep; set_solver.
Qed.

Lemma ring_relocated m0 m1 old b new_n (idxs : list Z) :
  0 < b →
  ring m0 (slot cfg old <$> idxs) →
  (∀ i, i ∈ idxs → 0 ≤ i ≤ TYPE_MAX cfg ∧ i < new_n) →
  (∀ i, i ∈ idxs → m1 !! slot cfg b i = m0 !! slot cfg old i) →
  ring (alter_each (rebase_links cfg old b new_n) (slot cfg b <$> idxs) m1) (slot cfg b <$> idxs).
Proof.
  intros Hb Hring Hrange Hag.
  destruct idxs as [| h t]; [apply ring_nil |].
  change (slot cfg old <$> h :: t) with (slot cfg old h :: (slot cfg old <$> t)) in Hring.
  apply ring_cons_unfold in Hring as (Hnd & H0 & Hf & Hbw). cbn [hd app] in Hf, Hbw.
  change (slot cfg old h :: (slot cfg old <$> t)) with (slot cfg old <$> h :: t) in Hnd, H0.
  replace (slot cfg old h :: (slot cfg old <$> t) ++ [slot cfg old h])
    with (slot cfg old <$> (h :: t ++ [h])) in Hf, Hbw
    by (cbn [fmap list_fmap]; by rewrite fmap_app).
  assert (Hnd' : NoDup (h :: t)) by (eapply NoDup_fmap_1; exact Hnd).
  assert (Hin : ∀ p, p ∈ slot cfg old <$> (h :: t ++ [h]) →
                ∃ i, i ∈ h :: t ∧ p = slot cfg old i).
  { intros p Hp. apply list_elem_of_fmap in Hp as (i & -> & Hi). exists i. set_solver. }
  assert (Hnode : ∀ i, i ∈ h :: t →
            alter_each (rebase_links cfg old b new_n) (slot cfg b <$> h :: t) m1 !! slot cfg b i
            = rebase_links cfg old b new_n (slot cfg b i) <$> m0 !! slot cfg old i).
  { intros i Hi. rewrite alter_each_in.
    - by rewrite Hag.
    - by apply slot_fmap_inj.
    - by apply elem_of_slot_fmap. }
  change (slot cfg b <$> h :: t) with (slot cfg b h :: (slot cfg b <$> t)) at 2.
  apply ring_cons_unfold.
  assert (Hre : slot cfg b h :: (slot cfg b <$> t) ++ [slot cfg b h]
                = rebase old b <$> (slot cfg old <$> (h :: t ++ [h]))).
  { rewrite <- list_fmap_compose. cbn [fmap list_fmap app]. rewrite !fmap_app. cbn.
    rewrite !rebase_slot. do 2 f_equal. apply list_fmap_ext. intros ? x _. cbn.
    symmetry. apply rebase_slot. }
  rewrite Hre. clear Hre.
  change (slot cfg b h :: (slot cfg b <$> t)) with (slot cfg b <$> h :: t).
  split; [by apply slot_fmap_inj |]. split.
  { intros H. apply list_elem_of_fmap in H as (i & E & Hi).
    pose proof (slot_ge cfg cfg_ok b i ltac:(destruct (Hrange i Hi); lia)). lia. }
  split.
  - eapply fwd_transport; [exact Hf |]. intros p q Hp Hq Hn.
    apply Hin in Hp as (i & Hi & ->). apply Hin in Hq as (j & Hj & ->).
    rewrite !rebase_slot. apply nxt_Some in Hn as (c & Hc & Hn).
    unfold nxt. rewrite Hnode, Hc by exact Hi. cbn [fmap option_fmap option_map].
    f_equal. apply rebase_links_next; [exact Hn | apply Hrange, Hj ..].
  - eapply bwd_transport; [exact Hbw |]. intros p q Hp Hq Hn.
    apply Hin in Hp as (i & Hi & ->). apply Hin in Hq as (j & Hj & ->).
    rewrite !rebase_slot. apply prv_Some in Hn as (c & Hc & Hn).
    unfold prv. rewrite Hnode, Hc by exact Hj. cbn [fmap option_fmap option_map].
    f_equal. apply rebase_links_prev; [exact Hn | apply Hrange, Hi ..].
Qed.

Lemma rebase_links_flags old b new_n p c :
  data (rebase_links cfg old b new_n p c) = data c
  ∧ in_use (rebase_links cfg old b new_n p c) = in_use c
  ∧ index (rebase_links cfg old b new_n p c) = index c.
Proof. done. Qed.

(** [_zerolist_update_node_pointers] after ZEROLIST_REALLOC: the ring is
    the same sequence of slots of the buffer at its new place. *)
Lemma relocate_spec fuel st (ps : list Z) old old_n b new_n g :
  holds st ps → 0 < b →
  (∀ p, p ∈ ps →
     ∃ i, (0 ≤ i ≤ TYPE_MAX cfg ∧ i < old_n ∧ i < new_n) ∧ p = slot cfg old i) →
  (length ps < fuel)%nat →
  ∃ st2,
    _zerolist_update_node_pointers cfg fuel old b old_n new_n
      (on_mem (mem_realloc_buf cfg g old old_n b new_n) st) = Ok st2
    ∧ holds st2 (rebase old b <$> ps)
    ∧ lst st2 = with_head (hd 0 (rebase old b <$> ps)) (with_node_buf b (lst st))
    ∧ links_only (mem_realloc_buf cfg g old old_n b new_n (mem st)) (mem st2).
Proof.
  intros [Hring Hhead] Hb Hslots Hfuel.
  destruct (slots_indices _ _ _ Hslots) as (idxs & -> & Hrange).
  assert (Hag : ∀ i, i ∈ idxs →
            mem_realloc_buf cfg g old old_n b new_n (mem st) !! slot cfg b i
            = mem st !! slot cfg old i).
  { intros i Hi. destruct (Hrange i Hi) as (Hi1 & Hi2 & Hi3).
    rewrite mem_realloc_new by lia.
    destruct (i <? old_n) eqn:E; [| apply Z.ltb_ge in E; lia].
    destruct (ring_mapped _ _ (slot cfg old i) Hring) as [c Hc]; [by apply elem_of_slot_fmap |].
    by rewrite Hc. }
  assert (Hreb : rebase old b <$> (slot cfg old <$> idxs) = slot cfg b <$> idxs).
  { rewrite <- list_fmap_compose. apply list_fmap_ext. intros ? x _. cbn. apply rebase_slot. }
  rewrite Hreb.
  unfold _zerolist_update_node_pointers. cbn [lst on_lst on_mem mem].
  destruct idxs as [| h t].
  { cbn [fmap list_fmap hd] in *. cbn [head with_node_buf]. rewrite Hhead.
    rewrite Z.eqb_refl, orb_true_r. eexists. split; [reflexivity |].
    split; [split; [apply ring_nil | cbn; exact Hhead] |].
    split; [cbn; destruct (lst st); cbn in *; by subst |].
    apply links_only_refl. }
  cbn [fmap list_fmap hd] in Hhead |- *. cbn [head with_node_buf].
  destruct (b =? old) eqn:Eb.
  { apply Z.eqb_eq in Eb. subst b. cbn [orb]. eexists. split; [reflexivity |].
    split; [split |]; cbn [lst mem].
    - eapply ring_agree; [| exact Hring]. intros p Hp.
      change (p ∈ slot cfg old <$> h :: t) in Hp.
      apply list_elem_of_fmap in Hp as (i & -> & Hi). by apply Hag.
    - cbn. exact Hhead.
    - split; [| apply links_only_refl].
      destruct st as [l m]; destruct l; cbn in *. by subst. }
  cbn [orb]. rewrite Hhead.
  pose proof (ring_nonzero _ _ (slot cfg old h) Hring ltac:(set_solver)) as Hnz.
  apply Z.eqb_neq in Hnz. rewrite Hnz.
  destruct (Hrange h ltac:(set_solver)) as (Hh1 & Hh2 & Hh3).
  rewrite (ptr_diff_slot cfg cfg_ok), to_TYPE_small by lia.
  change (slot cfg old <$> h :: t) with (slot cfg old h :: (slot cfg old <$> t)) in Hring.
  pose proof Hring as Hring'.
  apply ring_cons_unfold in Hring' as (Hnd & H0 & Hf & Hbw). cbn [hd app] in Hf.
  change (slot cfg old h :: (slot cfg old <$> t)) with (slot cfg old <$> h :: t) in Hnd.
  assert (Hnd' : NoDup (h :: t)) by (eapply NoDup_fmap_1; exact Hnd).
  rewrite (relocate_loop old b new_n h (mem st) t h); cbn [lst mem on_lst head with_head].
  - eexists. split; [reflexivity |]. split; [split |]; cbn [lst mem on_mem].
    + apply (ring_relocated (mem st)); try assumption.
      intros i Hi. destruct (Hrange i Hi) as (? & ? & ?). lia.
    + reflexivity.
    + split; [reflexivity |]. apply links_only_alter_each. intros. apply rebase_links_flags.
  - reflexivity.
  - cbn [fmap list_fmap]. rewrite fmap_app. exact Hf.
  - exact Hag.
  - exact Hnd'.
  - by apply NoDup_cons in Hnd' as [? _].
  - intros i Hi. destruct (Hrange i ltac:(set_solver)) as (? & ? & ?). lia.
  - rewrite length_fmap in Hfuel. cbn in Hfuel. lia.
Qed.

End Move.


(** ** Growing the arena *)

Section Grow.
Variable cfg : config.
Hypothesis cfg_ok : config_ok cfg = true.

Lemma stack_realloc_length g n stk : 0 ≤ n → Z.of_nat (length (stack_realloc g n stk)) = n.
Proof.
  intros Hn. unfold stack_realloc. rewrite length_app, length_take, length_fmap, length_seqZ.
  lia.
Qed.

Lemma stack_realloc_take g n stk (k : nat) :
  (k ≤ length stk)%nat → Z.of_nat k ≤ n →
  take k (stack_realloc g n (Some stk)) = take k stk.
Proof.
  intros Hk Hn. unfold stack_realloc. cbn [default from_option id].
  rewrite take_app_le by (rewrite length_take; lia).
  rewrite take_take. f_equal. lia.
Qed.

(** The loop over the new slots (lines 587-595): each is flagged free and,
    with a free stack, pushed. *)
Lemma expand_init_loop_spec s0 b old_n new_n ft0 stk0 :
  node_buf (lst s0) = b →
  0 ≤ old_n ≤ new_n → new_n ≤ TYPE_MAX cfg →
  (∀ i, old_n ≤ i < new_n → is_Some (mem s0 !! slot cfg b i)) →
  (ZEROLIST_FAST_ALLOC cfg = true →
   free_stack (lst s0) = Some stk0 ∧ free_top (lst s0) = ft0 ∧ 0 ≤ ft0 ≤ old_n
   ∧ new_n ≤ Z.of_nat (length stk0)) →
  ∃ s', for_loop (Z.to_nat (new_n - old_n)) old_n (expand_init_slot cfg) s0 = Ok s'
    ∧ (ZEROLIST_FAST_ALLOC cfg = false → lst s' = lst s0)
    ∧ (ZEROLIST_FAST_ALLOC cfg = true →
       ∃ stk, lst s' = with_free_top (ft0 + (new_n - old_n))
                         (with_free_stack (Some stk) (lst s0))
              ∧ length stk = length stk0
              ∧ take (Z.to_nat (ft0 + (new_n - old_n))) stk
                = take (Z.to_nat ft0) stk0 ++ seqZ old_n (new_n - old_n))
    ∧ (∀ q, (∀ i, old_n ≤ i < new_n → q ≠ slot cfg b i) → mem s' !! q = mem s0 !! q)
    ∧ (∀ i, old_n ≤ i < new_n → ∃ c, mem s' !! slot cfg b i = Some c ∧ in_use c = false).
Proof.
  intros Hb Hn Hmax Hmapped Hfast.
  set (P := λ (j : Z) (s : state),
    (ZEROLIST_FAST_ALLOC cfg = false → lst s = lst s0)
    ∧ (ZEROLIST_FAST_ALLOC cfg = true →
       ∃ stk, lst s = with_free_top (ft0 + (j - old_n))
                        (with_free_stack (Some stk) (lst s0))
              ∧ length stk = length stk0
              ∧ take (Z.to_nat (ft0 + (j - old_n))) stk
                = take (Z.to_nat ft0) stk0 ++ seqZ old_n (j - old_n))
    ∧ (∀ q, (∀ i, old_n ≤ i < j → q ≠ slot cfg b i) → mem s !! q = mem s0 !! q)
    ∧ (∀ i, old_n ≤ i < j → ∃ c, mem s !! slot cfg b i = Some c ∧ in_use c = false)).
  destruct (for_loop_inv P (expand_init_slot cfg) (Z.to_nat (new_n - old_n)) old_n s0)
    as (s' & Hrun & HP).
  - unfold P. split; [done |]. split.
    + intros Hf. destruct (Hfast Hf) as (Hstk & Hft & Hr & Hlen). exists stk0.
      replace (ft0 + (old_n - old_n)) with ft0 by lia.
      split; [| split; [done |]].
      * destruct (lst s0); cbn in *; by subst.
      * replace (old_n - old_n) with 0 by lia. cbn. by rewrite app_nil_r.
    + split; [done |]. intros i Hi. lia.
  - intros j s Hj (Hslow & Hstack & Hother & Hnew).
    assert (Hbuf : node_buf (lst s) = b).
    { destruct (ZEROLIST_FAST_ALLOC cfg) eqn:Ef.
      - destruct (Hstack eq_refl) as (stk & -> & _). exact Hb.
      - by rewrite Hslow. }
    destruct (Hmapped j ltac:(lia)) as [c Hc].
    rewrite <- Hother in Hc
      by (intros i Hi E; apply (slot_inj cfg cfg_ok) in E; lia).
    unfold expand_init_slot. rewrite Hbuf, (update_Some _ _ _ _ Hc). cbn [rbind].
    set (m1 := <[slot cfg b j := set_flags false (to_index_field cfg j) c]> (mem s)).
    assert (Hmem :
      (∀ q, (∀ i, old_n ≤ i < j + 1 → q ≠ slot cfg b i) → m1 !! q = mem s0 !! q)
      ∧ (∀ i, old_n ≤ i < j + 1 → ∃ c, m1 !! slot cfg b i = Some c ∧ in_use c = false)).
    { subst m1. split.
      - intros q Hq. rewrite lookup_insert_ne by (intros E; apply (Hq j); [lia | done]).
        apply Hother. intros i Hi. apply Hq. lia.
      - intros i Hi. destruct (decide (i = j)) as [-> | Hne].
        + rewrite lookup_insert_eq. eauto.
        + rewrite lookup_insert_ne by (intros E; apply (slot_inj cfg cfg_ok) in E; lia).
          apply Hnew. lia. }
    destruct (ZEROLIST_FAST_ALLOC cfg) eqn:Ef.
    + destruct (Hstack eq_refl) as (stk & Hl & Hlen & Htake).
      destruct (Hfast eq_refl) as (Hstk & Hft & Hr & Hlen0).
      cbn [lst on_mem]. unfold stack_set. rewrite Hl. cbn [free_stack with_free_top with_free_stack free_top].
      destruct ((0 <=? ft0 + (j - old_n)) && (ft0 + (j - old_n) <? Z.of_nat (length stk))) eqn:E.
      2:{ apply andb_false_iff in E as [E | E]; [apply Z.leb_gt in E | apply Z.ltb_ge in E]; lia. }
      cbn [rbind]. eexists. split; [reflexivity |]. unfold P. cbn [lst mem].
      split; [intros; discriminate |]. split; [| exact Hmem].
      intros _. exists (<[Z.to_nat (ft0 + (j - old_n)) := j]> stk).
      rewrite to_TYPE_small by lia.
      split; [| split].
      * unfold with_free_top, with_free_stack. cbn. f_equal. lia.
      * by rewrite length_insert.
      * replace (Z.to_nat (ft0 + (j + 1 - old_n))) with (S (Z.to_nat (ft0 + (j - old_n)))) by lia.
        rewrite take_insert_snoc by lia. rewrite Htake, <- app_assoc. f_equal.
        replace (j + 1 - old_n) with (Z.of_nat (S (Z.to_nat (j - old_n)))) by lia.
        rewrite seqZ_S. replace (Z.of_nat (Z.to_nat (j - old_n))) with (j - old_n) by lia.
        do 2 f_equal. lia.
    + eexists. split; [reflexivity |]. unfold P. cbn [lst mem on_mem].
      split; [intros _; by apply Hslow |]. split; [intros; discriminate |].
      exact Hmem.
  - exists s'. split; [exact Hrun |].
    unfold P in HP. replace (old_n + Z.of_nat (Z.to_nat (new_n - old_n))) with new_n in HP by lia.
    exact HP.
Qed.

Lemma config_ok_expand :
  ZEROLIST_STATIC_DYNAMIC_EXPAND cfg = true →
  ZEROLIST_USE_MALLOC cfg = false ∧ ZEROLIST_STATIC_FALLBACK_MALLOC cfg = false.
Proof.
  intros He. pose proof cfg_ok as H. unfold config_ok in H. rewrite He in H.
  destruct (ZEROLIST_USE_MALLOC cfg), (ZEROLIST_STATIC_FALLBACK_MALLOC cfg);
    cbn in H; try discriminate; rewrite ?andb_false_r in H; try discriminate; done.
Qed.

Lemma rebase_inj old b p q : rebase old b p = rebase old b q → p = q.
Proof. unfold rebase. lia. Qed.

Lemma elem_of_rebase old b i (ps : list Z) :
  slot cfg b i ∈ rebase old b <$> ps ↔ slot cfg old i ∈ ps.
Proof.
  rewrite list_elem_of_fmap. split.
  - intros (p & E & Hp). rewrite <- (rebase_slot cfg old b) in E.
    apply rebase_inj in E. by subst.
  - intros H. exists (slot cfg old i). by rewrite rebase_slot.
Qed.

(** In a growable arena every live node is a slot. *)
Lemma live_slots st ps p :
  ZEROLIST_STATIC_DYNAMIC_EXPAND cfg = true → store_inv cfg st ps → p ∈ ps →
  ∃ i, (0 ≤ i ≤ TYPE_MAX cfg ∧ i < max_nodes (lst st)) ∧ p = slot cfg (node_buf (lst st)) i.
Proof.
  intros He [_ Harena] Hp. destruct (config_ok_expand He) as [Hm Hf].
  destruct (Harena Hm) as (_ & Hmax & _ & Hwhere & _).
  destruct (Hwhere p Hp) as [(i & Hi & ->) | [Hfb _]]; [| congruence].
  exists i. split; [lia | reflexivity].
Qed.

(** [_zerolist_expand_buffer] when both reallocations succeed: the ring is
    the same sequence of slots in the buffer at its new place, the store
    accounts for it, and the slots added are free (and on the free stack,
    where there is one). *)
Lemma expand_buffer_spec env fuel st (ps : list Z) new_n :
  ZEROLIST_STATIC_DYNAMIC_EXPAND cfg = true →
  holds st ps → store_inv cfg st ps →
  max_nodes (lst st) < new_n ≤ TYPE_MAX cfg →
  (length ps < fuel)%nat →
  0 < env_realloc env →
  (ZEROLIST_FAST_ALLOC cfg = true → env_realloc_stack env = true) →
  ∃ st',
    _zerolist_expand_buffer cfg env fuel new_n st = Ok (st', true)
    ∧ holds st' (rebase (node_buf (lst st)) (env_realloc env) <$> ps)
    ∧ store_inv cfg st' (rebase (node_buf (lst st)) (env_realloc env) <$> ps)
    ∧ node_buf (lst st') = env_realloc env ∧ max_nodes (lst st') = new_n
    ∧ size (lst st') = size (lst st)
    ∧ payloads (mem st') (rebase (node_buf (lst st)) (env_realloc env) <$> ps)
      = payloads (mem st) ps
    ∧ (∀ i, max_nodes (lst st) ≤ i < new_n →
         (in_use <$> mem st' !! slot cfg (env_realloc env) i) = Some false)
    ∧ (ZEROLIST_FAST_ALLOC cfg = true →
       ∃ stk stk',
         free_stack (lst st) = Some stk ∧ free_stack (lst st') = Some stk'
         ∧ free_top (lst st') = free_top (lst st) + (new_n - max_nodes (lst st))
         ∧ take (Z.to_nat (free_top (lst st'))) stk'
           = take (Z.to_nat (free_top (lst st))) stk
             ++ seqZ (max_nodes (lst st)) (new_n - max_nodes (lst st))).
Proof.
  intros He Hholds Hstore Hn Hfuel Hb Hstackok.
  destruct (config_ok_expand He) as [Hm Hfb].
  pose proof Hstore as [Hmapped Harena].
  destruct (Harena Hm) as (Hbuf & Hmax & Hslots & Hwhere & Hstack).
  set (old := node_buf (lst st)) in *. set (old_n := max_nodes (lst st)) in *.
  set (b := env_realloc env) in *. set (g := garbage env).
  destruct (relocate_spec cfg cfg_ok fuel st ps old old_n b new_n g Hholds Hb)
    as (st2 & Hrun2 & Hholds2 & Hlst2 & Hlinks); [| exact Hfuel |].
  { intros p Hp. destruct (live_slots st ps p He Hstore Hp) as (i & Hi & ->).
    exists i. split; [fold old_n in Hi; lia | reflexivity]. }
  set (m1 := mem_realloc_buf cfg g old old_n b new_n (mem st)) in *.
  assert (Hold : ∀ i, 0 ≤ i < old_n →
            ∃ c c2, mem st !! slot cfg old i = Some c ∧ mem st2 !! slot cfg b i = Some c2
                    ∧ data c2 = data c ∧ in_use c2 = in_use c).
  { intros i Hi. destruct (Hslots i Hi) as (c & Hc & _).
    pose proof (Hlinks (slot cfg b i)) as Hl. unfold m1 in Hl.
    rewrite mem_realloc_new in Hl by (try assumption; lia).
    destruct (i <? old_n) eqn:E; [| apply Z.ltb_ge in E; lia].
    rewrite Hc in Hl. cbn [default from_option id] in Hl.
    destruct (mem st2 !! slot cfg b i) as [c2 |]; [| done].
    exists c, c2. destruct Hl as (-> & -> & _). done. }
  assert (Hnewmapped : ∀ i, old_n ≤ i < new_n → is_Some (mem st2 !! slot cfg b i)).
  { intros i Hi. apply (links_only_mapped _ _ _ Hlinks). unfold m1.
    rewrite mem_realloc_new by (try assumption; lia). eauto. }
  set (st3 := if ZEROLIST_FAST_ALLOC cfg
              then on_lst (λ l, with_free_stack
                                  (Some (stack_realloc g new_n (free_stack l))) l) st2
              else st2).
  assert (Hmem3 : mem st3 = mem st2) by (unfold st3; by destruct (ZEROLIST_FAST_ALLOC cfg)).
  destruct (expand_init_loop_spec st3 b old_n new_n (free_top (lst st))
              (stack_realloc g new_n (free_stack (lst st))))
    as (st4 & Hrun4 & Hslow & Hfast & Hother & Hnew).
  { unfold st3. destruct (ZEROLIST_FAST_ALLOC cfg); cbn [lst on_lst]; by rewrite Hlst2. }
  { lia. }
  { lia. }
  { intros i Hi. rewrite Hmem3. by apply Hnewmapped. }
  { intros Hf. destruct (Hstack Hf) as (stk & Hstk & Hrange & Hlen & _).
    unfold st3. rewrite Hf. cbn [lst on_lst]. rewrite Hlst2.
    cbn [free_stack free_top with_free_stack with_head with_node_buf].
    split; [reflexivity |]. split; [reflexivity |]. split; [exact Hrange |].
    rewrite stack_realloc_length; lia. }
  rewrite Hmem3 in Hother.
  assert (Hlst4 : head (lst st4) = hd 0 (rebase old b <$> ps) ∧ node_buf (lst st4) = b
                  ∧ size (lst st4) = size (lst st)).
  { destruct (ZEROLIST_FAST_ALLOC cfg) eqn:Ef.
    - destruct (Hfast eq_refl) as (stk' & -> & _). unfold st3. cbn. by rewrite Hlst2.
    - rewrite Hslow by done. unfold st3. by rewrite Hlst2. }
  destruct Hlst4 as (Hhead4 & Hbuf4 & Hsize4).
  assert (Hkeep : ∀ i, 0 ≤ i < old_n → mem st4 !! slot cfg b i = mem st2 !! slot cfg b i).
  { intros i Hi. apply Hother. intros j Hj E. apply (slot_inj cfg cfg_ok) in E. lia. }
  assert (Hps : ∀ p, p ∈ rebase old b <$> ps → ∃ i, 0 ≤ i < old_n ∧ p = slot cfg b i).
  { intros p Hp. apply list_elem_of_fmap in Hp as (q & -> & Hq).
    destruct (live_slots st ps q He Hstore Hq) as (i & Hi & ->).
    exists i. fold old old_n in Hi |- *. rewrite rebase_slot. split; [lia | reflexivity]. }
  assert (Hring4 : ring (mem st4) (rebase old b <$> ps)).
  { eapply ring_agree; [| apply Hholds2]. intros p Hp.
    destruct (Hps p Hp) as (i & Hi & ->). by apply Hkeep. }
  exists (on_lst (with_max_nodes new_n) st4). split; [| split; [| split]].
  - unfold _zerolist_expand_buffer. fold old old_n b g.
    destruct (new_n <=? old_n) eqn:E1; [apply Z.leb_le in E1; lia |].
    destruct (b =? 0) eqn:E2; [apply Z.eqb_eq in E2; lia |].
    rewrite Hrun2. cbn [rbind].
    destruct (ZEROLIST_FAST_ALLOC cfg && negb (env_realloc_stack env)) eqn:E3.
    { apply andb_true_iff in E3 as [E3 E4]. rewrite (Hstackok E3) in E4. discriminate. }
    fold st3. rewrite Hrun4. reflexivity.
  - split; [exact Hring4 | exact Hhead4].
  - split.
    + intros p Hp. by apply (ring_mapped _ _ _ Hring4).
    + intros _. cbn [lst on_lst max_nodes node_buf with_max_nodes mem].
      unfold arena_inv. cbn [lst on_lst max_nodes node_buf with_max_nodes mem free_top free_stack].
      rewrite Hbuf4. split; [exact Hb |]. split; [lia |]. split; [| split].
      * intros i Hi. destruct (decide (i < old_n)) as [Hlt | Hge].
        -- destruct (Hold i ltac:(lia)) as (c & c2 & Hc & Hc2 & _ & Hu).
           destruct (Hslots i ltac:(lia)) as (c' & Hc' & Hlive).
           fold old in Hc'. rewrite Hc in Hc'. injection Hc' as <-.
           exists c2. split; [by rewrite Hkeep by lia |].
           rewrite Hu, Hlive. fold old. by rewrite elem_of_rebase.
        -- destruct (Hnew i ltac:(lia)) as (c & Hc & Hu). exists c. split; [exact Hc |].
           rewrite Hu. split; [discriminate |]. intros Hin.
           destruct (Hps _ Hin) as (j & Hj & E). apply (slot_inj cfg cfg_ok) in E. lia.
      * intros p Hp. left. destruct (Hps p Hp) as (i & Hi & ->).
        exists i. cbn [max_nodes node_buf with_max_nodes]. rewrite Hbuf4.
        split; [lia | reflexivity].
      * intros Hf. destruct (Hfast Hf) as (stk' & Hl4 & Hlen' & Htake).
        destruct (Hstack Hf) as (stk & Hstk & Hrange & Hlen & Hnd & Hent).
        unfold stack_inv. cbn [lst on_lst max_nodes node_buf free_top free_stack with_max_nodes].
        rewrite Hl4. cbn [free_top free_stack node_buf with_free_top with_free_stack].
        exists stk'. split; [reflexivity |]. fold old_n.
        split; [lia |].
        split; [rewrite Hlen', stack_realloc_length; lia |].
        rewrite Htake. rewrite Hstk, stack_realloc_take by lia.
        assert (Hb3 : node_buf (lst st3) = b).
        { unfold st3. rewrite Hf. cbn. by rewrite Hlst2. }
        rewrite Hb3. split.
        -- apply NoDup_app. split; [exact Hnd |]. split; [| apply NoDup_seqZ].
           intros idx Hidx Hseq. apply Hent in Hidx as [Hidx _].
           apply elem_of_seqZ in Hseq. fold old_n in Hidx. lia.
        -- intros idx Hidx. apply elem_of_app in Hidx as [Hidx | Hidx].
           ++ destruct (Hent idx Hidx) as [Hi Hni]. fold old_n old in Hi, Hni.
              split; [lia |]. by rewrite elem_of_rebase.
           ++ apply elem_of_seqZ in Hidx. split; [lia |]. intros Hin.
              destruct (Hps _ Hin) as (j & Hj & E). apply (slot_inj cfg cfg_ok) in E. lia.
  - cbn [lst on_lst max_nodes node_buf size with_max_nodes mem].
    split; [exact Hbuf4 |]. split; [reflexivity |]. split; [exact Hsize4 |]. split; [| split].
    + unfold payloads. rewrite map_map. apply map_ext_in. intros p Hp.
      apply list_elem_of_In in Hp.
      destruct (live_slots st ps p He Hstore Hp) as (i & Hi & ->).
      fold old old_n in Hi |- *. rewrite rebase_slot.
      destruct (Hold i ltac:(lia)) as (c & c2 & Hc & Hc2 & Hd & _).
      unfold dat. rewrite Hkeep by lia. rewrite Hc, Hc2. cbn. by rewrite Hd.
    + intros i Hi. destruct (Hnew i Hi) as (c & -> & Hu). cbn. by rewrite Hu.
    + intros Hf. destruct (Hfast Hf) as (stk' & Hl4 & Hlen' & Htake).
      destruct (Hstack Hf) as (stk & Hstk & Hrange & Hlen & Hnd & Hent).
      exists stk, stk'. split; [exact Hstk |]. rewrite Hl4.
      cbn [free_top free_stack with_free_top with_free_stack with_max_nodes].
      split; [reflexivity |]. split; [reflexivity |].
      rewrite Htake, Hstk, stack_realloc_take by lia. reflexivity.
Qed.

(** [_zerolist_expand_buffer] always returns; when it reports success the
    conclusions of [expand_buffer_spec] hold. *)
Lemma expand_buffer_runs env fuel st (ps : list Z) new_n :
  ZEROLIST_STATIC_DYNAMIC_EXPAND cfg = true →
  holds st ps → store_inv cfg st ps →
  max_nodes (lst st) < new_n ≤ TYPE_MAX cfg →
  (length ps < fuel)%nat →
  0 ≤ env_realloc env → 0 ≤ env_rollback env →
  ∃ st' ok, _zerolist_expand_buffer cfg env fuel new_n st = Ok (st', ok)
    ∧ (ok = true →
       0 < env_realloc env
       ∧ holds st' (rebase (node_buf (lst st)) (env_realloc env) <$> ps)
       ∧ store_inv cfg st' (rebase (node_buf (lst st)) (env_realloc env) <$> ps)
       ∧ node_buf (lst st') = env_realloc env ∧ max_nodes (lst st') = new_n
       ∧ size (lst st') = size (lst st)
       ∧ payloads (mem st') (rebase (node_buf (lst st)) (env_realloc env) <$> ps)
         = payloads (mem st) ps).
Proof.
  intros He Hholds Hstore Hn Hfuel Hb Hrb.
  destruct (decide (env_realloc env = 0)) as [Hb0 | Hb0].
  { exists st, false. split; [| discriminate].
    unfold _zerolist_expand_buffer. rewrite Hb0.
    destruct (new_n <=? max_nodes (lst st)); reflexivity. }
  destruct (ZEROLIST_FAST_ALLOC cfg && negb (env_realloc_stack env)) eqn:E3.
  - set (old := node_buf (lst st)). set (old_n := max_nodes (lst st)).
    set (b := env_realloc env) in *. set (g := garbage env).
    assert (Hslots : ∀ p, p ∈ ps →
              ∃ i, (0 ≤ i ≤ TYPE_MAX cfg ∧ i < old_n ∧ i < new_n) ∧ p = slot cfg old i).
    { intros p Hp. destruct (live_slots st ps p He Hstore Hp) as (i & Hi & ->).
      exists i. split; [fold old_n in Hi; lia | reflexivity]. }
    destruct (relocate_spec cfg cfg_ok fuel st ps old old_n b new_n g Hholds ltac:(lia))
      as (st2 & Hrun2 & Hholds2 & Hlst2 & Hlinks); [exact Hslots | exact Hfuel |].
    assert (Hrun : ∃ r, _zerolist_rollback_realloc cfg env fuel b old old_n new_n st2 = Ok r).
    { unfold _zerolist_rollback_realloc.
      destruct (env_rollback env =? 0) eqn:E4; [eauto |]. apply Z.eqb_neq in E4.
      match goal with
      | |- context [if ?c then _ else Ok _] => destruct c
      end; [| cbn [rbind]; eauto].
      destruct (relocate_spec cfg cfg_ok fuel st2 (rebase old b <$> ps) b new_n
                  (env_rollback env) old_n g Hholds2 ltac:(lia))
        as (st5 & Hrun5 & _).
      - intros p Hp. apply list_elem_of_fmap in Hp as (q & -> & Hq).
        destruct (Hslots q Hq) as (i & Hi & ->). exists i. rewrite rebase_slot.
        split; [lia | reflexivity].
      - by rewrite length_fmap.
      - fold g. rewrite Hrun5. cbn [rbind]. eauto. }
    destruct Hrun as ([st6 ok6] & Hrun6).
    exists (if ok6 then st6 else on_lst (with_node_buf old) st6), false.
    split; [| discriminate].
    unfold _zerolist_expand_buffer. fold old old_n b g.
    destruct (new_n <=? old_n) eqn:E1; [apply Z.leb_le in E1; lia |].
    destruct (b =? 0) eqn:E2; [apply Z.eqb_eq in E2; lia |].
    rewrite Hrun2. cbn [rbind]. rewrite E3, Hrun6. reflexivity.
  - destruct (expand_buffer_spec env fuel st ps new_n He Hholds Hstore Hn Hfuel ltac:(lia))
      as (st' & Hrun & H1 & H2 & H3 & H4 & H5 & H6 & _).
    { intros Hf. rewrite Hf in E3. cbn in E3. by apply negb_false_iff in E3. }
    exists st', true. split; [exact Hrun |]. intros _.
    split; [lia |]. done.
Qed.

End Grow.


(** ** Acquisition in every build *)

Lemma update_insert a f c st :
  update a f (on_mem (<[a := c]>) st) = Ok (on_mem (<[a := f c]>) st).
Proof.
  unfold update. cbn [mem on_mem]. rewrite lookup_insert_eq. f_equal.
  unfold on_mem. cbn [lst mem]. f_equal. apply insert_insert_eq.
Qed.

Section AcquireAll.
Variable cfg : config.
Hypothesis cfg_ok : config_ok cfg = true.

Lemma pos_restore_moved st l' (ps : list Z) pos b new_n :
  ZEROLIST_STATIC_DYNAMIC_EXPAND cfg = true → store_inv cfg st ps → pos ∈ ps →
  realloc_ok cfg (node_buf (lst st)) (max_nodes (lst st)) new_n b → 0 < b →
  max_nodes (lst st) ≤ new_n →
  node_buf l' = b → max_nodes l' = new_n →
  pos_restore cfg l' pos (pos_index cfg (lst st) pos) = rebase (node_buf (lst st)) b pos.
Proof.
  intros He Hstore Hpos Hre Hb Hn Hb' Hn'.
  destruct (config_ok_expand cfg cfg_ok He) as [Hm Hfb].
  destruct (proj2 Hstore Hm) as (Hbuf & Hmax & _).
  destruct (live_slots cfg cfg_ok st ps pos He Hstore Hpos) as (i & Hi & ->).
  pose proof (config_ok_node_size cfg cfg_ok) as Hsz.
  pose proof (slot_ge cfg cfg_ok (node_buf (lst st)) i ltac:(lia)) as Hge.
  assert (Hnz : slot cfg (node_buf (lst st)) i ≠ 0) by lia.
  unfold pos_restore, pos_index. rewrite He, Hm.
  apply Z.eqb_neq in Hnz as Hnz'. rewrite Hnz'. cbn [negb andb].
  rewrite (is_static_node_slot cfg cfg_ok) by (try assumption; lia).
  cbn [fst snd]. rewrite (ptr_diff_slot cfg cfg_ok), to_TYPE_small by lia.
  rewrite rebase_slot.
  rewrite (is_static_node_range cfg l') by (try assumption; lia).
  rewrite Hb', Hn'.
  case_bool_decide as Hin; cbn [negb]; [| reflexivity].
  destruct Hre as [-> | [-> | (_ & Hdis)]]; [lia | reflexivity |].
  exfalso. unfold slot in *. nia.
Qed.

Lemma alloc_post_moved st st1 st2 (ps : list Z) b n new_n :
  ZEROLIST_STATIC_DYNAMIC_EXPAND cfg = true → store_inv cfg st ps →
  realloc_ok cfg (node_buf (lst st)) (max_nodes (lst st)) new_n b → 0 < b →
  max_nodes (lst st) ≤ new_n →
  node_buf (lst st2) = b → max_nodes (lst st2) = new_n →
  size (lst st1) = size (lst st) →
  payloads (mem st1) (rebase (node_buf (lst st)) b <$> ps) = payloads (mem st) ps →
  alloc_post cfg st1 st2 (rebase (node_buf (lst st)) b <$> ps)
    (rebase (node_buf (lst st)) b <$> ps) n →
  alloc_post cfg st st2 ps (rebase (node_buf (lst st)) b <$> ps) n.
Proof.
  intros He Hstore Hre Hb Hn Hb2 Hn2 Hsize Hpay (Hlen & Hholds & Hn0 & Hnotin & Hmapped & Hstore2
                                                    & Hsize2 & Hpay2 & _).
  split; [by rewrite length_fmap |]. split; [exact Hholds |]. split; [exact Hn0 |].
  split; [exact Hnotin |]. split; [exact Hmapped |]. split; [exact Hstore2 |].
  split; [congruence |]. split; [congruence |].
  intros i pos Hi. rewrite list_lookup_fmap, Hi. cbn. f_equal. symmetry.
  eapply pos_restore_moved; eauto. by eapply list_elem_of_lookup_2.
Qed.

Lemma try_init_spec st (ps : list Z) :
  holds st ps → store_inv cfg st ps → ZEROLIST_USE_MALLOC cfg = false →
  (∃ idx st1 st2,
      _ZEROLIST_TRY_ALLOC_STATIC cfg st = Ok (st1, Some (slot cfg (node_buf (lst st)) idx, idx))
      ∧ init_node cfg (slot cfg (node_buf (lst st)) idx) idx st1 = Ok st2
      ∧ node_buf (lst st2) = node_buf (lst st) ∧ max_nodes (lst st2) = max_nodes (lst st)
      ∧ alloc_post cfg st st2 ps ps (slot cfg (node_buf (lst st)) idx))
  ∨ _ZEROLIST_TRY_ALLOC_STATIC cfg st = Ok (st, None).
Proof.
  intros Hholds Hstore Hm.
  destruct (try_alloc_static_spec cfg cfg_ok st ps Hholds Hstore Hm)
    as [(idx & st1 & Hrun & Hidx & (Hmem & Hb1 & Hn1) & Hpost) | (Hrun & _)]; [left | by right].
  destruct (proj2 Hstore Hm) as (Hbuf & Hmax & Hslots & _).
  destruct (Hslots idx Hidx) as (c & Hc & _).
  pose proof (slot_ge cfg cfg_ok (node_buf (lst st)) idx ltac:(lia)) as Hge.
  exists idx, st1. eexists. split; [exact Hrun |]. split.
  - apply (init_node_Some cfg _ _ _ c); [lia | by rewrite Hmem].
  - split; [exact Hb1 |]. split; [exact Hn1 |].
    unfold on_mem. rewrite Hmem. by apply Hpost.
Qed.

Lemma heap_node_init g a st f :
  (let* st := update a (set_next a) (on_mem (<[a := g]>) st) in
   let* st := update a (set_prev a) st in
   let* st := update a f st in
   Ok (st, a))
  = Ok (on_mem (<[a := f (set_prev a (set_next a g))]>) st, a).
Proof.
  rewrite update_insert. cbn [rbind]. rewrite update_insert. cbn [rbind].
  rewrite update_insert. reflexivity.
Qed.

(** [_zerolist_alloc_node] always returns; a node that is not NULL is
    mapped, is not in the ring, and the store accounts for it. *)
Lemma alloc_node_spec env fuel st (ps : list Z) :
  holds st ps → store_inv cfg st ps → allocator_ok cfg env st → (length ps < fuel)%nat →
  ∃ st' n, _zerolist_alloc_node cfg env fuel st = Ok (st', n)
           ∧ (n ≠ 0 → ∃ ps', alloc_post cfg st st' ps ps' n).
Proof.
  intros Hholds Hstore (Hmalloc & Hrealloc & Hrb) Hfuel. unfold _zerolist_alloc_node.
  destruct (ZEROLIST_USE_MALLOC cfg) eqn:Hm.
  { unfold malloc_node. destruct (env_malloc env =? 0) eqn:E.
    - rewrite Z.eqb_refl. exists st, 0. split; [reflexivity | done].
    - rewrite E. apply Z.eqb_neq in E. rewrite heap_node_init.
      eexists _, _. split; [reflexivity |]. intros _. exists ps.
      destruct Hmalloc as [H0 | (Hpos & Hfresh & _)]; [done |].
      apply (heap_node_post cfg cfg_ok); try assumption. congruence. }
  destruct (proj2 Hstore Hm) as (Hbuf & Hmax & _).
  destruct (node_buf (lst st) =? 0) eqn:E1; [apply Z.eqb_eq in E1; lia |].
  destruct (max_nodes (lst st) =? 0) eqn:E2; [apply Z.eqb_eq in E2; lia |].
  cbn [orb].
  destruct (try_init_spec st ps Hholds Hstore Hm)
    as [(idx & st1 & st2 & Hrun & Hinit & _ & _ & Hpost) | Hrun]; rewrite Hrun; cbn [rbind].
  { rewrite Hinit. cbn [rbind]. eexists _, _. split; [reflexivity |]. eauto. }
  destruct (ZEROLIST_STATIC_DYNAMIC_EXPAND cfg) eqn:He.
  - destruct (grow_request cfg (max_nodes (lst st))) as [new_n |] eqn:Eg.
    2:{ exists st, 0. split; [reflexivity | done]. }
    specialize (Hrealloc new_n eq_refl).
    assert (Hn : max_nodes (lst st) < new_n ≤ TYPE_MAX cfg).
    { rewrite (grow_request_spec cfg _ cfg_ok Hmax) in Eg.
      destruct (max_nodes (lst st) =? TYPE_MAX cfg) eqn:E; [discriminate |].
      apply Z.eqb_neq in E. injection Eg as <-. lia. }
    assert (Hb : 0 ≤ env_realloc env) by (destruct Hrealloc as [-> | [-> | [? _]]]; lia).
    destruct (expand_buffer_runs cfg cfg_ok env fuel st ps new_n He Hholds Hstore Hn Hfuel Hb Hrb)
      as (st1 & ok & Hrun1 & Hok).
    rewrite Hrun1. cbn [rbind]. unfold alloc_after_expand.
    destruct ok; cbn [negb]; [| exists st1, 0; split; [reflexivity | done]].
    destruct (Hok eq_refl) as (Hbpos & Hholds1 & Hstore1 & Hbuf1 & Hmax1 & Hsize1 & Hpay1).
    destruct (try_init_spec st1 _ Hholds1 Hstore1 Hm)
      as [(idx & st2 & st3 & Hrun2 & Hinit & Hb3 & Hn3 & Hpost) | Hrun2];
      rewrite Hrun2; cbn [rbind].
    2:{ exists st1, 0. split; [reflexivity | done]. }
    rewrite Hinit. cbn [rbind]. eexists _, _. split; [reflexivity |]. intros _.
    exists (rebase (node_buf (lst st)) (env_realloc env) <$> ps).
    rewrite Hbuf1 in Hpost.
    eapply (alloc_post_moved st st1 st3 ps _ _ new_n); try eassumption; try lia; congruence.
  - destruct (ZEROLIST_STATIC_FALLBACK_MALLOC cfg) eqn:Hfb.
    2:{ exists st, 0. split; [reflexivity | done]. }
    unfold malloc_node. destruct (env_malloc env =? 0) eqn:E.
    + rewrite Z.eqb_refl. exists st, 0. split; [reflexivity | done].
    + rewrite E. apply Z.eqb_neq in E.
      destruct Hmalloc as [H0 | (Hpos & Hfresh & Hout)]; [done |].
      rewrite update_insert. cbn [rbind]. rewrite update_insert. cbn [rbind].
      unfold _ZERO_ZEROLIST_NODE_SET_IN_USE_SIMPLE.
      apply Z.eqb_neq in E as E'. rewrite E'.
      rewrite update_insert. cbn [rbind]. rewrite update_insert. cbn [rbind].
      eexists _, _. split; [reflexivity |]. intros _. exists ps.
      apply (heap_node_post cfg cfg_ok); try assumption. intros _. done.
Qed.

End AcquireAll.


(** ** Insertion keeps the list well formed *)

Lemma inserted_Permutation before pos n (ps : list Z) :
  NoDup ps → pos = 0 ∨ pos ∈ ps → 0 ∉ ps → inserted before pos n ps ≡ₚ n :: ps.
Proof.
  intros Hnd Hpos H0. destruct ps as [| h t]; [reflexivity |].
  unfold inserted.
  set (pos' := if pos =? 0 then (if before then h else List.last (h :: t) h) else pos).
  assert (Hpin : pos' ∈ h :: t).
  { unfold pos'. destruct (pos =? 0) eqn:E.
    - destruct before; [set_solver |].
      replace (List.last (h :: t) h) with (List.last t h) by (by destruct t). apply last_in.
    - apply Z.eqb_neq in E. destruct Hpos; [done | assumption]. }
  apply list_elem_of_split in Hpin as (l1 & l2 & Esplit).
  rewrite Esplit in Hnd. pose proof (NoDup_split_notin _ _ _ Hnd) as [Hp1 _].
  destruct before.
  - replace (if pos =? 0 then h else pos) with pos' by (unfold pos'; by destruct (pos =? 0)).
    rewrite Esplit, ins_before_split by exact Hp1.
    by rewrite Permutation_middle.
  - replace (if pos =? 0 then List.last (h :: t) h else pos) with pos'
      by (unfold pos'; by destruct (pos =? 0)).
    rewrite Esplit, ins_after_split by exact Hp1.
    replace (l1 ++ pos' :: n :: l2) with ((l1 ++ [pos']) ++ n :: l2) by (by rewrite <- app_assoc).
    replace (l1 ++ pos' :: l2) with ((l1 ++ [pos']) ++ l2) by (by rewrite <- app_assoc).
    symmetry. apply Permutation_middle.
Qed.

Section Bounded.
Variable cfg : config.
Hypothesis cfg_ok : config_ok cfg = true.

(** Distinct slots of the arena are no more than its capacity. *)
Lemma slots_bounded l (ps : list Z) :
  NoDup ps → (∀ p, p ∈ ps → arena_slot cfg l p) → Z.of_nat (length ps) ≤ Z.max 0 (max_nodes l).
Proof.
  intros Hnd Hall.
  destruct (slots_indices cfg cfg_ok (λ i, 0 ≤ i < max_nodes l) (node_buf l) ps) as (idxs & -> & Hr).
  { intros p Hp. destruct (Hall p Hp) as (i & Hi & ->). eauto. }
  apply NoDup_fmap_1 in Hnd. rewrite length_fmap.
  assert (Hsub : idxs ⊆+ seqZ 0 (max_nodes l)).
  { apply NoDup_submseteq; [exact Hnd |]. intros i Hi. apply elem_of_seqZ.
    specialize (Hr i Hi). lia. }
  apply submseteq_length in Hsub. rewrite length_seqZ in Hsub. lia.
Qed.

Lemma live_bounded st (ps : list Z) :
  NoDup ps → store_inv cfg st ps →
  ZEROLIST_USE_MALLOC cfg = false → ZEROLIST_STATIC_FALLBACK_MALLOC cfg = false →
  Z.of_nat (length ps) ≤ TYPE_MAX cfg.
Proof.
  intros Hnd [_ Harena] Hm Hfb. destruct (Harena Hm) as (_ & Hmax & _ & Hwhere & _).
  pose proof (slots_bounded (lst st) ps Hnd) as Hb.
  assert (Hall : ∀ p, p ∈ ps → arena_slot cfg (lst st) p).
  { intros p Hp. destruct (Hwhere p Hp) as [? | [? _]]; [assumption | congruence]. }
  specialize (Hb Hall). lia.
Qed.

(** [_zerolist_insert_internal] always returns; when it reports success
    the list is well formed and one node longer. *)
Theorem insert_internal_wf env fuel pos data before st (ps : list Z) :
  wf cfg st ps → allocator_ok cfg env st → pos = 0 ∨ pos ∈ ps →
  (length ps < fuel)%nat →
  (ZEROLIST_USE_MALLOC cfg = true ∨ ZEROLIST_STATIC_FALLBACK_MALLOC cfg = true →
   Z.of_nat (length ps) < TYPE_MAX cfg) →
  ∃ st' b, _zerolist_insert_internal cfg env fuel pos data before st = Ok (st', b)
    ∧ (b = true → ∃ ps', wf cfg st' ps' ∧ length ps' = S (length ps)).
Proof.
  intros (Hholds & Hsize & Hmax & Hstore) Henv Hpos Hfuel Hroom.
  unfold _zerolist_insert_internal.
  destruct (alloc_node_spec cfg cfg_ok env fuel st ps Hholds Hstore Henv Hfuel)
    as (st1 & n & Hrun & Hpost).
  rewrite Hrun. cbn [rbind].
  destruct (n =? 0) eqn:En; [exists st1, false; split; [reflexivity | discriminate] |].
  apply Z.eqb_neq in En.
  destruct (Hpost En) as (ps1 & Hlen & Hholds1 & _ & Hnotin & Hmapped & Hstore1 & Hsize1 & _ & Hposs).
  rewrite update_alter by exact Hmapped. cbn [rbind lst on_mem].
  set (st2 := on_mem (alter (set_data data) n) st1).
  set (pos' := pos_restore cfg (lst st1) pos (pos_index cfg (lst st) pos)).
  assert (Hholds2 : holds st2 ps1).
  { destruct Hholds1 as [Hr Hh]. split; [| exact Hh].
    eapply ring_agree; [| exact Hr]. intros p Hp. unfold st2. cbn [mem on_mem].
    apply lookup_alter_ne. intros ->. done. }
  assert (Hstore2 : store_inv cfg st2 (n :: ps1)).
  { apply (store_inv_ext cfg st1 st2 (n :: ps1) (n :: ps1)); [| apply same_store_refl | done
                                                             | exact Hstore1].
    apply same_flags_alter. done. }
  assert (Hpos' : pos' = 0 ∨ pos' ∈ ps1).
  { destruct Hpos as [-> | Hin].
    - left. unfold pos', pos_restore. cbn [Z.eqb negb]. by rewrite !andb_false_r.
    - right. apply list_elem_of_lookup_1 in Hin as [i Hi].
      apply Hposs in Hi. by eapply list_elem_of_lookup_2. }
  destruct (insert_link_spec cfg st2 ps1 n pos' before Hholds2 Hnotin En)
    as (st' & Hrun' & Hholds' & Hlinks & Hsame & Hsize'); [| exact Hpos' |].
  { unfold st2. cbn [mem on_mem]. by rewrite is_Some_alter. }
  exists st', true. split; [exact Hrun' |]. intros _.
  exists (inserted before pos' n ps1).
  pose proof (ring_NoDup _ _ (proj1 Hholds2)) as Hnd1.
  assert (H01 : 0 ∉ ps1) by (intros H; by apply (ring_nonzero _ _ 0 (proj1 Hholds2))).
  pose proof (inserted_Permutation before pos' n ps1 Hnd1 Hpos' H01) as Hperm.
  assert (Hlen' : length (inserted before pos' n ps1) = S (length ps)).
  { rewrite Hperm. cbn. by rewrite Hlen. }
  assert (Hstore' : store_inv cfg st' (inserted before pos' n ps1)).
  { apply (store_inv_ext cfg st2 st' (n :: ps1));
      [apply links_only_same_flags, Hlinks | exact Hsame | | exact Hstore2].
    intros p. by rewrite Hperm. }
  assert (Hroom' : Z.of_nat (S (length ps)) ≤ TYPE_MAX cfg).
  { destruct (ZEROLIST_USE_MALLOC cfg) eqn:Hm; [specialize (Hroom ltac:(by left)); lia |].
    destruct (ZEROLIST_STATIC_FALLBACK_MALLOC cfg) eqn:Hfb;
      [specialize (Hroom ltac:(by right)); lia |].
    rewrite <- Hlen'. apply (live_bounded st'); try assumption. apply Hholds'. }
  split; [| exact Hlen'].
  split; [exact Hholds' |]. split; [| split; [by rewrite Hlen' | exact Hstore']].
  intros Hse. rewrite Hsize', Hse, Hlen'.
  destruct (decide (ps1 = [])) as [-> | Hne].
  - cbn in Hlen. destruct ps; [reflexivity | discriminate].
  - unfold st2. cbn [lst on_mem]. rewrite Hsize1, (Hsize Hse).
    rewrite to_TYPE_small by lia. lia.
Qed.

End Bounded.


(** ** The heap-fallback scenario *)

Lemma fallback_scenario_run a b c :
  a ≠ b → a ≠ c → b ≠ 0 → c ≠ 0 →
  ∃ s3 s4 s5,
    fallback_pushes a b c = Ok s3
    ∧ zerolist_remove_ptr cfg_fallback 8 b s3 = Ok (s4, true)
    ∧ zerolist_remove_ptr cfg_fallback 8 c s4 = Ok (s5, true)
    ∧ payloads (mem s3) [4096; 4128; 65536] = [a; b; c]
    ∧ holds s3 [4096; 4128; 65536]
    ∧ _zerolist_is_static_node cfg_fallback (lst s3) 4128 = true
    ∧ _zerolist_is_static_node cfg_fallback (lst s3) 65536 = false
    ∧ (in_use <$> mem s3 !! 4128) = Some true
    ∧ free_top (lst s3) = 0
    ∧ (in_use <$> mem s4 !! 4128) = Some false
    ∧ free_top (lst s4) = 1
    ∧ stack_get (lst s4) 0 = Ok 1
    ∧ holds s4 [4096; 65536]
    ∧ is_Some (mem s4 !! 65536)
    ∧ mem s5 !! 65536 = None
    ∧ holds s5 [4096]
    ∧ free_top (lst s5) = 1.
Proof.
  intros Hab Hac Hb Hc.
  apply Z.eqb_neq in Hab, Hac, Hb, Hc.
  destruct (fallback_pushes a b c) as [s3 | |] eqn:E3; vm_compute in E3; try discriminate.
  injection E3 as <-.
  match goal with |- ∃ s3 s4 s5, Ok ?s = _ ∧ _ => set (s3 := s) end.
  assert (H3 : holds s3 [4096; 4128; 65536]).
  { unfold holds, ring. repeat split; try (vm_compute; reflexivity);
      try (repeat constructor; set_solver); set_solver. }
  assert (E4 : zerolist_remove_ptr cfg_fallback 8 b s3 = remove_node cfg_fallback 4128 s3).
  { unfold zerolist_remove_ptr. rewrite Hb. unfold remove_matching.
    change (scan_slots cfg_fallback) with false. cbv iota.
    change (head (lst s3)) with 4096. change (4096 =? 0) with false. cbv iota.
    apply (remove_ring_loop_path cfg_fallback _ 4096 s3 4128 [] 4096 8).
    - vm_compute. tauto.
    - intros q Hq. assert (q = 4096) as -> by set_solver. vm_compute. exact Hab.
    - change (default 0 (dat (mem s3) 4128)) with b. apply Z.eqb_refl.
    - vm_compute. eauto.
    - set_solver.
    - set_solver.
    - cbn. lia. }
  destruct (remove_node cfg_fallback 4128 s3) as [[s4' ok4] | |] eqn:R4;
    vm_compute in R4; try discriminate.
  injection R4 as <- <-.
  match type of E4 with _ = Ok (?s, _) => set (s4 := s) in * end.
  assert (H4 : holds s4 [4096; 65536]).
  { unfold holds, ring. repeat split; try (vm_compute; reflexivity);
      try (repeat constructor; set_solver); set_solver. }
  assert (E5 : zerolist_remove_ptr cfg_fallback 8 c s4 = remove_node cfg_fallback 65536 s4).
  { unfold zerolist_remove_ptr. rewrite Hc. unfold remove_matching.
    change (scan_slots cfg_fallback) with false. cbv iota.
    change (head (lst s4)) with 4096. change (4096 =? 0) with false. cbv iota.
    apply (remove_ring_loop_path cfg_fallback _ 4096 s4 65536 [] 4096 8).
    - vm_compute. tauto.
    - intros q Hq. assert (q = 4096) as -> by set_solver. vm_compute. exact Hac.
    - change (default 0 (dat (mem s4) 65536)) with c. apply Z.eqb_refl.
    - vm_compute. eauto.
    - set_solver.
    - set_solver.
    - cbn. lia. }
  destruct (remove_node cfg_fallback 65536 s4) as [[s5' ok5] | |] eqn:R5;
    vm_compute in R5; try discriminate.
  injection R5 as <- <-.
  match type of E5 with _ = Ok (?s, _) => set (s5 := s) in * end.
  exists s3, s4, s5.
  split; [reflexivity |]. split; [exact E4 |]. split; [exact E5 |].
  split; [vm_compute; reflexivity |]. split; [exact H3 |].
  split; [vm_compute; reflexivity |]. split; [vm_compute; reflexivity |].
  split; [vm_compute; reflexivity |]. split; [vm_compute; reflexivity |].
  split; [vm_compute; reflexivity |]. split; [vm_compute; reflexivity |].
  split; [vm_compute; reflexivity |]. split; [exact H4 |].
  split; [vm_compute; eauto |]. split; [vm_compute; reflexivity |].
  split; [| vm_compute; reflexivity].
  unfold holds, ring. repeat split; try (vm_compute; reflexivity);
    try (repeat constructor; set_solver); set_solver.
Qed.

(** C4.  With heap fallback, releasing a non-NULL node of an initialised
    list goes to the arena path exactly when the node's address lies in
    [base, base + capacity * node_size), and to the heap path otherwise; the
    condition mentions the list header and the address only, never the
    node's contents.  In the scenario of a two-slot arena holding [a], [b]
    and a heap node holding [c]: the node of [b] passes the address test and
    the node of [c] does not; removing [b] leaves its slot marked free and on
    top of the free stack; removing [c] unmaps the heap node and leaves the
    free stack as it was. *)
Theorem fallback_release_routing cfg st node a b c :
  config_ok cfg = true →
  ZEROLIST_STATIC_FALLBACK_MALLOC cfg = true →
  node_buf (lst st) ≠ 0 → node ≠ 0 →
  a ≠ b → a ≠ c → b ≠ 0 → c ≠ 0 →
  zerolist_free_node cfg node st
  = (if bool_decide (node_buf (lst st) ≤ node
                     < node_buf (lst st) + max_nodes (lst st) * NODE_SIZE cfg)
     then _ZEROLIST_FREE_STATIC_NODE cfg node (_zerolist_calc_node_index cfg (lst st) node) st
     else ZEROLIST_FREE node st)
  ∧ ∃ s3 s4 s5,
      fallback_pushes a b c = Ok s3
      ∧ zerolist_remove_ptr cfg_fallback 8 b s3 = Ok (s4, true)
      ∧ zerolist_remove_ptr cfg_fallback 8 c s4 = Ok (s5, true)
      ∧ payloads (mem s3) [4096; 4128; 65536] = [a; b; c]
      ∧ _zerolist_is_static_node cfg_fallback (lst s3) 4128 = true
      ∧ _zerolist_is_static_node cfg_fallback (lst s3) 65536 = false
      ∧ (in_use <$> mem s3 !! 4128) = Some true
      ∧ (in_use <$> mem s4 !! 4128) = Some false
      ∧ free_top (lst s4) = free_top (lst s3) + 1
      ∧ stack_get (lst s4) (free_top (lst s3)) = Ok 1
      ∧ is_Some (mem s4 !! 65536)
      ∧ mem s5 !! 65536 = None
      ∧ free_top (lst s5) = free_top (lst s4).
Proof.
  intros Hc Hfb Hbuf Hnode Hab Hac Hb0 Hc0. split.
  - assert (Hm : ZEROLIST_USE_MALLOC cfg = false).
    { unfold config_ok in Hc. rewrite Hfb in Hc.
      destruct (ZEROLIST_USE_MALLOC cfg), (ZEROLIST_FAST_ALLOC cfg),
        (ZEROLIST_STATIC_DYNAMIC_EXPAND cfg); cbn in Hc; try discriminate; reflexivity. }
    unfold zerolist_free_node. apply Z.eqb_neq in Hnode as Hn. rewrite Hn, Hm, Hfb.
    by rewrite (is_static_node_range cfg _ _ Hm Hbuf Hnode).
  - destruct (fallback_scenario_run a b c Hab Hac Hb0 Hc0)
      as (s3 & s4 & s5 & Hrun & Hr4 & Hr5 & H1 & H2 & H3 & H4 & H5 & H6 & H7 & H8 & H9 & H10
          & H11 & H12 & H13 & H14).
    exists s3, s4, s5. rewrite H6, H8, H14. repeat split; assumption.
Qed.

Lemma fallback_release_routing_witness :
  zerolist_free_node cfg_fallback 4128 fixed3_full
  = (if bool_decide (node_buf (lst fixed3_full) ≤ 4128
                     < node_buf (lst fixed3_full)
                       + max_nodes (lst fixed3_full) * NODE_SIZE cfg_fallback)
     then _ZEROLIST_FREE_STATIC_NODE cfg_fallback 4128
            (_zerolist_calc_node_index cfg_fallback (lst fixed3_full) 4128) fixed3_full
     else ZEROLIST_FREE 4128 fixed3_full)
  ∧ ∃ s3 s4 s5,
      fallback_pushes 11 12 13 = Ok s3
      ∧ zerolist_remove_ptr cfg_fallback 8 12 s3 = Ok (s4, true)
      ∧ zerolist_remove_ptr cfg_fallback 8 13 s4 = Ok (s5, true)
      ∧ payloads (mem s3) [4096; 4128; 65536] = [11; 12; 13]
      ∧ _zerolist_is_static_node cfg_fallback (lst s3) 4128 = true
      ∧ _zerolist_is_static_node cfg_fallback (lst s3) 65536 = false
      ∧ (in_use <$> mem s3 !! 4128) = Some true
      ∧ (in_use <$> mem s4 !! 4128) = Some false
      ∧ free_top (lst s4) = free_top (lst s3) + 1
      ∧ stack_get (lst s4) (free_top (lst s3)) = Ok 1
      ∧ is_Some (mem s4 !! 65536)
      ∧ mem s5 !! 65536 = None
      ∧ free_top (lst s5) = free_top (lst s4).
Proof.
  apply (fallback_release_routing cfg_fallback fixed3_full 4128 11 12 13);
    try reflexivity; vm_compute; congruence.
Defined.


(** Splits a conjunction into its parts, leaving the parts untouched. *)
Ltac split_all := repeat match goal with |- _ ∧ _ => split end.

(** ** Free-stack accounting across [zerolist_clear] *)

(** C1 (the code departs from it).  In the fixed free-stack arena of three
    slots, the accounting [free_top + live == capacity] holds after
    initialisation and after a push, and fails after [zerolist_clear]: every
    slot is marked free but the free stack still has two entries out of
    three.  From there two pushes succeed and the third is refused although
    no slot is in use.  The same happens in the header's default (growable)
    configuration. *)
Theorem clear_breaks_accounting :
  let env := mk_allocator 0 0 in
  let pushed := state_of fixed3 (zerolist_push_back cfg_fixed env 8 11 fixed3) in
  accounted cfg_fixed fixed3 = true
  ∧ accounted cfg_fixed pushed = true
  ∧ zerolist_clear cfg_fixed 8 pushed = Ok fixed3_cleared
  ∧ live_count cfg_fixed fixed3_cleared = 0
  ∧ free_top (lst fixed3_cleared) = 2
  ∧ max_nodes (lst fixed3_cleared) = 3
  ∧ accounted cfg_fixed fixed3_cleared = false
  ∧ (let s1 := state_of fixed3_cleared (zerolist_push_back cfg_fixed env 8 21 fixed3_cleared) in
     let s2 := state_of s1 (zerolist_push_back cfg_fixed env 8 22 s1) in
     live_count cfg_fixed s2 = 2
     ∧ zerolist_push_back cfg_fixed env 8 23 s2 = Ok (s2, false))
  ∧ (let env := mk_allocator 4096 8192 in
     let s0 := state_of empty_state (list_init_dynamic_expand cfg_default env 4 empty_state) in
     let s1 := state_of s0 (zerolist_push_back cfg_default env 8 11 s0) in
     accounted cfg_default s1 = true
     ∧ ∃ s2, zerolist_clear cfg_default 8 s1 = Ok s2
             ∧ live_count cfg_default s2 = 0 ∧ free_top (lst s2) = 3
             ∧ max_nodes (lst s2) = 4).
Proof.
  cbv zeta. split_all; try (vm_compute; reflexivity).
  match goal with
  | |- ∃ s2, ?r = Ok s2 ∧ _ =>
      let v := eval vm_compute in r in
      match v with Ok ?s => exists s end
  end.
  split_all; vm_compute; reflexivity.
Qed.

(** ** The capacity that [zerolist_shrink_buffer] settles on *)

Lemma shrink_request_wraps cfg used new_size :
  config_ok cfg = true →
  2 ^ (ZEROLIST_TYPE_BITS cfg - 1) ≤ used ≤ TYPE_MAX cfg → new_size ≤ used →
  shrink_request cfg used new_size = 2 * used - 2 ^ ZEROLIST_TYPE_BITS cfg
  ∧ shrink_request cfg used new_size < used.
Proof.
  intros Hc Hu Hn. unfold shrink_request, to_TYPE, TYPE_MAX in *.
  destruct (new_size <=? used) eqn:E; [| apply Z.leb_gt in E; lia].
  assert (Hmod : (used * 2) mod 2 ^ ZEROLIST_TYPE_BITS cfg
                 = 2 * used - 2 ^ ZEROLIST_TYPE_BITS cfg).
  { symmetry. apply (Z.mod_unique _ _ 1);
      destruct (config_ok_bits cfg Hc) as [Hb | [Hb | Hb]]; rewrite Hb in *; cbn in *; lia. }
  rewrite Hmod. split; [reflexivity |].
  destruct (config_ok_bits cfg Hc) as [Hb | [Hb | Hb]]; rewrite Hb in *; cbn in *; lia.
Qed.

(** C6 (the code departs from it).  When the live count is at least half
    the range of the index type, the doubled request wraps around and comes
    out below the live count.  With uint8_t indices, capacity 255 and 200
    nodes in use, [zerolist_shrink_buffer] asked for 10 answers true and
    leaves a capacity of 144 for 200 live nodes; asked for the current
    capacity, 255, it is no no-op either. *)
Theorem shrink_below_live_count :
  (∀ cfg used new_size,
      config_ok cfg = true →
      2 ^ (ZEROLIST_TYPE_BITS cfg - 1) ≤ used ≤ TYPE_MAX cfg → new_size ≤ used →
      shrink_request cfg used new_size < used)
  ∧ zerolist_size cfg_grow8 0 grow8_200 = Ok 200
  ∧ max_nodes (lst grow8_200) = 255
  ∧ live_count cfg_grow8 grow8_200 = 200
  ∧ shrink_request cfg_grow8 200 10 = 144
  ∧ (∃ st', zerolist_shrink_buffer cfg_grow8 (mk_allocator 0 4096) 0 10 grow8_200 = Ok (st', true)
            ∧ max_nodes (lst st') = 144
            ∧ size (lst st') = 200)
  ∧ shrink_request cfg_default 40000 1000 = 14464.
Proof.
  split; [intros; by apply shrink_request_wraps |].
  split_all; try (vm_compute; reflexivity).
  match goal with
  | |- ∃ s2, ?r = Ok (s2, true) ∧ _ =>
      let v := eval vm_compute in r in
      match v with Ok (?s, _) => exists s end
  end.
  split_all; vm_compute; reflexivity.
Qed.


(** ** Ring closure of well-formed lists *)

Lemma follow_snoc f : ∀ k p q r,
  follow f k p = Some q → f q = Some r → follow f (S k) p = Some r.
Proof.
  induction k as [| k IH]; intros p q r Hk Hq.
  - cbn in Hk. injection Hk as ->. cbn. by rewrite Hq.
  - cbn [follow] in Hk. destruct (f p) as [p' |] eqn:Ep; [| discriminate].
    change (follow f (S (S k)) p) with (match f p with
                                        | Some q => follow f (S k) q
                                        | None => None
                                        end).
    rewrite Ep. by apply (IH p' q).
Qed.

Lemma follow_fwd m : ∀ l x, fwd m (l ++ [x]) → follow (nxt m) (length l) (hd x l) = Some x.
Proof.
  induction l as [| a l IH]; intros x Hf; [reflexivity |].
  cbn [hd length follow]. destruct l as [| b l].
  - cbn in Hf. destruct Hf as [-> _]. reflexivity.
  - cbn [app] in Hf. rewrite fwd_cons in Hf. destruct Hf as [-> Hf].
    apply (IH x Hf).
Qed.

Lemma follow_bwd m : ∀ l x, bwd m (x :: l) → follow (prv m) (length l) (List.last l x) = Some x.
Proof.
  induction l as [| a l IH]; intros x Hb; [reflexivity |].
  rewrite bwd_cons in Hb. destruct Hb as [Hp Hb].
  replace (List.last (a :: l) x) with (List.last l a)
    by (destruct l; [reflexivity | cbn [List.last]; apply last_cons_default]).
  cbn [length]. eapply follow_snoc; [apply IH, Hb | exact Hp].
Qed.

Lemma wf_closed cfg st ps : ZEROLIST_SIZE_ENABLE cfg = true → wf cfg st ps → closed st.
Proof.
  intros Hse ([Hr Hh] & Hsize & _) Hne.
  destruct ps as [| h t]; [done |]. cbn [hd] in Hh.
  rewrite (Hsize Hse), Nat2Z.id, Hh.
  apply ring_cons_unfold in Hr as (_ & _ & Hf & Hb). cbn [hd app] in Hf, Hb. split.
  - apply (follow_fwd _ (h :: t) h) in Hf. exact Hf.
  - apply (follow_bwd _ (t ++ [h]) h) in Hb. rewrite last_last, length_app in Hb.
    cbn [length] in Hb. replace (length t + 1)%nat with (S (length t)) in Hb by lia. exact Hb.
Qed.

(** ** The operations of the API keep the list well formed *)

Section Api.
Variable cfg : config.
Hypothesis cfg_ok : config_ok cfg = true.

Lemma insert_before_loop_cases env fuel target new_data st (ps : list Z) start :
  ∀ rest cur n,
  fwd (mem st) (cur :: rest ++ [start]) →
  (∀ p, p ∈ cur :: rest → p ∈ ps) →
  start ∉ rest → head (lst st) = start → (length rest < n)%nat →
  insert_before_loop cfg env fuel n target new_data cur st = Ok (st, false)
  ∨ ∃ c, c ∈ ps ∧ insert_before_loop cfg env fuel n target new_data cur st
                  = _zerolist_insert_internal cfg env fuel c new_data true st.
Proof.
  induction rest as [| r rest IH]; intros cur n Hf Hin Hstart Hhead Hfuel;
    (destruct n as [| n]; [cbn in Hfuel; lia |]).
  - cbn in Hf. destruct Hf as [Hf _]. apply nxt_Some in Hf as (c & Hc & Hn).
    cbn [insert_before_loop]. rewrite (load_Some _ _ _ Hc). cbn [rbind].
    destruct (data c =? target).
    + right. exists cur. split; [apply Hin; set_solver | reflexivity].
    + left. by rewrite Hn, Hhead, Z.eqb_refl.
  - cbn [app] in Hf. rewrite fwd_cons in Hf. destruct Hf as [Hf Hrest].
    apply nxt_Some in Hf as (c & Hc & Hn).
    cbn [insert_before_loop]. rewrite (load_Some _ _ _ Hc). cbn [rbind].
    destruct (data c =? target).
    + right. exists cur. split; [apply Hin; set_solver | reflexivity].
    + rewrite Hn, Hhead.
      destruct (r =? start) eqn:E1; [apply Z.eqb_eq in E1; set_solver |].
      apply IH; try assumption.
      * intros p Hp. apply Hin. set_solver.
      * set_solver.
      * cbn in Hfuel. lia.
Qed.

Lemma run_insertion_wf env fuel op st (ps : list Z) :
  wf cfg st ps → allocator_ok cfg env st → (length ps < fuel)%nat →
  (ZEROLIST_USE_MALLOC cfg = true ∨ ZEROLIST_STATIC_FALLBACK_MALLOC cfg = true →
   Z.of_nat (length ps) < TYPE_MAX cfg) →
  ∃ st' b, run_insertion cfg env fuel op st = Ok (st', b)
    ∧ (b = true → ∃ ps', wf cfg st' ps' ∧ length ps' = S (length ps)).
Proof.
  intros Hwf Henv Hfuel Hroom. pose proof Hwf as ([Hr Hh] & _).
  destruct op as [data | data | target new_data]; cbn [run_insertion].
  - apply (insert_internal_wf cfg cfg_ok _ _ _ _ _ _ ps); try assumption.
    rewrite Hh. destruct ps as [| h t]; [by left | right; cbn; set_solver].
  - apply (insert_internal_wf cfg cfg_ok _ _ _ _ _ _ ps); try assumption. by left.
  - unfold zerolist_insert_before.
    destruct (head (lst st) =? 0) eqn:E; [exists st, false; split; [done | discriminate] |].
    destruct ps as [| h t]; [cbn in Hh; apply Z.eqb_neq in E; done |]. cbn [hd] in Hh.
    apply ring_cons_unfold in Hr as (Hnd & _ & Hf & _). cbn [hd app] in Hf.
    apply NoDup_cons in Hnd as [Hnotin _].
    destruct (insert_before_loop_cases env fuel target new_data st (h :: t) h t h fuel)
      as [Hrun | (c & Hc & Hrun)]; try assumption; try done.
    + cbn [length] in Hfuel. lia.
    + rewrite Hh, Hrun. exists st, false. split; [done | discriminate].
    + rewrite Hh, Hrun.
      apply (insert_internal_wf cfg cfg_ok _ _ _ _ _ _ (h :: t)); try assumption. by right.
Qed.

Lemma run_detachment_wf fuel op st (ps : list Z) :
  wf cfg st ps → (length ps < fuel)%nat →
  ∃ st' ps', run_detachment cfg fuel op st = Ok st' ∧ wf cfg st' ps'.
Proof.
  intros Hwf Hfuel. destruct op as [| | index | index | data | data cmp]; cbn [run_detachment].
  - destruct (zerolist_pop_front_wf cfg cfg_ok st ps Hwf) as (st' & d & -> & Hwf').
    cbn [rbind]. eauto.
  - destruct (zerolist_pop_back_wf cfg cfg_ok st ps Hwf) as (st' & d & -> & Hwf').
    cbn [rbind]. eauto.
  - destruct (zerolist_pop_at_wf cfg cfg_ok st ps (Z.of_N index) Hwf ltac:(lia))
      as (st' & d & ps' & -> & Hwf').
    cbn [rbind]. eauto.
  - destruct (zerolist_remove_at_wf cfg cfg_ok st ps (Z.of_N index) Hwf ltac:(lia))
      as (st' & d & ps' & -> & Hwf').
    cbn [rbind]. eauto.
  - destruct (zerolist_remove_ptr_wf cfg cfg_ok fuel data st ps Hwf Hfuel)
      as (st' & d & ps' & -> & Hwf').
    cbn [rbind]. eauto.
  - destruct (zerolist_remove_if_wf cfg cfg_ok fuel data cmp st ps Hwf Hfuel)
      as (st' & d & ps' & -> & Hwf').
    cbn [rbind]. eauto.
Qed.

End Api.

(** ** Initialisation gives a well-formed empty list *)

Lemma for_loop_post {T : Type} (P : Z → T → Prop) (body : Z → T → res T) n : ∀ i s s',
  P i s →
  (∀ j s s1, i ≤ j < i + Z.of_nat n → P j s → body j s = Ok s1 → P (j + 1) s1) →
  for_loop n i body s = Ok s' → P (i + Z.of_nat n) s'.
Proof.
  induction n as [| n IH]; intros i s s' HP Hstep Hrun.
  - cbn in Hrun. injection Hrun as <-. by replace (i + Z.of_nat 0) with i by lia.
  - cbn [for_loop] in Hrun. destruct (body i s) as [s1 | |] eqn:Eb; try discriminate.
    cbn [rbind] in Hrun.
    replace (i + Z.of_nat (S n)) with (i + 1 + Z.of_nat n) by lia.
    apply (IH (i + 1) s1); [| | exact Hrun].
    + apply (Hstep i s); [lia | exact HP | exact Eb].
    + intros j s2 s3 Hj. apply Hstep. lia.
Qed.

Section Init.
Variable cfg : config.
Hypothesis cfg_ok : config_ok cfg = true.
Hypothesis fast : ZEROLIST_FAST_ALLOC cfg = true.

Lemma init_loop_flags buf n st st' :
  0 ≤ n →
  for_loop (Z.to_nat n) 0 (init_slot cfg buf n) st = Ok st' →
  head (lst st') = head (lst st) ∧ size (lst st') = size (lst st)
  ∧ ∀ i, 0 ≤ i < n → (in_use <$> mem st' !! slot cfg buf i) = Some false.
Proof.
  intros Hn Hrun.
  pose proof (for_loop_post
    (λ j s, head (lst s) = head (lst st) ∧ size (lst s) = size (lst st)
            ∧ ∀ i, 0 ≤ i < j → (in_use <$> mem s !! slot cfg buf i) = Some false)
    (init_slot cfg buf n) (Z.to_nat n) 0 st st') as H.
  replace (0 + Z.of_nat (Z.to_nat n)) with n in H by lia.
  apply H; [| | exact Hrun].
  - split; [reflexivity |]. split; [reflexivity |]. intros; lia.
  - intros j s s1 Hj (Hh & Hs & Hfl) Hbody. unfold init_slot in Hbody. rewrite fast in Hbody.
    unfold stack_set in Hbody.
    destruct (free_stack (lst s)) as [stk |]; [| discriminate].
    match type of Hbody with
    | context [if ?c then _ else _] => destruct c
    end; [| discriminate].
    cbn [rbind] in Hbody. unfold update in Hbody. cbn [mem] in Hbody.
    destruct (mem s !! slot cfg buf j) as [c |] eqn:Ec; [| discriminate].
    injection Hbody as <-. cbn [lst mem on_mem].
    split; [exact Hh |]. split; [exact Hs |]. intros i Hi.
    destruct (decide (i = j)) as [-> | Hne].
    + by rewrite lookup_insert_eq.
    + rewrite lookup_insert_ne by (intros E; apply (slot_inj cfg cfg_ok) in E; lia).
      apply Hfl. lia.
Qed.

Lemma list_init_dynamic_expand_wf env n st :
  0 < env_malloc env → env_malloc_stack env = true → 0 < n ≤ TYPE_MAX cfg →
  ∃ st', list_init_dynamic_expand cfg env n st = Ok (st', true) ∧ wf cfg st' [].
Proof.
  intros Hbuf Hstk Hn.
  destruct (list_init_dynamic_expand_ready cfg cfg_ok fast env n st Hbuf Hstk Hn)
    as (st' & Hrun & Hb & Hmx & Htop & (stk & Hs & Hlen & Hent) & Hmapped).
  exists st'. split; [exact Hrun |].
  unfold list_init_dynamic_expand in Hrun.
  destruct (n =? 0) eqn:E2; [apply Z.eqb_eq in E2; lia |].
  destruct (env_malloc env =? 0) eqn:E1; [apply Z.eqb_eq in E1; lia |].
  rewrite fast, Hstk in Hrun. cbn [andb negb] in Hrun.
  match type of Hrun with
  | context [for_loop _ _ _ ?s] =>
      destruct (for_loop (Z.to_nat n) 0 (init_slot cfg (env_malloc env) n) s) as [s1 | |] eqn:El;
      try discriminate
  end.
  cbn [rbind] in Hrun. injection Hrun as ->.
  apply init_loop_flags in El as (Hh & Hsz & Hfl); [| lia].
  assert (Hhead : head (lst st') = 0).
  { rewrite Hh. by destruct (ZEROLIST_SIZE_ENABLE cfg). }
  split; [split; [apply ring_nil | exact Hhead] |].
  split.
  { intros Hse. rewrite Hsz, Hse. reflexivity. }
  split; [cbn; pose proof (TYPE_MAX_pos cfg cfg_ok); lia |].
  split; [intros p Hp; set_solver |]. intros Hm.
  unfold arena_inv. rewrite Hb, Hmx. split; [exact Hbuf |]. split; [exact Hn |].
  split; [| split; [intros p Hp; set_solver |]].
  - intros i Hi. specialize (Hfl i Hi). destruct (Hmapped i Hi) as [c Hc].
    rewrite Hc in Hfl. cbn in Hfl. injection Hfl as Hfl. exists c. split; [exact Hc |].
    rewrite Hfl. split; [discriminate | set_solver].
  - intros _. exists stk. rewrite Hmx, Htop, Hb. replace (n - 0) with n by lia.
    split; [exact Hs |]. split; [lia |]. split; [exact Hlen |].
    assert (Hlook : ∀ k : nat, (k < Z.to_nat n)%nat →
              take (Z.to_nat n) stk !! k = Some (n - 1 - Z.of_nat k)).
    { intros k Hk. rewrite lookup_take_lt by lia.
      specialize (Hent (n - 1 - Z.of_nat k) ltac:(lia)).
      replace (Z.to_nat (n - 1 - (n - 1 - Z.of_nat k))) with k in Hent by lia. exact Hent. }
    assert (Hlt : length (take (Z.to_nat n) stk) = Z.to_nat n) by (rewrite length_take; lia).
    split.
    + apply NoDup_alt. intros i j x Hi Hj.
      pose proof (lookup_lt_Some _ _ _ Hi) as Hi'. pose proof (lookup_lt_Some _ _ _ Hj) as Hj'.
      rewrite Hlook in Hi, Hj by lia. injection Hi as Hi. injection Hj as Hj. lia.
    + intros idx Hidx. apply list_elem_of_lookup_1 in Hidx as [k Hk].
      pose proof (lookup_lt_Some _ _ _ Hk) as Hk'. rewrite Hlook in Hk by lia.
      injection Hk as <-. split; [lia | set_solver].
Qed.

End Init.


(** ** The ring of a list is unique *)

Lemma fwd_unique m x : ∀ (l l' : list Z) a,
  fwd m (a :: l ++ [x]) → fwd m (a :: l' ++ [x]) → x ∉ l → x ∉ l' → l = l'.
Proof.
  induction l as [| c l IH]; intros l' a H H' Hx Hx'.
  - destruct l' as [| b l']; [reflexivity |].
    cbn [app] in H, H'. rewrite fwd_cons in H, H'. destruct H as [H _], H' as [H' _].
    rewrite H in H'. injection H' as ->. set_solver.
  - destruct l' as [| b l'].
    + cbn [app] in H, H'. rewrite fwd_cons in H, H'. destruct H as [H _], H' as [H' _].
      rewrite H in H'. injection H' as ->. set_solver.
    + cbn [app] in H, H'. rewrite fwd_cons in H, H'.
      destruct H as [H Hr], H' as [H' Hr']. rewrite H in H'. injection H' as <-.
      f_equal. apply (IH l' c); [exact Hr | exact Hr' | set_solver | set_solver].
Qed.

Lemma holds_unique st (ps ps' : list Z) : holds st ps → holds st ps' → ps = ps'.
Proof.
  intros [Hr Hh] [Hr' Hh'].
  destruct ps as [| h t], ps' as [| h' t']; [reflexivity | | |].
  - cbn in Hh. pose proof (ring_nonzero _ _ h' Hr' ltac:(set_solver)). cbn in Hh'. congruence.
  - cbn in Hh'. pose proof (ring_nonzero _ _ h Hr ltac:(set_solver)). cbn in Hh. congruence.
  - cbn [hd] in Hh, Hh'. assert (h' = h) as -> by congruence. f_equal.
    apply ring_cons_unfold in Hr as (Hnd & _ & Hf & _), Hr' as (Hnd' & _ & Hf' & _).
    cbn [hd app] in Hf, Hf'.
    apply NoDup_cons in Hnd as [Hn _], Hnd' as [Hn' _].
    by apply (fwd_unique (mem st) h t t' h).
Qed.

(** ** The links of a ring that was moved *)

Lemma hd_fmap (F : Z → Z) p (l : list Z) : hd (F p) (F <$> l) = F (hd p l).
Proof. by destruct l. Qed.

Lemma last_fmap (F : Z → Z) : ∀ (l : list Z) p, List.last (F <$> l) (F p) = F (List.last l p).
Proof.
  induction l as [| a l IH]; intros p; [reflexivity |].
  destruct l as [| b l]; [reflexivity |]. apply (IH p).
Qed.

Lemma ring_links_moved m m' (F : Z → Z) (ps : list Z) p :
  ring m ps → ring m' (F <$> ps) → p ∈ ps →
  nxt m' (F p) = F <$> nxt m p ∧ prv m' (F p) = F <$> prv m p.
Proof.
  intros Hr Hr' Hp. apply list_elem_of_split in Hp as (l1 & l2 & ->).
  rewrite fmap_app, fmap_cons in Hr'.
  rewrite (ring_at_next _ _ _ _ Hr), (ring_at_next _ _ _ _ Hr').
  rewrite (ring_at_prev _ _ _ _ Hr), (ring_at_prev _ _ _ _ Hr').
  rewrite <- fmap_app. cbn [fmap option_fmap option_map].
  by rewrite hd_fmap, last_fmap.
Qed.

(** ** The growable arena holding 11, 12, 13 *)

Lemma push_back_wf cfg env fuel d st st' (ps : list Z) :
  config_ok cfg = true → wf cfg st ps → allocator_ok cfg env st → (length ps < fuel)%nat →
  (ZEROLIST_USE_MALLOC cfg = true ∨ ZEROLIST_STATIC_FALLBACK_MALLOC cfg = true →
   Z.of_nat (length ps) < TYPE_MAX cfg) →
  zerolist_push_back cfg env fuel d st = Ok (st', true) →
  ∃ ps', wf cfg st' ps' ∧ length ps' = S (length ps).
Proof.
  intros Hok Hwf Henv Hfuel Hroom Hrun.
  destruct (run_insertion_wf cfg Hok env fuel (PushBack d) st ps Hwf Henv Hfuel Hroom)
    as (st1 & b & Hrun1 & Hwf1).
  cbn [run_insertion] in Hrun1. rewrite Hrun in Hrun1. injection Hrun1 as <- <-.
  by apply Hwf1.
Qed.

Lemma grow_env_ok st :
  node_buf (lst st) = 4096 → max_nodes (lst st) = 4 → allocator_ok cfg_default grow_env st.
Proof.
  intros Hb Hm. split; [by left |]. split; [| done].
  intros new_n Hg. rewrite Hb, Hm in *. vm_compute in Hg. injection Hg as <-.
  right. right. split; [done |]. right. vm_compute. discriminate.
Qed.

Lemma grow3_holds : holds grow3 [4096; 4128; 4160].
Proof.
  unfold holds, ring. repeat split; try (vm_compute; reflexivity).
  - repeat constructor; set_solver.
  - set_solver.
Qed.

Lemma grow3_wf : wf cfg_default grow3 [4096; 4128; 4160].
Proof.
  destruct (list_init_dynamic_expand_wf cfg_default eq_refl eq_refl (mk_allocator 4096 0) 4
              empty_state) as (s0 & Hrun0 & Hwf0); [done | done | by vm_compute |].
  assert (E0 : s0 = grow0) by (unfold grow0; by rewrite Hrun0). subst s0.
  set (s1 := state_of grow0 (zerolist_push_back cfg_default grow_env 8 11 grow0)).
  set (s2 := state_of s1 (zerolist_push_back cfg_default grow_env 8 12 s1)).
  destruct (push_back_wf cfg_default grow_env 8 11 grow0 s1 [] eq_refl Hwf0)
    as (ps1 & Hwf1 & Hlen1); [by apply grow_env_ok | cbn; lia | intros [? | ?]; discriminate
                              | by vm_compute |].
  cbn [length] in Hlen1.
  destruct (push_back_wf cfg_default grow_env 8 12 s1 s2 ps1 eq_refl Hwf1)
    as (ps2 & Hwf2 & Hlen2); [by apply grow_env_ok | lia | intros [? | ?]; discriminate
                              | by vm_compute |].
  destruct (push_back_wf cfg_default grow_env 8 13 s2 grow3 ps2 eq_refl Hwf2)
    as (ps3 & Hwf3 & Hlen3); [by apply grow_env_ok | lia | intros [? | ?]; discriminate
                              | by vm_compute |].
  by rewrite (holds_unique grow3 _ ps3 grow3_holds (proj1 Hwf3)).
Qed.

(** ** Growing the arena from 4 to 8 slots *)

(** C2. A growable arena list of capacity 4 whose traversal gives
    [A; B; C] is grown to capacity 8 by [_zerolist_expand_buffer] whenever
    the reallocations succeed, wherever ZEROLIST_REALLOC puts the buffer
    (at the same address or elsewhere): the call reports success, the
    traversal (ZEROLIST_FOR_EACH) of the result gives [A; B; C] again, head
    and the next and prev of every node are the old ones at the same offset
    in the new buffer, the slots 4..7 are flagged free and, with a free
    stack, pushed onto it in that order. *)
Theorem expand_buffer_keeps_traversal cfg env fuel st (ps : list Z) A B C :
  config_ok cfg = true → ZEROLIST_STATIC_DYNAMIC_EXPAND cfg = true →
  wf cfg st ps → payloads (mem st) ps = [A; B; C] → max_nodes (lst st) = 4 →
  0 < env_realloc env →
  (ZEROLIST_FAST_ALLOC cfg = true → env_realloc_stack env = true) →
  (3 < fuel)%nat →
  ∃ st',
    _zerolist_expand_buffer cfg env fuel 8 st = Ok (st', true)
    ∧ ZEROLIST_FOR_EACH fuel st = Ok [A; B; C]
    ∧ ZEROLIST_FOR_EACH fuel st' = Ok [A; B; C]
    ∧ node_buf (lst st') = env_realloc env ∧ max_nodes (lst st') = 8
    ∧ head (lst st') = rebase (node_buf (lst st)) (env_realloc env) (head (lst st))
    ∧ (∀ p, p ∈ ps →
         nxt (mem st') (rebase (node_buf (lst st)) (env_realloc env) p)
         = rebase (node_buf (lst st)) (env_realloc env) <$> nxt (mem st) p
         ∧ prv (mem st') (rebase (node_buf (lst st)) (env_realloc env) p)
           = rebase (node_buf (lst st)) (env_realloc env) <$> prv (mem st) p)
    ∧ (∀ i, 4 ≤ i < 8 → (in_use <$> mem st' !! slot cfg (env_realloc env) i) = Some false)
    ∧ (ZEROLIST_FAST_ALLOC cfg = true →
       ∃ stk stk',
         free_stack (lst st) = Some stk ∧ free_stack (lst st') = Some stk'
         ∧ free_top (lst st') = free_top (lst st) + 4
         ∧ take (Z.to_nat (free_top (lst st'))) stk'
           = take (Z.to_nat (free_top (lst st))) stk ++ [4; 5; 6; 7]).
Proof.
  intros Hok He (Hholds & _ & _ & Hstore) Hpay Hmax Hb Hstk Hfuel.
  assert (Hlen : length ps = 3%nat).
  { apply (f_equal length) in Hpay. unfold payloads in Hpay.
    by rewrite length_map in Hpay. }
  assert (Htm : 8 ≤ TYPE_MAX cfg).
  { unfold TYPE_MAX. destruct (config_ok_bits cfg Hok) as [-> | [-> | ->]]; lia. }
  destruct (expand_buffer_spec cfg Hok env fuel st ps 8 He Hholds Hstore ltac:(lia)
              ltac:(lia) Hb Hstk)
    as (st' & Hrun & Hholds' & _ & Hbuf' & Hmax' & _ & Hpay' & Hfree & Hstack).
  exists st'. split; [exact Hrun |].
  split; [rewrite <- Hpay; apply ZEROLIST_FOR_EACH_ring; [exact Hholds | lia] |].
  split.
  { rewrite <- Hpay, <- Hpay'. apply ZEROLIST_FOR_EACH_ring; [exact Hholds' |].
    rewrite length_fmap. lia. }
  split; [exact Hbuf' |]. split; [exact Hmax' |]. split.
  { destruct Hholds as [_ Hh], Hholds' as [_ Hh']. rewrite Hh, Hh'.
    destruct ps; [discriminate | reflexivity]. }
  split; [intros p Hp; apply (ring_links_moved _ _ _ ps); [apply Hholds | apply Hholds' | exact Hp] |].
  split; [intros i Hi; apply Hfree; lia |].
  intros Hf. destruct (Hstack Hf) as (stk & stk' & Hs & Hs' & Htop & Htake).
  exists stk, stk'. rewrite Hmax in Htop, Htake. by repeat split.
Qed.

Lemma expand_buffer_keeps_traversal_witness :
  ∃ st',
    _zerolist_expand_buffer cfg_default grow_env 8 8 grow3 = Ok (st', true)
    ∧ ZEROLIST_FOR_EACH 8 grow3 = Ok [11; 12; 13]
    ∧ ZEROLIST_FOR_EACH 8 st' = Ok [11; 12; 13]
    ∧ node_buf (lst st') = 8192 ∧ max_nodes (lst st') = 8
    ∧ head (lst st') = rebase 4096 8192 (head (lst grow3))
    ∧ (∀ p, p ∈ [4096; 4128; 4160] →
         nxt (mem st') (rebase 4096 8192 p) = rebase 4096 8192 <$> nxt (mem grow3) p
         ∧ prv (mem st') (rebase 4096 8192 p) = rebase 4096 8192 <$> prv (mem grow3) p)
    ∧ (∀ i, 4 ≤ i < 8 → (in_use <$> mem st' !! slot cfg_default 8192 i) = Some false)
    ∧ (ZEROLIST_FAST_ALLOC cfg_default = true →
       ∃ stk stk',
         free_stack (lst grow3) = Some stk ∧ free_stack (lst st') = Some stk'
         ∧ free_top (lst st') = free_top (lst grow3) + 4
         ∧ take (Z.to_nat (free_top (lst st'))) stk'
           = take (Z.to_nat (free_top (lst grow3))) stk ++ [4; 5; 6; 7]).
Proof.
  apply (expand_buffer_keeps_traversal cfg_default grow_env 8 grow3 [4096; 4128; 4160] 11 12 13).
  - reflexivity.
  - reflexivity.
  - exact grow3_wf.
  - vm_compute. reflexivity.
  - vm_compute. reflexivity.
  - reflexivity.
  - reflexivity.
  - lia.
Defined.

(** ** Ring closure *)

(** C3. For a well-formed list with cached size (its ring has as many
    nodes as [size] says, a number that fits ZEROLIST_TYPE), following
    [next] from [head] exactly [size] times returns to [head] and so does
    following [prev], when the list is not empty.  Every insertion of the API
    (push_front, push_back, insert_before) returns, and when it reports
    success the list is again well formed and closed, provided that in the
    builds that take nodes from the heap the number of nodes stays below
    the largest ZEROLIST_TYPE; every detachment of the API (pop_front,
    pop_back, pop_at, remove_at, remove_ptr, remove_if) returns and leaves
    the list well formed and closed. *)
Theorem ring_closure_preserved cfg st (ps : list Z) :
  config_ok cfg = true → ZEROLIST_SIZE_ENABLE cfg = true → wf cfg st ps →
  closed st
  ∧ (ps ≠ [] → head (lst st) ≠ 0 ∧ size (lst st) = Z.of_nat (length ps))
  ∧ (∀ env fuel op,
       allocator_ok cfg env st → (length ps < fuel)%nat →
       (ZEROLIST_USE_MALLOC cfg = true ∨ ZEROLIST_STATIC_FALLBACK_MALLOC cfg = true →
        Z.of_nat (length ps) < TYPE_MAX cfg) →
       ∃ st' b, run_insertion cfg env fuel op st = Ok (st', b)
                ∧ (b = true →
                   head (lst st') ≠ 0 ∧ closed st'
                   ∧ ∃ ps', wf cfg st' ps' ∧ length ps' = S (length ps)))
  ∧ (∀ fuel op,
       (length ps < fuel)%nat →
       ∃ st', run_detachment cfg fuel op st = Ok st'
              ∧ closed st' ∧ ∃ ps', wf cfg st' ps').
Proof.
  intros Hok Hse Hwf. split; [by apply (wf_closed cfg st ps) |]. split; [| split].
  - intros Hne. destruct Hwf as (Hholds & Hsize & _). split; [| by apply Hsize].
    destruct ps as [| h t]; [done |]. destruct (holds_first _ _ _ Hholds) as [-> Hh]. exact Hh.
  - intros env fuel op Henv Hfuel Hroom.
    destruct (run_insertion_wf cfg Hok env fuel op st ps Hwf Henv Hfuel Hroom)
      as (st' & b & Hrun & Hpost).
    exists st', b. split; [exact Hrun |]. intros Hb.
    destruct (Hpost Hb) as (ps' & Hwf' & Hlen').
    split; [| split; [by apply (wf_closed cfg st' ps') | eauto]].
    destruct ps' as [| h t]; [discriminate |].
    destruct Hwf' as (Hholds' & _). by destruct (holds_first _ _ _ Hholds') as [-> Hh].
  - intros fuel op Hfuel.
    destruct (run_detachment_wf cfg Hok fuel op st ps Hwf Hfuel) as (st' & ps' & Hrun & Hwf').
    exists st'. split; [exact Hrun |]. split; [by apply (wf_closed cfg st' ps') | eauto].
Qed.

Lemma ring_closure_preserved_witness :
  closed grow3
  ∧ ([4096; 4128; 4160] ≠ [] → head (lst grow3) ≠ 0 ∧ size (lst grow3) = 3)
  ∧ (∀ env fuel op,
       allocator_ok cfg_default env grow3 → (3 < fuel)%nat →
       (ZEROLIST_USE_MALLOC cfg_default = true
        ∨ ZEROLIST_STATIC_FALLBACK_MALLOC cfg_default = true →
        3 < TYPE_MAX cfg_default) →
       ∃ st' b, run_insertion cfg_default env fuel op grow3 = Ok (st', b)
                ∧ (b = true →
                   head (lst st') ≠ 0 ∧ closed st'
                   ∧ ∃ ps', wf cfg_default st' ps' ∧ length ps' = 4%nat))
  ∧ (∀ fuel op,
       (3 < fuel)%nat →
       ∃ st', run_detachment cfg_default fuel op grow3 = Ok st'
              ∧ closed st' ∧ ∃ ps', wf cfg_default st' ps').
Proof.
  apply (ring_closure_preserved cfg_default grow3 [4096; 4128; 4160]).
  - reflexivity.
  - reflexivity.
  - exact grow3_wf.
Defined.

(** The size counter of a list of heap nodes wraps: after 257 insertions
    with a uint8_t ZEROLIST_TYPE, each of which reported success, [size] is
    1 and one step along [next] from [head] does not lead back to [head],
    although the list before the last insertion was closed. *)
Lemma ring_closure_size_wraps :
  ZEROLIST_SIZE_ENABLE cfg_malloc8 = true
  ∧ closed malloc8_256
  ∧ zerolist_push_back cfg_malloc8 (mk_allocator (4096 + 32 * 256) 0) 0 257 malloc8_256
    = Ok (malloc8_257, true)
  ∧ (∃ l, ZEROLIST_FOR_EACH 300 malloc8_257 = Ok l ∧ length l = 257%nat)
  ∧ head (lst malloc8_257) ≠ 0
  ∧ size (lst malloc8_257) = 1
  ∧ ¬ closed malloc8_257.
Proof.
  split; [reflexivity |]. split; [| split; [| split; [| split; [| split]]]].
  - intros _. by vm_compute.
  - by vm_compute.
  - destruct (ZEROLIST_FOR_EACH 300 malloc8_257) as [l | |] eqn:E;
      [| vm_compute in E; discriminate ..].
    exists l. split; [reflexivity |].
    apply (f_equal (λ r, match r with Ok l => length l | _ => O end)) in E.
    rewrite <- E. by vm_compute.
  - by vm_compute.
  - by vm_compute.
  - intros H. destruct H as [H _]; [by vm_compute |]. vm_compute in H. discriminate.
Qed.


(** ** The payload sequence across insertion and removal *)

Lemma payloads_app m (l1 l2 : list Z) : payloads m (l1 ++ l2) = payloads m l1 ++ payloads m l2.
Proof. unfold payloads. apply map_app. Qed.

Lemma payloads_take m (l : list Z) i : payloads m (take i l) = take i (payloads m l).
Proof. unfold payloads. symmetry. apply firstn_map. Qed.

Lemma payloads_drop m (l : list Z) i : payloads m (drop i l) = drop i (payloads m l).
Proof. unfold payloads. symmetry. apply skipn_map. Qed.

Lemma payloads_length m (l : list Z) : length (payloads m l) = length l.
Proof. unfold payloads. apply length_map. Qed.

Lemma payloads_nth m (l : list Z) i : (i < length l)%nat →
  nth i (payloads m l) 0 = default 0 (dat m (nth i l 0)).
Proof.
  intros Hi. unfold payloads.
  rewrite (nth_indep _ 0 (default 0 (dat m 0))) by (by rewrite length_map).
  apply (map_nth (λ p, default 0 (dat m p))).
Qed.

Lemma payloads_dat m m' (l : list Z) :
  (∀ p, p ∈ l → dat m' p = dat m p) → payloads m' l = payloads m l.
Proof.
  intros H. unfold payloads. apply map_ext_in. intros p Hp. rewrite H; [reflexivity |].
  by apply list_elem_of_In.
Qed.

(** Where the sequence-level insertion puts the new node. *)
Lemma inserted_front n (ps : list Z) : inserted true (hd 0 ps) n ps = n :: ps.
Proof.
  destruct ps as [| h t]; [reflexivity |]. unfold inserted. cbn [hd].
  destruct (h =? 0); cbn [ins_before]; by rewrite Z.eqb_refl.
Qed.

Lemma inserted_back n (ps : list Z) : NoDup ps → inserted false 0 n ps = ps ++ [n].
Proof.
  intros Hnd. destruct ps as [| h t]; [reflexivity |]. unfold inserted. cbn [Z.eqb].
  destruct (snoc_view h t) as [init E].
  replace (List.last (h :: t) h) with (List.last t h) by (by destruct t).
  rewrite E in Hnd |- *.
  apply NoDup_app in Hnd as (_ & Hdis & _).
  rewrite ins_after_split by (intros Hin; apply (Hdis _ Hin); set_solver).
  by rewrite <- app_assoc.
Qed.


Lemma without_at (ps : list Z) (i : nat) c :
  NoDup ps → ps !! i = Some c → without c ps = take i ps ++ drop (S i) ps.
Proof.
  intros Hnd Hi. pose proof (take_drop_middle _ _ _ Hi) as E.
  rewrite <- E at 1. rewrite <- E in Hnd.
  pose proof (NoDup_split_notin _ _ _ Hnd) as [Hp1 _].
  by apply without_split.
Qed.

Section Payloads.
Variable cfg : config.
Hypothesis cfg_ok : config_ok cfg = true.

(** [_zerolist_insert_internal], with the place of the new node and the
    payloads.  [ps1] is the ring before the node is linked in: the nodes of
    [ps], at their new addresses when the buffer was moved. *)
Lemma insert_internal_spec env fuel pos data before st (ps : list Z) :
  wf cfg st ps → allocator_ok cfg env st → pos = 0 ∨ pos ∈ ps →
  (length ps < fuel)%nat →
  (ZEROLIST_USE_MALLOC cfg = true ∨ ZEROLIST_STATIC_FALLBACK_MALLOC cfg = true →
   Z.of_nat (length ps) < TYPE_MAX cfg) →
  ∃ st' b, _zerolist_insert_internal cfg env fuel pos data before st = Ok (st', b)
    ∧ (b = false → _zerolist_alloc_node cfg env fuel st = Ok (st', 0))
    ∧ (b = true →
       ∃ n ps1 pos',
         wf cfg st' (inserted before pos' n ps1)
         ∧ length ps1 = length ps ∧ NoDup ps1 ∧ 0 ∉ ps1 ∧ n ∉ ps1
         ∧ payloads (mem st') ps1 = payloads (mem st) ps
         ∧ dat (mem st') n = Some data
         ∧ (pos = 0 → pos' = 0)
         ∧ (∀ i : nat, ps !! i = Some pos → ps1 !! i = Some pos')
         ∧ ∃ st1, _zerolist_alloc_node cfg env fuel st = Ok (st1, n) ∧ n ≠ 0
                  ∧ same_store (lst st1) (lst st')).
Proof.
  intros (Hholds & Hsize & Hmax & Hstore) Henv Hpos Hfuel Hroom.
  unfold _zerolist_insert_internal.
  destruct (alloc_node_spec cfg cfg_ok env fuel st ps Hholds Hstore Henv Hfuel)
    as (st1 & n & Hrun & Hpost).
  rewrite Hrun. cbn [rbind].
  destruct (n =? 0) eqn:En.
  { apply Z.eqb_eq in En. subst n. exists st1, false.
    split; [reflexivity |]. split; [done | discriminate]. }
  apply Z.eqb_neq in En.
  destruct (Hpost En)
    as (ps1 & Hlen & Hholds1 & _ & Hnotin & Hmapped & Hstore1 & Hsize1 & Hpay1 & Hposs).
  rewrite update_alter by exact Hmapped. cbn [rbind lst on_mem].
  set (st2 := on_mem (alter (set_data data) n) st1).
  set (pos' := pos_restore cfg (lst st1) pos (pos_index cfg (lst st) pos)).
  assert (Hholds2 : holds st2 ps1).
  { destruct Hholds1 as [Hr Hh]. split; [| exact Hh].
    eapply ring_agree; [| exact Hr]. intros p Hp. unfold st2. cbn [mem on_mem].
    apply lookup_alter_ne. intros ->. done. }
  assert (Hstore2 : store_inv cfg st2 (n :: ps1)).
  { apply (store_inv_ext cfg st1 st2 (n :: ps1) (n :: ps1)); [| apply same_store_refl | done
                                                             | exact Hstore1].
    apply same_flags_alter. done. }
  assert (Hpos0 : pos = 0 → pos' = 0).
  { intros ->. unfold pos', pos_restore. cbn [Z.eqb negb]. by rewrite !andb_false_r. }
  assert (Hpos' : pos' = 0 ∨ pos' ∈ ps1).
  { destruct Hpos as [-> | Hin]; [left; by apply Hpos0 |].
    right. apply list_elem_of_lookup_1 in Hin as [i Hi].
    apply Hposs in Hi. by eapply list_elem_of_lookup_2. }
  destruct (insert_link_spec cfg st2 ps1 n pos' before Hholds2 Hnotin En)
    as (st' & Hrun' & Hholds' & Hlinks & Hsame & Hsize'); [| exact Hpos' |].
  { unfold st2. cbn [mem on_mem]. by rewrite is_Some_alter. }
  exists st', true. split; [exact Hrun' |]. split; [discriminate |]. intros _.
  exists n, ps1, pos'.
  pose proof (ring_NoDup _ _ (proj1 Hholds2)) as Hnd1.
  assert (H01 : 0 ∉ ps1) by (intros H; by apply (ring_nonzero _ _ 0 (proj1 Hholds2))).
  pose proof (inserted_Permutation before pos' n ps1 Hnd1 Hpos' H01) as Hperm.
  assert (Hlen' : length (inserted before pos' n ps1) = S (length ps)).
  { rewrite Hperm. cbn. by rewrite Hlen. }
  assert (Hstore' : store_inv cfg st' (inserted before pos' n ps1)).
  { apply (store_inv_ext cfg st2 st' (n :: ps1));
      [apply links_only_same_flags, Hlinks | exact Hsame | | exact Hstore2].
    intros p. by rewrite Hperm. }
  assert (Hroom' : Z.of_nat (S (length ps)) ≤ TYPE_MAX cfg).
  { destruct (ZEROLIST_USE_MALLOC cfg) eqn:Hm; [specialize (Hroom ltac:(by left)); lia |].
    destruct (ZEROLIST_STATIC_FALLBACK_MALLOC cfg) eqn:Hfb;
      [specialize (Hroom ltac:(by right)); lia |].
    rewrite <- Hlen'. apply (live_bounded cfg cfg_ok st'); try assumption. apply Hholds'. }
  split.
  { split; [exact Hholds' |]. split; [| split; [by rewrite Hlen' | exact Hstore']].
    intros Hse. rewrite Hsize', Hse, Hlen'.
    destruct (decide (ps1 = [])) as [-> | Hne].
    - cbn in Hlen. destruct ps; [reflexivity | discriminate].
    - unfold st2. cbn [lst on_mem]. rewrite Hsize1, (Hsize Hse).
      rewrite to_TYPE_small by lia. lia. }
  split; [exact Hlen |]. split; [exact Hnd1 |]. split; [exact H01 |]. split; [exact Hnotin |].
  split.
  { rewrite <- Hpay1. apply payloads_dat. intros p Hp.
    rewrite (links_only_dat _ _ p Hlinks). unfold st2, dat. cbn [mem on_mem].
    rewrite lookup_alter_ne; [reflexivity |]. intros ->. done. }
  split; [| split; [exact Hpos0 | split; [intros i Hi; exact (Hposs i pos Hi) |]]].
  - rewrite (links_only_dat _ _ n Hlinks). unfold st2, dat. cbn [mem on_mem].
    rewrite lookup_alter_eq. destruct Hmapped as [c ->]. reflexivity.
  - exists st1. split; [reflexivity |]. split; [exact En |]. exact Hsame.
Qed.

Lemma mem_size_decr st : mem (size_decr cfg st) = mem st.
Proof. unfold size_decr. by destruct (ZEROLIST_SIZE_ENABLE cfg). Qed.

Lemma detach_dat st (ps : list Z) c s1 :
  holds st ps → c ∈ ps → _zerolist_detach_node c st = Ok s1 →
  ∀ q, dat (mem s1) q = dat (mem st) q.
Proof.
  intros Hholds Hc Hrun q. apply list_elem_of_split in Hc as (l1 & l2 & ->).
  destruct (detach_node_spec st l1 c l2 Hholds) as (s1' & Hrun' & _ & Hlinks & _).
  rewrite Hrun in Hrun'. injection Hrun' as <-. by apply links_only_dat.
Qed.

Lemma free_others s1 (live : list Z) c s2 :
  store_inv cfg s1 live → c ∈ live → c ≠ 0 → zerolist_free_node cfg c s1 = Ok s2 →
  ∀ q, q ≠ c → mem s2 !! q = mem s1 !! q.
Proof.
  intros Hinv Hc Hc0 Hrun.
  destruct (free_node_spec cfg cfg_ok s1 live (filter (λ p, p ≠ c) live) c Hinv Hc Hc0)
    as (s2' & Hrun' & _ & Hmem & _).
  { intros p. rewrite list_elem_of_filter. tauto. }
  rewrite Hrun in Hrun'. injection Hrun' as <-. exact Hmem.
Qed.

(** What a removal leaves of the payloads, for the three orders in which
    the removal functions detach, release and decrement. *)
Lemma remove_node_spec st (ps : list Z) c :
  wf cfg st ps → c ∈ ps →
  ∃ st', remove_node cfg c st = Ok (st', true) ∧ wf cfg st' (without c ps)
         ∧ payloads (mem st') (without c ps) = payloads (mem st) (without c ps).
Proof.
  intros Hwf Hc. pose proof Hwf as (Hholds & _ & _ & Hinv).
  pose proof (ring_NoDup _ _ (proj1 Hholds)) as Hnd.
  pose proof (ring_nonzero _ _ c (proj1 Hholds) Hc) as Hc0.
  destruct (remove_node_wf cfg cfg_ok st ps c Hwf Hc) as (st' & Hrun & Hwf').
  exists st'. split; [exact Hrun |]. split; [exact Hwf' |].
  destruct (detach_keeps cfg st ps c Hholds Hinv Hc) as (s1 & Hrun1 & _ & Hinv1 & _).
  unfold remove_node in Hrun. rewrite Hrun1 in Hrun. cbn [rbind] in Hrun.
  destruct (zerolist_free_node cfg c s1) as [s2 | |] eqn:Hrun2; try discriminate.
  cbn [rbind] in Hrun. injection Hrun as <-.
  apply payloads_dat. intros q Hq. apply elem_of_without in Hq as [_ Hq]; [| exact Hnd].
  unfold dat at 1. rewrite mem_size_decr, (free_others s1 ps c s2 Hinv1 Hc Hc0 Hrun2 q Hq).
  apply (detach_dat st ps c s1 Hholds Hc Hrun1).
Qed.

Lemma decr_detach_free_spec st (ps : list Z) c :
  wf cfg st ps → c ∈ ps →
  ∃ s1 s2, _zerolist_detach_node c (size_decr cfg st) = Ok s1
           ∧ zerolist_free_node cfg c s1 = Ok s2
           ∧ wf cfg s2 (without c ps)
           ∧ payloads (mem s2) (without c ps) = payloads (mem st) (without c ps).
Proof.
  intros Hwf Hc. pose proof Hwf as (Hholds & _ & _ & Hinv).
  pose proof (ring_NoDup _ _ (proj1 Hholds)) as Hnd.
  pose proof (ring_nonzero _ _ c (proj1 Hholds) Hc) as Hc0.
  destruct (decr_detach_free_wf cfg cfg_ok st ps c Hwf Hc) as (s1 & s2 & Hrun1 & Hrun2 & Hwf').
  exists s1, s2. split; [exact Hrun1 |]. split; [exact Hrun2 |]. split; [exact Hwf' |].
  destruct (detach_keeps cfg (size_decr cfg st) ps c (holds_size_decr _ _ _ Hholds)
              (store_inv_size_decr _ _ _ Hinv) Hc) as (s1' & Hrun1' & _ & Hinv1 & _).
  rewrite Hrun1 in Hrun1'. injection Hrun1' as <-.
  apply payloads_dat. intros q Hq. apply elem_of_without in Hq as [_ Hq]; [| exact Hnd].
  unfold dat at 1. rewrite (free_others s1 ps c s2 Hinv1 Hc Hc0 Hrun2 q Hq).
  fold (dat (mem s1) q).
  rewrite (detach_dat (size_decr cfg st) ps c s1 (holds_size_decr _ _ _ Hholds) Hc Hrun1).
  unfold dat. by rewrite mem_size_decr.
Qed.

Lemma detach_decr_free_spec st (ps : list Z) c :
  wf cfg st ps → c ∈ ps →
  ∃ s1 s2, _zerolist_detach_node c st = Ok s1
           ∧ zerolist_free_node cfg c (size_decr cfg s1) = Ok s2
           ∧ wf cfg s2 (without c ps)
           ∧ payloads (mem s2) (without c ps) = payloads (mem st) (without c ps).
Proof.
  intros Hwf Hc. pose proof Hwf as (Hholds & _ & _ & Hinv).
  pose proof (ring_NoDup _ _ (proj1 Hholds)) as Hnd.
  pose proof (ring_nonzero _ _ c (proj1 Hholds) Hc) as Hc0.
  destruct (detach_decr_free_wf cfg cfg_ok st ps c Hwf Hc) as (s1 & s2 & Hrun1 & Hrun2 & Hwf').
  exists s1, s2. split; [exact Hrun1 |]. split; [exact Hrun2 |]. split; [exact Hwf' |].
  destruct (detach_keeps cfg st ps c Hholds Hinv Hc) as (s1' & Hrun1' & _ & Hinv1 & _).
  rewrite Hrun1 in Hrun1'. injection Hrun1' as <-.
  apply payloads_dat. intros q Hq. apply elem_of_without in Hq as [_ Hq]; [| exact Hnd].
  unfold dat at 1.
  rewrite (free_others (size_decr cfg s1) ps c s2 (store_inv_size_decr _ _ _ Hinv1) Hc Hc0
             Hrun2 q Hq), mem_size_decr.
  apply (detach_dat st ps c s1 Hholds Hc Hrun1).
Qed.

End Payloads.


(** ** Queries: [zerolist_at], [zerolist_size], [zerolist_find], [zerolist_search] *)

Lemma rot_nth (h : Z) (t : list Z) (k : nat) :
  (k < S (length t))%nat →
  nth k (t ++ [h]) 0 = nth ((k + 1) mod S (length t)) (h :: t) 0.
Proof.
  intros Hk. destruct (decide (k = length t)) as [-> | Hne].
  - rewrite Nat.add_1_r, Nat.Div0.mod_same. cbn [nth].
    rewrite app_nth2 by lia. by rewrite Nat.sub_diag.
  - rewrite Nat.mod_small by lia. rewrite Nat.add_1_r. cbn [nth].
    apply app_nth1. lia.
Qed.

Lemma at_loop_ring st : ∀ n h t,
  ring (mem st) (h :: t) →
  at_loop st n h = Ok (Some (nth (n mod S (length t)) (h :: t) 0)).
Proof.
  induction n as [| n IH]; intros h t Hr.
  - rewrite Nat.Div0.mod_0_l. reflexivity.
  - pose proof (ring_next_head _ _ _ Hr) as Hn. apply nxt_Some in Hn as (c & Hc & Hn).
    cbn [at_loop]. rewrite (load_Some _ _ _ Hc). cbn [rbind]. rewrite Hn.
    pose proof (ring_nonzero _ _ (hd h t) Hr (hd_in h t)) as Hnz.
    apply Z.eqb_neq in Hnz. rewrite Hnz.
    destruct t as [| r t'].
    + cbn [hd length]. rewrite (IH h [] Hr). cbn [length].
      by rewrite !Nat.mod_1_r.
    + cbn [hd]. pose proof (ring_rotate1 _ _ _ Hr) as Hr'. cbn [app] in Hr'.
      rewrite (IH r (t' ++ [h]) Hr'). do 2 f_equal.
      rewrite length_app. cbn [length].
      replace (length t' + 1)%nat with (S (length t')) by lia.
      change (r :: t' ++ [h]) with ((r :: t') ++ [h]).
      rewrite rot_nth by (cbn [length]; apply Nat.mod_upper_bound; lia).
      cbn [length]. f_equal.
      rewrite Nat.Div0.add_mod_idemp_l. f_equal. lia.
Qed.

Lemma load_payload st p : is_Some (mem st !! p) →
  (let* c := load st p in Ok (data c)) = Ok (payload (mem st) p).
Proof. intros [c Hc]. unfold payload, dat. rewrite (load_Some _ _ _ Hc), Hc. reflexivity. Qed.

Lemma payloads_nth_payload m (l : list Z) i : (i < length l)%nat →
  nth i (payloads m l) 0 = payload m (nth i l 0).
Proof. apply payloads_nth. Qed.

(** X1.  With cached size, [zerolist_at] gives the payload of the node at
    position [index] counted from head, and NULL when [index] is not below
    the number of nodes (in particular on the empty list). *)
Theorem zerolist_at_checked cfg st (ps : list Z) index :
  ZEROLIST_SIZE_ENABLE cfg = true → wf cfg st ps → 0 ≤ index →
  zerolist_at cfg index st = Ok (nth (Z.to_nat index) (payloads (mem st) ps) 0).
Proof.
  intros Hse ([Hr Hh] & Hsize & _) Hidx. unfold zerolist_at.
  destruct ps as [| h t].
  { cbn [hd] in Hh. rewrite Hh. cbn [Z.eqb]. by destruct (Z.to_nat index). }
  cbn [hd] in Hh. rewrite Hh.
  pose proof (ring_nonzero _ _ h Hr ltac:(set_solver)) as Hnz.
  apply Z.eqb_neq in Hnz. rewrite Hnz, Hse, (Hsize Hse). cbn [andb].
  destruct (Z.of_nat (length (h :: t)) <=? index) eqn:E.
  - apply Z.leb_le in E. rewrite nth_overflow; [reflexivity |].
    rewrite payloads_length. lia.
  - apply Z.leb_gt in E. rewrite (at_loop_ring st _ h t Hr). cbn [rbind].
    cbn [length] in E. rewrite Nat.mod_small by lia.
    rewrite load_payload by (apply (ring_mapped _ _ _ Hr), nth_in; cbn [length]; lia).
    rewrite payloads_nth_payload by (cbn [length]; lia). reflexivity.
Qed.

(** X2.  Without cached size, [zerolist_at] does not check [index] against
    the number of nodes: it walks [index] steps along the ring, so on a list
    of [n] nodes it gives the payload at position [index mod n]. *)
Theorem zerolist_at_wraps cfg st (ps : list Z) index :
  ZEROLIST_SIZE_ENABLE cfg = false → holds st ps → ps ≠ [] → 0 ≤ index →
  zerolist_at cfg index st
  = Ok (nth (Z.to_nat index mod length ps) (payloads (mem st) ps) 0).
Proof.
  intros Hse [Hr Hh] Hne Hidx. unfold zerolist_at.
  destruct ps as [| h t]; [done |]. cbn [hd] in Hh. rewrite Hh.
  pose proof (ring_nonzero _ _ h Hr ltac:(set_solver)) as Hnz.
  apply Z.eqb_neq in Hnz. rewrite Hnz, Hse. cbn [andb].
  rewrite (at_loop_ring st _ h t Hr). cbn [rbind length].
  assert (Hlt : (Z.to_nat index mod S (length t) < S (length t))%nat)
    by (apply Nat.mod_upper_bound; lia).
  rewrite load_payload by (apply (ring_mapped _ _ _ Hr), nth_in; cbn [length]; lia).
  rewrite payloads_nth_payload by (cbn [length]; lia). reflexivity.
Qed.

Lemma size_loop_path cfg st h : ∀ rest cur fuel cnt,
  head (lst st) = h → h ∉ rest → fwd (mem st) (cur :: rest ++ [h]) →
  0 ≤ cnt → cnt + Z.of_nat (S (length rest)) ≤ TYPE_MAX cfg → (length rest < fuel)%nat →
  size_loop cfg st fuel cnt cur = Ok (cnt + Z.of_nat (S (length rest))).
Proof.
  induction rest as [| r rest IH]; intros cur fuel cnt Hh Hnotin Hf Hc Hmax Hfuel;
    (destruct fuel as [| fuel]; [cbn in Hfuel; lia |]).
  - cbn in Hf. destruct Hf as [Hf _]. apply nxt_Some in Hf as (c & Hc' & Hn).
    cbn [size_loop]. rewrite (load_Some _ _ _ Hc'). cbn [rbind].
    rewrite Hn, Hh, Z.eqb_refl. cbn [length] in *. rewrite to_TYPE_small by lia.
    f_equal; lia.
  - cbn [app] in Hf. rewrite fwd_cons in Hf. destruct Hf as [Hf Hrest].
    apply nxt_Some in Hf as (c & Hc' & Hn).
    cbn [size_loop]. rewrite (load_Some _ _ _ Hc'). cbn [rbind]. rewrite Hn, Hh.
    destruct (r =? h) eqn:E; [apply Z.eqb_eq in E; set_solver |].
    cbn [length] in Hmax, Hfuel. rewrite to_TYPE_small by lia.
    rewrite (IH r fuel (cnt + 1)); try assumption; try lia.
    + f_equal. cbn [length]. lia.
    + set_solver.
Qed.

(** The count of [zerolist_size], from the ring. *)
Lemma size_of_ring cfg st (ps : list Z) fuel :
  holds st ps → (ZEROLIST_SIZE_ENABLE cfg = true → size (lst st) = Z.of_nat (length ps)) →
  Z.of_nat (length ps) ≤ TYPE_MAX cfg → (length ps < fuel)%nat →
  zerolist_size cfg fuel st = Ok (Z.of_nat (length ps)).
Proof.
  intros [Hr Hh] Hsize Hmax Hfuel. unfold zerolist_size.
  destruct (ZEROLIST_SIZE_ENABLE cfg) eqn:Hse; [by rewrite Hsize |].
  destruct ps as [| h t]; cbn [hd] in Hh; rewrite Hh; [reflexivity |].
  pose proof (ring_nonzero _ _ h Hr ltac:(set_solver)) as Hnz.
  apply Z.eqb_neq in Hnz. rewrite Hnz.
  apply ring_cons_unfold in Hr as (Hnd & _ & Hf & _). cbn [hd app] in Hf.
  apply NoDup_cons in Hnd as [Hnotin _].
  cbn [length] in Hmax, Hfuel.
  rewrite (size_loop_path cfg st h t h fuel 0); try assumption; try lia.
  f_equal; cbn [length]; lia.
Qed.

(** X3.  [zerolist_size] gives the number of nodes of the list, whether it
    reads the cached counter or, without one, counts the nodes by walking the
    ring once. *)
Theorem zerolist_size_counts cfg st (ps : list Z) fuel :
  wf cfg st ps → (length ps < fuel)%nat →
  zerolist_size cfg fuel st = Ok (Z.of_nat (length ps)).
Proof.
  intros (Hholds & Hsize & Hmax & _) Hfuel.
  apply size_of_ring; assumption.
Qed.

(** *** Finding a node by its payload *)

Lemma first_match_here m matches p (l : list Z) :
  matches (payload m p) = true → first_match m matches (p :: l) = p.
Proof. intros H. unfold first_match. cbn [List.find]. by rewrite H. Qed.

Lemma first_match_skip m matches p (l : list Z) :
  matches (payload m p) = false → first_match m matches (p :: l) = first_match m matches l.
Proof. intros H. unfold first_match. cbn [List.find]. by rewrite H. Qed.

Lemma first_match_zero m matches (l : list Z) :
  0 ∉ l → first_match m matches l = 0 → ∀ p, p ∈ l → matches (payload m p) = false.
Proof.
  intros H0 Hf p Hp. unfold first_match in Hf.
  destruct (List.find _ l) as [q |] eqn:E.
  - apply find_some in E as [Hq _]. apply list_elem_of_In in Hq. cbn in Hf. congruence.
  - apply (find_none _ _ E). by apply list_elem_of_In.
Qed.

Lemma first_match_nonzero m matches (l : list Z) :
  first_match m matches l ≠ 0 →
  first_match m matches l ∈ l ∧ matches (payload m (first_match m matches l)) = true.
Proof.
  unfold first_match. intros Hf. destruct (List.find _ l) as [q |] eqn:E; [| done].
  apply find_some in E as [Hq Hm]. apply list_elem_of_In in Hq. by split.
Qed.

Lemma elem_of_payloads m (ps : list Z) d :
  d ∈ payloads m ps ↔ ∃ p, p ∈ ps ∧ payload m p = d.
Proof.
  unfold payloads. rewrite list_elem_of_In, in_map_iff. split.
  - intros (p & E & Hp). exists p. split; [by apply list_elem_of_In | exact E].
  - intros (p & Hp & E). exists p. split; [exact E | by apply list_elem_of_In].
Qed.

Lemma payload_load m p c : m !! p = Some c → payload m p = data c.
Proof. intros H. unfold payload, dat. by rewrite H. Qed.

Lemma find_ring_first matches st start : ∀ rest cur fuel,
  fwd (mem st) (cur :: rest ++ [start]) →
  0 ∉ rest → start ∉ rest → start ≠ 0 → (length rest < fuel)%nat →
  find_ring matches st fuel start cur = Ok (first_match (mem st) matches (cur :: rest)).
Proof.
  induction rest as [| r rest IH]; intros cur fuel Hf H0 Hstart Hs0 Hfuel;
    (destruct fuel as [| fuel]; [cbn in Hfuel; lia |]).
  - cbn in Hf. destruct Hf as [Hf _]. apply nxt_Some in Hf as (c & Hc & Hn).
    cbn [find_ring]. rewrite (load_Some _ _ _ Hc). cbn [rbind].
    destruct (matches (data c)) eqn:Hm.
    + rewrite first_match_here; [reflexivity | by rewrite (payload_load _ _ _ Hc)].
    + rewrite first_match_skip by (by rewrite (payload_load _ _ _ Hc)).
      rewrite Hn. apply Z.eqb_neq in Hs0. by rewrite Hs0, Z.eqb_refl.
  - cbn [app] in Hf. rewrite fwd_cons in Hf. destruct Hf as [Hf Hrest].
    apply nxt_Some in Hf as (c & Hc & Hn).
    cbn [find_ring]. rewrite (load_Some _ _ _ Hc). cbn [rbind].
    destruct (matches (data c)) eqn:Hm.
    + rewrite first_match_here; [reflexivity | by rewrite (payload_load _ _ _ Hc)].
    + rewrite first_match_skip by (by rewrite (payload_load _ _ _ Hc)).
      rewrite Hn.
      destruct (r =? 0) eqn:E0; [apply Z.eqb_eq in E0; set_solver |].
      destruct (r =? start) eqn:E1; [apply Z.eqb_eq in E1; set_solver |].
      apply IH; try assumption; [set_solver | set_solver | cbn in Hfuel; lia].
Qed.

Lemma search_counted_first matches st x : ∀ rest cur,
  fwd (mem st) (cur :: rest ++ [x]) → 0 ∉ rest ++ [x] →
  search_counted matches st (S (length rest)) cur
  = Ok (first_match (mem st) matches (cur :: rest)).
Proof.
  induction rest as [| r rest IH]; intros cur Hf H0.
  - cbn in Hf. destruct Hf as [Hf _]. apply nxt_Some in Hf as (c & Hc & Hn).
    cbn [search_counted length]. rewrite (load_Some _ _ _ Hc). cbn [rbind].
    destruct (matches (data c)) eqn:Hm.
    + rewrite first_match_here; [reflexivity | by rewrite (payload_load _ _ _ Hc)].
    + rewrite first_match_skip by (by rewrite (payload_load _ _ _ Hc)).
      rewrite Hn. destruct (x =? 0) eqn:E0; [apply Z.eqb_eq in E0; set_solver | reflexivity].
  - cbn [app] in Hf. rewrite fwd_cons in Hf. destruct Hf as [Hf Hrest].
    apply nxt_Some in Hf as (c & Hc & Hn).
    cbn [length]. cbn [search_counted]. rewrite (load_Some _ _ _ Hc). cbn [rbind].
    destruct (matches (data c)) eqn:Hm.
    + rewrite first_match_here; [reflexivity | by rewrite (payload_load _ _ _ Hc)].
    + rewrite first_match_skip by (by rewrite (payload_load _ _ _ Hc)).
      rewrite Hn. destruct (r =? 0) eqn:E0; [apply Z.eqb_eq in E0; set_solver |].
      apply IH; [exact Hrest | set_solver].
Qed.

Section Find.
Variable cfg : config.
Hypothesis cfg_ok : config_ok cfg = true.

Lemma find_slots_cases matches st (ps : list Z) : ∀ n i,
  arena_inv cfg st ps → 0 ≤ i → i + Z.of_nat n ≤ max_nodes (lst st) →
  ∃ r, find_slots cfg matches st n i = Ok r
    ∧ ((r = 0 ∧ ∀ j, i ≤ j < i + Z.of_nat n → slot cfg (node_buf (lst st)) j ∈ ps →
                  matches (payload (mem st) (slot cfg (node_buf (lst st)) j)) = false)
       ∨ (r ∈ ps ∧ matches (payload (mem st) r) = true)).
Proof.
  intros n i (Hbuf & Hmax & Hslots & _). revert i.
  induction n as [| n IH]; intros i Hi Hn.
  { exists 0. split; [reflexivity |]. left. split; [reflexivity |]. intros; lia. }
  cbn [find_slots]. unfold _ZEROLIST_NODE_IS_IN_USE.
  pose proof (slot_ge cfg cfg_ok (node_buf (lst st)) i Hi) as Hge.
  destruct (slot cfg (node_buf (lst st)) i =? 0) eqn:E0; [apply Z.eqb_eq in E0; lia |].
  destruct (Hslots i ltac:(lia)) as (c & Hc & Hiff).
  rewrite (load_Some _ _ _ Hc). cbn [rbind].
  assert (Hrest : ∀ r, (in_use c = true → matches (data c) = false) →
            find_slots cfg matches st n (i + 1) = Ok r
            ∧ ((r = 0 ∧ ∀ j, i + 1 ≤ j < i + 1 + Z.of_nat n →
                         slot cfg (node_buf (lst st)) j ∈ ps →
                         matches (payload (mem st) (slot cfg (node_buf (lst st)) j)) = false)
               ∨ (r ∈ ps ∧ matches (payload (mem st) r) = true)) →
            find_slots cfg matches st n (i + 1) = Ok r
            ∧ ((r = 0 ∧ ∀ j, i ≤ j < i + Z.of_nat (S n) →
                         slot cfg (node_buf (lst st)) j ∈ ps →
                         matches (payload (mem st) (slot cfg (node_buf (lst st)) j)) = false)
               ∨ (r ∈ ps ∧ matches (payload (mem st) r) = true))).
  { intros r Hhere [Hrun [[Hr Hno] | Hyes]]; (split; [exact Hrun |]); [left | by right].
    split; [exact Hr |]. intros j Hj Hin.
    destruct (decide (j = i)) as [-> | Hne].
    - rewrite (payload_load _ _ _ Hc). apply Hhere. by apply Hiff.
    - apply Hno; [lia | exact Hin]. }
  destruct (IH (i + 1) ltac:(lia) ltac:(lia)) as (r & Hr).
  destruct (in_use c) eqn:Hu; cbn [rbind].
  - destruct (matches (data c)) eqn:Hm.
    + eexists. split; [reflexivity |]. right.
      split; [by apply Hiff | by rewrite (payload_load _ _ _ Hc)].
    + exists r. apply Hrest; [done | exact Hr].
  - exists r. apply Hrest; [discriminate | exact Hr].
Qed.

(** What the three scans have in common: NULL means no node of the ring
    matches, a node means a node of the ring that matches; along the ring it
    is the first one. *)
Lemma scan_spec matches st (ps : list Z) r :
  wf cfg st ps →
  (scan_slots cfg = true →
   find_slots cfg matches st (Z.to_nat (max_nodes (lst st))) 0 = Ok r) →
  (scan_slots cfg = false → r = first_match (mem st) matches ps) →
  (r = 0 → ∀ p, p ∈ ps → matches (payload (mem st) p) = false)
  ∧ (r ≠ 0 → r ∈ ps ∧ matches (payload (mem st) r) = true).
Proof.
  intros (Hholds & _ & _ & Hinv) Hslots Hring.
  assert (H0 : 0 ∉ ps) by (intros H; by apply (ring_nonzero _ _ 0 (proj1 Hholds))).
  destruct (scan_slots cfg) eqn:Escan.
  - unfold scan_slots in Escan. apply andb_true_iff in Escan as [Hm Hfb].
    apply negb_true_iff in Hm, Hfb. pose proof (proj2 Hinv Hm) as Ha.
    pose proof Ha as (_ & Hmx & _ & Hwhere & _).
    destruct (find_slots_cases matches st ps (Z.to_nat (max_nodes (lst st))) 0 Ha)
      as (r' & Hrun & Hcases); [lia | lia |].
    rewrite (Hslots eq_refl) in Hrun. injection Hrun as <-.
    destruct Hcases as [[-> Hno] | [Hin Hyes]].
    + split; [| done]. intros _ p Hp.
      destruct (Hwhere p Hp) as [(j & Hj & ->) | [? _]]; [| congruence].
      apply Hno; [lia | exact Hp].
    + split; [| done]. intros ->. done.
  - rewrite (Hring eq_refl). split.
    + by apply first_match_zero.
    + apply first_match_nonzero.
Qed.

(** X4.  [zerolist_find] returns, and gives NULL exactly when no node of
    the list carries [target_addr]; otherwise it gives a node of the list
    that carries it, and in the builds that walk the ring (heap nodes or heap
    fallback) the first such node from head. *)
Theorem zerolist_find_spec st (ps : list Z) fuel target_addr :
  wf cfg st ps → (length ps < fuel)%nat →
  ∃ r, zerolist_find cfg fuel target_addr st = Ok r
    ∧ (r = 0 ↔ target_addr ∉ payloads (mem st) ps)
    ∧ (r ≠ 0 → r ∈ ps ∧ payload (mem st) r = target_addr)
    ∧ (scan_slots cfg = false → r = first_match (mem st) (λ d, d =? target_addr) ps).
Proof.
  intros Hwf Hfuel. pose proof Hwf as (Hholds & _ & _ & Hinv).
  assert (Hrun : ∃ r, zerolist_find cfg fuel target_addr st = Ok r
            ∧ (scan_slots cfg = true →
               find_slots cfg (λ d, d =? target_addr) st (Z.to_nat (max_nodes (lst st))) 0 = Ok r)
            ∧ (scan_slots cfg = false → r = first_match (mem st) (λ d, d =? target_addr) ps)).
  { unfold zerolist_find. destruct (scan_slots cfg) eqn:Escan.
    - unfold scan_slots in Escan. apply andb_true_iff in Escan as [Hm _].
      apply negb_true_iff in Hm. pose proof (proj2 Hinv Hm) as Ha.
      destruct (find_slots_cases (λ d, d =? target_addr) st ps
                  (Z.to_nat (max_nodes (lst st))) 0 Ha)
        as (r & Hrun & _); [lia | destruct Ha as (_ & ? & _); lia |].
      exists r. by rewrite Hrun.
    - destruct ps as [| h t].
      + destruct Hholds as [_ Hh]. cbn [hd] in Hh. rewrite Hh. cbn [Z.eqb]. exists 0. done.
      + destruct (holds_first _ _ _ Hholds) as [Hh Hh0].
        apply Z.eqb_neq in Hh0 as Hh0'. rewrite Hh, Hh0'.
        destruct Hholds as [Hr _].
        apply ring_cons_unfold in Hr as (Hnd & H0 & Hf & _); cbn [hd app] in Hf.
        apply NoDup_cons in Hnd as [Hnotin _].
        rewrite (find_ring_first _ st h t h fuel); try assumption.
        * eexists. split; [reflexivity |]. done.
        * set_solver.
        * cbn in Hfuel. lia. }
  destruct Hrun as (r & Hrun & Hslots & Hring). exists r. split; [exact Hrun |].
  destruct (scan_spec (λ d, d =? target_addr) st ps r Hwf Hslots Hring) as [Hz Hnz].
  split; [| split; [| exact Hring]].
  - split.
    + intros Hr Hin. apply elem_of_payloads in Hin as (p & Hp & E).
      specialize (Hz Hr p Hp). cbn in Hz. apply Z.eqb_neq in Hz. done.
    + intros Hno. destruct (decide (r = 0)) as [| Hne]; [done |]. exfalso.
      destruct (Hnz Hne) as [Hin Hm]. apply Z.eqb_eq in Hm. apply Hno.
      apply elem_of_payloads. eauto.
  - intros Hne. destruct (Hnz Hne) as [Hin Hm]. apply Z.eqb_eq in Hm. done.
Qed.

(** X5.  [zerolist_search] gives NULL for a NULL comparator; otherwise it
    returns, gives NULL exactly when the comparator accepts the payload of no
    node of the list, and otherwise a node of the list whose payload it
    accepts: in the builds that walk the ring, the first such node from
    head. *)
Theorem zerolist_search_spec st (ps : list Z) fuel target_data cmp_func :
  wf cfg st ps → (length ps < fuel)%nat →
  ∃ r, zerolist_search cfg fuel target_data cmp_func st = Ok r
    ∧ match cmp_func with
      | None => r = 0
      | Some cmp =>
          (r = 0 ↔ ∀ d, d ∈ payloads (mem st) ps → cmp d target_data = false)
          ∧ (r ≠ 0 → r ∈ ps ∧ cmp (payload (mem st) r) target_data = true)
          ∧ (scan_slots cfg = false
             → r = first_match (mem st) (λ d, cmp d target_data) ps)
      end.
Proof.
  intros Hwf Hfuel. pose proof Hwf as (Hholds & Hsize & _ & Hinv).
  destruct cmp_func as [cmp |]; [| exists 0; by split].
  assert (Hrun : ∃ r, zerolist_search cfg fuel target_data (Some cmp) st = Ok r
            ∧ (scan_slots cfg = true →
               find_slots cfg (λ d, cmp d target_data) st (Z.to_nat (max_nodes (lst st))) 0
               = Ok r)
            ∧ (scan_slots cfg = false
               → r = first_match (mem st) (λ d, cmp d target_data) ps)).
  { unfold zerolist_search. destruct (scan_slots cfg) eqn:Escan.
    - unfold scan_slots in Escan. apply andb_true_iff in Escan as [Hm _].
      apply negb_true_iff in Hm. pose proof (proj2 Hinv Hm) as Ha.
      destruct (find_slots_cases (λ d, cmp d target_data) st ps
                  (Z.to_nat (max_nodes (lst st))) 0 Ha)
        as (r & Hrun & _); [lia | destruct Ha as (_ & ? & _); lia |].
      exists r. by rewrite Hrun.
    - destruct ps as [| h t].
      + destruct Hholds as [_ Hh]. cbn [hd] in Hh. rewrite Hh. cbn [Z.eqb]. exists 0. done.
      + destruct (holds_first _ _ _ Hholds) as [Hh Hh0].
        apply Z.eqb_neq in Hh0 as Hh0'. rewrite Hh, Hh0'.
        destruct Hholds as [Hr _].
        apply ring_cons_unfold in Hr as (Hnd & H0 & Hf & _); cbn [hd app] in Hf.
        apply NoDup_cons in Hnd as [Hnotin _].
        destruct (ZEROLIST_SIZE_ENABLE cfg) eqn:Hse.
        * rewrite (Hsize eq_refl), Nat2Z.id. cbn [length].
          rewrite (search_counted_first _ st h t h Hf) by set_solver.
          eexists. split; [reflexivity |]. done.
        * rewrite (find_ring_first _ st h t h fuel); try assumption.
          -- eexists. split; [reflexivity |]. done.
          -- set_solver.
          -- cbn in Hfuel. lia. }
  destruct Hrun as (r & Hrun & Hslots & Hring). exists r. split; [exact Hrun |].
  destruct (scan_spec (λ d, cmp d target_data) st ps r Hwf Hslots Hring) as [Hz Hnz].
  split; [| split; [exact Hnz | exact Hring]].
  split.
  - intros Hr d Hin. apply elem_of_payloads in Hin as (p & Hp & <-). by apply Hz.
  - intros Hno. destruct (decide (r = 0)) as [| Hne]; [done |]. exfalso.
    destruct (Hnz Hne) as [Hin Hm]. rewrite Hno in Hm; [discriminate |].
    apply elem_of_payloads. eauto.
Qed.

End Find.


(** ** Insertion at either end and before a payload *)

Lemma find_split (f : Z → bool) : ∀ (l : list Z) c,
  List.find f l = Some c →
  ∃ l1 l2, l = l1 ++ c :: l2 ∧ f c = true ∧ ∀ x, x ∈ l1 → f x = false.
Proof.
  induction l as [| a l IH]; intros c Hc; [discriminate |].
  cbn [List.find] in Hc. destruct (f a) eqn:Ea.
  - injection Hc as <-. exists [], l. split; [reflexivity |]. split; [exact Ea | set_solver].
  - destruct (IH c Hc) as (l1 & l2 & -> & Hfc & Hno).
    exists (a :: l1), l2. split; [reflexivity |]. split; [exact Hfc |].
    intros x Hx. apply elem_of_cons in Hx as [-> | Hx]; auto.
Qed.

Lemma payloads_cons_payload m p (l : list Z) : payloads m (p :: l) = payload m p :: payloads m l.
Proof. reflexivity. Qed.

Lemma payload_Some m p d : dat m p = Some d → payload m p = d.
Proof. unfold payload. by intros ->. Qed.

Lemma notin_payloads m (l : list Z) d :
  (∀ x, x ∈ l → (payload m x =? d) = false) → d ∉ payloads m l.
Proof.
  intros H Hin. apply elem_of_payloads in Hin as (p & Hp & E).
  specialize (H p Hp). apply Z.eqb_neq in H. done.
Qed.


Section Ends.
Variable cfg : config.
Hypothesis cfg_ok : config_ok cfg = true.

Lemma push_back_payloads env fuel d st (ps : list Z) :
  wf cfg st ps → allocator_ok cfg env st → (length ps < fuel)%nat →
  (ZEROLIST_USE_MALLOC cfg = true ∨ ZEROLIST_STATIC_FALLBACK_MALLOC cfg = true →
   Z.of_nat (length ps) < TYPE_MAX cfg) →
  ∃ st' b, zerolist_push_back cfg env fuel d st = Ok (st', b)
    ∧ (b = true → ∃ ps', wf cfg st' ps' ∧ length ps' = S (length ps)
                         ∧ payloads (mem st') ps' = payloads (mem st) ps ++ [d]).
Proof.
  intros Hwf Henv Hfuel Hroom. unfold zerolist_push_back.
  destruct (insert_internal_spec cfg cfg_ok env fuel 0 d false st ps Hwf Henv
              ltac:(by left) Hfuel Hroom) as (st' & b & Hrun & _ & Hpost).
  exists st', b. split; [exact Hrun |]. intros Hb.
  destruct (Hpost Hb) as (n & ps1 & pos' & Hwf' & Hlen & Hnd & H0 & Hn & Hpay & Hdat & Hp0 & _ & _).
  rewrite (Hp0 eq_refl), inserted_back in Hwf' by exact Hnd.
  exists (ps1 ++ [n]). split; [exact Hwf' |].
  split; [rewrite length_app; cbn; lia |].
  rewrite payloads_app, Hpay. cbn. unfold payloads. cbn. by rewrite Hdat.
Qed.

Lemma push_front_payloads env fuel d st (ps : list Z) :
  wf cfg st ps → allocator_ok cfg env st → (length ps < fuel)%nat →
  (ZEROLIST_USE_MALLOC cfg = true ∨ ZEROLIST_STATIC_FALLBACK_MALLOC cfg = true →
   Z.of_nat (length ps) < TYPE_MAX cfg) →
  ∃ st' b, zerolist_push_front cfg env fuel d st = Ok (st', b)
    ∧ (b = true → ∃ ps', wf cfg st' ps' ∧ length ps' = S (length ps)
                         ∧ payloads (mem st') ps' = d :: payloads (mem st) ps).
Proof.
  intros Hwf Henv Hfuel Hroom. unfold zerolist_push_front.
  pose proof Hwf as ([_ Hh] & _). rewrite Hh.
  assert (Hpos : hd 0 ps = 0 ∨ hd 0 ps ∈ ps).
  { destruct ps as [| h t]; [by left | right; cbn; set_solver]. }
  destruct (insert_internal_spec cfg cfg_ok env fuel (hd 0 ps) d true st ps Hwf Henv
              Hpos Hfuel Hroom) as (st' & b & Hrun & _ & Hpost).
  exists st', b. split; [exact Hrun |]. intros Hb.
  destruct (Hpost Hb) as (n & ps1 & pos' & Hwf' & Hlen & Hnd & H0 & Hn & Hpay & Hdat & Hp0 & Hpi & _).
  assert (Epos : pos' = hd 0 ps1).
  { destruct ps as [| h t].
    - destruct ps1; [| discriminate]. by apply Hp0.
    - specialize (Hpi 0%nat eq_refl). destruct ps1; [discriminate |].
      cbn in Hpi. by injection Hpi as <-. }
  rewrite Epos, inserted_front in Hwf'.
  exists (n :: ps1). split; [exact Hwf' |]. split; [cbn; lia |].
  rewrite payloads_cons_payload, Hpay. by rewrite (payload_Some _ _ _ Hdat).
Qed.



(** *** Removal at either end and by position *)

Lemma pop_front_payloads st (ps : list Z) :
  wf cfg st ps →
  ∃ st', zerolist_pop_front cfg st = Ok (st', hd 0 (payloads (mem st) ps))
         ∧ wf cfg st' (tl ps)
         ∧ payloads (mem st') (tl ps) = tl (payloads (mem st) ps).
Proof.
  intros Hwf. unfold zerolist_pop_front. pose proof Hwf as (Hholds & _).
  destruct ps as [| h t].
  - destruct Hholds as [_ Hh]. cbn [hd] in Hh. rewrite Hh. cbn [Z.eqb]. exists st. done.
  - destruct (holds_first _ _ _ Hholds) as [Hh Hh0].
    apply Z.eqb_neq in Hh0 as Hh0'. rewrite Hh, Hh0'.
    destruct (wf_mapped cfg st (h :: t) h Hwf ltac:(set_solver)) as [c Hc].
    rewrite (load_Some _ _ _ Hc). cbn [rbind].
    destruct (decr_detach_free_spec cfg cfg_ok st (h :: t) h Hwf ltac:(set_solver))
      as (s1 & s2 & Hrun1 & Hrun2 & Hwf2 & Hpay).
    rewrite Hrun1. cbn [rbind]. rewrite Hrun2. cbn [rbind].
    cbn [without] in Hwf2, Hpay. rewrite Z.eqb_refl in Hwf2, Hpay.
    exists s2. rewrite payloads_cons_payload, (payload_load _ _ _ Hc). cbn [hd tl]. done.
Qed.

Lemma pop_back_payloads st (ps : list Z) :
  wf cfg st ps →
  ∃ st', zerolist_pop_back cfg st = Ok (st', List.last (payloads (mem st) ps) 0)
         ∧ wf cfg st' (removelast ps)
         ∧ payloads (mem st') (removelast ps) = removelast (payloads (mem st) ps).
Proof.
  intros Hwf. unfold zerolist_pop_back. pose proof Hwf as (Hholds & _).
  destruct ps as [| h t].
  - destruct Hholds as [_ Hh]. cbn [hd] in Hh. rewrite Hh. cbn [Z.eqb]. exists st. done.
  - destruct (holds_first _ _ _ Hholds) as [Hh Hh0].
    apply Z.eqb_neq in Hh0 as Hh0'. rewrite Hh, Hh0'.
    pose proof (ring_prev_head _ _ _ (proj1 Hholds)) as Hlast.
    apply prv_Some in Hlast as (ch & Hch & Hlast).
    rewrite (load_Some _ _ _ Hch). cbn [rbind]. rewrite Hlast.
    destruct (snoc_view h t) as [init E].
    set (c := List.last t h) in *.
    assert (Hcin : c ∈ h :: t) by (rewrite E; set_solver).
    destruct (wf_mapped cfg st (h :: t) c Hwf Hcin) as [cc Hcc].
    rewrite (load_Some _ _ _ Hcc). cbn [rbind].
    destruct (decr_detach_free_spec cfg cfg_ok st (h :: t) c Hwf Hcin)
      as (s1 & s2 & Hrun1 & Hrun2 & Hwf2 & Hpay).
    rewrite Hrun1. cbn [rbind]. rewrite Hrun2. cbn [rbind].
    pose proof (ring_NoDup _ _ (proj1 Hholds)) as Hnd.
    rewrite E in Hnd, Hwf2, Hpay |- *.
    assert (Hnotin : c ∉ init).
    { apply NoDup_app in Hnd as (_ & Hdis & _). intros Hin. apply (Hdis _ Hin). set_solver. }
    rewrite without_split, app_nil_r in Hwf2, Hpay by exact Hnotin.
    rewrite removelast_last, payloads_app. cbn [payloads map].
    rewrite last_last, removelast_last.
    change (default 0 (dat (mem st) c)) with (payload (mem st) c).
    rewrite (payload_load _ _ _ Hcc). exists s2. done.
Qed.

Lemma pop_at_payloads st (ps : list Z) index :
  wf cfg st ps → 0 ≤ index < Z.of_nat (length ps) →
  ∃ st', zerolist_pop_at cfg index st
         = Ok (st', nth (Z.to_nat index) (payloads (mem st) ps) 0)
         ∧ wf cfg st' (take (Z.to_nat index) ps ++ drop (S (Z.to_nat index)) ps)
         ∧ payloads (mem st') (take (Z.to_nat index) ps ++ drop (S (Z.to_nat index)) ps)
           = take (Z.to_nat index) (payloads (mem st) ps)
             ++ drop (S (Z.to_nat index)) (payloads (mem st) ps).
Proof.
  intros Hwf Hidx. unfold zerolist_pop_at. pose proof Hwf as (Hholds & Hsize & _).
  assert (Hne : ps ≠ []) by (intros ->; cbn in Hidx; lia).
  destruct ps as [| h t]; [done |].
  destruct (holds_first _ _ _ Hholds) as [Hh Hh0].
  apply Z.eqb_neq in Hh0 as Hh0'. rewrite <- Hh in Hh0'. rewrite Hh0'.
  assert (Eguard : ZEROLIST_SIZE_ENABLE cfg && (size (lst st) <=? index) = false).
  { destruct (ZEROLIST_SIZE_ENABLE cfg) eqn:Hse; [| reflexivity].
    rewrite (Hsize eq_refl). cbn [andb]. apply Z.leb_gt. lia. }
  rewrite Eguard, (walk_index_ring st (h :: t) _ Hholds Hne). cbn [rbind].
  rewrite decide_True by lia.
  set (i := Z.to_nat index) in *. set (c := nth i (h :: t) 0).
  assert (Hi : (i < length (h :: t))%nat) by lia.
  pose proof (nth_in (h :: t) i Hi) as Hin. fold c in Hin.
  assert (Hlook : (h :: t) !! i = Some c)
    by (destruct (nth_lookup_or_length (h :: t) i 0) as [H | H]; [exact H | lia]).
  destruct (wf_mapped cfg st (h :: t) c Hwf Hin) as [cc Hcc].
  rewrite (load_Some _ _ _ Hcc). cbn [rbind].
  destruct (detach_decr_free_spec cfg cfg_ok st (h :: t) c Hwf Hin)
    as (s1 & s2 & Hrun1 & Hrun2 & Hwf2 & Hpay).
  rewrite Hrun1. cbn [rbind]. rewrite Hrun2. cbn [rbind].
  pose proof (ring_NoDup _ _ (proj1 Hholds)) as Hnd.
  rewrite (without_at _ i c Hnd Hlook) in Hwf2, Hpay.
  exists s2. rewrite payloads_nth_payload by exact Hi. fold c.
  rewrite (payload_load _ _ _ Hcc). split; [reflexivity |]. split; [exact Hwf2 |].
  rewrite Hpay. by rewrite payloads_app, payloads_take, payloads_drop.
Qed.

Lemma remove_at_payloads st (ps : list Z) index :
  wf cfg st ps → 0 ≤ index < Z.of_nat (length ps) →
  ∃ st', zerolist_remove_at cfg index st = Ok (st', true)
         ∧ wf cfg st' (take (Z.to_nat index) ps ++ drop (S (Z.to_nat index)) ps)
         ∧ payloads (mem st') (take (Z.to_nat index) ps ++ drop (S (Z.to_nat index)) ps)
           = take (Z.to_nat index) (payloads (mem st) ps)
             ++ drop (S (Z.to_nat index)) (payloads (mem st) ps).
Proof.
  intros Hwf Hidx. unfold zerolist_remove_at. pose proof Hwf as (Hholds & Hsize & _).
  assert (Hne : ps ≠ []) by (intros ->; cbn in Hidx; lia).
  destruct ps as [| h t]; [done |].
  destruct (holds_first _ _ _ Hholds) as [Hh Hh0].
  apply Z.eqb_neq in Hh0 as Hh0'. rewrite <- Hh in Hh0'. rewrite Hh0'.
  assert (Eguard : ZEROLIST_SIZE_ENABLE cfg && (size (lst st) <=? index) = false).
  { destruct (ZEROLIST_SIZE_ENABLE cfg) eqn:Hse; [| reflexivity].
    rewrite (Hsize eq_refl). cbn [andb]. apply Z.leb_gt. lia. }
  rewrite Eguard, (walk_index_ring st (h :: t) _ Hholds Hne). cbn [rbind].
  rewrite decide_True by lia.
  set (i := Z.to_nat index) in *. set (c := nth i (h :: t) 0).
  assert (Hi : (i < length (h :: t))%nat) by lia.
  pose proof (nth_in (h :: t) i Hi) as Hin. fold c in Hin.
  assert (Hlook : (h :: t) !! i = Some c)
    by (destruct (nth_lookup_or_length (h :: t) i 0) as [H | H]; [exact H | lia]).
  destruct (remove_node_spec cfg cfg_ok st (h :: t) c Hwf Hin) as (st' & Hrun & Hwf' & Hpay).
  fold (remove_node cfg c st). rewrite Hrun.
  pose proof (ring_NoDup _ _ (proj1 Hholds)) as Hnd.
  rewrite (without_at _ i c Hnd Hlook) in Hwf', Hpay.
  exists st'. split; [reflexivity |]. split; [exact Hwf' |].
  rewrite Hpay. by rewrite payloads_app, payloads_take, payloads_drop.
Qed.

(** *** Removal by payload *)

Lemma remove_slots_loop_match matches st (ps : list Z) : ∀ n i,
  arena_inv cfg st ps → 0 ≤ i → i + Z.of_nat n ≤ max_nodes (lst st) →
  (remove_slots_loop cfg matches n i st = Ok (st, false)
   ∧ ∀ j, i ≤ j < i + Z.of_nat n → slot cfg (node_buf (lst st)) j ∈ ps →
          matches (payload (mem st) (slot cfg (node_buf (lst st)) j)) = false)
  ∨ ∃ c, c ∈ ps ∧ matches (payload (mem st) c) = true
         ∧ remove_slots_loop cfg matches n i st = remove_node cfg c st.
Proof.
  intros n i (Hbuf & Hmax & Hslots & _). revert i.
  induction n as [| n IH]; intros i Hi Hn.
  { left. split; [reflexivity |]. intros; lia. }
  cbn [remove_slots_loop]. unfold _ZEROLIST_NODE_IS_IN_USE.
  pose proof (slot_ge cfg cfg_ok (node_buf (lst st)) i Hi) as Hge.
  destruct (slot cfg (node_buf (lst st)) i =? 0) eqn:E0; [apply Z.eqb_eq in E0; lia |].
  destruct (Hslots i ltac:(lia)) as (c & Hc & Hiff).
  rewrite (load_Some _ _ _ Hc). cbn [rbind].
  assert (Hskip : (in_use c = true → matches (data c) = false) →
            (remove_slots_loop cfg matches n (i + 1) st = Ok (st, false)
             ∧ ∀ j, i ≤ j < i + Z.of_nat (S n) → slot cfg (node_buf (lst st)) j ∈ ps →
                    matches (payload (mem st) (slot cfg (node_buf (lst st)) j)) = false)
            ∨ ∃ c, c ∈ ps ∧ matches (payload (mem st) c) = true
                   ∧ remove_slots_loop cfg matches n (i + 1) st = remove_node cfg c st).
  { intros Hhere. destruct (IH (i + 1) ltac:(lia) ltac:(lia)) as [[Hrun Hno] | Hyes];
      [left | by right].
    split; [exact Hrun |]. intros j Hj Hin.
    destruct (decide (j = i)) as [-> | Hne].
    - rewrite (payload_load _ _ _ Hc). apply Hhere. by apply Hiff.
    - apply Hno; [lia | exact Hin]. }
  destruct (in_use c) eqn:Hu; cbn [rbind].
  - destruct (matches (data c)) eqn:Hm.
    + right. eexists. split; [by apply Hiff |].
      split; [by rewrite (payload_load _ _ _ Hc) | reflexivity].
    + by apply Hskip.
  - apply Hskip. discriminate.
Qed.

Lemma remove_ring_loop_first matches st start : ∀ rest cur fuel,
  fwd (mem st) (cur :: rest ++ [start]) →
  0 ∉ rest → start ∉ rest → start ≠ 0 → (length rest < fuel)%nat →
  remove_ring_loop cfg matches fuel start cur st
  = match List.find (λ p, matches (payload (mem st) p)) (cur :: rest) with
    | Some c => remove_node cfg c st
    | None => Ok (st, false)
    end.
Proof.
  induction rest as [| r rest IH]; intros cur fuel Hf H0 Hstart Hs0 Hfuel;
    (destruct fuel as [| fuel]; [cbn in Hfuel; lia |]).
  - cbn in Hf. destruct Hf as [Hf _]. apply nxt_Some in Hf as (c & Hc & Hn).
    cbn [remove_ring_loop List.find]. rewrite (load_Some _ _ _ Hc). cbn [rbind].
    rewrite (payload_load _ _ _ Hc).
    destruct (matches (data c)); [reflexivity |].
    rewrite Hn. apply Z.eqb_neq in Hs0. by rewrite Hs0, Z.eqb_refl.
  - cbn [app] in Hf. rewrite fwd_cons in Hf. destruct Hf as [Hf Hrest].
    apply nxt_Some in Hf as (c & Hc & Hn).
    cbn [remove_ring_loop]. rewrite (load_Some _ _ _ Hc). cbn [rbind].
    change (List.find (λ p, matches (payload (mem st) p)) (cur :: r :: rest))
      with (if matches (payload (mem st) cur) then Some cur
            else List.find (λ p, matches (payload (mem st) p)) (r :: rest)).
    rewrite (payload_load _ _ _ Hc).
    destruct (matches (data c)); [reflexivity |].
    rewrite Hn.
    destruct (r =? 0) eqn:E0; [apply Z.eqb_eq in E0; set_solver |].
    destruct (r =? start) eqn:E1; [apply Z.eqb_eq in E1; set_solver |].
    apply IH; try assumption; [set_solver | set_solver | cbn in Hfuel; lia].
Qed.

Lemma remove_matching_payloads matches fuel st (ps : list Z) :
  wf cfg st ps → (length ps < fuel)%nat →
  (remove_matching cfg matches fuel st = Ok (st, false)
   ∧ ∀ p, p ∈ ps → matches (payload (mem st) p) = false)
  ∨ ∃ st' l1 c l2,
      remove_matching cfg matches fuel st = Ok (st', true)
      ∧ ps = l1 ++ c :: l2 ∧ matches (payload (mem st) c) = true
      ∧ (scan_slots cfg = false → ∀ x, x ∈ l1 → matches (payload (mem st) x) = false)
      ∧ wf cfg st' (l1 ++ l2)
      ∧ payloads (mem st') (l1 ++ l2) = payloads (mem st) (l1 ++ l2).
Proof.
  intros Hwf Hfuel. pose proof Hwf as (Hholds & Hsize & Hmax & Hinv).
  pose proof (ring_NoDup _ _ (proj1 Hholds)) as Hnd.
  assert (Hremove : ∀ l1 c l2, ps = l1 ++ c :: l2 →
            ∃ st', remove_node cfg c st = Ok (st', true) ∧ wf cfg st' (l1 ++ l2)
                   ∧ payloads (mem st') (l1 ++ l2) = payloads (mem st) (l1 ++ l2)).
  { intros l1 c l2 E.
    destruct (remove_node_spec cfg cfg_ok st ps c Hwf ltac:(rewrite E; set_solver))
      as (st' & Hrun & Hwf' & Hpay).
    rewrite E in Hnd, Hwf', Hpay. pose proof (NoDup_split_notin _ _ _ Hnd) as [Hc1 _].
    rewrite without_split in Hwf', Hpay by exact Hc1. eauto. }
  unfold remove_matching. destruct (scan_slots cfg) eqn:Escan.
  - unfold scan_slots in Escan. apply andb_true_iff in Escan as [Hm Hfb].
    apply negb_true_iff in Hm, Hfb. pose proof (proj2 Hinv Hm) as Ha.
    pose proof Ha as (_ & Hmx & _ & Hwhere & _).
    destruct (remove_slots_loop_match matches st ps (Z.to_nat (max_nodes (lst st))) 0 Ha)
      as [[Hrun Hno] | (c & Hc & Hyes & Hrun)]; [lia | lia | left | right].
    + split; [exact Hrun |]. intros p Hp.
      destruct (Hwhere p Hp) as [(j & Hj & ->) | [? _]]; [| congruence].
      apply Hno; [lia | exact Hp].
    + apply list_elem_of_split in Hc as (l1 & l2 & E).
      destruct (Hremove l1 c l2 E) as (st' & Hrun' & Hwf' & Hpay).
      exists st', l1, c, l2. rewrite Hrun. split; [exact Hrun' |]. split; [exact E |].
      split; [exact Hyes |]. split; [discriminate |]. by split.
  - destruct ps as [| h t].
    { destruct Hholds as [_ Hh]. cbn [hd] in Hh. rewrite Hh. left. split; [done | set_solver]. }
    destruct (holds_first _ _ _ Hholds) as [Hh Hh0].
    apply Z.eqb_neq in Hh0 as Hh0'. rewrite Hh, Hh0'.
    pose proof (proj1 Hholds) as Hr.
    apply ring_cons_unfold in Hr as (_ & H0 & Hf & _); cbn [hd app] in Hf.
    pose proof Hnd as Hnd'. apply NoDup_cons in Hnd' as [Hnotin _].
    rewrite (remove_ring_loop_first matches st h t h fuel Hf)
      by (try assumption; try (cbn in Hfuel; lia); set_solver).
    destruct (List.find _ (h :: t)) as [c |] eqn:Efind.
    + right. apply find_split in Efind as (l1 & l2 & E & Hyes & Hno).
      destruct (Hremove l1 c l2 E) as (st' & Hrun' & Hwf' & Hpay).
      exists st', l1, c, l2. split; [exact Hrun' |]. split; [exact E |].
      split; [exact Hyes |]. split; [intros _; exact Hno |]. by split.
    + left. split; [reflexivity |]. intros p Hp.
      apply (find_none _ _ Efind). by apply list_elem_of_In.
Qed.

End Ends.


(** ** The payload sequence under the operations of the API *)

Lemma length_removelast_Z (l : list Z) : length (removelast l) = pred (length l).
Proof. rewrite removelast_firstn_len, length_take. lia. Qed.

Lemma traversal_of cfg st (ps : list Z) fuel :
  wf cfg st ps → (length ps < fuel)%nat →
  ZEROLIST_FOR_EACH fuel st = Ok (payloads (mem st) ps).
Proof. intros (Hholds & _) Hfuel. by apply ZEROLIST_FOR_EACH_ring. Qed.




(** X9.  [zerolist_pop_front] gives the first payload of the traversal
    (NULL on the empty list) and leaves a well-formed list whose traversal is
    the rest of the sequence; [zerolist_pop_back] gives the last payload and
    leaves the sequence without it. *)
Theorem zerolist_pop_ends cfg fuel st (ps : list Z) :
  config_ok cfg = true → wf cfg st ps → (length ps < fuel)%nat →
  (∃ st', zerolist_pop_front cfg st = Ok (st', hd 0 (payloads (mem st) ps))
          ∧ ZEROLIST_FOR_EACH fuel st' = Ok (tl (payloads (mem st) ps))
          ∧ wf cfg st' (tl ps))
  ∧ (∃ st', zerolist_pop_back cfg st = Ok (st', List.last (payloads (mem st) ps) 0)
            ∧ ZEROLIST_FOR_EACH fuel st' = Ok (removelast (payloads (mem st) ps))
            ∧ wf cfg st' (removelast ps)).
Proof.
  intros Hok Hwf Hfuel. split.
  - destruct (pop_front_payloads cfg Hok st ps Hwf) as (st' & Hrun & Hwf' & Hpay).
    exists st'. split; [exact Hrun |]. split; [| exact Hwf'].
    rewrite <- Hpay. apply (traversal_of cfg); [exact Hwf' |].
    destruct ps; cbn [tl length] in *; lia.
  - destruct (pop_back_payloads cfg Hok st ps Hwf) as (st' & Hrun & Hwf' & Hpay).
    exists st'. split; [exact Hrun |]. split; [| exact Hwf'].
    rewrite <- Hpay. apply (traversal_of cfg); [exact Hwf' |].
    rewrite length_removelast_Z. lia.
Qed.

(** X10.  For a position below the number of nodes, [zerolist_pop_at]
    gives the payload at that position of the traversal and
    [zerolist_remove_at] answers true; each leaves a well-formed list whose
    traversal is the old sequence without that one element. *)
Theorem zerolist_pop_at_in_range cfg fuel st (ps : list Z) index :
  config_ok cfg = true → wf cfg st ps → (length ps < fuel)%nat →
  0 ≤ index < Z.of_nat (length ps) →
  (∃ st', zerolist_pop_at cfg index st
          = Ok (st', nth (Z.to_nat index) (payloads (mem st) ps) 0)
          ∧ ZEROLIST_FOR_EACH fuel st'
            = Ok (take (Z.to_nat index) (payloads (mem st) ps)
                  ++ drop (S (Z.to_nat index)) (payloads (mem st) ps))
          ∧ ∃ ps', wf cfg st' ps' ∧ S (length ps') = length ps)
  ∧ (∃ st', zerolist_remove_at cfg index st = Ok (st', true)
            ∧ ZEROLIST_FOR_EACH fuel st'
              = Ok (take (Z.to_nat index) (payloads (mem st) ps)
                    ++ drop (S (Z.to_nat index)) (payloads (mem st) ps))
            ∧ ∃ ps', wf cfg st' ps' ∧ S (length ps') = length ps).
Proof.
  intros Hok Hwf Hfuel Hidx.
  assert (Hlen : S (length (take (Z.to_nat index) ps ++ drop (S (Z.to_nat index)) ps))
                 = length ps).
  { rewrite length_app, length_take, length_drop. lia. }
  split.
  - destruct (pop_at_payloads cfg Hok st ps index Hwf Hidx) as (st' & Hrun & Hwf' & Hpay).
    exists st'. split; [exact Hrun |]. split; [| eauto].
    rewrite <- Hpay. apply (traversal_of cfg); [exact Hwf' | lia].
  - destruct (remove_at_payloads cfg Hok st ps index Hwf Hidx) as (st' & Hrun & Hwf' & Hpay).
    exists st'. split; [exact Hrun |]. split; [| eauto].
    rewrite <- Hpay. apply (traversal_of cfg); [exact Hwf' | lia].
Qed.

(** X11.  [zerolist_remove_at] with a position that is not below the
    number of nodes answers false and changes nothing, with or without
    cached size. *)
Theorem zerolist_remove_at_rejects cfg st (ps : list Z) index :
  wf cfg st ps → Z.of_nat (length ps) ≤ index →
  zerolist_remove_at cfg index st = Ok (st, false).
Proof.
  intros (Hholds & Hsize & _) Hidx. unfold zerolist_remove_at.
  destruct (head (lst st) =? 0) eqn:Eh; [reflexivity |].
  assert (Hne : ps ≠ []).
  { intros ->. destruct Hholds as [_ Hh]. cbn in Hh. apply Z.eqb_neq in Eh. lia. }
  destruct (ZEROLIST_SIZE_ENABLE cfg) eqn:Hse.
  - rewrite (Hsize eq_refl). cbn [andb].
    destruct (Z.of_nat (length ps) <=? index) eqn:E; [reflexivity | apply Z.leb_gt in E; lia].
  - cbn [andb]. rewrite (walk_index_ring st ps _ Hholds Hne). cbn [rbind].
    rewrite decide_False by lia. reflexivity.
Qed.

(** X12.  [zerolist_remove_ptr] answers true exactly when some node
    carries [data] (for a payload that is not NULL); it then removes one
    occurrence of [data] from the traversal, the first one in the builds
    that walk the ring, and leaves the rest in order; otherwise it changes
    nothing. *)
Theorem zerolist_remove_ptr_spec cfg fuel data st (ps : list Z) :
  config_ok cfg = true → wf cfg st ps → (length ps < fuel)%nat → data ≠ 0 →
  (data ∉ payloads (mem st) ps ∧ zerolist_remove_ptr cfg fuel data st = Ok (st, false))
  ∨ ∃ st' pre post,
      zerolist_remove_ptr cfg fuel data st = Ok (st', true)
      ∧ payloads (mem st) ps = pre ++ data :: post
      ∧ (scan_slots cfg = false → data ∉ pre)
      ∧ ZEROLIST_FOR_EACH fuel st' = Ok (pre ++ post)
      ∧ ∃ ps', wf cfg st' ps' ∧ S (length ps') = length ps.
Proof.
  intros Hok Hwf Hfuel Hdata. unfold zerolist_remove_ptr.
  apply Z.eqb_neq in Hdata. rewrite Hdata.
  destruct (remove_matching_payloads cfg Hok (λ d, d =? data) fuel st ps Hwf Hfuel)
    as [[Hrun Hno] | (st' & l1 & c & l2 & Hrun & E & Hyes & Hfirst & Hwf' & Hpay)].
  - left. split; [by apply notin_payloads | exact Hrun].
  - right. apply Z.eqb_eq in Hyes.
    exists st', (payloads (mem st) l1), (payloads (mem st) l2).
    split; [exact Hrun |]. split.
    { rewrite E, payloads_app, payloads_cons_payload. by rewrite Hyes. }
    split; [intros Hs; apply notin_payloads; by apply Hfirst |].
    split.
    + rewrite <- payloads_app, <- Hpay. apply (traversal_of cfg); [exact Hwf' |].
      rewrite E in Hfuel. rewrite length_app in Hfuel |- *. cbn [length] in Hfuel. lia.
    + exists (l1 ++ l2). split; [exact Hwf' |]. rewrite E, !length_app. cbn [length]. lia.
Qed.

(** X13.  [zerolist_remove_if] with a NULL comparator answers false and
    changes nothing.  Otherwise it answers true exactly when the comparator
    accepts the payload of some node; it then removes one accepted payload
    from the traversal (the first one in the builds that walk the ring) and
    leaves the rest in order. *)
Theorem zerolist_remove_if_spec cfg fuel data cmp_func st (ps : list Z) :
  config_ok cfg = true → wf cfg st ps → (length ps < fuel)%nat →
  match cmp_func with
  | None => zerolist_remove_if cfg fuel data None st = Ok (st, false)
  | Some cmp =>
      ((∀ d, d ∈ payloads (mem st) ps → cmp d data = false)
       ∧ zerolist_remove_if cfg fuel data (Some cmp) st = Ok (st, false))
      ∨ ∃ st' pre d post,
          zerolist_remove_if cfg fuel data (Some cmp) st = Ok (st', true)
          ∧ payloads (mem st) ps = pre ++ d :: post ∧ cmp d data = true
          ∧ (scan_slots cfg = false → ∀ x, x ∈ pre → cmp x data = false)
          ∧ ZEROLIST_FOR_EACH fuel st' = Ok (pre ++ post)
          ∧ ∃ ps', wf cfg st' ps' ∧ S (length ps') = length ps
  end.
Proof.
  intros Hok Hwf Hfuel. destruct cmp_func as [cmp |]; [| reflexivity].
  unfold zerolist_remove_if.
  destruct (remove_matching_payloads cfg Hok (λ d, cmp d data) fuel st ps Hwf Hfuel)
    as [[Hrun Hno] | (st' & l1 & c & l2 & Hrun & E & Hyes & Hfirst & Hwf' & Hpay)].
  - left. split; [| exact Hrun]. intros d Hd.
    apply elem_of_payloads in Hd as (p & Hp & <-). by apply Hno.
  - right. exists st', (payloads (mem st) l1), (payload (mem st) c), (payloads (mem st) l2).
    split; [exact Hrun |]. split.
    { by rewrite E, payloads_app, payloads_cons_payload. }
    split; [exact Hyes |]. split.
    { intros Hs x Hx. apply elem_of_payloads in Hx as (p & Hp & <-). by apply Hfirst. }
    split.
    + rewrite <- payloads_app, <- Hpay. apply (traversal_of cfg); [exact Hwf' |].
      rewrite E in Hfuel. rewrite length_app in Hfuel |- *. cbn [length] in Hfuel. lia.
    + exists (l1 ++ l2). split; [exact Hwf' |]. rewrite E, !length_app. cbn [length]. lia.
Qed.



(** ** Capacity: full arenas, growth on demand, failed growth *)

Lemma holds_with_node_buf st (ps : list Z) v :
  holds (on_lst (with_node_buf v) st) ps ↔ holds st ps.
Proof. reflexivity. Qed.

Section Capacity.
Variable cfg : config.
Hypothesis cfg_ok : config_ok cfg = true.

(** Moving the buffer keeps the payloads of the ring. *)
Lemma relocate_keeps fuel st (ps : list Z) old old_n b new_n g :
  holds st ps → 0 < b →
  (∀ p, p ∈ ps →
     ∃ i, (0 ≤ i ≤ TYPE_MAX cfg ∧ i < old_n ∧ i < new_n) ∧ p = slot cfg old i) →
  (length ps < fuel)%nat →
  ∃ st2,
    _zerolist_update_node_pointers cfg fuel old b old_n new_n
      (on_mem (mem_realloc_buf cfg g old old_n b new_n) st) = Ok st2
    ∧ holds st2 (rebase old b <$> ps)
    ∧ payloads (mem st2) (rebase old b <$> ps) = payloads (mem st) ps
    ∧ (∀ p, p ∈ rebase old b <$> ps →
         ∃ i, (0 ≤ i ≤ TYPE_MAX cfg ∧ i < old_n ∧ i < new_n) ∧ p = slot cfg b i).
Proof.
  intros Hholds Hb Hslots Hfuel.
  destruct (relocate_spec cfg cfg_ok fuel st ps old old_n b new_n g Hholds Hb Hslots Hfuel)
    as (st2 & Hrun & Hholds2 & _ & Hlinks).
  exists st2. split; [exact Hrun |]. split; [exact Hholds2 |]. split.
  - unfold payloads. rewrite map_map. apply map_ext_in. intros p Hp.
    apply list_elem_of_In in Hp. destruct (Hslots p Hp) as (i & Hi & ->).
    rewrite rebase_slot, (links_only_dat _ _ _ Hlinks). unfold dat.
    rewrite mem_realloc_new by (try assumption; lia).
    destruct (i <? old_n) eqn:E; [| apply Z.ltb_ge in E; lia].
    destruct (ring_mapped _ _ _ (proj1 Hholds) Hp) as [c ->]. reflexivity.
  - intros p Hp. apply list_elem_of_fmap in Hp as (q & -> & Hq).
    destruct (Hslots q Hq) as (i & Hi & ->). exists i. by rewrite rebase_slot.
Qed.

(** [_zerolist_expand_buffer] returns, and whatever it answers the ring
    carries the same payloads afterwards; a refusal leaves the capacity as
    it was. *)
Lemma expand_buffer_keeps env fuel st (ps : list Z) new_n :
  ZEROLIST_STATIC_DYNAMIC_EXPAND cfg = true →
  holds st ps → store_inv cfg st ps →
  max_nodes (lst st) < new_n ≤ TYPE_MAX cfg →
  (length ps < fuel)%nat →
  0 ≤ env_realloc env → 0 ≤ env_rollback env →
  ∃ st' ok, _zerolist_expand_buffer cfg env fuel new_n st = Ok (st', ok)
    ∧ (∃ ps', holds st' ps' ∧ length ps' = length ps
              ∧ payloads (mem st') ps' = payloads (mem st) ps)
    ∧ (ok = false → max_nodes (lst st') = max_nodes (lst st)
                    ∧ size (lst st') = size (lst st)).
Proof.
  intros He Hholds Hstore Hn Hfuel Hb Hrb.
  destruct (decide (env_realloc env = 0)) as [Hb0 | Hb0].
  { exists st, false. split; [| split; [exists ps; done | done]].
    unfold _zerolist_expand_buffer. rewrite Hb0.
    destruct (new_n <=? max_nodes (lst st)); reflexivity. }
  destruct (ZEROLIST_FAST_ALLOC cfg && negb (env_realloc_stack env)) eqn:E3.
  - set (old := node_buf (lst st)). set (old_n := max_nodes (lst st)).
    set (b := env_realloc env) in *. set (g := garbage env).
    assert (Hslots : ∀ p, p ∈ ps →
              ∃ i, (0 ≤ i ≤ TYPE_MAX cfg ∧ i < old_n ∧ i < new_n) ∧ p = slot cfg old i).
    { intros p Hp. destruct (live_slots cfg cfg_ok st ps p He Hstore Hp) as (i & Hi & ->).
      exists i. split; [fold old_n in Hi; lia | reflexivity]. }
    destruct (relocate_spec cfg cfg_ok fuel st ps old old_n b new_n g Hholds ltac:(lia)
                Hslots Hfuel) as (st2 & Hrun2 & _ & Hlst2 & _).
    destruct (relocate_keeps fuel st ps old old_n b new_n g Hholds ltac:(lia) Hslots Hfuel)
      as (st2' & Hrun2' & Hholds2 & Hpay2 & Hslots2).
    rewrite Hrun2 in Hrun2'. injection Hrun2' as <-.
    assert (Hfields2 : max_nodes (lst st2) = old_n ∧ size (lst st2) = size (lst st)).
    { rewrite Hlst2. done. }
    assert (Hrun : ∃ st6 ok6,
              _zerolist_rollback_realloc cfg env fuel b old old_n new_n st2 = Ok (st6, ok6)
              ∧ (∃ ps', holds st6 ps' ∧ length ps' = length ps
                        ∧ payloads (mem st6) ps' = payloads (mem st) ps)
              ∧ max_nodes (lst st6) = old_n ∧ size (lst st6) = size (lst st)).
    { unfold _zerolist_rollback_realloc.
      destruct (env_rollback env =? 0) eqn:E4.
      { exists st2, false. split; [reflexivity |]. split; [| exact Hfields2].
        exists (rebase old b <$> ps). by rewrite length_fmap. }
      apply Z.eqb_neq in E4.
      destruct (relocate_spec cfg cfg_ok fuel st2 (rebase old b <$> ps) b new_n
                  (env_rollback env) old_n g Hholds2 ltac:(lia))
        as (st5 & Hrun5 & _ & Hlst5 & _).
      { intros p Hp. destruct (Hslots2 p Hp) as (i & Hi & ->). exists i. split; [lia | done]. }
      { by rewrite length_fmap. }
      destruct (relocate_keeps fuel st2 (rebase old b <$> ps) b new_n (env_rollback env)
                  old_n g Hholds2 ltac:(lia))
        as (st5' & Hrun5' & Hholds5 & Hpay5 & _).
      { intros p Hp. destruct (Hslots2 p Hp) as (i & Hi & ->). exists i. split; [lia | done]. }
      { by rewrite length_fmap. }
      rewrite Hrun5 in Hrun5'. injection Hrun5' as <-.
      assert (Hfields5 : max_nodes (lst st5) = old_n ∧ size (lst st5) = size (lst st)).
      { rewrite Hlst5. cbn. exact Hfields2. }
      fold g.
      destruct (negb (env_rollback env =? b)
                && negb (head (lst (on_mem (mem_realloc_buf cfg g b new_n (env_rollback env)
                                               old_n) st2)) =? 0)) eqn:E5.
      - rewrite Hrun5. cbn [rbind]. eexists _, true. split; [reflexivity |].
        split; [| exact Hfields5].
        exists (rebase b (env_rollback env) <$> (rebase old b <$> ps)).
        split; [exact Hholds5 |]. split; [by rewrite !length_fmap |].
        exact (eq_trans Hpay5 Hpay2).
      - cbn [rbind]. eexists _, true. split; [reflexivity |].
        split; [| exact Hfields2].
        apply andb_false_iff in E5 as [E5 | E5].
        + apply negb_false_iff, Z.eqb_eq in E5.
          rewrite E5 in Hrun5, Hholds5, Hpay5.
          unfold _zerolist_update_node_pointers in Hrun5. rewrite Z.eqb_refl in Hrun5.
          cbn [orb] in Hrun5. injection Hrun5 as <-.
          exists (rebase b b <$> (rebase old b <$> ps)).
          split; [rewrite E5; exact Hholds5 |]. split; [by rewrite !length_fmap |].
          rewrite E5. exact (eq_trans Hpay5 Hpay2).
        + apply negb_false_iff, Z.eqb_eq in E5. cbn [lst on_mem] in E5.
          destruct ps as [| h t].
          * exists []. split; [split; [apply ring_nil | exact E5] | done].
          * exfalso. destruct (holds_first _ _ _ Hholds2) as [Hh Hh0]. congruence. }
    destruct Hrun as (st6 & ok6 & Hrun6 & Hkeep6 & Hmax6 & Hsize6).
    exists (if ok6 then st6 else on_lst (with_node_buf old) st6), false.
    split; [| split].
    + unfold _zerolist_expand_buffer. fold old old_n b g.
      destruct (new_n <=? old_n) eqn:E1; [apply Z.leb_le in E1; lia |].
      destruct (b =? 0) eqn:E2; [apply Z.eqb_eq in E2; lia |].
      rewrite Hrun2. cbn [rbind]. rewrite E3, Hrun6. reflexivity.
    + destruct ok6; exact Hkeep6.
    + intros _. destruct ok6; done.
  - destruct (expand_buffer_spec cfg cfg_ok env fuel st ps new_n He Hholds Hstore Hn Hfuel
                ltac:(lia))
      as (st' & Hrun & H1 & H2 & H3 & H4 & H5 & H6 & _).
    { intros Hf. rewrite Hf in E3. cbn in E3. by apply negb_false_iff in E3. }
    exists st', true. split; [exact Hrun |]. split; [| discriminate].
    eexists. split; [exact H1 |]. split; [by rewrite length_fmap | exact H6].
Qed.

(** A full arena has no slot to give. *)
Lemma full_no_slot st (ps : list Z) :
  holds st ps → store_inv cfg st ps →
  ZEROLIST_USE_MALLOC cfg = false → ZEROLIST_STATIC_FALLBACK_MALLOC cfg = false →
  Z.of_nat (length ps) = max_nodes (lst st) →
  _ZEROLIST_TRY_ALLOC_STATIC cfg st = Ok (st, None).
Proof.
  intros Hholds Hstore Hm Hfb Hfull.
  destruct (try_alloc_static_spec cfg cfg_ok st ps Hholds Hstore Hm)
    as [(idx & st1 & Hrun & Hidx & (Hmem & Hb1 & Hn1) & Hpost) | (Hrun & _)]; [| exact Hrun].
  exfalso.
  destruct (Hpost {| data := 0; prev := 0; next := 0; in_use := true; index := 0 |} eq_refl)
    as (_ & Hholds1 & _ & Hnotin & _ & Hstore1 & _).
  assert (Hnd : NoDup (slot cfg (node_buf (lst st)) idx :: ps)).
  { apply NoDup_cons. split; [exact Hnotin | apply (ring_NoDup _ _ (proj1 Hholds1))]. }
  destruct (proj2 Hstore1 Hm) as (_ & Hmax1 & _ & Hwhere & _). cbn [lst] in Hmax1, Hwhere.
  pose proof (slots_bounded cfg cfg_ok (lst st1) _ Hnd) as Hb.
  cbn [length] in Hb. rewrite Hn1 in Hb.
  assert (Hall : ∀ p, p ∈ slot cfg (node_buf (lst st)) idx :: ps → arena_slot cfg (lst st1) p).
  { intros p Hp. destruct (Hwhere p Hp) as [? | [? _]]; [assumption | congruence]. }
  specialize (Hb Hall). lia.
Qed.

(** When [_zerolist_alloc_node] gives NULL the ring carries the same
    payloads (it may have been moved by a growth that was rolled back). *)
Lemma alloc_node_null env fuel st (ps : list Z) st' :
  holds st ps → store_inv cfg st ps → allocator_ok cfg env st → (length ps < fuel)%nat →
  _zerolist_alloc_node cfg env fuel st = Ok (st', 0) →
  ∃ ps', holds st' ps' ∧ length ps' = length ps
         ∧ payloads (mem st') ps' = payloads (mem st) ps
         ∧ size (lst st') = size (lst st).
Proof.
  intros Hholds Hstore (Hmalloc & Hrealloc & Hrb) Hfuel. unfold _zerolist_alloc_node.
  assert (Hsame : ∀ s, Ok (st, 0) = Ok (s, 0) →
            ∃ ps', holds s ps' ∧ length ps' = length ps
                   ∧ payloads (mem s) ps' = payloads (mem st) ps
                   ∧ size (lst s) = size (lst st)).
  { intros s E. injection E as <-. exists ps. done. }
  destruct (ZEROLIST_USE_MALLOC cfg) eqn:Hm.
  { unfold malloc_node. destruct (env_malloc env =? 0) eqn:E.
    - rewrite Z.eqb_refl. apply Hsame.
    - rewrite E. apply Z.eqb_neq in E. rewrite heap_node_init. intros H. injection H. done. }
  destruct (proj2 Hstore Hm) as (Hbuf & Hmax & _).
  destruct (node_buf (lst st) =? 0) eqn:E1; [apply Z.eqb_eq in E1; lia |].
  destruct (max_nodes (lst st) =? 0) eqn:E2; [apply Z.eqb_eq in E2; lia |].
  cbn [orb].
  destruct (try_init_spec cfg cfg_ok st ps Hholds Hstore Hm)
    as [(idx & st1 & st2 & Hrun & Hinit & _ & _ & Hpost) | Hrun]; rewrite Hrun; cbn [rbind].
  { rewrite Hinit. cbn [rbind]. intros H. injection H as _ H. exfalso.
    destruct (try_alloc_static_spec cfg cfg_ok st ps Hholds Hstore Hm)
      as [(idx' & st1' & Hrun' & Hidx' & _) | (Hrun' & _)]; rewrite Hrun in Hrun'.
    - injection Hrun' as _ _ <-.
      pose proof (slot_ge cfg cfg_ok (node_buf (lst st)) idx ltac:(lia)). lia.
    - discriminate. }
  destruct (ZEROLIST_STATIC_DYNAMIC_EXPAND cfg) eqn:He.
  - destruct (grow_request cfg (max_nodes (lst st))) as [new_n |] eqn:Eg; [| apply Hsame].
    specialize (Hrealloc new_n eq_refl).
    assert (Hn : max_nodes (lst st) < new_n ≤ TYPE_MAX cfg).
    { rewrite (grow_request_spec cfg _ cfg_ok Hmax) in Eg.
      destruct (max_nodes (lst st) =? TYPE_MAX cfg) eqn:E; [discriminate |].
      apply Z.eqb_neq in E. injection Eg as <-. lia. }
    assert (Hb : 0 ≤ env_realloc env) by (destruct Hrealloc as [-> | [-> | [? _]]]; lia).
    destruct (expand_buffer_runs cfg cfg_ok env fuel st ps new_n He Hholds Hstore Hn Hfuel Hb Hrb)
      as (st1 & ok & Hrun1 & Hok).
    destruct (expand_buffer_keeps env fuel st ps new_n He Hholds Hstore Hn Hfuel Hb Hrb)
      as (st1' & ok' & Hrun1' & Hkeep & Hfalse).
    rewrite Hrun1 in Hrun1'. injection Hrun1' as <- <-.
    rewrite Hrun1. cbn [rbind]. unfold alloc_after_expand.
    destruct ok; cbn [negb].
    + destruct (Hok eq_refl) as (Hbpos & Hholds1 & Hstore1 & Hbuf1 & Hmax1 & Hsize1 & Hpay1).
      destruct (try_init_spec cfg cfg_ok st1 _ Hholds1 Hstore1 Hm)
        as [(idx & st2 & st3 & Hrun2 & Hinit & Hb3 & Hn3 & Hpost) | Hrun2];
        rewrite Hrun2; cbn [rbind].
      * rewrite Hinit. cbn [rbind]. intros H. injection H as _ H. exfalso.
        destruct (try_alloc_static_spec cfg cfg_ok st1 _ Hholds1 Hstore1 Hm)
          as [(idx' & st1' & Hrun' & Hidx' & _) | (Hrun' & _)]; rewrite Hrun2 in Hrun'.
        -- injection Hrun' as _ _ <-.
           pose proof (slot_ge cfg cfg_ok (node_buf (lst st1)) idx ltac:(lia)). lia.
        -- discriminate.
      * intros H. injection H as <-. eexists. split; [exact Hholds1 |].
        split; [by rewrite length_fmap |]. done.
    + intros H. injection H as <-. destruct Hkeep as (ps' & H1 & H2 & H3).
      exists ps'. destruct (Hfalse eq_refl) as [_ Hsz]. done.
  - destruct (ZEROLIST_STATIC_FALLBACK_MALLOC cfg) eqn:Hfb; [| apply Hsame].
    unfold malloc_node. destruct (env_malloc env =? 0) eqn:E.
    + rewrite Z.eqb_refl. apply Hsame.
    + rewrite E. apply Z.eqb_neq in E.
      rewrite update_insert. cbn [rbind]. rewrite update_insert. cbn [rbind].
      unfold _ZERO_ZEROLIST_NODE_SET_IN_USE_SIMPLE.
      apply Z.eqb_neq in E as E'. rewrite E'.
      rewrite update_insert. cbn [rbind]. rewrite update_insert. cbn [rbind].
      intros H. injection H. done.
Qed.

(** An insertion that answers false got NULL from [_zerolist_alloc_node]. *)
Lemma insert_internal_false env fuel pos data before st (ps : list Z) st' :
  holds st ps → store_inv cfg st ps → allocator_ok cfg env st → pos = 0 ∨ pos ∈ ps →
  (length ps < fuel)%nat →
  _zerolist_insert_internal cfg env fuel pos data before st = Ok (st', false) →
  _zerolist_alloc_node cfg env fuel st = Ok (st', 0).
Proof.
  intros Hholds Hstore Henv Hpos Hfuel. unfold _zerolist_insert_internal.
  destruct (alloc_node_spec cfg cfg_ok env fuel st ps Hholds Hstore Henv Hfuel)
    as (st1 & n & Hrun & Hpost).
  rewrite Hrun. cbn [rbind].
  destruct (n =? 0) eqn:En.
  { apply Z.eqb_eq in En. subst n. intros H. by injection H as <-. }
  apply Z.eqb_neq in En.
  destruct (Hpost En)
    as (ps1 & Hlen & Hholds1 & _ & Hnotin & Hmapped & Hstore1 & Hsize1 & Hpay1 & Hposs).
  rewrite update_alter by exact Hmapped. cbn [rbind lst on_mem].
  set (st2 := on_mem (alter (set_data data) n) st1).
  set (pos' := pos_restore cfg (lst st1) pos (pos_index cfg (lst st) pos)).
  assert (Hholds2 : holds st2 ps1).
  { destruct Hholds1 as [Hr Hh]. split; [| exact Hh].
    eapply ring_agree; [| exact Hr]. intros p Hp. unfold st2. cbn [mem on_mem].
    apply lookup_alter_ne. intros ->. done. }
  assert (Hpos' : pos' = 0 ∨ pos' ∈ ps1).
  { destruct Hpos as [-> | Hin].
    - left. unfold pos', pos_restore. cbn [Z.eqb negb]. by rewrite !andb_false_r.
    - right. apply list_elem_of_lookup_1 in Hin as [i Hi].
      apply Hposs in Hi. by eapply list_elem_of_lookup_2. }
  destruct (insert_link_spec cfg st2 ps1 n pos' before Hholds2 Hnotin En)
    as (s & Hrun' & _); [| exact Hpos' |].
  { unfold st2. cbn [mem on_mem]. by rewrite is_Some_alter. }
  rewrite Hrun'. discriminate.
Qed.

(** The insertions of the API go through [_zerolist_insert_internal] at
    a node of the ring or at NULL, unless they give up before. *)
Lemma run_insertion_cases env fuel op st (ps : list Z) :
  holds st ps → (length ps < fuel)%nat →
  run_insertion cfg env fuel op st = Ok (st, false)
  ∨ ∃ pos d before, (pos = 0 ∨ pos ∈ ps)
      ∧ run_insertion cfg env fuel op st
        = _zerolist_insert_internal cfg env fuel pos d before st.
Proof.
  intros [Hr Hh] Hfuel. destruct op as [data | data | target new_data]; cbn [run_insertion].
  - right. exists (head (lst st)), data, true. split; [| reflexivity].
    rewrite Hh. destruct ps as [| h t]; [by left | right; cbn; set_solver].
  - right. exists 0, data, false. split; [by left | reflexivity].
  - unfold zerolist_insert_before.
    destruct (head (lst st) =? 0) eqn:E; [by left |].
    destruct ps as [| h t]; [cbn in Hh; apply Z.eqb_neq in E; done |]. cbn [hd] in Hh.
    apply ring_cons_unfold in Hr as (Hnd & _ & Hf & _). cbn [hd app] in Hf.
    apply NoDup_cons in Hnd as [Hnotin _].
    destruct (insert_before_loop_cases cfg cfg_ok env fuel target new_data st (h :: t) h t h fuel)
      as [Hrun | (c & Hc & Hrun)]; try assumption; try done.
    + cbn [length] in Hfuel. lia.
    + left. by rewrite Hh.
    + right. exists c, new_data, true. split; [by right | by rewrite Hh].
Qed.

(** X15.  An insertion that answers false leaves the payload sequence as
    it was, in every build: the traversal afterwards gives the same payloads
    in the same order and the cached size is unchanged, also when the attempt
    to grow the arena moved the buffer and was rolled back. *)
Theorem failed_insertion_keeps_traversal env fuel op st (ps : list Z) st' :
  wf cfg st ps → allocator_ok cfg env st → (length ps < fuel)%nat →
  run_insertion cfg env fuel op st = Ok (st', false) →
  ZEROLIST_FOR_EACH fuel st' = Ok (payloads (mem st) ps)
  ∧ size (lst st') = size (lst st).
Proof.
  intros (Hholds & _ & _ & Hstore) Henv Hfuel Hrun.
  destruct (run_insertion_cases env fuel op st ps Hholds Hfuel)
    as [Hsame | (pos & d & before & Hpos & Hvia)].
  - rewrite Hsame in Hrun. injection Hrun as <-. split; [| reflexivity].
    by apply ZEROLIST_FOR_EACH_ring.
  - rewrite Hvia in Hrun.
    pose proof (insert_internal_false env fuel pos d before st ps st' Hholds Hstore Henv Hpos
                  Hfuel Hrun) as Halloc.
    destruct (alloc_node_null env fuel st ps st' Hholds Hstore Henv Hfuel Halloc)
      as (ps' & Hholds' & Hlen & Hpay & Hsize).
    split; [| exact Hsize]. rewrite <- Hpay. apply ZEROLIST_FOR_EACH_ring; [exact Hholds' | lia].
Qed.

(** A full arena without heap fallback and without growth refuses. *)
Lemma full_refuses env fuel op st (ps : list Z) :
  ZEROLIST_USE_MALLOC cfg = false → ZEROLIST_STATIC_FALLBACK_MALLOC cfg = false →
  ZEROLIST_STATIC_DYNAMIC_EXPAND cfg = false →
  wf cfg st ps → (length ps < fuel)%nat →
  Z.of_nat (length ps) = max_nodes (lst st) →
  run_insertion cfg env fuel op st = Ok (st, false).
Proof.
  intros Hm Hfb He (Hholds & _ & _ & Hstore) Hfuel Hfull.
  destruct (run_insertion_cases env fuel op st ps Hholds Hfuel)
    as [Hsame | (pos & d & before & Hpos & ->)]; [exact Hsame |].
  unfold _zerolist_insert_internal, _zerolist_alloc_node. rewrite Hm.
  destruct (proj2 Hstore Hm) as (Hbuf & Hmax & _).
  destruct (node_buf (lst st) =? 0) eqn:E1; [apply Z.eqb_eq in E1; lia |].
  destruct (max_nodes (lst st) =? 0) eqn:E2; [apply Z.eqb_eq in E2; lia |].
  cbn [orb]. rewrite (full_no_slot st ps Hholds Hstore Hm Hfb Hfull). cbn [rbind].
  rewrite He, Hfb. reflexivity.
Qed.

(** X16.  An arena without heap fallback and without growth never holds
    more nodes than its capacity, and when it holds as many every insertion
    answers false and changes nothing. *)
Theorem full_arena_refuses env fuel op st (ps : list Z) :
  ZEROLIST_USE_MALLOC cfg = false → ZEROLIST_STATIC_FALLBACK_MALLOC cfg = false →
  ZEROLIST_STATIC_DYNAMIC_EXPAND cfg = false →
  wf cfg st ps → (length ps < fuel)%nat →
  Z.of_nat (length ps) ≤ max_nodes (lst st)
  ∧ (Z.of_nat (length ps) = max_nodes (lst st) →
     run_insertion cfg env fuel op st = Ok (st, false)).
Proof.
  intros Hm Hfb He Hwf Hfuel. split; [| by apply full_refuses].
  destruct Hwf as (Hholds & _ & _ & Hstore).
  destruct (proj2 Hstore Hm) as (_ & Hmax & _ & Hwhere & _).
  pose proof (slots_bounded cfg cfg_ok (lst st) ps (ring_NoDup _ _ (proj1 Hholds))) as Hb.
  assert (Hall : ∀ p, p ∈ ps → arena_slot cfg (lst st) p).
  { intros p Hp. destruct (Hwhere p Hp) as [? | [? _]]; [assumption | congruence]. }
  specialize (Hb Hall). lia.
Qed.

(** On a full growable arena [_zerolist_alloc_node] grows the buffer and
    gives a slot of the new part, when the reallocations succeed. *)
Lemma alloc_grows env fuel st (ps : list Z) :
  ZEROLIST_STATIC_DYNAMIC_EXPAND cfg = true →
  holds st ps → store_inv cfg st ps →
  Z.of_nat (length ps) = max_nodes (lst st) → max_nodes (lst st) < TYPE_MAX cfg →
  0 < env_realloc env → (ZEROLIST_FAST_ALLOC cfg = true → env_realloc_stack env = true) →
  (length ps < fuel)%nat →
  ∃ st' n, _zerolist_alloc_node cfg env fuel st = Ok (st', n) ∧ n ≠ 0
    ∧ max_nodes (lst st') = Z.min (2 * max_nodes (lst st)) (TYPE_MAX cfg)
    ∧ node_buf (lst st') = env_realloc env.
Proof.
  intros He Hholds Hstore Hfull Hlt Hb Hstk Hfuel.
  destruct (config_ok_expand cfg cfg_ok He) as [Hm Hfb].
  unfold _zerolist_alloc_node. rewrite Hm.
  destruct (proj2 Hstore Hm) as (Hbuf & Hmax & _ & _ & Hstack).
  destruct (node_buf (lst st) =? 0) eqn:E1; [apply Z.eqb_eq in E1; lia |].
  destruct (max_nodes (lst st) =? 0) eqn:E2; [apply Z.eqb_eq in E2; lia |].
  cbn [orb]. rewrite (full_no_slot st ps Hholds Hstore Hm Hfb Hfull). cbn [rbind].
  rewrite He, (grow_request_spec cfg _ cfg_ok Hmax).
  destruct (max_nodes (lst st) =? TYPE_MAX cfg) eqn:E; [apply Z.eqb_eq in E; lia |].
  set (new_n := Z.min (2 * max_nodes (lst st)) (TYPE_MAX cfg)).
  destruct (expand_buffer_spec cfg cfg_ok env fuel st ps new_n He Hholds Hstore
              ltac:(unfold new_n; lia) Hfuel Hb Hstk)
    as (st1 & Hrun1 & Hholds1 & Hstore1 & Hbuf1 & Hmax1 & _ & _ & Hfree & Htop).
  rewrite Hrun1. cbn [rbind]. unfold alloc_after_expand. cbn [negb].
  destruct (try_init_spec cfg cfg_ok st1 _ Hholds1 Hstore1 Hm)
    as [(idx & st2 & st3 & Hrun2 & Hinit & Hb3 & Hn3 & Hpost) | Hrun2].
  - rewrite Hrun2. cbn [rbind]. rewrite Hinit. cbn [rbind].
    exists st3, (slot cfg (node_buf (lst st1)) idx). split; [reflexivity |].
    destruct Hpost as (_ & _ & Hn0 & _).
    split; [exact Hn0 |]. split; congruence.
  - exfalso.
    destruct (try_alloc_static_spec cfg cfg_ok st1 _ Hholds1 Hstore1 Hm)
      as [(idx' & st1' & Hrun' & _) | (_ & Hft & Hall)]; [rewrite Hrun2 in Hrun'; discriminate |].
    destruct (ZEROLIST_FAST_ALLOC cfg) eqn:Hf.
    + destruct (Htop eq_refl) as (stk & stk' & _ & _ & Etop & _).
      destruct (Hstack eq_refl) as (_ & _ & Hr & _).
      rewrite (Hft eq_refl) in Etop. unfold new_n in Etop. lia.
    + specialize (Hall eq_refl (max_nodes (lst st)) ltac:(unfold new_n in Hmax1; lia)).
      destruct (proj2 Hstore1 Hm) as (_ & _ & Hslots1 & _).
      destruct (Hslots1 (max_nodes (lst st)) ltac:(unfold new_n in Hmax1; lia))
        as (c & Hc & Hiff).
      specialize (Hfree (max_nodes (lst st)) ltac:(unfold new_n; lia)).
      rewrite Hbuf1 in Hc, Hiff, Hall. rewrite Hc in Hfree. cbn in Hfree.
      injection Hfree as Hfree. apply Hiff in Hall. congruence.
Qed.

(** X17.  Growth on demand: [zerolist_push_back] on a full growable arena
    whose capacity [m] is below the largest ZEROLIST_TYPE grows the buffer
    to [min (2 m) (2^w - 1)] slots when the reallocations succeed, answers
    true, and the traversal gives the old payloads followed by the new one.
    [zerolist_get_max_nodes] then reports the new capacity, except that it
    reports 0 once the capacity is the largest ZEROLIST_TYPE. *)
Theorem push_back_grows_full_arena env fuel d st (ps : list Z) :
  ZEROLIST_STATIC_DYNAMIC_EXPAND cfg = true →
  wf cfg st ps → allocator_ok cfg env st →
  Z.of_nat (length ps) = max_nodes (lst st) → max_nodes (lst st) < TYPE_MAX cfg →
  0 < env_realloc env → (ZEROLIST_FAST_ALLOC cfg = true → env_realloc_stack env = true) →
  (length ps < fuel)%nat →
  ∃ st', zerolist_push_back cfg env fuel d st = Ok (st', true)
    ∧ max_nodes (lst st') = Z.min (2 * max_nodes (lst st)) (TYPE_MAX cfg)
    ∧ ZEROLIST_FOR_EACH (S fuel) st' = Ok (payloads (mem st) ps ++ [d])
    ∧ (∃ ps', wf cfg st' ps' ∧ length ps' = S (length ps))
    ∧ zerolist_get_max_nodes cfg (lst st')
      = (if 2 * max_nodes (lst st) <? TYPE_MAX cfg then 2 * max_nodes (lst st) else 0).
Proof.
  intros He Hwf Henv Hfull Hlt Hb Hstk Hfuel.
  destruct (config_ok_expand cfg cfg_ok He) as [Hm Hfb].
  pose proof Hwf as (Hholds & _ & _ & Hstore).
  destruct (proj2 Hstore Hm) as (Hbuf & Hmax & _).
  assert (Hroom : ZEROLIST_USE_MALLOC cfg = true ∨ ZEROLIST_STATIC_FALLBACK_MALLOC cfg = true →
                  Z.of_nat (length ps) < TYPE_MAX cfg) by (intros [? | ?]; congruence).
  destruct (alloc_grows env fuel st ps He Hholds Hstore Hfull Hlt Hb Hstk Hfuel)
    as (s & n & Halloc & Hn & Hmax' & Hbuf').
  destruct (insert_internal_spec cfg cfg_ok env fuel 0 d false st ps Hwf Henv
              ltac:(by left) Hfuel Hroom) as (st' & b & Hrun & Hfalse & Htrue).
  destruct b.
  2:{ rewrite (Hfalse eq_refl) in Halloc. injection Halloc as _ <-. done. }
  destruct (Htrue eq_refl)
    as (n' & ps1 & pos' & _ & _ & _ & _ & _ & _ & _ & _ & _ & st1 & Halloc1 & _ & Hsame).
  rewrite Halloc in Halloc1. injection Halloc1 as <- <-.
  destruct Hsame as (Hsb & Hsm & _).
  destruct (push_back_payloads cfg cfg_ok env fuel d st ps Hwf Henv Hfuel Hroom)
    as (st'' & b'' & Hrun'' & Hpost).
  unfold zerolist_push_back in *. rewrite Hrun in Hrun''. injection Hrun'' as <- <-.
  destruct (Hpost eq_refl) as (ps' & Hwf' & Hlen' & Hpay').
  exists st'. split; [exact Hrun |]. split; [congruence |]. split; [| split; [eauto |]].
  - rewrite <- Hpay'. apply ZEROLIST_FOR_EACH_ring; [apply Hwf' | lia].
  - unfold zerolist_get_max_nodes. rewrite Hm, He, Hsb, Hsm, Hbuf', Hmax'. cbn [andb].
    destruct (env_realloc env =? 0) eqn:E0; [apply Z.eqb_eq in E0; lia |].
    destruct (Z.min (2 * max_nodes (lst st)) (TYPE_MAX cfg) =? 0) eqn:E1;
      [apply Z.eqb_eq in E1; lia |].
    cbn [orb].
    destruct (2 * max_nodes (lst st) <? TYPE_MAX cfg) eqn:E2.
    + apply Z.ltb_lt in E2.
      destruct (Z.min (2 * max_nodes (lst st)) (TYPE_MAX cfg) =? TYPE_MAX cfg) eqn:E3;
        [apply Z.eqb_eq in E3; lia | lia].
    + apply Z.ltb_ge in E2.
      destruct (Z.min (2 * max_nodes (lst st)) (TYPE_MAX cfg) =? TYPE_MAX cfg) eqn:E3;
        [reflexivity | apply Z.eqb_neq in E3; lia].
Qed.

End Capacity.


(** ** [zerolist_foreach] *)

Lemma foreach_ring_path st start : ∀ rest cur fuel,
  fwd (mem st) (cur :: rest ++ [start]) →
  0 ∉ rest → start ∉ rest → start ≠ 0 → (length rest < fuel)%nat →
  foreach_ring st fuel start cur = Ok (payloads (mem st) (cur :: rest)).
Proof.
  induction rest as [| r rest IH]; intros cur fuel Hf H0 Hstart Hs0 Hfuel;
    (destruct fuel as [| fuel]; [cbn in Hfuel; lia |]).
  - cbn in Hf. destruct Hf as [Hf _]. apply nxt_Some in Hf as (c & Hc & Hn).
    cbn [foreach_ring]. rewrite (load_Some _ _ _ Hc). cbn [rbind]. rewrite Hn.
    apply Z.eqb_neq in Hs0. rewrite Hs0, Z.eqb_refl. cbn [orb].
    rewrite payloads_cons_payload, (payload_load _ _ _ Hc). reflexivity.
  - cbn [app] in Hf. rewrite fwd_cons in Hf. destruct Hf as [Hf Hrest].
    apply nxt_Some in Hf as (c & Hc & Hn).
    cbn [foreach_ring]. rewrite (load_Some _ _ _ Hc). cbn [rbind]. rewrite Hn.
    destruct (r =? 0) eqn:E0; [apply Z.eqb_eq in E0; set_solver |].
    destruct (r =? start) eqn:E1; [apply Z.eqb_eq in E1; set_solver |].
    cbn [orb]. rewrite IH; try assumption; [| set_solver | set_solver | cbn in Hfuel; lia].
    cbn [rbind]. rewrite (payloads_cons_payload _ cur), (payload_load _ _ _ Hc). reflexivity.
Qed.

Section Foreach.
Variable cfg : config.
Hypothesis cfg_ok : config_ok cfg = true.

Lemma foreach_slots_spec st (ps : list Z) : ∀ n i,
  arena_inv cfg st ps → 0 ≤ i → i + Z.of_nat n ≤ max_nodes (lst st) →
  foreach_slots cfg st n i
  = Ok (payloads (mem st)
          (filter (λ p, p ∈ ps) (slot cfg (node_buf (lst st)) <$> seqZ i (Z.of_nat n)))).
Proof.
  intros n i (Hbuf & Hmax & Hslots & _). revert i.
  induction n as [| n IH]; intros i Hi Hn; [reflexivity |].
  cbn [foreach_slots]. unfold _ZEROLIST_NODE_IS_IN_USE.
  pose proof (slot_ge cfg cfg_ok (node_buf (lst st)) i Hi) as Hge.
  destruct (slot cfg (node_buf (lst st)) i =? 0) eqn:E0; [apply Z.eqb_eq in E0; lia |].
  destruct (Hslots i ltac:(lia)) as (c & Hc & Hiff).
  rewrite (load_Some _ _ _ Hc). cbn [rbind].
  rewrite (IH (i + 1)) by lia.
  rewrite (seqZ_cons i) by lia. cbn [fmap list_fmap].
  replace (Z.pred (Z.of_nat (S n))) with (Z.of_nat n) by lia.
  replace (Z.succ i) with (i + 1) by lia.
  rewrite filter_cons.
  destruct (in_use c) eqn:Hu; cbn [rbind].
  - rewrite decide_True by (by apply Hiff).
    rewrite payloads_cons_payload, (payload_load _ _ _ Hc). reflexivity.
  - rewrite decide_False; [reflexivity |]. intros Hin. apply Hiff in Hin. congruence.
Qed.

Lemma live_slots_Permutation st (ps : list Z) :
  NoDup ps → arena_inv cfg st ps → ZEROLIST_STATIC_FALLBACK_MALLOC cfg = false →
  filter (λ p, p ∈ ps) (slot cfg (node_buf (lst st)) <$> seqZ 0 (max_nodes (lst st))) ≡ₚ ps.
Proof.
  intros Hnd (Hbuf & Hmax & _ & Hwhere & _) Hfb. apply NoDup_Permutation.
  - apply NoDup_filter, (slot_fmap_inj cfg cfg_ok), NoDup_seqZ.
  - exact Hnd.
  - intros p. rewrite list_elem_of_filter. split; [tauto |]. intros Hp. split; [exact Hp |].
    destruct (Hwhere p Hp) as [(j & Hj & ->) | [? _]]; [| congruence].
    apply list_elem_of_fmap. exists j. split; [reflexivity |]. apply elem_of_seqZ. lia.
Qed.

(** X18.  [zerolist_foreach] hands each payload of the list to the
    callback exactly once: the payloads it visits are a permutation of the
    traversal.  In the builds with heap nodes it visits them in list order;
    in the arena-only builds it visits them in the order of the slots of the
    buffer. *)
Theorem zerolist_foreach_visits_all st (ps : list Z) fuel :
  wf cfg st ps → (length ps < fuel)%nat →
  ∃ l, zerolist_foreach cfg fuel st = Ok l
    ∧ l ≡ₚ payloads (mem st) ps
    ∧ (scan_slots cfg = false → l = payloads (mem st) ps)
    ∧ (scan_slots cfg = true →
       l = payloads (mem st)
             (filter (λ p, p ∈ ps)
                (slot cfg (node_buf (lst st)) <$> seqZ 0 (max_nodes (lst st))))).
Proof.
  intros (Hholds & _ & _ & Hinv) Hfuel. unfold zerolist_foreach.
  pose proof (ring_NoDup _ _ (proj1 Hholds)) as Hnd.
  destruct (scan_slots cfg) eqn:Escan.
  - unfold scan_slots in Escan. apply andb_true_iff in Escan as [Hm Hfb].
    apply negb_true_iff in Hm, Hfb. pose proof (proj2 Hinv Hm) as Ha.
    pose proof Ha as (_ & Hmx & _).
    rewrite (foreach_slots_spec st ps _ 0 Ha) by lia.
    rewrite Z2Nat.id by lia.
    eexists. split; [reflexivity |]. split; [| split; [discriminate | done]].
    unfold payloads. apply Permutation_map. by apply live_slots_Permutation.
  - destruct ps as [| h t].
    + destruct Hholds as [_ Hh]. cbn [hd] in Hh. rewrite Hh. cbn [Z.eqb].
      exists []. split; [reflexivity |]. split; [reflexivity |]. split; [done | discriminate].
    + destruct (holds_first _ _ _ Hholds) as [Hh Hh0].
      apply Z.eqb_neq in Hh0 as Hh0'. rewrite Hh, Hh0'.
      destruct Hholds as [Hr _].
      apply ring_cons_unfold in Hr as (Hnd' & H0 & Hf & _); cbn [hd app] in Hf.
      apply NoDup_cons in Hnd' as [Hnotin _].
      rewrite (foreach_ring_path st h t h fuel Hf) by
        (try assumption; try (cbn in Hfuel; lia); set_solver).
      eexists. split; [reflexivity |]. split; [reflexivity |]. split; [done | discriminate].
Qed.

End Foreach.

(** ** [zerolist_clear] *)

Section Clear.
Variable cfg : config.
Hypothesis cfg_ok : config_ok cfg = true.

Lemma clear_slot_freed st i c :
  0 < slot cfg (node_buf (lst st)) i → mem st !! slot cfg (node_buf (lst st)) i = Some c →
  clear_slot cfg i st
  = Ok (on_mem (<[slot cfg (node_buf (lst st)) i := freed_node (slot cfg (node_buf (lst st)) i)]>)
          st).
Proof.
  intros Hpos Hc. unfold clear_slot, _ZEROLIST_NODE_SET_FREE.
  destruct (slot cfg (node_buf (lst st)) i =? 0) eqn:E0; [apply Z.eqb_eq in E0; lia |].
  rewrite (update_Some _ _ _ _ Hc). cbn [rbind].
  rewrite update_insert. cbn [rbind]. rewrite update_insert. cbn [rbind].
  rewrite update_insert. reflexivity.
Qed.

Lemma clear_slots_spec st (ps : list Z) :
  arena_inv cfg st ps →
  ∃ st', for_loop (Z.to_nat (max_nodes (lst st))) 0 (clear_slot cfg) st = Ok st'
    ∧ lst st' = lst st
    ∧ (∀ i, 0 ≤ i < max_nodes (lst st) →
         mem st' !! slot cfg (node_buf (lst st)) i
         = Some (freed_node (slot cfg (node_buf (lst st)) i))).
Proof.
  intros (Hbuf & Hmax & Hslots & _).
  destruct (for_loop_inv
    (λ j s, lst s = lst st
            ∧ (∀ i, 0 ≤ i < j →
                 mem s !! slot cfg (node_buf (lst st)) i
                 = Some (freed_node (slot cfg (node_buf (lst st)) i)))
            ∧ ∀ i, j ≤ i < max_nodes (lst st) →
                is_Some (mem s !! slot cfg (node_buf (lst st)) i))
    (clear_slot cfg) (Z.to_nat (max_nodes (lst st))) 0 st) as (st' & Hrun & HP).
  - split; [reflexivity |]. split; [intros; lia |].
    intros i Hi. destruct (Hslots i ltac:(lia)) as (c & -> & _). eauto.
  - intros j s Hj (Hl & Hdone & Htodo).
    destruct (Htodo j ltac:(lia)) as [c Hc].
    pose proof (slot_ge cfg cfg_ok (node_buf (lst st)) j ltac:(lia)) as Hge.
    rewrite (clear_slot_freed s j c) by (rewrite ?Hl; first [assumption | lia]).
    eexists. split; [reflexivity |]. cbn [lst mem on_mem]. rewrite Hl.
    split; [reflexivity |]. split.
    + intros i Hi. destruct (decide (i = j)) as [-> | Hne].
      * by rewrite lookup_insert_eq.
      * rewrite lookup_insert_ne by (intros E; apply (slot_inj cfg cfg_ok) in E; lia).
        apply Hdone. lia.
    + intros i Hi.
      rewrite lookup_insert_ne by (intros E; apply (slot_inj cfg cfg_ok) in E; lia).
      apply Htodo. lia.
  - exists st'. split; [exact Hrun |]. destruct HP as (Hl & Hdone & _).
    split; [exact Hl |]. intros i Hi. apply Hdone. lia.
Qed.

Lemma update_fields st p f st' :
  update p f st = Ok st' → lst st' = lst st.
Proof. unfold update. destruct (mem st !! p); [| discriminate]. by intros [= <-]. Qed.

Lemma free_node_fields n st st' :
  zerolist_free_node cfg n st = Ok st' →
  node_buf (lst st') = node_buf (lst st) ∧ max_nodes (lst st') = max_nodes (lst st).
Proof.
  assert (Hheap : ∀ s s', ZEROLIST_FREE n s = Ok s' → lst s' = lst s).
  { intros s s'. unfold ZEROLIST_FREE. destruct (mem s !! n); [| discriminate]. by intros [= <-]. }
  assert (Hstatic : ∀ idx s s', _ZEROLIST_FREE_STATIC_NODE cfg n idx s = Ok s' →
            node_buf (lst s') = node_buf (lst s) ∧ max_nodes (lst s') = max_nodes (lst s)).
  { intros idx s s'. unfold _ZEROLIST_FREE_STATIC_NODE, _ZEROLIST_NODE_SET_FREE.
    destruct (n =? 0).
    all: cbn [rbind].
    all: repeat match goal with
         | |- context [update ?p ?f ?x] =>
             let E := fresh "E" in
             destruct (update p f x) as [? | |] eqn:E; cbn [rbind]; try discriminate;
             apply update_fields in E
         end.
    all: destruct (ZEROLIST_FAST_ALLOC cfg).
    all: try (intros [= <-]; split; congruence).
    all: unfold _ZEROLIST_FREE_TO_STACK, stack_set.
    all: repeat match goal with
         | |- context [if ?b then _ else _] => destruct b
         | |- context [match ?b with Some _ => _ | None => _ end] => destruct b
         end; cbn [rbind]; try discriminate.
    all: intros [= <-]; cbn; split; congruence. }
  unfold zerolist_free_node. destruct (n =? 0); [by intros [= <-] |].
  destruct (ZEROLIST_USE_MALLOC cfg); [intros H; by rewrite (Hheap _ _ H) |].
  destruct (ZEROLIST_STATIC_FALLBACK_MALLOC cfg); [| apply Hstatic].
  destruct (_zerolist_is_static_node _ _ _); [apply Hstatic |].
  intros H; by rewrite (Hheap _ _ H).
Qed.

Lemma clear_ring_path h : ∀ rest cur s fuel,
  fwd (mem s) (cur :: rest ++ [h]) → head (lst s) = h →
  NoDup (cur :: rest) → 0 ∉ cur :: rest → h ∉ rest →
  store_inv cfg s (cur :: rest) → (S (length rest) < fuel)%nat →
  ∃ s', clear_ring cfg fuel cur s = Ok s' ∧ store_inv cfg s' []
        ∧ head (lst s') = head (lst s) ∧ size (lst s') = size (lst s)
        ∧ node_buf (lst s') = node_buf (lst s) ∧ max_nodes (lst s') = max_nodes (lst s).
Proof.
  induction rest as [| r rest IH]; intros cur s fuel Hf Hh Hnd H0 Hnotin Hinv Hfuel;
    (destruct fuel as [| fuel]; [cbn in Hfuel; lia |]).
  - cbn in Hf. destruct Hf as [Hf _]. apply nxt_Some in Hf as (c & Hc & Hn).
    assert (Hc0 : cur ≠ 0) by set_solver.
    cbn [clear_ring]. apply Z.eqb_neq in Hc0 as Hc0'. rewrite Hc0'.
    rewrite (load_Some _ _ _ Hc). cbn [rbind].
    destruct (free_node_spec cfg cfg_ok s [cur] [] cur Hinv ltac:(set_solver) Hc0)
      as (s1 & Hrun1 & Hinv1 & _ & Hh1 & Hs1); [set_solver |].
    rewrite Hrun1. cbn [rbind]. rewrite Hn, Hh1, Hh, Z.eqb_refl.
    destruct fuel as [| fuel]; [cbn in Hfuel; lia |].
    cbn [clear_ring Z.eqb]. exists s1. split; [reflexivity |]. split; [exact Hinv1 |].
    destruct (free_node_fields _ _ _ Hrun1). repeat split; congruence.
  - cbn [app] in Hf. rewrite fwd_cons in Hf. destruct Hf as [Hf Hrest].
    apply nxt_Some in Hf as (c & Hc & Hn).
    assert (Hc0 : cur ≠ 0) by set_solver.
    cbn [clear_ring]. apply Z.eqb_neq in Hc0 as Hc0'. rewrite Hc0'.
    rewrite (load_Some _ _ _ Hc). cbn [rbind].
    apply NoDup_cons in Hnd as [Hcur Hnd].
    destruct (free_node_spec cfg cfg_ok s (cur :: r :: rest) (r :: rest) cur Hinv
                ltac:(set_solver) Hc0)
      as (s1 & Hrun1 & Hinv1 & Hmem1 & Hh1 & Hs1).
    { intros p. split; [intros Hp; split; [set_solver | intros ->; done] | set_solver]. }
    rewrite Hrun1. cbn [rbind]. rewrite Hn, Hh1, Hh.
    destruct (r =? h) eqn:E; [apply Z.eqb_eq in E; set_solver |].
    destruct (IH r s1 fuel) as (s' & Hrun' & Hinv' & Hh' & Hs' & Hb' & Hm'); try assumption.
    + change (r :: rest ++ [h]) with ((r :: rest) ++ [h]) in Hrest |- *.
      eapply fwd_ext; [| exact Hrest]. intros p Hp. unfold nxt.
      rewrite Hmem1; [reflexivity |]. intros ->. done.
    + congruence.
    + set_solver.
    + set_solver.
    + cbn in Hfuel. lia.
    + exists s'. split; [exact Hrun' |]. split; [exact Hinv' |].
      destruct (free_node_fields _ _ _ Hrun1). repeat split; congruence.
Qed.

Lemma wf_nil_intro st :
  head (lst st) = 0 → (ZEROLIST_SIZE_ENABLE cfg = true → size (lst st) = 0) →
  store_inv cfg st [] → wf cfg st [].
Proof.
  intros Hh Hs Hinv. split; [split; [apply ring_nil | exact Hh] |].
  split; [exact Hs |]. split; [| exact Hinv].
  cbn. pose proof (TYPE_MAX_pos cfg cfg_ok). lia.
Qed.

Lemma clear_spec st (ps : list Z) fuel :
  wf cfg st ps → (length ps < fuel)%nat →
  ∃ st', zerolist_clear cfg fuel st = Ok st' ∧ wf cfg st' []
         ∧ node_buf (lst st') = node_buf (lst st) ∧ max_nodes (lst st') = max_nodes (lst st)
         ∧ (scan_slots cfg = true →
            free_top (lst st') = free_top (lst st) ∧ free_stack (lst st') = free_stack (lst st)).
Proof.
  intros (Hholds & _ & _ & Hinv) Hfuel. unfold zerolist_clear.
  assert (Hfinish : ∀ s, store_inv cfg s [] →
            wf cfg (if ZEROLIST_SIZE_ENABLE cfg
                    then on_lst (with_size 0) (on_lst (with_head 0) s)
                    else on_lst (with_head 0) s) []).
  { intros s Hs. destruct (ZEROLIST_SIZE_ENABLE cfg) eqn:Esz; apply wf_nil_intro;
      first [reflexivity | intros; congruence
            | apply (store_inv_ext cfg s _ [] []); [apply same_flags_refl | by repeat split | done | exact Hs]]. }
  assert (Hfields : ∀ s, node_buf (lst s) = node_buf (lst st) → max_nodes (lst s) = max_nodes (lst st) →
            node_buf (lst (if ZEROLIST_SIZE_ENABLE cfg
                           then on_lst (with_size 0) (on_lst (with_head 0) s)
                           else on_lst (with_head 0) s)) = node_buf (lst st)
            ∧ max_nodes (lst (if ZEROLIST_SIZE_ENABLE cfg
                              then on_lst (with_size 0) (on_lst (with_head 0) s)
                              else on_lst (with_head 0) s)) = max_nodes (lst st)).
  { intros s Hb Hm. by destruct (ZEROLIST_SIZE_ENABLE cfg). }
  destruct (scan_slots cfg) eqn:Escan.
  - unfold scan_slots in Escan. apply andb_true_iff in Escan as [Hm Hfb].
    apply negb_true_iff in Hm, Hfb. pose proof (proj2 Hinv Hm) as Ha.
    destruct (clear_slots_spec st ps Ha) as (s & Hrun & Hl & Hfreed).
    rewrite Hrun. cbn [rbind]. eexists. split; [reflexivity |].
    destruct Ha as (Hbuf & Hmax & Hslots & Hwhere & Hstack).
    split; [| split; [by apply Hfields; rewrite Hl | split; [by apply Hfields; rewrite Hl |]]].
    + apply Hfinish. split; [intros p Hp; set_solver |]. intros _.
      unfold arena_inv. rewrite Hl. split; [exact Hbuf |]. split; [exact Hmax |].
      split; [| split; [intros p Hp; set_solver |]].
      * intros i Hi. rewrite (Hfreed i Hi). eexists. split; [reflexivity |].
        cbn. split; [discriminate | set_solver].
      * intros Hf. destruct (Hstack Hf) as (stk & Hs & Hr & Hlen & Hnd & Hent).
        exists stk. rewrite Hl. split; [exact Hs |]. split; [exact Hr |].
        split; [exact Hlen |]. split; [exact Hnd |].
        intros idx Hidx. destruct (Hent idx Hidx) as [Hi _]. split; [exact Hi | set_solver].
    + intros _. destruct (ZEROLIST_SIZE_ENABLE cfg); cbn; by rewrite Hl.
  - destruct ps as [| h t].
    + destruct Hholds as [_ Hh]. cbn [hd] in Hh. rewrite Hh.
      destruct fuel as [| fuel]; [cbn in Hfuel; lia |]. cbn [clear_ring Z.eqb rbind].
      eexists. split; [reflexivity |]. split; [by apply Hfinish |].
      split; [by apply Hfields | split; [by apply Hfields | discriminate]].
    + destruct (holds_first _ _ _ Hholds) as [Hh Hh0]. rewrite Hh.
      pose proof (proj1 Hholds) as Hr.
      pose proof (ring_NoDup _ _ Hr) as Hnd.
      apply ring_cons_unfold in Hr as (_ & H0 & Hf & _); cbn [hd app] in Hf.
      pose proof Hnd as Hnd'. apply NoDup_cons in Hnd' as [Hnotin _].
      destruct (clear_ring_path h t h st fuel Hf Hh Hnd H0 Hnotin Hinv)
        as (s & Hrun & Hinv' & Hhs & Hss & Hbs & Hms); [cbn in Hfuel; lia |].
      rewrite Hrun. cbn [rbind]. eexists. split; [reflexivity |].
      split; [by apply Hfinish |].
      split; [by apply Hfields | split; [by apply Hfields | discriminate]].
Qed.

End Clear.

(** X19.  [zerolist_clear] returns on every well-formed list, in every
    build: afterwards the list is well formed and empty, a traversal visits
    nothing, [zerolist_size] answers 0 and the capacity is what it was. *)
Theorem zerolist_clear_empties cfg st (ps : list Z) fuel :
  config_ok cfg = true → wf cfg st ps → (length ps < fuel)%nat →
  ∃ st', zerolist_clear cfg fuel st = Ok st'
    ∧ wf cfg st' []
    ∧ ZEROLIST_FOR_EACH fuel st' = Ok []
    ∧ zerolist_size cfg fuel st' = Ok 0
    ∧ zerolist_get_max_nodes cfg (lst st') = zerolist_get_max_nodes cfg (lst st).
Proof.
  intros Hok Hwf Hfuel.
  destruct (clear_spec cfg Hok st ps fuel Hwf Hfuel) as (st' & Hrun & Hwf' & Hb & Hm & _).
  exists st'. split; [exact Hrun |]. split; [exact Hwf' |].
  destruct Hwf' as ((_ & Hh) & Hsz & _). cbn [hd] in Hh.
  split; [| split].
  - unfold ZEROLIST_FOR_EACH. by rewrite Hh.
  - unfold zerolist_size. rewrite Hh. cbn [Z.eqb].
    destruct (ZEROLIST_SIZE_ENABLE cfg); [| reflexivity]. by rewrite Hsz.
  - unfold zerolist_get_max_nodes. by rewrite Hb, Hm.
Qed.


(** ** The life cycle: initialisation, destruction, re-initialisation *)

Section Lifecycle.
Variable cfg : config.
Hypothesis cfg_ok : config_ok cfg = true.

(** The loop of [zerolist_reinit] over a mapped arena. *)
Lemma reinit_loop_spec s1 :
  ZEROLIST_USE_MALLOC cfg = false →
  0 < node_buf (lst s1) → 0 < max_nodes (lst s1) ≤ TYPE_MAX cfg →
  (∀ i, 0 ≤ i < max_nodes (lst s1) → is_Some (mem s1 !! slot cfg (node_buf (lst s1)) i)) →
  head (lst s1) = 0 → (ZEROLIST_SIZE_ENABLE cfg = true → size (lst s1) = 0) →
  (ZEROLIST_FAST_ALLOC cfg = true →
   ∃ stk, free_stack (lst s1) = Some stk ∧ free_top (lst s1) = 0
          ∧ max_nodes (lst s1) ≤ Z.of_nat (length stk)) →
  ∃ s', for_loop (Z.to_nat (max_nodes (lst s1))) 0 (reinit_slot cfg) s1 = Ok s'
    ∧ wf cfg s' []
    ∧ node_buf (lst s') = node_buf (lst s1) ∧ max_nodes (lst s') = max_nodes (lst s1)
    ∧ (ZEROLIST_FAST_ALLOC cfg = true → free_top (lst s') = max_nodes (lst s1))
    ∧ (∀ q, is_Some (mem s' !! q) ↔ is_Some (mem s1 !! q)).
Proof.
  intros Hm Hbuf Hmax Hmapped Hhead Hsize Hfast.
  set (b := node_buf (lst s1)) in *. set (n := max_nodes (lst s1)) in *.
  set (stk0 := default [] (free_stack (lst s1))).
  destruct (expand_init_loop_spec cfg cfg_ok s1 b 0 n 0 stk0 eq_refl ltac:(lia) ltac:(lia))
    as (s' & Hrun & Hslow & Hquick & Hother & Hfree).
  { intros i Hi. apply Hmapped. lia. }
  { intros Hf. destruct (Hfast Hf) as (stk & Hs & Ht & Hl). unfold stk0. rewrite Hs. cbn.
    repeat split; try assumption; lia. }
  replace (n - 0) with n in * by lia.
  change (expand_init_slot cfg) with (reinit_slot cfg) in Hrun.
  exists s'. split; [exact Hrun |].
  assert (Hl : head (lst s') = 0 ∧ size (lst s') = size (lst s1)
               ∧ node_buf (lst s') = b ∧ max_nodes (lst s') = n).
  { destruct (ZEROLIST_FAST_ALLOC cfg) eqn:Hf.
    - destruct (Hquick eq_refl) as (stk & -> & _). done.
    - rewrite (Hslow eq_refl). done. }
  destruct Hl as (Hh' & Hs' & Hb' & Hn').
  split; [| split; [exact Hb' | split; [exact Hn' | split]]].
  - split; [split; [apply ring_nil | exact Hh'] |].
    split; [intros Hse; rewrite Hs'; by apply Hsize |].
    split; [cbn; pose proof (TYPE_MAX_pos cfg cfg_ok); lia |].
    split; [intros p Hp; set_solver |]. intros _.
    unfold arena_inv. rewrite Hb', Hn'. split; [exact Hbuf |]. split; [exact Hmax |].
    split; [| split; [intros p Hp; set_solver |]].
    + intros i Hi. destruct (Hfree i ltac:(lia)) as (c & Hc & Hu). exists c.
      split; [exact Hc |]. rewrite Hu. split; [discriminate | set_solver].
    + intros Hf. destruct (Hquick Hf) as (stk & Hlst & Hlen & Htake).
      destruct (Hfast Hf) as (stk1 & Hs1 & Ht1 & Hl1).
      assert (E : stk0 = stk1) by (unfold stk0; by rewrite Hs1). rewrite E in *.
      exists stk. rewrite Hlst. cbn [free_stack free_top max_nodes node_buf with_free_top
                                     with_free_stack].
      fold b n. replace (0 + n) with n in * by lia.
      split; [reflexivity |]. split; [lia |]. split; [lia |].
      rewrite Htake. cbn [take app Z.to_nat].
      split; [apply NoDup_seqZ |]. intros idx Hidx. apply elem_of_seqZ in Hidx.
      split; [lia | set_solver].
  - intros Hf. destruct (Hquick Hf) as (stk & -> & _). cbn. lia.
  - intros q. destruct (decide (q ∈ slot cfg b <$> seqZ 0 n)) as [Hin | Hout].
    + apply list_elem_of_fmap in Hin as (i & -> & Hi). apply elem_of_seqZ in Hi.
      destruct (Hfree i ltac:(lia)) as (c & Hc & _). rewrite Hc.
      split; [intros _; apply Hmapped; lia | eauto].
    + rewrite Hother; [done |]. intros i Hi ->. apply Hout.
      apply list_elem_of_fmap. exists i. split; [reflexivity |]. apply elem_of_seqZ. lia.
Qed.

(** [zerolist_reinit] of a fixed arena, whatever the list holds. *)
Lemma reinit_spec env n st (ps : list Z) :
  ZEROLIST_USE_MALLOC cfg = false → ZEROLIST_STATIC_DYNAMIC_EXPAND cfg = false →
  store_inv cfg st ps →
  ∃ st', zerolist_reinit cfg env n st = Ok (st', true)
    ∧ wf cfg st' []
    ∧ node_buf (lst st') = node_buf (lst st) ∧ max_nodes (lst st') = max_nodes (lst st)
    ∧ (ZEROLIST_FAST_ALLOC cfg = true → free_top (lst st') = max_nodes (lst st))
    ∧ (∀ q, is_Some (mem st' !! q) ↔ is_Some (mem st !! q)).
Proof.
  intros Hm He Hinv. destruct (proj2 Hinv Hm) as (Hbuf & Hmax & Hslots & _ & Hstack).
  unfold zerolist_reinit. rewrite Hm, He.
  destruct (node_buf (lst st) =? 0) eqn:E1; [apply Z.eqb_eq in E1; lia |].
  destruct (max_nodes (lst st) =? 0) eqn:E2; [apply Z.eqb_eq in E2; lia |].
  cbn [orb].
  set (s0 := if ZEROLIST_SIZE_ENABLE cfg
             then on_lst (with_size 0) (on_lst (with_tail 0) (on_lst (with_head 0) st))
             else on_lst (with_tail 0) (on_lst (with_head 0) st)).
  assert (H0 : mem s0 = mem st ∧ node_buf (lst s0) = node_buf (lst st)
               ∧ max_nodes (lst s0) = max_nodes (lst st)
               ∧ free_stack (lst s0) = free_stack (lst st) ∧ head (lst s0) = 0
               ∧ (ZEROLIST_SIZE_ENABLE cfg = true → size (lst s0) = 0)).
  { unfold s0. destruct (ZEROLIST_SIZE_ENABLE cfg); repeat split; try done. }
  destruct H0 as (Hmem0 & Hb0 & Hn0 & Hstk0 & Hh0 & Hs0).
  assert (Hmapped0 : ∀ s, mem s = mem s0 → node_buf (lst s) = node_buf (lst s0) →
            max_nodes (lst s) = max_nodes (lst s0) →
            ∀ i, 0 ≤ i < max_nodes (lst s) → is_Some (mem s !! slot cfg (node_buf (lst s)) i)).
  { intros s E1' E2' E3' i Hi. rewrite E1', E2', Hmem0, Hb0.
    destruct (Hslots i ltac:(lia)) as (c & Hc & _). eauto. }
  destruct (ZEROLIST_FAST_ALLOC cfg) eqn:Hf.
  - destruct (Hstack eq_refl) as (stk & Hstk & _ & Hlen & _).
    rewrite bool_decide_eq_true_2 by (rewrite Hstk0, Hstk; eauto).
    destruct (reinit_loop_spec (on_lst (with_free_top 0) s0) Hm)
      as (s' & Hrun & Hwf & Hb' & Hn' & Htop & Hdom).
    + cbn. lia.
    + cbn. lia.
    + by apply Hmapped0.
    + exact Hh0.
    + exact Hs0.
    + intros _. exists stk. cbn. rewrite Hstk0, Hn0. done.
    + cbn [lst on_lst max_nodes with_free_top] in Hrun. rewrite Hrun. cbn [rbind].
      exists s'. split; [reflexivity |]. split; [exact Hwf |].
      cbn in Hb', Hn', Htop, Hdom.
      split; [congruence |]. split; [congruence |]. split; [intros _; rewrite Htop; [congruence | done] |].
      intros q. rewrite Hdom. by rewrite Hmem0.
  - destruct (reinit_loop_spec s0 Hm) as (s' & Hrun & Hwf & Hb' & Hn' & Htop & Hdom).
    + lia.
    + lia.
    + by apply Hmapped0.
    + exact Hh0.
    + exact Hs0.
    + rewrite Hf. discriminate.
    + rewrite Hrun. cbn [rbind]. exists s'. split; [reflexivity |]. split; [exact Hwf |].
      split; [congruence |]. split; [congruence |]. split; [discriminate |].
      intros q. rewrite Hdom. by rewrite Hmem0.
Qed.

(** An arena with a free slot gives a node. *)
Lemma alloc_has_slot env fuel st (ps : list Z) :
  holds st ps → store_inv cfg st ps → ZEROLIST_USE_MALLOC cfg = false →
  (ZEROLIST_FAST_ALLOC cfg = true → 0 < free_top (lst st)) →
  (ZEROLIST_FAST_ALLOC cfg = false →
   ∃ j, 0 ≤ j < max_nodes (lst st) ∧ slot cfg (node_buf (lst st)) j ∉ ps) →
  ∃ st' n, _zerolist_alloc_node cfg env fuel st = Ok (st', n) ∧ n ≠ 0.
Proof.
  intros Hholds Hstore Hm Hquick Hslow. unfold _zerolist_alloc_node. rewrite Hm.
  destruct (proj2 Hstore Hm) as (Hbuf & Hmax & _).
  destruct (node_buf (lst st) =? 0) eqn:E1; [apply Z.eqb_eq in E1; lia |].
  destruct (max_nodes (lst st) =? 0) eqn:E2; [apply Z.eqb_eq in E2; lia |].
  cbn [orb].
  destruct (try_init_spec cfg cfg_ok st ps Hholds Hstore Hm)
    as [(idx & st1 & st2 & Hrun & Hinit & _) | Hrun]; rewrite Hrun; cbn [rbind].
  - rewrite Hinit. cbn [rbind]. eexists _, _. split; [reflexivity |].
    destruct (try_alloc_static_spec cfg cfg_ok st ps Hholds Hstore Hm)
      as [(idx' & st1' & Hrun' & Hidx' & _) | (Hrun' & _)]; rewrite Hrun in Hrun';
      [| discriminate].
    injection Hrun' as _ _ <-.
    pose proof (slot_ge cfg cfg_ok (node_buf (lst st)) idx ltac:(lia)). lia.
  - exfalso.
    destruct (try_alloc_static_spec cfg cfg_ok st ps Hholds Hstore Hm)
      as [(idx' & st1' & Hrun' & _) | (_ & Hq & Hs)]; [rewrite Hrun in Hrun'; discriminate |].
    destruct (ZEROLIST_FAST_ALLOC cfg).
    + specialize (Hq eq_refl). specialize (Hquick eq_refl). lia.
    + destruct (Hslow eq_refl) as (j & Hj & Hnotin). apply Hnotin. by apply Hs.
Qed.

(** [zerolist_push_back] into an arena with a free slot succeeds. *)
Lemma push_back_succeeds env fuel d st (ps : list Z) :
  wf cfg st ps → allocator_ok cfg env st → (length ps < fuel)%nat →
  ZEROLIST_USE_MALLOC cfg = false →
  (ZEROLIST_STATIC_FALLBACK_MALLOC cfg = true → Z.of_nat (length ps) < TYPE_MAX cfg) →
  (ZEROLIST_FAST_ALLOC cfg = true → 0 < free_top (lst st)) →
  (ZEROLIST_FAST_ALLOC cfg = false →
   ∃ j, 0 ≤ j < max_nodes (lst st) ∧ slot cfg (node_buf (lst st)) j ∉ ps) →
  ∃ st' ps', zerolist_push_back cfg env fuel d st = Ok (st', true)
    ∧ wf cfg st' ps' ∧ length ps' = S (length ps)
    ∧ payloads (mem st') ps' = payloads (mem st) ps ++ [d].
Proof.
  intros Hwf Henv Hfuel Hm Hroom Hquick Hslow.
  destruct (push_back_payloads cfg cfg_ok env fuel d st ps Hwf Henv Hfuel) as (st' & b & Hrun & Hpost).
  { intros [E | E]; [congruence | by apply Hroom]. }
  destruct b.
  - destruct (Hpost eq_refl) as (ps' & H1 & H2 & H3). by exists st', ps'.
  - exfalso. destruct Hwf as (Hholds & _ & _ & Hstore).
    unfold zerolist_push_back in Hrun.
    pose proof (insert_internal_false cfg cfg_ok env fuel 0 d false st ps st' Hholds Hstore Henv
                  ltac:(by left) Hfuel Hrun) as Halloc.
    destruct (alloc_has_slot env fuel st ps Hholds Hstore Hm Hquick Hslow)
      as (st1 & n & Hrun1 & Hn). rewrite Halloc in Hrun1. injection Hrun1 as _ <-. done.
Qed.

(** The allocator is as good for a state with the same arena and the
    same mapped addresses. *)
Lemma allocator_ok_same env st st' :
  node_buf (lst st') = node_buf (lst st) → max_nodes (lst st') = max_nodes (lst st) →
  (∀ q, is_Some (mem st' !! q) ↔ is_Some (mem st !! q)) →
  allocator_ok cfg env st → allocator_ok cfg env st'.
Proof.
  intros Hb Hn Hdom (Hmalloc & Hrealloc & Hrb). split; [| split; [| exact Hrb]].
  - destruct Hmalloc as [H0 | (Hpos & Hfresh & Hout)]; [by left | right].
    split; [exact Hpos |]. split.
    + apply eq_None_not_Some. rewrite Hdom. by rewrite Hfresh; intros [? ?].
    + by rewrite (is_static_node_same cfg (lst st) (lst st')).
  - rewrite Hb, Hn. exact Hrealloc.
Qed.

End Lifecycle.

(** X20.  [zerolist_reinit] of a fixed arena succeeds whatever the list
    holds: the list is empty and well formed with the capacity it had, with
    the fast allocator every slot is back on the free stack, and the next
    [zerolist_push_back] succeeds and gives a list of that one payload. *)
Theorem zerolist_reinit_restores cfg env n d fuel st (ps : list Z) :
  config_ok cfg = true →
  ZEROLIST_USE_MALLOC cfg = false → ZEROLIST_STATIC_DYNAMIC_EXPAND cfg = false →
  wf cfg st ps → allocator_ok cfg env st → (0 < fuel)%nat →
  ∃ st', zerolist_reinit cfg env n st = Ok (st', true)
    ∧ wf cfg st' []
    ∧ ZEROLIST_FOR_EACH fuel st' = Ok []
    ∧ zerolist_get_max_nodes cfg (lst st') = max_nodes (lst st)
    ∧ (ZEROLIST_FAST_ALLOC cfg = true → free_top (lst st') = max_nodes (lst st))
    ∧ ∃ st'', zerolist_push_back cfg env fuel d st' = Ok (st'', true)
              ∧ ZEROLIST_FOR_EACH (S fuel) st'' = Ok [d].
Proof.
  intros Hok Hm He (_ & _ & _ & Hstore) Henv Hfuel.
  destruct (reinit_spec cfg Hok env n st ps Hm He Hstore)
    as (st' & Hrun & Hwf & Hb & Hn & Htop & Hdom).
  destruct (proj2 Hstore Hm) as (Hbuf & Hmax & _).
  exists st'. split; [exact Hrun |]. split; [exact Hwf |].
  split; [| split; [| split; [exact Htop |]]].
  - unfold ZEROLIST_FOR_EACH. destruct Hwf as ((_ & ->) & _). reflexivity.
  - unfold zerolist_get_max_nodes. rewrite Hm, He, Hb, Hn.
    destruct (node_buf (lst st) =? 0) eqn:E; [apply Z.eqb_eq in E; lia | reflexivity].
  - destruct (push_back_succeeds cfg Hok env fuel d st' [] Hwf) as (st'' & ps' & Hpush & Hwf' & Hlen & Hpay).
    + by apply (allocator_ok_same cfg env st st').
    + cbn. lia.
    + exact Hm.
    + intros _. cbn. pose proof (TYPE_MAX_pos cfg Hok). lia.
    + intros Hf. rewrite (Htop Hf). lia.
    + intros _. exists 0. rewrite Hn. split; [lia | set_solver].
    + exists st''. split; [exact Hpush |]. cbn [payloads map app] in Hpay. rewrite <- Hpay.
      apply (traversal_of cfg); [exact Hwf' | cbn [length] in Hlen; lia].
Qed.

(** Without a node buffer, or with an empty free stack in a build that
    has nowhere else to turn, every insertion into an empty list is refused. *)
Lemma no_slot_refuses cfg env fuel op s :
  ZEROLIST_USE_MALLOC cfg = false → head (lst s) = 0 →
  node_buf (lst s) = 0
  ∨ (ZEROLIST_FAST_ALLOC cfg = true ∧ free_top (lst s) = 0
     ∧ ZEROLIST_STATIC_DYNAMIC_EXPAND cfg = false
     ∧ ZEROLIST_STATIC_FALLBACK_MALLOC cfg = false) →
  run_insertion cfg env fuel op s = Ok (s, false).
Proof.
  intros Hm Hh Hcase.
  assert (Halloc : _zerolist_alloc_node cfg env fuel s = Ok (s, 0)).
  { unfold _zerolist_alloc_node. rewrite Hm.
    destruct Hcase as [Hb | (Hf & Ht & He & Hfb)]; [by rewrite Hb |].
    destruct ((node_buf (lst s) =? 0) || (max_nodes (lst s) =? 0)); [reflexivity |].
    unfold _ZEROLIST_TRY_ALLOC_STATIC, _ZEROLIST_ALLOC_FROM_STACK. rewrite Hf, Ht.
    cbn [Z.ltb Z.compare rbind]. by rewrite He, Hfb. }
  assert (Hins : ∀ pos d before,
            _zerolist_insert_internal cfg env fuel pos d before s = Ok (s, false)).
  { intros pos d before. unfold _zerolist_insert_internal. by rewrite Halloc. }
  destruct op as [d | d | t d]; cbn [run_insertion].
  - apply Hins.
  - apply Hins.
  - unfold zerolist_insert_before. by rewrite Hh.
Qed.

(** X21.  [zerolist_destroy] returns on every well-formed list and leaves
    it empty.  In the growable builds the node buffer is released and the
    capacity reads 0; in the other builds the list stays well formed with
    the capacity it had.  In the growable builds, and in the fixed builds
    with the fast allocator and no heap fallback, every insertion is refused
    afterwards until the list is initialised again. *)
Theorem zerolist_destroy_spec cfg fuel st (ps : list Z) :
  config_ok cfg = true → wf cfg st ps → (length ps < fuel)%nat →
  ∃ st', zerolist_destroy cfg fuel st = Ok st'
    ∧ ZEROLIST_FOR_EACH fuel st' = Ok []
    ∧ zerolist_size cfg fuel st' = Ok 0
    ∧ (ZEROLIST_STATIC_DYNAMIC_EXPAND cfg = true →
       zerolist_get_max_nodes cfg (lst st') = 0
       ∧ ∀ i, 0 ≤ i < max_nodes (lst st) →
           mem st' !! slot cfg (node_buf (lst st)) i = None)
    ∧ (ZEROLIST_STATIC_DYNAMIC_EXPAND cfg = false →
       wf cfg st' []
       ∧ zerolist_get_max_nodes cfg (lst st') = zerolist_get_max_nodes cfg (lst st))
    ∧ (ZEROLIST_STATIC_DYNAMIC_EXPAND cfg = true
       ∨ (ZEROLIST_USE_MALLOC cfg = false ∧ ZEROLIST_FAST_ALLOC cfg = true
          ∧ ZEROLIST_STATIC_FALLBACK_MALLOC cfg = false) →
       ∀ env op, run_insertion cfg env fuel op st' = Ok (st', false)).
Proof.
  intros Hok Hwf Hfuel.
  destruct (clear_spec cfg Hok st ps fuel Hwf Hfuel) as (s1 & Hrun & Hwf1 & Hb1 & Hn1 & _).
  pose proof Hwf1 as ((_ & Hh1) & Hsz1 & _ & Hstore1). cbn [hd] in Hh1.
  assert (Hempty : ∀ s, head (lst s) = 0 → (ZEROLIST_SIZE_ENABLE cfg = true → size (lst s) = 0) →
            ZEROLIST_FOR_EACH fuel s = Ok [] ∧ zerolist_size cfg fuel s = Ok 0).
  { intros s Hh Hs. unfold ZEROLIST_FOR_EACH, zerolist_size. rewrite Hh. cbn [Z.eqb].
    split; [reflexivity |]. destruct (ZEROLIST_SIZE_ENABLE cfg); [| reflexivity].
    by rewrite Hs. }
  unfold zerolist_destroy. rewrite Hrun. cbn [rbind].
  destruct (ZEROLIST_USE_MALLOC cfg) eqn:Hm.
  { assert (He : ZEROLIST_STATIC_DYNAMIC_EXPAND cfg = false).
    { destruct (ZEROLIST_STATIC_DYNAMIC_EXPAND cfg) eqn:He; [| reflexivity].
      destruct (config_ok_expand cfg Hok He). congruence. }
    exists s1. split; [reflexivity |].
    destruct (Hempty s1 Hh1 Hsz1) as [H1 H2]. split; [exact H1 |]. split; [exact H2 |].
    split; [congruence |]. split.
    - intros _. split; [exact Hwf1 |]. unfold zerolist_get_max_nodes. by rewrite Hm.
    - intros [E | (E & _)]; congruence. }
  destruct (proj2 Hstore1 Hm) as (Hbuf & Hmax & _ & _ & Hstack).
  destruct (ZEROLIST_STATIC_DYNAMIC_EXPAND cfg) eqn:He.
  - destruct (node_buf (lst s1) =? 0) eqn:E; [apply Z.eqb_eq in E; lia |].
    eexists. split; [reflexivity |].
    match goal with
    | |- ZEROLIST_FOR_EACH _ ?s = _ ∧ _ => set (st' := s)
    end.
    assert (Hfields : head (lst st') = 0 ∧ node_buf (lst st') = 0
                      ∧ (ZEROLIST_SIZE_ENABLE cfg = true → size (lst st') = 0)
                      ∧ mem st' = mem_free_buf cfg (node_buf (lst s1)) (max_nodes (lst s1)) (mem s1)).
    { unfold st'. destruct (ZEROLIST_SIZE_ENABLE cfg), (ZEROLIST_FAST_ALLOC cfg); done. }
    destruct Hfields as (Hh & Hb & Hs & Hmem).
    destruct (Hempty st' Hh Hs) as [H1 H2]. split; [exact H1 |]. split; [exact H2 |].
    split; [| split; [discriminate |]].
    + intros _. split.
      * unfold zerolist_get_max_nodes. by rewrite Hm, Hb.
      * intros i Hi. rewrite Hmem, Hb1, Hn1. unfold mem_free_buf.
        replace i with (0 + i) at 1 by lia. apply (mem_free_from_in cfg Hok). lia.
    + intros _ env op. apply no_slot_refuses; [exact Hm | exact Hh | by left].
  - eexists. split; [reflexivity |].
    match goal with
    | |- ZEROLIST_FOR_EACH _ ?s = _ ∧ _ => set (st' := s)
    end.
    assert (Hfields : head (lst st') = 0 ∧ size (lst st') = size (lst s1)
                      ∧ node_buf (lst st') = node_buf (lst s1)
                      ∧ max_nodes (lst st') = max_nodes (lst s1)
                      ∧ free_stack (lst st') = free_stack (lst s1)
                      ∧ mem st' = mem s1
                      ∧ (ZEROLIST_FAST_ALLOC cfg = true → free_top (lst st') = 0)).
    { unfold st'. destruct (ZEROLIST_FAST_ALLOC cfg) eqn:Hf.
      - destruct (Hstack eq_refl) as (stk & Hstk & _).
        rewrite bool_decide_eq_true_2 by (rewrite Hstk; eauto). done.
      - done. }
    destruct Hfields as (Hh & Hs & Hb & Hn & Hstk & Hmem & Htop).
    assert (Hsz : ZEROLIST_SIZE_ENABLE cfg = true → size (lst st') = 0).
    { intros Hse. rewrite Hs. by apply Hsz1. }
    destruct (Hempty st' Hh Hsz) as [H1 H2]. split; [exact H1 |]. split; [exact H2 |].
    split; [discriminate |]. split.
    + intros _. split.
      * split; [split; [apply ring_nil | exact Hh] |]. split; [exact Hsz |].
        split; [cbn; pose proof (TYPE_MAX_pos cfg Hok); lia |].
        split; [intros p Hp; set_solver |]. intros _.
        destruct (proj2 Hstore1 Hm) as (_ & _ & Hslots & _ & _).
        unfold arena_inv. rewrite Hb, Hn, Hmem. split; [exact Hbuf |]. split; [exact Hmax |].
        split; [exact Hslots |]. split; [intros p Hp; set_solver |].
        intros Hf. destruct (Hstack Hf) as (stk & Hstk1 & _ & Hlen & _).
        exists stk. rewrite Hstk, Hn, (Htop Hf). split; [exact Hstk1 |].
        split; [lia |]. split; [exact Hlen |]. cbn [Z.to_nat take].
        split; [constructor | intros idx Hidx; set_solver].
      * unfold zerolist_get_max_nodes. by rewrite Hb, Hn, Hb1, Hn1.
    + intros [E | (_ & Hf & Hfb)] env op; [discriminate |].
      apply no_slot_refuses; [exact Hm | exact Hh | right]. by rewrite (Htop Hf).
Qed.

Section Init.
Variable cfg : config.
Hypothesis cfg_ok : config_ok cfg = true.

(** The loop of [zerolist_init_expand] and of [list_init_dynamic_expand]
    over a mapped buffer, with and without the free stack. *)
Lemma init_loop_wf buf n s0 :
  0 < buf → 0 < n ≤ TYPE_MAX cfg →
  (∀ i, 0 ≤ i < n → is_Some (mem s0 !! slot cfg buf i)) →
  head (lst s0) = 0 → (ZEROLIST_SIZE_ENABLE cfg = true → size (lst s0) = 0) →
  node_buf (lst s0) = buf → max_nodes (lst s0) = n →
  (ZEROLIST_FAST_ALLOC cfg = true →
   free_top (lst s0) = n ∧ ∃ l, free_stack (lst s0) = Some l ∧ n ≤ Z.of_nat (length l)) →
  ∃ s', for_loop (Z.to_nat n) 0 (init_slot cfg buf n) s0 = Ok s'
    ∧ wf cfg s' []
    ∧ node_buf (lst s') = buf ∧ max_nodes (lst s') = n
    ∧ (ZEROLIST_FAST_ALLOC cfg = true → free_top (lst s') = n)
    ∧ (∀ q, is_Some (mem s' !! q) ↔ is_Some (mem s0 !! q)).
Proof.
  intros Hbuf Hn Hmapped Hhead Hsize Hb Hmx Hfast.
  destruct (for_loop_inv
    (λ j s, head (lst s) = 0 ∧ (ZEROLIST_SIZE_ENABLE cfg = true → size (lst s) = 0)
            ∧ node_buf (lst s) = buf ∧ max_nodes (lst s) = n
            ∧ (∀ q, is_Some (mem s !! q) ↔ is_Some (mem s0 !! q))
            ∧ (∀ i, 0 ≤ i < j → ∃ c, mem s !! slot cfg buf i = Some c ∧ in_use c = false)
            ∧ (ZEROLIST_FAST_ALLOC cfg = true →
               free_top (lst s) = n
               ∧ ∃ l, free_stack (lst s) = Some l ∧ n ≤ Z.of_nat (length l)
                      ∧ ∀ i, 0 ≤ i < j → l !! Z.to_nat i = Some (n - 1 - i)))
    (init_slot cfg buf n) (Z.to_nat n) 0 s0) as (s' & Hloop & HP).
  - split; [exact Hhead |]. split; [exact Hsize |]. split; [exact Hb |]. split; [exact Hmx |].
    split; [done |]. split; [intros; lia |]. intros Hf.
    destruct (Hfast Hf) as (Ht & l & Hl & Hlen). split; [exact Ht |].
    exists l. split; [exact Hl |]. split; [exact Hlen |]. intros; lia.
  - intros j s Hj (Hh & Hs & Hb' & Hn' & Hdom & Hfl & Hstk).
    assert (Hc : is_Some (mem s !! slot cfg buf j)) by (apply Hdom, Hmapped; lia).
    destruct Hc as [c Hc].
    assert (Hdom' : ∀ f q, is_Some (<[slot cfg buf j := f c]> (mem s) !! q)
                           ↔ is_Some (mem s0 !! q)).
    { intros f q. rewrite lookup_insert_is_Some', <- Hdom. split; [| tauto].
      intros [<- | H]; [eauto | exact H]. }
    assert (Hfl' : ∀ i, 0 ≤ i < j + 1 →
              ∃ c', <[slot cfg buf j := set_flags false (to_index_field cfg j) c]> (mem s)
                    !! slot cfg buf i = Some c' ∧ in_use c' = false).
    { intros i Hi. destruct (decide (i = j)) as [-> | Hne].
      - rewrite lookup_insert_eq. eauto.
      - rewrite lookup_insert_ne by (intros E; apply (slot_inj cfg cfg_ok) in E; lia).
        apply Hfl. lia. }
    unfold init_slot. destruct (ZEROLIST_FAST_ALLOC cfg) eqn:Hf.
    + destruct (Hstk eq_refl) as (Ht & l & Hl & Hlen & Hent).
      unfold stack_set. rewrite Hl.
      assert (Hin : (0 <=? j) && (j <? Z.of_nat (length l)) = true).
      { apply andb_true_iff. split; [apply Z.leb_le | apply Z.ltb_lt]; lia. }
      rewrite Hin. cbn [rbind].
      erewrite update_Some by (cbn [mem]; exact Hc).
      eexists. split; [reflexivity |].
      cbn [lst on_mem mem with_free_stack node_buf max_nodes free_top free_stack head size].
      split; [exact Hh |]. split; [exact Hs |]. split; [exact Hb' |]. split; [exact Hn' |].
      split; [apply Hdom' |]. split; [exact Hfl' |]. intros _. split; [exact Ht |].
      eexists. split; [reflexivity |]. split; [by rewrite length_insert |].
      intros i Hi. destruct (decide (i = j)) as [-> | Hne].
      * rewrite list_lookup_insert_eq by lia. f_equal. apply to_TYPE_small. lia.
      * rewrite list_lookup_insert_ne by lia. apply Hent. lia.
    + cbn [rbind]. erewrite update_Some by exact Hc.
      eexists. split; [reflexivity |]. cbn [lst on_mem mem].
      split; [exact Hh |]. split; [exact Hs |]. split; [exact Hb' |]. split; [exact Hn' |].
      split; [apply Hdom' |]. split; [exact Hfl' |]. discriminate.
  - replace (0 + Z.of_nat (Z.to_nat n)) with n in HP by lia.
    destruct HP as (Hh & Hs & Hb' & Hn' & Hdom & Hfl & Hstk).
    exists s'. split; [exact Hloop |].
    split; [| split; [exact Hb' | split; [exact Hn' | split; [| exact Hdom]]]].
    + split; [split; [apply ring_nil | exact Hh] |]. split; [exact Hs |].
      split; [cbn; pose proof (TYPE_MAX_pos cfg cfg_ok); lia |].
      split; [intros p Hp; set_solver |]. intros _.
      unfold arena_inv. rewrite Hb', Hn'. split; [exact Hbuf |]. split; [exact Hn |].
      split; [| split; [intros p Hp; set_solver |]].
      * intros i Hi. destruct (Hfl i Hi) as (c & Hc & Hu). exists c. split; [exact Hc |].
        rewrite Hu. split; [discriminate | set_solver].
      * intros Hf. destruct (Hstk Hf) as (Ht & l & Hl & Hlen & Hent).
        exists l. rewrite Ht, Hn'. split; [exact Hl |]. split; [lia |]. split; [exact Hlen |].
        assert (Hlook : ∀ k : nat, (k < Z.to_nat n)%nat →
                  take (Z.to_nat n) l !! k = Some (n - 1 - Z.of_nat k)).
        { intros k Hk. rewrite lookup_take_lt by lia.
          specialize (Hent (Z.of_nat k) ltac:(lia)). by rewrite Nat2Z.id in Hent. }
        split.
        -- apply NoDup_alt. intros i j x Hi Hj.
           pose proof (lookup_lt_Some _ _ _ Hi) as Hi'.
           pose proof (lookup_lt_Some _ _ _ Hj) as Hj'.
           rewrite length_take in Hi', Hj'.
           rewrite Hlook in Hi, Hj by lia. injection Hi as Hi. injection Hj as Hj. lia.
        -- intros idx Hidx. apply list_elem_of_lookup_1 in Hidx as [k Hk].
           pose proof (lookup_lt_Some _ _ _ Hk) as Hk'. rewrite length_take in Hk'.
           rewrite Hlook in Hk by lia. injection Hk as <-. split; [lia | set_solver].
    + intros Hf. by destruct (Hstk Hf).
Qed.

Lemma init_expand_wf buf stk n st :
  0 < buf → 0 < n ≤ TYPE_MAX cfg →
  (∀ i, 0 ≤ i < n → is_Some (mem st !! slot cfg buf i)) →
  (ZEROLIST_FAST_ALLOC cfg = true → ∃ l, stk = Some l ∧ n ≤ Z.of_nat (length l)) →
  ∃ st', zerolist_init_expand cfg buf stk n st = Ok st'
    ∧ wf cfg st' []
    ∧ node_buf (lst st') = buf ∧ max_nodes (lst st') = n
    ∧ (ZEROLIST_FAST_ALLOC cfg = true → free_top (lst st') = n)
    ∧ (∀ q, is_Some (mem st' !! q) ↔ is_Some (mem st !! q)).
Proof.
  intros Hbuf Hn Hmapped Hstk. unfold zerolist_init_expand.
  destruct (buf =? 0) eqn:E1; [apply Z.eqb_eq in E1; lia |].
  destruct (n =? 0) eqn:E2; [apply Z.eqb_eq in E2; lia |].
  cbn [orb].
  match goal with
  | |- ∃ st', for_loop _ _ _ ?s = _ ∧ _ => set (s0 := s)
  end.
  assert (Hmem0 : mem s0 = mem st).
  { unfold s0. by destruct (ZEROLIST_FAST_ALLOC cfg), (ZEROLIST_SIZE_ENABLE cfg). }
  destruct (init_loop_wf buf n s0 Hbuf Hn) as (s' & Hrun & Hwf & Hb & Hmx & Htop & Hdom).
  - by rewrite Hmem0.
  - unfold s0. by destruct (ZEROLIST_FAST_ALLOC cfg), (ZEROLIST_SIZE_ENABLE cfg).
  - intros Hse. unfold s0. rewrite Hse. by destruct (ZEROLIST_FAST_ALLOC cfg).
  - unfold s0. by destruct (ZEROLIST_FAST_ALLOC cfg), (ZEROLIST_SIZE_ENABLE cfg).
  - unfold s0. by destruct (ZEROLIST_FAST_ALLOC cfg), (ZEROLIST_SIZE_ENABLE cfg).
  - intros Hf. unfold s0. rewrite Hf. destruct (Hstk Hf) as (l & -> & Hlen).
    split; [reflexivity |]. exists l. by split.
  - exists s'. rewrite <- Hmem0. done.
Qed.

End Init.

(** X22.  [zerolist_init_expand] over a buffer of [n] nodes (and, with the
    fast allocator, a stack array of at least [n] entries) returns and
    leaves an empty, well-formed list of capacity [n]: every slot is free,
    with the fast allocator the free stack holds all [n] of them, and no
    address has been mapped or unmapped. *)
Theorem zerolist_init_expand_spec cfg buf stk n fuel st :
  config_ok cfg = true →
  0 < buf → 0 < n ≤ TYPE_MAX cfg →
  (∀ i, 0 ≤ i < n → is_Some (mem st !! slot cfg buf i)) →
  (ZEROLIST_FAST_ALLOC cfg = true → ∃ l, stk = Some l ∧ n ≤ Z.of_nat (length l)) →
  ∃ st', zerolist_init_expand cfg buf stk n st = Ok st'
    ∧ wf cfg st' []
    ∧ node_buf (lst st') = buf ∧ max_nodes (lst st') = n
    ∧ ZEROLIST_FOR_EACH fuel st' = Ok []
    ∧ (ZEROLIST_FAST_ALLOC cfg = true → free_top (lst st') = n)
    ∧ (∀ q, is_Some (mem st' !! q) ↔ is_Some (mem st !! q)).
Proof.
  intros Hok Hbuf Hn Hmapped Hstk.
  destruct (init_expand_wf cfg Hok buf stk n st Hbuf Hn Hmapped Hstk)
    as (st' & Hrun & Hwf & Hb & Hmx & Htop & Hdom).
  exists st'. split; [exact Hrun |]. split; [exact Hwf |]. split; [exact Hb |].
  split; [exact Hmx |]. split; [| by split].
  unfold ZEROLIST_FOR_EACH. destruct Hwf as ((_ & ->) & _). reflexivity.
Qed.

(** X23.  With the fast allocator [zerolist_init_expand] writes through
    the stack pointer without testing it: given a NULL stack and a buffer of
    at least one node it faults. *)
Theorem zerolist_init_expand_null_stack cfg buf n st :
  ZEROLIST_FAST_ALLOC cfg = true → buf ≠ 0 → 0 < n →
  zerolist_init_expand cfg buf None n st = Fault.
Proof.
  intros Hf Hbuf Hn. unfold zerolist_init_expand.
  apply Z.eqb_neq in Hbuf. rewrite Hbuf.
  destruct (n =? 0) eqn:E; [apply Z.eqb_eq in E; lia |]. cbn [orb]. rewrite Hf.
  destruct (Z.to_nat n) as [| k] eqn:Ek; [lia |].
  cbn [for_loop]. unfold init_slot at 1, stack_set. rewrite Hf.
  by destruct (ZEROLIST_SIZE_ENABLE cfg).
Qed.

(** X24.  [list_init_dynamic_expand] returns.  It answers true exactly
    when the size is not 0 and the allocator gave the buffer (and, with the
    fast allocator, the stack array); then the list is empty and well formed
    with that capacity and every slot free.  When it answers false the list
    is as it was. *)
Theorem list_init_dynamic_expand_spec cfg env n fuel st :
  config_ok cfg = true → 0 ≤ n ≤ TYPE_MAX cfg → 0 ≤ env_malloc env →
  ∃ st' b, list_init_dynamic_expand cfg env n st = Ok (st', b)
    ∧ (b = true ↔ n ≠ 0 ∧ env_malloc env ≠ 0
                  ∧ (ZEROLIST_FAST_ALLOC cfg = true → env_malloc_stack env = true))
    ∧ (b = false → st' = st)
    ∧ (b = true →
       wf cfg st' []
       ∧ node_buf (lst st') = env_malloc env ∧ max_nodes (lst st') = n
       ∧ ZEROLIST_FOR_EACH fuel st' = Ok []
       ∧ (ZEROLIST_FAST_ALLOC cfg = true → free_top (lst st') = n)).
Proof.
  intros Hok Hn Hb. unfold list_init_dynamic_expand.
  destruct (n =? 0) eqn:E1.
  { apply Z.eqb_eq in E1. exists st, false. split; [reflexivity |].
    split; [split; [discriminate | tauto] |]. split; [done | discriminate]. }
  destruct (env_malloc env =? 0) eqn:E2.
  { apply Z.eqb_eq in E2. exists st, false. split; [reflexivity |].
    split; [split; [discriminate | tauto] |]. split; [done | discriminate]. }
  destruct (ZEROLIST_FAST_ALLOC cfg && negb (env_malloc_stack env)) eqn:E3.
  { apply andb_true_iff in E3 as [Hf Hs]. apply negb_true_iff in Hs.
    exists st, false. split; [reflexivity |].
    split; [split; [discriminate | intros (_ & _ & H); specialize (H Hf); congruence] |].
    split; [done | discriminate]. }
  apply Z.eqb_neq in E1, E2.
  match goal with
  | |- ∃ st' b, (let* s := for_loop _ _ _ ?s in _) = _ ∧ _ => set (s0 := s)
  end.
  assert (Hmem0 : mem s0 = mem_malloc_buf cfg (garbage env) (env_malloc env) n (mem st)).
  { unfold s0. by destruct (ZEROLIST_FAST_ALLOC cfg), (ZEROLIST_SIZE_ENABLE cfg). }
  destruct (init_loop_wf cfg Hok (env_malloc env) n s0) as (s' & Hrun & Hwf & Hb' & Hmx & Htop & _).
  - lia.
  - lia.
  - intros i Hi. rewrite Hmem0, (mem_malloc_buf_in cfg Hok) by lia. eauto.
  - unfold s0. by destruct (ZEROLIST_FAST_ALLOC cfg), (ZEROLIST_SIZE_ENABLE cfg).
  - intros Hse. unfold s0. rewrite Hse. by destruct (ZEROLIST_FAST_ALLOC cfg).
  - unfold s0. by destruct (ZEROLIST_FAST_ALLOC cfg), (ZEROLIST_SIZE_ENABLE cfg).
  - unfold s0. by destruct (ZEROLIST_FAST_ALLOC cfg), (ZEROLIST_SIZE_ENABLE cfg).
  - intros Hf. unfold s0. rewrite Hf. split; [reflexivity |]. eexists. split; [reflexivity |].
    rewrite stack_realloc_length; lia.
  - rewrite Hrun. cbn [rbind]. exists s', true. split; [reflexivity |].
    split; [| split; [discriminate |]].
    + split; [| done]. intros _. split; [exact E1 |]. split; [exact E2 |].
      intros Hf. rewrite Hf in E3. cbn in E3. by apply negb_false_iff in E3.
    + intros _. split; [exact Hwf |]. split; [exact Hb' |]. split; [exact Hmx |].
      split; [| exact Htop].
      unfold ZEROLIST_FOR_EACH. destruct Hwf as ((_ & ->) & _). reflexivity.
Qed.


(** ** Free-stack accounting in the arena-only builds *)

Lemma init_node_fields cfg node idx s s' :
  init_node cfg node idx s = Ok s' → lst s' = lst s.
Proof.
  unfold init_node, _ZEROLIST_NODE_SET_IN_USE.
  destruct (update node (set_next node) s) as [s1 | |] eqn:E1; cbn [rbind]; try discriminate.
  destruct (update node (set_prev node) s1) as [s2 | |] eqn:E2; cbn [rbind]; try discriminate.
  apply update_fields in E1, E2.
  destruct (node =? 0); cbn [rbind].
  - intros E3. apply update_fields in E3. congruence.
  - destruct (update node (set_flags true (to_index_field cfg idx)) s2) as [s3 | |] eqn:E3;
      cbn [rbind]; try discriminate.
    apply update_fields in E3. intros E4. apply update_fields in E4. congruence.
Qed.

Lemma detach_node_fields c s s' :
  _zerolist_detach_node c s = Ok s' → same_store (lst s) (lst s').
Proof.
  assert (Hrefl : ∀ l, same_store l l) by (intros l; by repeat split).
  assert (Hhead : ∀ v x, same_store (lst x) (lst (on_lst (with_head v) x)))
    by (intros v x; by repeat split).
  unfold _zerolist_detach_node.
  destruct (c =? 0); [intros [= <-]; apply Hrefl |].
  destruct (load s c) as [n | |]; cbn [rbind]; try discriminate.
  destruct (next n =? c); [intros [= <-]; apply Hhead |].
  destruct ((prev n =? 0) || (next n =? 0)).
  { destruct (c =? head (lst s)); intros [= <-]; [apply Hhead | apply Hrefl]. }
  destruct (update (prev n) (set_next (next n)) s) as [s1 | |] eqn:E1; cbn [rbind];
    try discriminate.
  destruct (load s1 c) as [n1 | |]; cbn [rbind]; try discriminate.
  destruct (update (next n1) (set_prev (prev n1)) s1) as [s2 | |] eqn:E2; cbn [rbind];
    try discriminate.
  apply update_fields in E1, E2.
  destruct (c =? head (lst s2)).
  - destruct (load s2 c) as [n2 | |]; cbn [rbind]; try discriminate.
    intros [= <-]. cbn. rewrite E2, E1. by repeat split.
  - intros [= <-]. rewrite E2, E1. apply Hrefl.
Qed.

Section Accounting.
Variable cfg : config.
Hypothesis cfg_ok : config_ok cfg = true.
Hypothesis static : ZEROLIST_USE_MALLOC cfg = false.
Hypothesis fast : ZEROLIST_FAST_ALLOC cfg = true.
Hypothesis pure : ZEROLIST_STATIC_FALLBACK_MALLOC cfg = false.

(** The free slots on the stack and the live nodes are different slots
    of the arena, so together they are no more than its capacity. *)
Lemma stack_room st (ps : list Z) :
  holds st ps → store_inv cfg st ps →
  free_top (lst st) + Z.of_nat (length ps) ≤ max_nodes (lst st).
Proof.
  intros Hholds Hstore.
  destruct (proj2 Hstore static) as (Hbuf & Hmax & _ & Hwhere & Hstack).
  destruct (Hstack fast) as (stk & Hstk & Hrange & Hlen & Hnd & Hent).
  set (free := take (Z.to_nat (free_top (lst st))) stk) in *.
  assert (Hfl : Z.of_nat (length free) = free_top (lst st)).
  { unfold free. rewrite length_take. lia. }
  pose proof (slots_bounded cfg cfg_ok (lst st) ((slot cfg (node_buf (lst st)) <$> free) ++ ps))
    as Hb.
  rewrite length_app, length_fmap in Hb.
  assert (Z.of_nat (length free + length ps) ≤ Z.max 0 (max_nodes (lst st))); [| lia].
  apply Hb.
  - apply NoDup_app. split; [| split].
    + apply NoDup_fmap_2_strong; [| exact Hnd].
      intros x y _ _ E. by apply (slot_inj cfg cfg_ok) in E.
    + intros p Hp Hp'. apply list_elem_of_fmap in Hp as (i & -> & Hi).
      by apply (Hent i Hi).
    + apply (ring_NoDup _ _ (proj1 Hholds)).
  - intros p Hp. apply elem_of_app in Hp as [Hp | Hp].
    + apply list_elem_of_fmap in Hp as (i & -> & Hi). exists i.
      split; [by apply (Hent i Hi) | reflexivity].
    + destruct (Hwhere p Hp) as [H | [H _]]; [exact H | congruence].
Qed.

(** With a slot on the free stack [_zerolist_alloc_node] pops it, whatever
    the allocator would answer. *)
Lemma alloc_pops fuel st (ps : list Z) :
  holds st ps → store_inv cfg st ps → 0 < free_top (lst st) →
  ∃ st1 n, (∀ env, _zerolist_alloc_node cfg env fuel st = Ok (st1, n))
           ∧ n ≠ 0 ∧ free_top (lst st1) = free_top (lst st) - 1
           ∧ max_nodes (lst st1) = max_nodes (lst st).
Proof.
  intros Hholds Hstore Htop.
  pose proof (proj2 Hstore static) as Ha. pose proof Ha as (Hbuf & Hmax & Hslots & _).
  destruct (stack_pop_spec cfg cfg_ok st ps Ha fast Htop) as (idx & Hrun & Hidx & _).
  destruct (Hslots idx Hidx) as (c & Hc & _).
  pose proof (slot_ge cfg cfg_ok (node_buf (lst st)) idx ltac:(lia)) as Hge.
  eexists _, (slot cfg (node_buf (lst st)) idx).
  split; [| split; [lia |]].
  - intros env. unfold _zerolist_alloc_node. rewrite static.
    destruct (node_buf (lst st) =? 0) eqn:E1; [apply Z.eqb_eq in E1; lia |].
    destruct (max_nodes (lst st) =? 0) eqn:E2; [apply Z.eqb_eq in E2; lia |].
    cbn [orb]. unfold _ZEROLIST_TRY_ALLOC_STATIC. rewrite fast, Hrun. cbn [rbind].
    rewrite (init_node_Some cfg _ _ _ c) by (cbn [mem on_lst]; first [lia | exact Hc]).
    cbn [rbind]. reflexivity.
  - done.
Qed.

(** ... and so an insertion takes exactly one slot from the stack. *)
Lemma insert_takes_slot env fuel pos d before st (ps : list Z) :
  wf cfg st ps → pos = 0 ∨ pos ∈ ps → (length ps < fuel)%nat → 0 < free_top (lst st) →
  ∃ st', _zerolist_insert_internal cfg env fuel pos d before st = Ok (st', true)
    ∧ free_top (lst st') = free_top (lst st) - 1
    ∧ max_nodes (lst st') = max_nodes (lst st)
    ∧ ∃ ps', wf cfg st' ps' ∧ length ps' = S (length ps).
Proof.
  intros Hwf Hpos Hfuel Htop. pose proof Hwf as (Hholds & _ & _ & Hstore).
  destruct (alloc_pops fuel st ps Hholds Hstore Htop) as (st1 & n & Halloc & Hn & Hft & Hmx).
  set (env0 := mk_allocator 0 0).
  assert (Henv0 : allocator_ok cfg env0 st).
  { split; [by left |]. split; [intros; by left | done]. }
  assert (Hsame : _zerolist_insert_internal cfg env fuel pos d before st
                  = _zerolist_insert_internal cfg env0 fuel pos d before st).
  { unfold _zerolist_insert_internal. by rewrite (Halloc env), (Halloc env0). }
  rewrite Hsame.
  destruct (insert_internal_spec cfg cfg_ok env0 fuel pos d before st ps Hwf Henv0 Hpos Hfuel)
    as (st' & b & Hrun & Hfalse & Htrue).
  { intros [E | E]; congruence. }
  destruct b.
  - destruct (Htrue eq_refl)
      as (n' & ps1 & pos' & Hwf' & Hlen & Hnd & H0 & Hnotin & _ & _ & Hp0 & Hposs & st1' & Hrun1
          & _ & Hstore').
    rewrite (Halloc env0) in Hrun1. injection Hrun1 as <- <-.
    destruct Hstore' as (_ & Hm' & Ht' & _).
    exists st'. split; [exact Hrun |]. split; [congruence |]. split; [congruence |].
    eexists. split; [exact Hwf' |].
    rewrite (Permutation_length (inserted_Permutation before pos' n ps1 Hnd
               ltac:(destruct Hpos as [-> | Hin];
                     [left; by apply Hp0
                     | right; apply list_elem_of_lookup_1 in Hin as [i Hi];
                       eapply list_elem_of_lookup_2; by apply Hposs]) H0)).
    cbn [length]. by rewrite Hlen.
  - specialize (Hfalse eq_refl). rewrite (Halloc env0) in Hfalse. injection Hfalse as _ ->. done.
Qed.

(** Releasing a slot of the arena pushes it onto the stack when there is
    room. *)
Lemma free_node_pushes s (live : list Z) idx s' :
  store_inv cfg s live → 0 ≤ idx < max_nodes (lst s) →
  free_top (lst s) < max_nodes (lst s) →
  zerolist_free_node cfg (slot cfg (node_buf (lst s)) idx) s = Ok s' →
  free_top (lst s') = free_top (lst s) + 1 ∧ max_nodes (lst s') = max_nodes (lst s).
Proof.
  intros Hstore Hidx Hroom.
  destruct (proj2 Hstore static) as (Hbuf & Hmax & _ & _ & Hstack).
  destruct (Hstack fast) as (stk & Hstk & Hrange & Hlen & _).
  pose proof (slot_ge cfg cfg_ok (node_buf (lst s)) idx ltac:(lia)) as Hge.
  unfold zerolist_free_node.
  destruct (slot cfg (node_buf (lst s)) idx =? 0) eqn:E0; [apply Z.eqb_eq in E0; lia |].
  rewrite static, pure, (calc_node_index_slot cfg cfg_ok) by lia.
  unfold _ZEROLIST_FREE_STATIC_NODE, _ZEROLIST_NODE_SET_FREE. rewrite E0, fast.
  repeat match goal with
         | |- context [update ?p ?f ?x] =>
             let E := fresh "E" in
             destruct (update p f x) as [? | |] eqn:E; cbn [rbind]; try discriminate;
             apply update_fields in E
         end.
  unfold _ZEROLIST_FREE_TO_STACK, stack_set.
  match goal with
  | |- context [free_stack (lst ?x)] =>
      assert (Hl : lst x = lst s) by congruence; rewrite Hl, Hstk
  end.
  rewrite bool_decide_eq_true_2 by eauto.
  destruct (free_top (lst s) <? max_nodes (lst s)) eqn:E5; [| apply Z.ltb_ge in E5; lia].
  destruct (idx <? max_nodes (lst s)) eqn:E6; [| apply Z.ltb_ge in E6; lia].
  cbn [andb].
  assert (Hin : (0 <=? free_top (lst s)) && (free_top (lst s) <? Z.of_nat (length stk)) = true).
  { apply andb_true_iff. split; [apply Z.leb_le | apply Z.ltb_lt]; lia. }
  rewrite Hin. cbn [rbind]. intros [= <-]. cbn. rewrite to_TYPE_small by lia. done.
Qed.

(** A removal gives exactly one slot back. *)
Lemma decr_detach_free_top st (ps : list Z) c s1 s2 :
  wf cfg st ps → c ∈ ps →
  _zerolist_detach_node c (size_decr cfg st) = Ok s1 →
  zerolist_free_node cfg c s1 = Ok s2 →
  free_top (lst s2) = free_top (lst st) + 1 ∧ max_nodes (lst s2) = max_nodes (lst st).
Proof.
  intros (Hholds & _ & _ & Hstore) Hc Hrun1 Hrun2.
  pose proof (stack_room st ps Hholds Hstore) as Hroom.
  assert (Hlen : (0 < length ps)%nat) by (destruct ps; [set_solver | cbn; lia]).
  destruct (proj2 Hstore static) as (_ & _ & _ & Hwhere & _).
  destruct (Hwhere c Hc) as [(idx & Hidx & Hcs) | [H _]]; [| congruence].
  destruct (detach_keeps cfg (size_decr cfg st) ps c (holds_size_decr _ _ _ Hholds)
              (store_inv_size_decr _ _ _ Hstore) Hc) as (s1' & Hrun1' & _ & Hstore1 & _).
  rewrite Hrun1 in Hrun1'. injection Hrun1' as <-.
  apply detach_node_fields in Hrun1 as (Hb1 & Hm1 & Ht1 & _).
  assert (Hsd : node_buf (lst (size_decr cfg st)) = node_buf (lst st)
                ∧ max_nodes (lst (size_decr cfg st)) = max_nodes (lst st)
                ∧ free_top (lst (size_decr cfg st)) = free_top (lst st)).
  { unfold size_decr. by destruct (ZEROLIST_SIZE_ENABLE cfg). }
  destruct Hsd as (Hb0 & Hm0 & Ht0).
  rewrite Hcs, <- Hb0, <- Hb1 in Hrun2.
  destruct (free_node_pushes s1 ps idx s2 Hstore1) as [H1 H2]; [lia | lia | exact Hrun2 |].
  split; congruence.
Qed.

Lemma null_allocator_ok st : allocator_ok cfg (mk_allocator 0 0) st.
Proof. split; [by left |]. split; [intros; by left | done]. Qed.

(** With a slot on the free stack the allocator is not consulted. *)
Lemma insert_ignores_allocator env env' fuel pos d before st (ps : list Z) :
  holds st ps → store_inv cfg st ps → 0 < free_top (lst st) →
  _zerolist_insert_internal cfg env fuel pos d before st
  = _zerolist_insert_internal cfg env' fuel pos d before st.
Proof.
  intros Hholds Hstore Htop.
  destruct (alloc_pops fuel st ps Hholds Hstore Htop) as (st1 & n & Halloc & _).
  unfold _zerolist_insert_internal. by rewrite (Halloc env), (Halloc env').
Qed.

Lemma push_back_takes_slot env fuel d st (ps : list Z) :
  wf cfg st ps → (length ps < fuel)%nat → 0 < free_top (lst st) →
  ∃ st' ps', zerolist_push_back cfg env fuel d st = Ok (st', true)
    ∧ wf cfg st' ps' ∧ length ps' = S (length ps)
    ∧ payloads (mem st') ps' = payloads (mem st) ps ++ [d]
    ∧ free_top (lst st') = free_top (lst st) - 1
    ∧ max_nodes (lst st') = max_nodes (lst st).
Proof.
  intros Hwf Hfuel Htop. pose proof Hwf as (Hholds & _ & _ & Hstore).
  destruct (insert_takes_slot env fuel 0 d false st ps Hwf ltac:(by left) Hfuel Htop)
    as (st' & Hrun & Hft & Hmx & _).
  destruct (push_back_payloads cfg cfg_ok (mk_allocator 0 0) fuel d st ps Hwf
              (null_allocator_ok st) Hfuel) as (st2 & b & Hrun2 & Hpost).
  { intros [E | E]; congruence. }
  unfold zerolist_push_back in *.
  rewrite (insert_ignores_allocator _ env fuel 0 d false st ps Hholds Hstore Htop) in Hrun2.
  rewrite Hrun in Hrun2. injection Hrun2 as <- <-.
  destruct (Hpost eq_refl) as (ps' & Hwf' & Hlen & Hpay).
  by exists st', ps'.
Qed.

Lemma push_front_takes_slot env fuel d st (ps : list Z) :
  wf cfg st ps → (length ps < fuel)%nat → 0 < free_top (lst st) →
  ∃ st' ps', zerolist_push_front cfg env fuel d st = Ok (st', true)
    ∧ wf cfg st' ps' ∧ length ps' = S (length ps)
    ∧ payloads (mem st') ps' = d :: payloads (mem st) ps
    ∧ free_top (lst st') = free_top (lst st) - 1
    ∧ max_nodes (lst st') = max_nodes (lst st).
Proof.
  intros Hwf Hfuel Htop. pose proof Hwf as (Hholds & _ & _ & Hstore).
  assert (Hpos : head (lst st) = 0 ∨ head (lst st) ∈ ps).
  { destruct Hholds as [_ ->]. destruct ps; [by left | right; cbn; set_solver]. }
  destruct (insert_takes_slot env fuel (head (lst st)) d true st ps Hwf Hpos Hfuel Htop)
    as (st' & Hrun & Hft & Hmx & _).
  destruct (push_front_payloads cfg cfg_ok (mk_allocator 0 0) fuel d st ps Hwf
              (null_allocator_ok st) Hfuel) as (st2 & b & Hrun2 & Hpost).
  { intros [E | E]; congruence. }
  unfold zerolist_push_front in *.
  rewrite (insert_ignores_allocator _ env fuel _ d true st ps Hholds Hstore Htop) in Hrun2.
  rewrite Hrun in Hrun2. injection Hrun2 as <- <-.
  destruct (Hpost eq_refl) as (ps' & Hwf' & Hlen & Hpay).
  by exists st', ps'.
Qed.

Lemma pop_front_returns_slot st (ps : list Z) :
  wf cfg st ps → ps ≠ [] →
  ∃ st', zerolist_pop_front cfg st = Ok (st', hd 0 (payloads (mem st) ps))
    ∧ wf cfg st' (tl ps)
    ∧ payloads (mem st') (tl ps) = tl (payloads (mem st) ps)
    ∧ free_top (lst st') = free_top (lst st) + 1
    ∧ max_nodes (lst st') = max_nodes (lst st).
Proof.
  intros Hwf Hne.
  destruct (pop_front_payloads cfg cfg_ok st ps Hwf) as (st' & Hrun & Hwf' & Hpay).
  exists st'. split; [exact Hrun |]. split; [exact Hwf' |]. split; [exact Hpay |].
  destruct ps as [| h t]; [done |]. pose proof Hwf as (Hholds & _).
  destruct (holds_first _ _ _ Hholds) as [Hh Hh0].
  unfold zerolist_pop_front in Hrun. apply Z.eqb_neq in Hh0 as Hh0'.
  rewrite Hh, Hh0' in Hrun.
  destruct (load st h) as [c | |]; cbn [rbind] in Hrun; try discriminate.
  destruct (_zerolist_detach_node h (size_decr cfg st)) as [s1 | |] eqn:E1;
    cbn [rbind] in Hrun; try discriminate.
  destruct (zerolist_free_node cfg h s1) as [s2 | |] eqn:E2; cbn [rbind] in Hrun;
    try discriminate.
  injection Hrun as <- _.
  apply (decr_detach_free_top st (h :: t) h s1 s2 Hwf ltac:(set_solver) E1 E2).
Qed.

Lemma pop_back_returns_slot st (ps : list Z) :
  wf cfg st ps → ps ≠ [] →
  ∃ st', zerolist_pop_back cfg st = Ok (st', List.last (payloads (mem st) ps) 0)
    ∧ wf cfg st' (removelast ps)
    ∧ payloads (mem st') (removelast ps) = removelast (payloads (mem st) ps)
    ∧ free_top (lst st') = free_top (lst st) + 1
    ∧ max_nodes (lst st') = max_nodes (lst st).
Proof.
  intros Hwf Hne.
  destruct (pop_back_payloads cfg cfg_ok st ps Hwf) as (st' & Hrun & Hwf' & Hpay).
  exists st'. split; [exact Hrun |]. split; [exact Hwf' |]. split; [exact Hpay |].
  destruct ps as [| h t]; [done |]. pose proof Hwf as (Hholds & _).
  destruct (holds_first _ _ _ Hholds) as [Hh Hh0].
  unfold zerolist_pop_back in Hrun. apply Z.eqb_neq in Hh0 as Hh0'.
  rewrite Hh, Hh0' in Hrun.
  pose proof (ring_prev_head _ _ _ (proj1 Hholds)) as Hlast.
  apply prv_Some in Hlast as (ch & Hch & Hlast).
  rewrite (load_Some _ _ _ Hch) in Hrun. cbn [rbind] in Hrun. rewrite Hlast in Hrun.
  destruct (snoc_view h t) as [init E].
  set (c := List.last t h) in *.
  assert (Hcin : c ∈ h :: t) by (rewrite E; set_solver).
  destruct (load st c) as [cc | |]; cbn [rbind] in Hrun; try discriminate.
  destruct (_zerolist_detach_node c (size_decr cfg st)) as [s1 | |] eqn:E1;
    cbn [rbind] in Hrun; try discriminate.
  destruct (zerolist_free_node cfg c s1) as [s2 | |] eqn:E2; cbn [rbind] in Hrun;
    try discriminate.
  injection Hrun as <- _.
  apply (decr_detach_free_top st (h :: t) c s1 s2 Hwf Hcin E1 E2).
Qed.

(** As many pushes as there are slots on the free stack all succeed. *)
Lemma push_each_takes env fuel : ∀ ds st (ps : list Z),
  wf cfg st ps → Z.of_nat (length ds) ≤ free_top (lst st) →
  (length ps + length ds < S fuel)%nat →
  ∃ st' ps', push_each cfg env fuel ds st = Ok (st', true)
    ∧ wf cfg st' ps' ∧ length ps' = (length ps + length ds)%nat
    ∧ payloads (mem st') ps' = payloads (mem st) ps ++ ds
    ∧ free_top (lst st') = free_top (lst st) - Z.of_nat (length ds)
    ∧ max_nodes (lst st') = max_nodes (lst st).
Proof.
  induction ds as [| d ds IH]; intros st ps Hwf Hlen Hfuel.
  - exists st, ps. cbn [push_each length]. rewrite app_nil_r.
    split; [reflexivity |]. split; [exact Hwf |]. split; [lia |]. split; [reflexivity |].
    split; [lia | reflexivity].
  - cbn [length] in Hlen, Hfuel. cbn [push_each].
    destruct (push_back_takes_slot env fuel d st ps Hwf ltac:(lia) ltac:(lia))
      as (st1 & ps1 & Hrun1 & Hwf1 & Hlen1 & Hpay1 & Hft1 & Hmx1).
    rewrite Hrun1. cbn [rbind].
    destruct (IH st1 ps1 Hwf1 ltac:(lia) ltac:(lia))
      as (st' & ps' & Hrun & Hwf' & Hlen' & Hpay' & Hft' & Hmx').
    exists st', ps'. split; [exact Hrun |]. split; [exact Hwf' |].
    split; [cbn [length]; lia |]. split; [by rewrite Hpay', Hpay1, <- app_assoc |].
    split; [cbn [length]; lia | congruence].
Qed.

End Accounting.

(** X25.  In the arena-only builds with the fast allocator the slots on
    the free stack and the live nodes never exceed the capacity.  While a
    slot is on the stack [zerolist_push_back] and [zerolist_push_front]
    succeed, whatever the allocator would answer, and take exactly one slot;
    [zerolist_pop_front] and [zerolist_pop_back] of a list that is not empty
    give exactly one slot back.  So the four keep
    [free_top + length = max_nodes]. *)
Theorem arena_accounting cfg env fuel d st (ps : list Z) :
  config_ok cfg = true → ZEROLIST_USE_MALLOC cfg = false →
  ZEROLIST_FAST_ALLOC cfg = true → ZEROLIST_STATIC_FALLBACK_MALLOC cfg = false →
  wf cfg st ps → (length ps < fuel)%nat →
  free_top (lst st) + Z.of_nat (length ps) ≤ max_nodes (lst st)
  ∧ (0 < free_top (lst st) →
     (∃ st', zerolist_push_back cfg env fuel d st = Ok (st', true)
             ∧ ZEROLIST_FOR_EACH (S fuel) st' = Ok (payloads (mem st) ps ++ [d])
             ∧ free_top (lst st') = free_top (lst st) - 1
             ∧ max_nodes (lst st') = max_nodes (lst st)
             ∧ ∃ ps', wf cfg st' ps' ∧ length ps' = S (length ps))
     ∧ (∃ st', zerolist_push_front cfg env fuel d st = Ok (st', true)
               ∧ ZEROLIST_FOR_EACH (S fuel) st' = Ok (d :: payloads (mem st) ps)
               ∧ free_top (lst st') = free_top (lst st) - 1
               ∧ max_nodes (lst st') = max_nodes (lst st)
               ∧ ∃ ps', wf cfg st' ps' ∧ length ps' = S (length ps)))
  ∧ (ps ≠ [] →
     (∃ st', zerolist_pop_front cfg st = Ok (st', hd 0 (payloads (mem st) ps))
             ∧ wf cfg st' (tl ps)
             ∧ free_top (lst st') = free_top (lst st) + 1
             ∧ max_nodes (lst st') = max_nodes (lst st))
     ∧ (∃ st', zerolist_pop_back cfg st = Ok (st', List.last (payloads (mem st) ps) 0)
               ∧ wf cfg st' (removelast ps)
               ∧ free_top (lst st') = free_top (lst st) + 1
               ∧ max_nodes (lst st') = max_nodes (lst st))).
Proof.
  intros Hok Hm Hf Hfb Hwf Hfuel. pose proof Hwf as (Hholds & _ & _ & Hstore).
  split; [by apply (stack_room cfg Hok Hm Hf Hfb) |]. split.
  - intros Htop. split.
    + destruct (push_back_takes_slot cfg Hok Hm Hf Hfb env fuel d st ps Hwf Hfuel Htop)
        as (st' & ps' & Hrun & Hwf' & Hlen & Hpay & Hft & Hmx).
      exists st'. split; [exact Hrun |]. split; [| eauto].
      rewrite <- Hpay. apply (traversal_of cfg); [exact Hwf' | lia].
    + destruct (push_front_takes_slot cfg Hok Hm Hf Hfb env fuel d st ps Hwf Hfuel Htop)
        as (st' & ps' & Hrun & Hwf' & Hlen & Hpay & Hft & Hmx).
      exists st'. split; [exact Hrun |]. split; [| eauto].
      rewrite <- Hpay. apply (traversal_of cfg); [exact Hwf' | lia].
  - intros Hne. split.
    + destruct (pop_front_returns_slot cfg Hok Hm Hf Hfb st ps Hwf Hne)
        as (st' & Hrun & Hwf' & _ & Hft & Hmx). by exists st'.
    + destruct (pop_back_returns_slot cfg Hok Hm Hf Hfb st ps Hwf Hne)
        as (st' & Hrun & Hwf' & _ & Hft & Hmx). by exists st'.
Qed.

(** X26.  In the arena-only builds with the fast allocator a list takes
    as many [zerolist_push_back] as there are slots on its free stack: all
    answer true, the traversal gives the old payloads followed by the new
    ones in the order pushed, and when the stack was complete
    ([free_top + length = max_nodes]) and every slot has been taken, the
    next insertion of any kind is refused where neither growth nor heap
    fallback is configured. *)
Theorem arena_takes_capacity cfg env fuel ds op st (ps : list Z) :
  config_ok cfg = true → ZEROLIST_USE_MALLOC cfg = false →
  ZEROLIST_FAST_ALLOC cfg = true → ZEROLIST_STATIC_FALLBACK_MALLOC cfg = false →
  wf cfg st ps → Z.of_nat (length ds) ≤ free_top (lst st) →
  (length ps + length ds < fuel)%nat →
  ∃ st', push_each cfg env fuel ds st = Ok (st', true)
    ∧ ZEROLIST_FOR_EACH fuel st' = Ok (payloads (mem st) ps ++ ds)
    ∧ free_top (lst st') = free_top (lst st) - Z.of_nat (length ds)
    ∧ (∃ ps', wf cfg st' ps' ∧ length ps' = (length ps + length ds)%nat)
    ∧ (ZEROLIST_STATIC_DYNAMIC_EXPAND cfg = false →
       free_top (lst st) + Z.of_nat (length ps) = max_nodes (lst st) →
       Z.of_nat (length ds) = free_top (lst st) →
       run_insertion cfg env fuel op st' = Ok (st', false)).
Proof.
  intros Hok Hm Hf Hfb Hwf Hlen Hfuel.
  destruct (push_each_takes cfg Hok Hm Hf Hfb env fuel ds st ps Hwf Hlen ltac:(lia))
    as (st' & ps' & Hrun & Hwf' & Hlen' & Hpay & Hft & Hmx).
  exists st'. split; [exact Hrun |]. split; [| split; [exact Hft | split; [eauto |]]].
  - rewrite <- Hpay. apply (traversal_of cfg); [exact Hwf' | lia].
  - intros He Hacc Hall.
    apply (full_refuses cfg Hok env fuel op st' ps' Hm Hfb He Hwf'); lia.
Qed.


(** ** Shrinking the arena *)

Section Shrink.
Variable cfg : config.
Hypothesis cfg_ok : config_ok cfg = true.




End Shrink.



(** ** Insertion into the heap *)

Section Heap.
Variable cfg : config.
Hypothesis cfg_ok : config_ok cfg = true.

Lemma config_ok_fallback :
  ZEROLIST_STATIC_FALLBACK_MALLOC cfg = true →
  ZEROLIST_USE_MALLOC cfg = false ∧ ZEROLIST_STATIC_DYNAMIC_EXPAND cfg = false.
Proof.
  intros Hfb. pose proof cfg_ok as H. unfold config_ok in H. rewrite Hfb in H.
  destruct (ZEROLIST_USE_MALLOC cfg), (ZEROLIST_STATIC_DYNAMIC_EXPAND cfg);
    cbn in H; try discriminate; rewrite ?andb_false_r in H; try discriminate; done.
Qed.

(** Where single nodes come from ZEROLIST_MALLOC, [_zerolist_alloc_node]
    gives NULL only when ZEROLIST_MALLOC does. *)
Lemma alloc_heap_gives env fuel st (ps : list Z) st' :
  ZEROLIST_USE_MALLOC cfg = true ∨ ZEROLIST_STATIC_FALLBACK_MALLOC cfg = true →
  holds st ps → store_inv cfg st ps → env_malloc env ≠ 0 →
  _zerolist_alloc_node cfg env fuel st = Ok (st', 0) → False.
Proof.
  intros Hheap Hholds Hstore Hnz. unfold _zerolist_alloc_node.
  apply Z.eqb_neq in Hnz as Hnz'.
  destruct (ZEROLIST_USE_MALLOC cfg) eqn:Hm.
  { unfold malloc_node. rewrite Hnz', Hnz'. rewrite heap_node_init.
    intros H. injection H as _ H. done. }
  destruct Hheap as [? | Hfb]; [discriminate |].
  destruct (config_ok_fallback Hfb) as [_ He].
  destruct (proj2 Hstore Hm) as (Hbuf & Hmax & _).
  destruct (node_buf (lst st) =? 0) eqn:E1; [apply Z.eqb_eq in E1; lia |].
  destruct (max_nodes (lst st) =? 0) eqn:E2; [apply Z.eqb_eq in E2; lia |].
  cbn [orb].
  destruct (try_init_spec cfg cfg_ok st ps Hholds Hstore Hm)
    as [(idx & st1 & st2 & Hrun & Hinit & _) | Hrun]; rewrite Hrun; cbn [rbind].
  - rewrite Hinit. cbn [rbind]. intros H. injection H as _ H.
    destruct (try_alloc_static_spec cfg cfg_ok st ps Hholds Hstore Hm)
      as [(idx' & st1' & Hrun' & Hidx' & _) | (Hrun' & _)]; rewrite Hrun in Hrun';
      [| discriminate].
    injection Hrun' as _ _ <-.
    pose proof (slot_ge cfg cfg_ok (node_buf (lst st)) idx ltac:(lia)). lia.
  - rewrite He, Hfb. unfold malloc_node. rewrite Hnz', Hnz'.
    rewrite update_insert. cbn [rbind]. rewrite update_insert. cbn [rbind].
    unfold _ZERO_ZEROLIST_NODE_SET_IN_USE_SIMPLE. rewrite Hnz'.
    rewrite update_insert. cbn [rbind]. rewrite update_insert. cbn [rbind].
    intros H. injection H as _ H. done.
Qed.

(** With malloc per node, a NULL from ZEROLIST_MALLOC makes every insertion
    that reaches the allocation answer false and change nothing. *)
Lemma insert_without_memory env fuel pos d before st :
  ZEROLIST_USE_MALLOC cfg = true → env_malloc env = 0 →
  _zerolist_insert_internal cfg env fuel pos d before st = Ok (st, false).
Proof.
  intros Hm Hnull. unfold _zerolist_insert_internal, _zerolist_alloc_node, malloc_node.
  by rewrite Hm, Hnull.
Qed.

End Heap.

(** X28.  In the builds that take single nodes from ZEROLIST_MALLOC (malloc
    per node, heap fallback), [zerolist_push_back] and [zerolist_push_front]
    on a well-formed list below the largest size succeed whenever
    ZEROLIST_MALLOC does not give NULL: they answer true and the traversal
    gives the old payloads with the new one at that end.  With malloc per
    node and a NULL from ZEROLIST_MALLOC they answer false and change
    nothing. *)
Theorem heap_insertion_needs_memory cfg env fuel d st (ps : list Z) :
  config_ok cfg = true →
  ZEROLIST_USE_MALLOC cfg = true ∨ ZEROLIST_STATIC_FALLBACK_MALLOC cfg = true →
  wf cfg st ps → allocator_ok cfg env st → (length ps < fuel)%nat →
  Z.of_nat (length ps) < TYPE_MAX cfg →
  (env_malloc env ≠ 0 →
   (∃ st', zerolist_push_back cfg env fuel d st = Ok (st', true)
           ∧ ZEROLIST_FOR_EACH (S fuel) st' = Ok (payloads (mem st) ps ++ [d])
           ∧ ∃ ps', wf cfg st' ps' ∧ length ps' = S (length ps))
   ∧ (∃ st', zerolist_push_front cfg env fuel d st = Ok (st', true)
             ∧ ZEROLIST_FOR_EACH (S fuel) st' = Ok (d :: payloads (mem st) ps)
             ∧ ∃ ps', wf cfg st' ps' ∧ length ps' = S (length ps)))
  ∧ (ZEROLIST_USE_MALLOC cfg = true → env_malloc env = 0 →
     zerolist_push_back cfg env fuel d st = Ok (st, false)
     ∧ zerolist_push_front cfg env fuel d st = Ok (st, false)).
Proof.
  intros Hok Hheap Hwf Henv Hfuel Hroom. pose proof Hwf as (Hholds & _ & _ & Hstore).
  split.
  - intros Hnz. split.
    + destruct (push_back_payloads cfg Hok env fuel d st ps Hwf Henv Hfuel ltac:(done))
        as (st' & b & Hrun & Hpost).
      destruct b.
      * destruct (Hpost eq_refl) as (ps' & Hwf' & Hlen & Hpay).
        exists st'. split; [exact Hrun |]. split; [| eauto].
        rewrite <- Hpay. apply (traversal_of cfg); [exact Hwf' | lia].
      * exfalso. unfold zerolist_push_back in Hrun.
        apply (alloc_heap_gives cfg Hok env fuel st ps st' Hheap Hholds Hstore Hnz).
        by apply (insert_internal_false cfg Hok env fuel 0 d false st ps st' Hholds Hstore Henv
                    ltac:(by left) Hfuel).
    + destruct (push_front_payloads cfg Hok env fuel d st ps Hwf Henv Hfuel ltac:(done))
        as (st' & b & Hrun & Hpost).
      destruct b.
      * destruct (Hpost eq_refl) as (ps' & Hwf' & Hlen & Hpay).
        exists st'. split; [exact Hrun |]. split; [| eauto].
        rewrite <- Hpay. apply (traversal_of cfg); [exact Hwf' | lia].
      * exfalso. unfold zerolist_push_front in Hrun.
        apply (alloc_heap_gives cfg Hok env fuel st ps st' Hheap Hholds Hstore Hnz).
        apply (insert_internal_false cfg Hok env fuel (head (lst st)) d true st ps st' Hholds
                 Hstore Henv); [| exact Hfuel | exact Hrun].
        destruct Hholds as [_ ->]. destruct ps; [by left | right; cbn; set_solver].
  - intros Hm Hnull. unfold zerolist_push_back, zerolist_push_front.
    split; by apply insert_without_memory.
Qed.


(** ** Instances: the theorems at concrete lists *)

(** *** The lists used *)

Lemma grow3_payloads : payloads (mem grow3) [4096; 4128; 4160] = [11; 12; 13].
Proof. by vm_compute. Qed.

Lemma grow4_holds : holds grow4 [4096; 4128; 4160; 4192].
Proof.
  unfold holds, ring. repeat split; try (vm_compute; reflexivity).
  - repeat constructor; set_solver.
  - set_solver.
Qed.

Lemma grow4_wf : wf cfg_default grow4 [4096; 4128; 4160; 4192].
Proof.
  destruct (push_back_wf cfg_default grow_env 8 14 grow3 grow4 _ eq_refl grow3_wf)
    as (ps & Hwf & Hlen); [by apply grow_env_ok | cbn; lia | intros [? | ?]; discriminate
                           | by vm_compute |].
  by rewrite (holds_unique grow4 _ ps grow4_holds (proj1 Hwf)).
Qed.

Lemma fixed3_wf : wf cfg_fixed fixed3 [].
Proof.
  destruct (init_expand_wf cfg_fixed eq_refl 4096 (Some [0; 0; 0]) 3 (static_buf cfg_fixed 4096 3))
    as (s0 & Hrun & Hwf & _); [lia | by vm_compute | | |].
  - intros i Hi. unfold static_buf. cbn [mem].
    rewrite (mem_malloc_buf_in cfg_fixed eq_refl) by lia. eauto.
  - intros _. exists [0; 0; 0]. split; [reflexivity | cbn; lia].
  - unfold fixed3. by rewrite Hrun.
Qed.

Lemma fixed3_full_holds : holds fixed3_full [4096; 4128; 4160].
Proof.
  unfold holds, ring. repeat split; try (vm_compute; reflexivity).
  - repeat constructor; set_solver.
  - set_solver.
Qed.

Lemma fixed3_full_wf : wf cfg_fixed fixed3_full [4096; 4128; 4160].
Proof.
  set (env := mk_allocator 0 0).
  set (s1 := state_of fixed3 (zerolist_push_back cfg_fixed env 8 11 fixed3)).
  set (s2 := state_of s1 (zerolist_push_back cfg_fixed env 8 12 s1)).
  destruct (push_back_wf cfg_fixed env 8 11 fixed3 s1 [] eq_refl fixed3_wf)
    as (ps1 & Hwf1 & Hlen1); [apply null_allocator_ok | cbn; lia | intros [? | ?]; discriminate
                              | by vm_compute |].
  cbn [length] in Hlen1.
  destruct (push_back_wf cfg_fixed env 8 12 s1 s2 ps1 eq_refl Hwf1)
    as (ps2 & Hwf2 & Hlen2); [apply null_allocator_ok | lia | intros [? | ?]; discriminate
                              | by vm_compute |].
  destruct (push_back_wf cfg_fixed env 8 13 s2 fixed3_full ps2 eq_refl Hwf2)
    as (ps3 & Hwf3 & Hlen3); [apply null_allocator_ok | lia | intros [? | ?]; discriminate
                              | by vm_compute |].
  by rewrite (holds_unique fixed3_full _ ps3 fixed3_full_holds (proj1 Hwf3)).
Qed.

(** *** Queries *)

Lemma zerolist_at_checked_witness :
  zerolist_at cfg_default 1 grow3
  = Ok (nth (Z.to_nat 1) (payloads (mem grow3) [4096; 4128; 4160]) 0).
Proof.
  apply (zerolist_at_checked cfg_default grow3 [4096; 4128; 4160] 1).
  - reflexivity.
  - exact grow3_wf.
  - lia.
Defined.

Lemma zerolist_at_wraps_witness :
  zerolist_at cfg_nosize 4 nosize3
  = Ok (nth (Z.to_nat 4 mod length [4096; 4128; 4160])
          (payloads (mem nosize3) [4096; 4128; 4160]) 0).
Proof.
  apply (zerolist_at_wraps cfg_nosize nosize3 [4096; 4128; 4160] 4).
  - reflexivity.
  - exact nosize3_holds.
  - discriminate.
  - lia.
Defined.

Lemma zerolist_size_counts_witness :
  zerolist_size cfg_default 8 grow3 = Ok (Z.of_nat (length [4096; 4128; 4160])).
Proof.
  apply (zerolist_size_counts cfg_default grow3 [4096; 4128; 4160] 8).
  - exact grow3_wf.
  - cbn. lia.
Defined.

Lemma zerolist_find_spec_witness :
  ∃ r, zerolist_find cfg_default 8 12 grow3 = Ok r
    ∧ (r = 0 ↔ 12 ∉ payloads (mem grow3) [4096; 4128; 4160])
    ∧ (r ≠ 0 → r ∈ [4096; 4128; 4160] ∧ payload (mem grow3) r = 12)
    ∧ (scan_slots cfg_default = false
       → r = first_match (mem grow3) (λ d, d =? 12) [4096; 4128; 4160]).
Proof.
  apply (zerolist_find_spec cfg_default eq_refl grow3 [4096; 4128; 4160] 8 12).
  - exact grow3_wf.
  - cbn. lia.
Defined.

Lemma zerolist_search_spec_witness :
  ∃ r, zerolist_search cfg_default 8 12 (Some Z.eqb) grow3 = Ok r
    ∧ (r = 0 ↔ ∀ d, d ∈ payloads (mem grow3) [4096; 4128; 4160] → (d =? 12) = false)
    ∧ (r ≠ 0 → r ∈ [4096; 4128; 4160] ∧ (payload (mem grow3) r =? 12) = true)
    ∧ (scan_slots cfg_default = false
       → r = first_match (mem grow3) (λ d, d =? 12) [4096; 4128; 4160]).
Proof.
  apply (zerolist_search_spec cfg_default eq_refl grow3 [4096; 4128; 4160] 8 12 (Some Z.eqb)).
  - exact grow3_wf.
  - cbn. lia.
Defined.

(** *** Insertion and removal *)




Lemma zerolist_pop_ends_witness :
  (∃ st', zerolist_pop_front cfg_default grow3
          = Ok (st', hd 0 (payloads (mem grow3) [4096; 4128; 4160]))
          ∧ ZEROLIST_FOR_EACH 8 st' = Ok (tl (payloads (mem grow3) [4096; 4128; 4160]))
          ∧ wf cfg_default st' (tl [4096; 4128; 4160]))
  ∧ (∃ st', zerolist_pop_back cfg_default grow3
            = Ok (st', List.last (payloads (mem grow3) [4096; 4128; 4160]) 0)
            ∧ ZEROLIST_FOR_EACH 8 st'
              = Ok (removelast (payloads (mem grow3) [4096; 4128; 4160]))
            ∧ wf cfg_default st' (removelast [4096; 4128; 4160])).
Proof.
  apply (zerolist_pop_ends cfg_default 8 grow3 [4096; 4128; 4160]).
  - reflexivity.
  - exact grow3_wf.
  - cbn. lia.
Defined.

Lemma zerolist_pop_at_in_range_witness :
  (∃ st', zerolist_pop_at cfg_default 1 grow3
          = Ok (st', nth (Z.to_nat 1) (payloads (mem grow3) [4096; 4128; 4160]) 0)
          ∧ ZEROLIST_FOR_EACH 8 st'
            = Ok (take (Z.to_nat 1) (payloads (mem grow3) [4096; 4128; 4160])
                  ++ drop (S (Z.to_nat 1)) (payloads (mem grow3) [4096; 4128; 4160]))
          ∧ ∃ ps', wf cfg_default st' ps' ∧ S (length ps') = length [4096; 4128; 4160])
  ∧ (∃ st', zerolist_remove_at cfg_default 1 grow3 = Ok (st', true)
            ∧ ZEROLIST_FOR_EACH 8 st'
              = Ok (take (Z.to_nat 1) (payloads (mem grow3) [4096; 4128; 4160])
                    ++ drop (S (Z.to_nat 1)) (payloads (mem grow3) [4096; 4128; 4160]))
            ∧ ∃ ps', wf cfg_default st' ps' ∧ S (length ps') = length [4096; 4128; 4160]).
Proof.
  apply (zerolist_pop_at_in_range cfg_default 8 grow3 [4096; 4128; 4160] 1).
  - reflexivity.
  - exact grow3_wf.
  - cbn. lia.
  - cbn. lia.
Defined.

Lemma zerolist_remove_at_rejects_witness :
  zerolist_remove_at cfg_default 5 grow3 = Ok (grow3, false).
Proof.
  apply (zerolist_remove_at_rejects cfg_default grow3 [4096; 4128; 4160] 5).
  - exact grow3_wf.
  - cbn. lia.
Defined.

Lemma zerolist_remove_ptr_spec_witness :
  (12 ∉ payloads (mem grow3) [4096; 4128; 4160]
   ∧ zerolist_remove_ptr cfg_default 8 12 grow3 = Ok (grow3, false))
  ∨ ∃ st' pre post,
      zerolist_remove_ptr cfg_default 8 12 grow3 = Ok (st', true)
      ∧ payloads (mem grow3) [4096; 4128; 4160] = pre ++ 12 :: post
      ∧ (scan_slots cfg_default = false → 12 ∉ pre)
      ∧ ZEROLIST_FOR_EACH 8 st' = Ok (pre ++ post)
      ∧ ∃ ps', wf cfg_default st' ps' ∧ S (length ps') = length [4096; 4128; 4160].
Proof.
  apply (zerolist_remove_ptr_spec cfg_default 8 12 grow3 [4096; 4128; 4160]).
  - reflexivity.
  - exact grow3_wf.
  - cbn. lia.
  - lia.
Defined.

Lemma zerolist_remove_if_spec_witness :
  ((∀ d, d ∈ payloads (mem grow3) [4096; 4128; 4160] → (d =? 12) = false)
   ∧ zerolist_remove_if cfg_default 8 12 (Some Z.eqb) grow3 = Ok (grow3, false))
  ∨ ∃ st' pre d post,
      zerolist_remove_if cfg_default 8 12 (Some Z.eqb) grow3 = Ok (st', true)
      ∧ payloads (mem grow3) [4096; 4128; 4160] = pre ++ d :: post ∧ (d =? 12) = true
      ∧ (scan_slots cfg_default = false → ∀ x, x ∈ pre → (x =? 12) = false)
      ∧ ZEROLIST_FOR_EACH 8 st' = Ok (pre ++ post)
      ∧ ∃ ps', wf cfg_default st' ps' ∧ S (length ps') = length [4096; 4128; 4160].
Proof.
  apply (zerolist_remove_if_spec cfg_default 8 12 (Some Z.eqb) grow3 [4096; 4128; 4160]).
  - reflexivity.
  - exact grow3_wf.
  - cbn. lia.
Defined.


(** *** Capacity *)

Lemma rollback_env_ok : allocator_ok cfg_default rollback_env grow4.
Proof.
  split; [by left |]. split; [| done].
  intros new_n Hg. vm_compute in Hg. injection Hg as <-.
  right. right. split; [done |]. right. vm_compute. discriminate.
Qed.

Lemma failed_insertion_keeps_traversal_witness :
  ZEROLIST_FOR_EACH 8 grow4_rolled = Ok (payloads (mem grow4) [4096; 4128; 4160; 4192])
  ∧ size (lst grow4_rolled) = size (lst grow4).
Proof.
  apply (failed_insertion_keeps_traversal cfg_default eq_refl rollback_env 8 (PushBack 15)
           grow4 [4096; 4128; 4160; 4192] grow4_rolled).
  - exact grow4_wf.
  - exact rollback_env_ok.
  - cbn. lia.
  - by vm_compute.
Defined.

Lemma full_arena_refuses_witness :
  Z.of_nat (length [4096; 4128; 4160]) ≤ max_nodes (lst fixed3_full)
  ∧ (Z.of_nat (length [4096; 4128; 4160]) = max_nodes (lst fixed3_full) →
     run_insertion cfg_fixed (mk_allocator 0 0) 8 (PushBack 14) fixed3_full
     = Ok (fixed3_full, false)).
Proof.
  apply (full_arena_refuses cfg_fixed eq_refl (mk_allocator 0 0) 8 (PushBack 14) fixed3_full
           [4096; 4128; 4160]).
  - reflexivity.
  - reflexivity.
  - reflexivity.
  - exact fixed3_full_wf.
  - cbn. lia.
Defined.

Lemma push_back_grows_full_arena_witness :
  ∃ st', zerolist_push_back cfg_default grow_env 8 15 grow4 = Ok (st', true)
    ∧ max_nodes (lst st') = Z.min (2 * max_nodes (lst grow4)) (TYPE_MAX cfg_default)
    ∧ ZEROLIST_FOR_EACH 9 st' = Ok (payloads (mem grow4) [4096; 4128; 4160; 4192] ++ [15])
    ∧ (∃ ps', wf cfg_default st' ps' ∧ length ps' = S (length [4096; 4128; 4160; 4192]))
    ∧ zerolist_get_max_nodes cfg_default (lst st')
      = (if 2 * max_nodes (lst grow4) <? TYPE_MAX cfg_default
         then 2 * max_nodes (lst grow4) else 0).
Proof.
  apply (push_back_grows_full_arena cfg_default eq_refl grow_env 8 15 grow4
           [4096; 4128; 4160; 4192]).
  - reflexivity.
  - exact grow4_wf.
  - by apply grow_env_ok.
  - reflexivity.
  - by vm_compute.
  - by vm_compute.
  - reflexivity.
  - cbn. lia.
Defined.

(** *** Traversal by callback, clearing *)

Lemma zerolist_foreach_visits_all_witness :
  ∃ l, zerolist_foreach cfg_default 8 grow3 = Ok l
    ∧ l ≡ₚ payloads (mem grow3) [4096; 4128; 4160]
    ∧ (scan_slots cfg_default = false → l = payloads (mem grow3) [4096; 4128; 4160])
    ∧ (scan_slots cfg_default = true →
       l = payloads (mem grow3)
             (filter (λ p, p ∈ [4096; 4128; 4160])
                (slot cfg_default (node_buf (lst grow3)) <$> seqZ 0 (max_nodes (lst grow3))))).
Proof.
  apply (zerolist_foreach_visits_all cfg_default eq_refl grow3 [4096; 4128; 4160] 8).
  - exact grow3_wf.
  - cbn. lia.
Defined.

Lemma zerolist_clear_empties_witness :
  ∃ st', zerolist_clear cfg_default 8 grow3 = Ok st'
    ∧ wf cfg_default st' []
    ∧ ZEROLIST_FOR_EACH 8 st' = Ok []
    ∧ zerolist_size cfg_default 8 st' = Ok 0
    ∧ zerolist_get_max_nodes cfg_default (lst st')
      = zerolist_get_max_nodes cfg_default (lst grow3).
Proof.
  apply (zerolist_clear_empties cfg_default grow3 [4096; 4128; 4160] 8).
  - reflexivity.
  - exact grow3_wf.
  - cbn. lia.
Defined.

(** *** The life cycle *)

Lemma zerolist_reinit_restores_witness :
  ∃ st', zerolist_reinit cfg_fixed (mk_allocator 0 0) 0 fixed3_full = Ok (st', true)
    ∧ wf cfg_fixed st' []
    ∧ ZEROLIST_FOR_EACH 8 st' = Ok []
    ∧ zerolist_get_max_nodes cfg_fixed (lst st') = max_nodes (lst fixed3_full)
    ∧ (ZEROLIST_FAST_ALLOC cfg_fixed = true → free_top (lst st') = max_nodes (lst fixed3_full))
    ∧ ∃ st'', zerolist_push_back cfg_fixed (mk_allocator 0 0) 8 21 st' = Ok (st'', true)
              ∧ ZEROLIST_FOR_EACH 9 st'' = Ok [21].
Proof.
  apply (zerolist_reinit_restores cfg_fixed (mk_allocator 0 0) 0 21 8 fixed3_full
           [4096; 4128; 4160]).
  - reflexivity.
  - reflexivity.
  - reflexivity.
  - exact fixed3_full_wf.
  - apply null_allocator_ok.
  - lia.
Defined.

Lemma zerolist_destroy_spec_witness :
  ∃ st', zerolist_destroy cfg_default 8 grow3 = Ok st'
    ∧ ZEROLIST_FOR_EACH 8 st' = Ok []
    ∧ zerolist_size cfg_default 8 st' = Ok 0
    ∧ (ZEROLIST_STATIC_DYNAMIC_EXPAND cfg_default = true →
       zerolist_get_max_nodes cfg_default (lst st') = 0
       ∧ ∀ i, 0 ≤ i < max_nodes (lst grow3) →
           mem st' !! slot cfg_default (node_buf (lst grow3)) i = None)
    ∧ (ZEROLIST_STATIC_DYNAMIC_EXPAND cfg_default = false →
       wf cfg_default st' []
       ∧ zerolist_get_max_nodes cfg_default (lst st')
         = zerolist_get_max_nodes cfg_default (lst grow3))
    ∧ (ZEROLIST_STATIC_DYNAMIC_EXPAND cfg_default = true
       ∨ (ZEROLIST_USE_MALLOC cfg_default = false ∧ ZEROLIST_FAST_ALLOC cfg_default = true
          ∧ ZEROLIST_STATIC_FALLBACK_MALLOC cfg_default = false) →
       ∀ env op, run_insertion cfg_default env 8 op st' = Ok (st', false)).
Proof.
  apply (zerolist_destroy_spec cfg_default 8 grow3 [4096; 4128; 4160]).
  - reflexivity.
  - exact grow3_wf.
  - cbn. lia.
Defined.

Lemma zerolist_init_expand_spec_witness :
  ∃ st', zerolist_init_expand cfg_fixed 4096 (Some [0; 0; 0]) 3 (static_buf cfg_fixed 4096 3)
         = Ok st'
    ∧ wf cfg_fixed st' []
    ∧ node_buf (lst st') = 4096 ∧ max_nodes (lst st') = 3
    ∧ ZEROLIST_FOR_EACH 8 st' = Ok []
    ∧ (ZEROLIST_FAST_ALLOC cfg_fixed = true → free_top (lst st') = 3)
    ∧ (∀ q, is_Some (mem st' !! q) ↔ is_Some (mem (static_buf cfg_fixed 4096 3) !! q)).
Proof.
  apply (zerolist_init_expand_spec cfg_fixed 4096 (Some [0; 0; 0]) 3 8
           (static_buf cfg_fixed 4096 3)).
  - reflexivity.
  - lia.
  - by vm_compute.
  - intros i Hi. unfold static_buf. cbn [mem].
    rewrite (mem_malloc_buf_in cfg_fixed eq_refl) by lia. eauto.
  - intros _. exists [0; 0; 0]. split; [reflexivity | cbn; lia].
Defined.

Lemma zerolist_init_expand_null_stack_witness :
  zerolist_init_expand cfg_fixed 4096 None 3 (static_buf cfg_fixed 4096 3) = Fault.
Proof.
  apply (zerolist_init_expand_null_stack cfg_fixed 4096 3 (static_buf cfg_fixed 4096 3)).
  - reflexivity.
  - lia.
  - lia.
Defined.

Lemma list_init_dynamic_expand_spec_witness :
  ∃ st' b, list_init_dynamic_expand cfg_default (mk_allocator 4096 0) 4 empty_state = Ok (st', b)
    ∧ (b = true ↔ 4 ≠ 0 ∧ env_malloc (mk_allocator 4096 0) ≠ 0
                  ∧ (ZEROLIST_FAST_ALLOC cfg_default = true
                     → env_malloc_stack (mk_allocator 4096 0) = true))
    ∧ (b = false → st' = empty_state)
    ∧ (b = true →
       wf cfg_default st' []
       ∧ node_buf (lst st') = env_malloc (mk_allocator 4096 0) ∧ max_nodes (lst st') = 4
       ∧ ZEROLIST_FOR_EACH 8 st' = Ok []
       ∧ (ZEROLIST_FAST_ALLOC cfg_default = true → free_top (lst st') = 4)).
Proof.
  apply (list_init_dynamic_expand_spec cfg_default (mk_allocator 4096 0) 4 8 empty_state).
  - reflexivity.
  - by vm_compute.
  - by vm_compute.
Defined.

(** *** Accounting *)

Lemma arena_accounting_witness :
  free_top (lst grow3) + Z.of_nat (length [4096; 4128; 4160]) ≤ max_nodes (lst grow3)
  ∧ (0 < free_top (lst grow3) →
     (∃ st', zerolist_push_back cfg_default grow_env 8 14 grow3 = Ok (st', true)
             ∧ ZEROLIST_FOR_EACH 9 st' = Ok (payloads (mem grow3) [4096; 4128; 4160] ++ [14])
             ∧ free_top (lst st') = free_top (lst grow3) - 1
             ∧ max_nodes (lst st') = max_nodes (lst grow3)
             ∧ ∃ ps', wf cfg_default st' ps' ∧ length ps' = S (length [4096; 4128; 4160]))
     ∧ (∃ st', zerolist_push_front cfg_default grow_env 8 14 grow3 = Ok (st', true)
               ∧ ZEROLIST_FOR_EACH 9 st' = Ok (14 :: payloads (mem grow3) [4096; 4128; 4160])
               ∧ free_top (lst st') = free_top (lst grow3) - 1
               ∧ max_nodes (lst st') = max_nodes (lst grow3)
               ∧ ∃ ps', wf cfg_default st' ps' ∧ length ps' = S (length [4096; 4128; 4160])))
  ∧ ([4096; 4128; 4160] ≠ [] →
     (∃ st', zerolist_pop_front cfg_default grow3
             = Ok (st', hd 0 (payloads (mem grow3) [4096; 4128; 4160]))
             ∧ wf cfg_default st' (tl [4096; 4128; 4160])
             ∧ free_top (lst st') = free_top (lst grow3) + 1
             ∧ max_nodes (lst st') = max_nodes (lst grow3))
     ∧ (∃ st', zerolist_pop_back cfg_default grow3
               = Ok (st', List.last (payloads (mem grow3) [4096; 4128; 4160]) 0)
               ∧ wf cfg_default st' (removelast [4096; 4128; 4160])
               ∧ free_top (lst st') = free_top (lst grow3) + 1
               ∧ max_nodes (lst st') = max_nodes (lst grow3))).
Proof.
  apply (arena_accounting cfg_default grow_env 8 14 grow3 [4096; 4128; 4160]).
  - reflexivity.
  - reflexivity.
  - reflexivity.
  - reflexivity.
  - exact grow3_wf.
  - cbn. lia.
Defined.

Lemma arena_takes_capacity_witness :
  ∃ st', push_each cfg_fixed (mk_allocator 0 0) 8 [11; 12; 13] fixed3 = Ok (st', true)
    ∧ ZEROLIST_FOR_EACH 8 st' = Ok (payloads (mem fixed3) [] ++ [11; 12; 13])
    ∧ free_top (lst st') = free_top (lst fixed3) - Z.of_nat (length [11; 12; 13])
    ∧ (∃ ps', wf cfg_fixed st' ps' ∧ length ps' = (length (@nil Z) + length [11; 12; 13])%nat)
    ∧ (ZEROLIST_STATIC_DYNAMIC_EXPAND cfg_fixed = false →
       free_top (lst fixed3) + Z.of_nat (length (@nil Z)) = max_nodes (lst fixed3) →
       Z.of_nat (length [11; 12; 13]) = free_top (lst fixed3) →
       run_insertion cfg_fixed (mk_allocator 0 0) 8 (PushBack 14) st' = Ok (st', false)).
Proof.
  apply (arena_takes_capacity cfg_fixed (mk_allocator 0 0) 8 [11; 12; 13] (PushBack 14)
           fixed3 []).
  - reflexivity.
  - reflexivity.
  - reflexivity.
  - reflexivity.
  - exact fixed3_wf.
  - by vm_compute.
  - cbn. lia.
Defined.

(** *** Shrinking *)




(** *** Heap fallback *)

Lemma heap_env_ok st :
  mem st !! 65536 = None → node_buf (lst st) = 4096 → max_nodes (lst st) = 2 →
  allocator_ok cfg_fallback heap_env st.
Proof.
  intros Hfresh Hb Hm. split; [| split; [intros; by left | done]].
  right. split; [done |]. split; [exact Hfresh |].
  unfold _zerolist_is_static_node. rewrite Hb, Hm. reflexivity.
Qed.

Lemma fallback0_wf : wf cfg_fallback fallback0 [].
Proof.
  destruct (init_expand_wf cfg_fallback eq_refl 4096 (Some [0; 0]) 2
              (static_buf cfg_fallback 4096 2))
    as (s0 & Hrun & Hwf & _); [lia | by vm_compute | | |].
  - intros i Hi. unfold static_buf. cbn [mem].
    rewrite (mem_malloc_buf_in cfg_fallback eq_refl) by lia. eauto.
  - intros _. exists [0; 0]. split; [reflexivity | cbn; lia].
  - unfold fallback0. by rewrite Hrun.
Qed.

Lemma fallback2_holds : holds fallback2 [4096; 4128].
Proof.
  unfold holds, ring. repeat split; try (vm_compute; reflexivity).
  - repeat constructor; set_solver.
  - set_solver.
Qed.

Lemma fallback2_wf : wf cfg_fallback fallback2 [4096; 4128].
Proof.
  set (s1 := state_of fallback0 (zerolist_push_back cfg_fallback heap_env 8 11 fallback0)).
  destruct (push_back_wf cfg_fallback heap_env 8 11 fallback0 s1 [] eq_refl fallback0_wf)
    as (ps1 & Hwf1 & Hlen1); [by apply heap_env_ok | cbn; lia | intros _; by vm_compute
                              | by vm_compute |].
  cbn [length] in Hlen1.
  destruct (push_back_wf cfg_fallback heap_env 8 12 s1 fallback2 ps1 eq_refl Hwf1)
    as (ps2 & Hwf2 & Hlen2); [by apply heap_env_ok | lia | intros _; rewrite Hlen1; by vm_compute
                              | by vm_compute |].
  by rewrite (holds_unique fallback2 _ ps2 fallback2_holds (proj1 Hwf2)).
Qed.

Lemma heap_insertion_needs_memory_witness :
  (env_malloc heap_env ≠ 0 →
   (∃ st', zerolist_push_back cfg_fallback heap_env 8 13 fallback2 = Ok (st', true)
           ∧ ZEROLIST_FOR_EACH 9 st' = Ok (payloads (mem fallback2) [4096; 4128] ++ [13])
           ∧ ∃ ps', wf cfg_fallback st' ps' ∧ length ps' = S (length [4096; 4128]))
   ∧ (∃ st', zerolist_push_front cfg_fallback heap_env 8 13 fallback2 = Ok (st', true)
             ∧ ZEROLIST_FOR_EACH 9 st' = Ok (13 :: payloads (mem fallback2) [4096; 4128])
             ∧ ∃ ps', wf cfg_fallback st' ps' ∧ length ps' = S (length [4096; 4128])))
  ∧ (ZEROLIST_USE_MALLOC cfg_fallback = true → env_malloc heap_env = 0 →
     zerolist_push_back cfg_fallback heap_env 8 13 fallback2 = Ok (fallback2, false)
     ∧ zerolist_push_front cfg_fallback heap_env 8 13 fallback2 = Ok (fallback2, false)).
Proof.
  apply (heap_insertion_needs_memory cfg_fallback heap_env 8 13 fallback2 [4096; 4128]).
  - reflexivity.
  - by right.
  - exact fallback2_wf.
  - by apply heap_env_ok.
  - cbn. lia.
  - by vm_compute.
Defined.

